(* ===== verification/_CoqProject ===== *)
-Q . S2P
Prelude.v
Decimal.v
KList.v
KListModel.v
ProcEntry.v
KThread.v
ElevatorData.v
ElevatorOps.v
ElevatorSpec.v
ElevatorRefine.v
RunElevator.v
Liveness.v
Attempts.v
Stats.v
Syscalls.v
Fairness.v
SyscallAbi.v
SyscallHeader.v
Prototypes.v
ProcFs.v
Lifecycle.v
Concurrency.v
LockInvariant.v
Interleavings.v
Executions.v
Rides.v
Schedule.v
ConcurrentLife.v
UnloadRace.v
UserProgs.v
Sessions.v
SyscallTable.v
Programs.v
Xtime.v
Animals.v
Examples.v
ThreadModules.v
ThreadLife.v
TestCallUser.v
Scenario.v
Witness.v
WitnessSchedule.v
WitnessModules.v
