(* ===== verification/Prelude.v ===== *)
(** * Verification of the elevator kernel module

    The repository holds a Linux kernel module that simulates an elevator
    (src/part3/elevator), the system calls that drive it
    (src/part3/SystemCalls), a kernel clock module (src/part2), the user
    programs and the course's example modules.  This development is a shallow
    embedding of that code: every C function is a Rocq function of the same
    name, and the theorems are about those functions.

    ** The program

    Passengers are heap objects linked into kernel lists: one queue per floor
    ([b.f[i].waiting]) and, on board, one list per destination ([e.p[i]]).
    Three system calls add passengers and start and stop the elevator; a kernel
    thread ([runElevator]) loads, unloads and moves in two critical sections
    per iteration; /proc/elevator prints a report.  One mutex protects
    everything.  The system calls reach the module through function pointers
    that loading sets and unloading clears.

    ** Files

    - Prelude: machine integers ([wrap32]: C's [int] wraps, as the kernel is
      built), the fault monad [M] with its total-correctness predicate [wp],
      sums over lists.  A [fault] is an operation C or the kernel gives no
      meaning to; [wp m Q w] says that [m] finishes without one.
    - Decimal: [sprintf] into a bounded buffer, decimal numbers.
    - KList: the interface [ListApi]/[ListLaws] of linux/list.h (not part of the
      repository), the two iteration macros with their proof rules, families of
      disjoint lists.  KListModel: a pointer model that discharges the laws.
    - ProcEntry: the [message]/[read_p] scheme all proc entries share.  KThread:
      states of a mutex, results of kthread_run.
    - ElevatorData (elevator.h lines 9-71): records, constants, the memory
      [world] (list links, passenger heap, the static variables [e] and [b]) and
      the accesses to it; array indices and passenger pointers are checked.
    - ElevatorOps (elevator.h): one definition per function.
    - ElevatorSpec: the abstract state [astate] (queues, passengers on board,
      counters of serviced passengers, position) and the relation [rep L w a]
      between memory and abstract state; [L] are objects on no list.
    - ElevatorRefine: every operation refines its abstract counterpart.
    - RunElevator (elevator.c lines 35-146): the thread, the abstract thread,
      the invariant [wf], refinement, loading and unloading.
    - Liveness: every passenger is delivered; what a stop request does; who
      starves.  Attempts: the same thread, on its own, when its lock calls are
      interrupted, its termination, and its way through the building as a closed
      formula.
    - Stats (elevator.h lines 304-352): the report.
    - Syscalls (elevator.c lines 149-249, part3/SystemCalls): the system calls
      and their stubs, and calm executions as sequences of events.  SyscallAbi
      (part3/SystemCalls/syscalls.h, the SYSCALL_DEFINE macros): from registers
      to the arguments of the calls.  Fairness: an execution in which somebody
      waits for ever.  SyscallHeader: the tracing data and the inline functions
      of syscalls.h.  Prototypes: its prototypes under their preprocessor
      conditions.  SyscallTable (syscall_64.tbl): the table, and its agreement
      with the header, the wrappers and the user programs.
    - ProcFs (elevator.c lines 251-296): /proc/elevator.
    - Lifecycle (elevator.c lines 28-33 and 298-369): loading and unloading.
    - Concurrency: the step relation of the thread, the callers and readers
      around the mutex, in surroundings that are a parameter ([env]).
      LockInvariant: what holds of every state up to the first unlock call of an
      interrupted task.  Interleavings: the theorems.  Executions: the books, the
      queues and the types after any interleaving.  Rides: the turns of the thread in
      a sequence of operations, and how far a passenger still has to go.
      Schedule: the thread's turns in an interleaving, and what they achieve.
      ConcurrentLife: load, any interleaving, unload.  UnloadRace: callers on
      their way into and out of the module while it is being unloaded.
    - UserProgs (part3/elevator/test): the user programs as trees of system
      calls.  Sessions: programs on top of the concurrent system, each call a
      task of it.  Programs (part1 and
      01_hello_world_module), Xtime (part2/my_xtime.c), Animals
      (04_lists/random_animals.c), Examples (02, 03 and 05), ThreadModules (the code of
      the thread and of the entry of 06 and 07), ThreadLife (loading and unloading
      of 05, 06, 07, and 06 and 07 with thread and visitors interleaved), TestCallUser (the user programs of 03, and the module and the
      wrapped system call they are run with).
    - Scenario, Witness, WitnessSchedule, WitnessModules: executions of the code
      from zeroed memory, and the theorems applied to the states they reach.

    ** Groups of theorems

    - Refinement: [addPass], [delPass], [movePass], the loops and both critical
      sections implement the abstract operations; a whole execution of events
      returns what the abstract machine returns (Syscalls), and every
      interleaving is equivalent to the abstract operations in lock order
      (Interleavings).
    - Invariants of every interleaving: passengers are conserved, queues keep their order, variables stay in their types and
      the counters agree (Executions).
    - Safety: no fault, no leak, loads within MAX_W and MAX_P, positions inside
      the building, mutual exclusion, the consistent view of a reader.
    - Termination and liveness: the thread ends exactly when it is told to; an
      elevator in service with no stop pending, with [m] units of work (two per
      waiting passenger, one per passenger on board) and nobody who waits on the
      lowest floor for the lowest floor, is empty and idle after
      [drain_bound m = 1 + 19 * m] iterations.  In any interleaving with callers
      and readers the same number of turns serves everybody (Schedule), and a ride
      between different floors takes as many moves as they are apart.  The elevator is not fair between
      floors (Fairness).
    - Lives: from load to unload, with everything that can happen in between,
      the elevator leaks nothing that is not in flight (ConcurrentLife), an
      unload is safe for callers that come and go if it clears the pointers at
      the right moment (UnloadRace), and the
      example modules give every reader what they promise and leak exactly what
      the theorems say (Animals, ThreadLife, Xtime).
    - The whole way of a call: user programs with any arguments, running at the
      same time, reach the module through registers, wrappers and stubs, and
      print the answers of the abstract elevator (Sessions); the numbers, the
      table, the prototypes and the definitions agree (SyscallTable).
    - Equivalence and round trips: the position logic is a sweep through the
      building; the report can be read back; wrappers give their bodies values
      of the declared types; a number given to the example's user program
      returns from the kernel.
    - Failures: what happens when kmalloc fails, a lock call is interrupted, a
      load fails, two readers share the entry, a request races with a stop,
      callers race with an unload; and the states in which the elevator does not
      do what was asked of it.

    ** Bounds and fuel

    The list macros run with as much fuel as there are passenger objects
    ([heap_fuel]); the entries of a list are distinct live objects, so this is
    enough (lemma [row_fuel]).  [runElevator] takes fuel for its iterations;
    its theorems ask for at least as much as the number of iterations before
    kthread_should_stop answers yes.  The lock loop of [elevator_open] needs one
    unit per interrupted call.  Running out of fuel is [NoFuel], which [wp]
    excludes.

    ** Conventions and limits

    Results of the kernel (kmalloc, mutex_lock_interruptible,
    kthread_should_stop, proc_create, kthread_run, the clock, random numbers)
    are arguments of the definitions that use them; allocation returns an
    address that is not live.  [printk], [ssleep] and module parameters have no
    effect on the state.

    The code calls [mutex_unlock] whether or not its lock call succeeded.  For a
    mutex the caller does not own the kernel gives that no meaning.  Where a
    function runs on its own (RunElevator, Attempts, Syscalls, ProcFs) nobody
    else holds the mutex, and the forbidden calls are counted ([bad_unlocks]).  In
    Concurrency such a call is a fault, and the theorems about interleavings say
    what holds up to it.  They are about [orderly] surroundings: kmalloc returns
    memory, and at most one task has /proc/elevator open; the code enforces
    neither, and the theorems under Failures say what happens otherwise.

    [issue_request] and the thread are atomic between their lock calls in
    Syscalls; Interleavings justifies that as long as nobody is interrupted.  The
    sections are atomic in Concurrency: [e] and [b] are used outside them only by
    [issue_request]'s test of the stop flag, which is a step of its own.  In
    ThreadLife, where the thread of 06 has no lock, every access to a counter is
    a step.

    Not modelled: what other headers of the kernel contain (the typedefs behind
    the prototypes of syscalls.h, the functions its inline functions call, and
    the wrapper macros of architectures that have their own are parameters or
    left out), the parameter names of the prototypes, memory ordering inside a
    critical section, Makefiles. *)

From stdpp Require Export prelude gmap list strings.

#[global] Open Scope Z_scope.
#[global] Set Default Proof Using "Type".

(** ** Machine integers

    The C type [int] is 32 bits wide.  The kernel is built with wrapping
    signed arithmetic, so every [+], [-] and [++] on an [int] field is the
    mathematical operation followed by [wrap32]. *)

Declare Scope c_scope.
Delimit Scope c_scope with C.

Definition INT_MIN : Z := - 2147483648.
Definition INT_MAX : Z := 2147483647.

Definition wrap32 (z : Z) : Z := (z + 2147483648) mod 4294967296 - 2147483648.

Definition is_int (z : Z) : Prop := INT_MIN ≤ z ≤ INT_MAX.

Notation "a +i b" := (wrap32 (a + b)) (at level 50, left associativity) : c_scope.
Notation "a -i b" := (wrap32 (a - b)) (at level 50, left associativity) : c_scope.
#[global] Open Scope c_scope.

(** [lia] with the defining equations of [/] and [mod] added. *)
Ltac dlia := Z.to_euclidean_division_equations; lia.

Section Wrap.
Lemma wrap32_range z : is_int (wrap32 z).
Proof. unfold is_int, wrap32, INT_MIN, INT_MAX. dlia. Qed.

Lemma wrap32_id z : is_int z → wrap32 z = z.
Proof. unfold is_int, wrap32, INT_MIN, INT_MAX. dlia. Qed.

Lemma wrap32_add_l a b : wrap32 (wrap32 a + b) = wrap32 (a + b).
Proof. unfold wrap32. dlia. Qed.

Lemma wrap32_sub_l a b : wrap32 (wrap32 a - b) = wrap32 (a - b).
Proof. unfold wrap32. dlia. Qed.

Lemma wrap32_idemp a : wrap32 (wrap32 a) = wrap32 a.
Proof. apply wrap32_id, wrap32_range. Qed.

Lemma wrap32_small z : 0 ≤ z ≤ 2147483647 → wrap32 z = z.
Proof. unfold wrap32. dlia. Qed.
End Wrap.

(** ** Kernel conventions *)

(** Error numbers; a call returns them negated. *)
Definition EINTR : Z := 4.
Definition ENOMEM : Z := 12.
Definition ENOSYS : Z := 38.

(** Addresses of heap objects. *)
Notation loc := positive (only parsing).

(** ** Results of running kernel code

    A piece of kernel code either finishes with a value and a new state, or
    performs an operation C or the kernel gives no meaning to (a [fault]), or
    the fuel given to one of its loops runs out.  Running out of fuel is
    never counted as success: the theorems state that code finishes. *)

Inductive fault : Type :=
| NullDeref       (* a NULL pointer is dereferenced *)
| UseAfterFree    (* an object that was freed, or never allocated, is read *)
| DoubleFree      (* kfree of an object that is not live *)
| OutOfBounds     (* an array is indexed out of its bounds *)
| BufferOverflow  (* a string is written beyond the end of its buffer *)
| BadUnlock       (* a mutex is released by a task that does not own it *)
| Uninitialised.  (* an object is used before it was initialised *)

#[export] Instance fault_eq_dec : EqDecision fault.
Proof. solve_decision. Defined.

Inductive result (A : Type) : Type :=
| Done (a : A)
| Fault (f : fault)
| NoFuel.
Arguments Done {A} a.
Arguments Fault {A} f.
Arguments NoFuel {A}.

(** State-and-fault monad over a state [W]. *)
Definition M (W A : Type) : Type := W → result (A * W).

#[export] Instance M_ret {W} : MRet (M W) := λ A a w, Done (a, w).
#[export] Instance M_bind {W} : MBind (M W) := λ A B k m w,
  match m w with
  | Done (a, w') => k a w'
  | Fault f => Fault f
  | NoFuel => NoFuel
  end.

Notation "m ;; k" := (m ≫= λ _, k)
  (at level 100, k at level 200, right associativity) : stdpp_scope.

Definition crash {W A} (f : fault) : M W A := λ _, Fault f.
Definition starve {W A} : M W A := λ _, NoFuel.
Definition gets {W A} (f : W → A) : M W A := λ w, Done (f w, w).
Definition modify {W} (f : W → W) : M W unit := λ w, Done (tt, f w).

(** [if (c) s;] without an [else]. *)
Definition when {W} (c : bool) (m : M W unit) : M W unit :=
  if c then m else mret tt.

(** [for (i = 0; i < n; i++) body(i)] *)
Definition for_range {W} (n : nat) (body : nat → M W unit) : M W unit :=
  foldr (λ i k, body i ;; k) (mret tt) (seq 0 n).

(** ** Total correctness

    [wp m Q w]: running [m] from [w] finishes, without a fault and within its
    fuel, and [Q] holds of its value and final state. *)

Definition wp {W A} (m : M W A) (Q : A → W → Prop) (w : W) : Prop :=
  match m w with
  | Done (a, w') => Q a w'
  | _ => False
  end.

Section Wp.
Context {W : Type}.
Implicit Types w : W.

Lemma wp_ret {A} (a : A) Q w : Q a w → wp (mret a) Q w.
Proof. done. Qed.

Lemma wp_bind {A B} (m : M W A) (k : A → M W B) Q w :
  wp m (λ a, wp (k a) Q) w → wp (m ≫= k) Q w.
Proof.
  unfold wp, mbind, M_bind. by destruct (m w) as [[a w']| |].
Qed.

Lemma wp_gets {A} (f : W → A) Q w : Q (f w) w → wp (gets f) Q w.
Proof. done. Qed.

Lemma wp_modify (f : W → W) Q w : Q tt (f w) → wp (modify f) Q w.
Proof. done. Qed.

Lemma wp_mono {A} (m : M W A) (Q Q' : A → W → Prop) w :
  wp m Q w → (∀ a w', Q a w' → Q' a w') → wp m Q' w.
Proof. unfold wp. destruct (m w) as [[a w']| |]; eauto. Qed.

Lemma wp_done {A} (m : M W A) Q w :
  wp m Q w ↔ ∃ a w', m w = Done (a, w') ∧ Q a w'.
Proof.
  unfold wp. split.
  - destruct (m w) as [[a w']| |]; naive_solver.
  - by intros (a & w' & -> & HQ).
Qed.

Lemma wp_run {A} (m : M W A) Q w a w' :
  m w = Done (a, w') → Q a w' → wp m Q w.
Proof. intros H HQ. unfold wp. by rewrite H. Qed.
(** Proof rule of [for_range]: [I k w] holds before iteration [k]. *)
Lemma wp_for_range n (body : nat → M W unit) (I : nat → W → Prop) w :
  (∀ k w, (k < n)%nat → I k w → wp (body k) (λ _ w', I (S k) w') w) →
  I 0%nat w → wp (for_range n body) (λ _, I n) w.
Proof.
  intros Hb. unfold for_range.
  enough (H : ∀ m k w, (k + m = n)%nat → I k w →
    wp (foldr (λ i k, body i ;; k) (mret tt) (seq k m)) (λ _, I n) w) by (apply H; lia).
  clear w. induction m as [|m IH]; intros k w Hk HI; cbn.
  - apply wp_ret. by replace n with k by lia.
  - apply wp_bind. eapply wp_mono; [apply Hb; [lia|done]|].
    intros ? w' HI'. apply IH; [lia|done].
Qed.

End Wp.

(** The database of the wp rules, and the tactic that walks through straight
    line code. *)
Create HintDb wp.
#[export] Hint Resolve wp_ret wp_gets wp_modify : wp.

Ltac wp_step :=
  lazymatch goal with
  | |- wp (mret _) _ _ => apply wp_ret
  | |- wp (gets _) _ _ => apply wp_gets
  | |- wp (modify _) _ _ => apply wp_modify
  | |- wp (_ ≫= _) _ _ => apply wp_bind
  end.
Ltac wp_steps := repeat (wp_step; cbv beta).

(** ** Frames

    [keeps f m]: whatever [m] does, the component [f] of the state is after it
    what it was before. *)

Definition keeps {W A B} (f : W → B) (m : M W A) : Prop :=
  ∀ w a w', m w = Done (a, w') → f w' = f w.

Section Keeps.
Context {W B : Type} (f : W → B).

Lemma keeps_ret {A} (a : A) : keeps f (mret a).
Proof. by intros w ? w' [= _ <-]. Qed.
Lemma keeps_gets {A} (g : W → A) : keeps f (gets g).
Proof. by intros w ? w' [= _ <-]. Qed.
Lemma keeps_crash {A} e : keeps f (crash (A := A) e).
Proof. done. Qed.
Lemma keeps_modify (g : W → W) : (∀ w, f (g w) = f w) → keeps f (modify g).
Proof. by intros H w ? w' [= _ <-]. Qed.
Lemma keeps_bind {A C} (m : M W A) (k : A → M W C) :
  keeps f m → (∀ a, keeps f (k a)) → keeps f (m ≫= k).
Proof.
  intros Hm Hk w c w'. unfold mbind, M_bind.
  destruct (m w) as [[a w1]| |] eqn:E; try done. intros Hc.
  by rewrite (Hk a w1 c w' Hc), (Hm w a w1 E).
Qed.
Lemma keeps_when (c : bool) (m : M W unit) : keeps f m → keeps f (when c m).
Proof. destruct c; [done|]. intros _. apply keeps_ret. Qed.
Lemma keeps_for_range n (body : nat → M W unit) :
  (∀ i, keeps f (body i)) → keeps f (for_range n body).
Proof.
  intros Hb. unfold for_range. induction (seq 0 n) as [|i l IH]; cbn; [apply keeps_ret|].
  by apply keeps_bind.
Qed.

Lemma wp_keeps {A} (m : M W A) (Q : A → W → Prop) w :
  keeps f m → wp m Q w → wp m (λ a w', Q a w' ∧ f w' = f w) w.
Proof.
  unfold wp. intros Hm. destruct (m w) as [[a w']| |] eqn:E; try done.
  intros HQ. split; [done|]. by eapply Hm.
Qed.
End Keeps.

Create HintDb keeps.
#[export] Hint Resolve keeps_ret keeps_gets keeps_crash keeps_bind keeps_when keeps_for_range : keeps.

(** ** Sums over lists *)

Definition zsum {A} (g : A → Z) (l : list A) : Z :=
  foldr (λ x s, g x + s) 0 l.

#[global] Arguments zsum : simpl never.
#[global] Arguments wrap32 : simpl never.

Section Zsum.
Context {A : Type} (g : A → Z).

Lemma zsum_nil : zsum g [] = 0.
Proof. done. Qed.
Lemma zsum_cons x l : zsum g (x :: l) = g x + zsum g l.
Proof. done. Qed.

Lemma zsum_app l1 l2 : zsum g (l1 ++ l2) = zsum g l1 + zsum g l2.
Proof. induction l1 as [|x l1 IH]; [done|]. cbn [app]. rewrite !zsum_cons. lia. Qed.

Lemma zsum_middle l1 x l2 : zsum g (l1 ++ x :: l2) = g x + zsum g (l1 ++ l2).
Proof. rewrite !zsum_app, zsum_cons. lia. Qed.

Lemma zsum_snoc l x : zsum g (l ++ [x]) = zsum g l + g x.
Proof. rewrite zsum_app, zsum_cons, zsum_nil. lia. Qed.

Lemma zsum_nonneg l : (∀ x, x ∈ l → 0 ≤ g x) → 0 ≤ zsum g l.
Proof.
  induction l as [|x l IH]; intros H; [done|]. rewrite zsum_cons.
  assert (0 ≤ g x) by (apply H; left). assert (0 ≤ zsum g l); [|lia].
  apply IH. intros y Hy. apply H. by right.
Qed.

(** Replacing one row of a table changes the sum over all rows by the
    difference of the two rows. *)
Lemma zsum_concat_insert (ls : list (list A)) i xs ys :
  ls !! i = Some xs →
  zsum g (concat (<[i:=ys]> ls)) = zsum g (concat ls) - zsum g xs + zsum g ys.
Proof.
  revert i. induction ls as [|l ls IH]; intros [|i] H; try done;
    cbn [lookup list_lookup] in H.
  - simplify_eq. cbn [concat insert list_insert]. rewrite !zsum_app. lia.
  - change (concat (<[S i:=ys]> (l :: ls))) with (l ++ concat (<[i:=ys]> ls)).
    cbn [concat]. rewrite !zsum_app, (IH i) by done. lia.
Qed.

Lemma zsum_concat_lookup_le (ls : list (list A)) i xs :
  (∀ x, 0 ≤ g x) → ls !! i = Some xs → zsum g xs ≤ zsum g (concat ls).
Proof.
  intros Hg. revert i. induction ls as [|l ls IH]; intros [|i] H; try done;
    cbn [lookup list_lookup concat] in *.
  - simplify_eq. rewrite zsum_app. pose proof (zsum_nonneg (concat ls) ltac:(auto)). lia.
  - rewrite zsum_app. pose proof (IH i H). pose proof (zsum_nonneg l ltac:(auto)). lia.
Qed.
End Zsum.

Create HintDb zsum.
#[export] Hint Rewrite @zsum_nil @zsum_cons @zsum_app : zsum.

(** The number of elements of a table. *)
Lemma zsum_one {A} (l : list A) : zsum (λ _, 1) l = Z.of_nat (length l).
Proof. induction l as [|x l IH]; [done|]. cbn [length]. rewrite zsum_cons. lia. Qed.
