(* ===== verification/Decimal.v ===== *)
(** * Formatted output

    The sources print with [sprintf] and the conversions [%d], [%s] and
    [%lu].  [sprintf_at] models one call that writes at a given offset of a
    buffer of known capacity; the decimal representation of integers is
    stdpp's [pretty], with the two facts needed about it: how long it is, and
    that a following character that is not a digit ends it. *)

From Stdlib Require Import Ascii.
From stdpp Require Export pretty.
From S2P Require Import Prelude.

Definition nl : string := String (Ascii.ascii_of_nat 10) EmptyString.

(** ** sprintf(buf + off, ...)

    The state is the text at [buf] (without its terminating NUL).  The call
    writes [s] and a NUL from offset [off] on, and returns the length of [s].
    Writing past the capacity is a fault. *)
Definition sprintf_at (cap : nat) (off : Z) (s : string) : M string Z := λ t,
  if bool_decide (0 ≤ off ∧ off + Z.of_nat (String.length s) < Z.of_nat cap)
  then Done (Z.of_nat (String.length s),
             String.substring 0 (Z.to_nat off) t +:+ s)
  else Fault BufferOverflow.

Section Strings.
Implicit Types s t : string.

Lemma str_app_nil_r s : s +:+ "" = s.
Proof.
  induction s as [|c s IH]; [done|].
  change (String c s +:+ "") with (String c (s +:+ "")). by rewrite IH.
Qed.

Lemma str_app_assoc s t u : (s +:+ t) +:+ u = s +:+ (t +:+ u).
Proof.
  induction s as [|c s IH]; [done|].
  change ((String c s +:+ t) +:+ u) with (String c ((s +:+ t) +:+ u)). by rewrite IH.
Qed.

Lemma str_length_app s t : String.length (s +:+ t) = (String.length s + String.length t)%nat.
Proof.
  induction s as [|c s IH]; [done|].
  change (String c s +:+ t) with (String c (s +:+ t)). cbn [String.length]. by rewrite IH.
Qed.

Lemma substring_all t : String.substring 0 (String.length t) t = t.
Proof. induction t as [|c t IH]; [done|]. cbn. by rewrite IH. Qed.

(** Writing at the end of the text appends. *)
Lemma wp_sprintf_end cap s t (Q : Z → string → Prop) :
  (String.length t + String.length s < cap)%nat →
  Q (Z.of_nat (String.length s)) (t +:+ s) →
  wp (sprintf_at cap (Z.of_nat (String.length t)) s) Q t.
Proof.
  intros Hlen HQ. unfold wp, sprintf_at. rewrite bool_decide_eq_true_2 by lia.
  by rewrite Nat2Z.id, substring_all.
Qed.

(** Writing at the start replaces it. *)
Lemma wp_sprintf_start cap s t (Q : Z → string → Prop) :
  (String.length s < cap)%nat → Q (Z.of_nat (String.length s)) s → wp (sprintf_at cap 0 s) Q t.
Proof.
  intros Hlen HQ. unfold wp, sprintf_at. rewrite bool_decide_eq_true_2 by lia.
  by destruct t.
Qed.
End Strings.

(** ** Decimal numbers *)

Section Digits.
Lemma pretty_N_go_length k x s :
  (x < 10 ^ N.of_nat k)%N → (String.length (pretty_N_go x s) ≤ k + String.length s)%nat.
Proof.
  revert x s. induction k as [|k IH]; intros x s Hx.
  - assert (x = 0%N) as -> by (change (10 ^ N.of_nat 0)%N with 1%N in Hx; lia).
    rewrite pretty_N_go_0. lia.
  - destruct (decide (x = 0%N)) as [->|Hne]; [rewrite pretty_N_go_0; lia|].
    rewrite pretty_N_go_step by lia. etrans; [apply IH|cbn; lia].
    apply N.Div0.div_lt_upper_bound. rewrite Nat2N.inj_succ, N.pow_succ_r' in Hx. lia.
Qed.

Lemma pretty_N_length k x :
  (x < 10 ^ N.of_nat (S k))%N → (String.length (pretty x) ≤ S k)%nat.
Proof.
  intros Hx. unfold pretty, pretty_N. case_decide; [cbn; lia|].
  etrans; [by apply pretty_N_go_length|]. cbn. lia.
Qed.

(** A 32-bit integer takes at most 11 characters. *)
Lemma pretty_int_length z : is_int z → (String.length (pretty z) ≤ 11)%nat.
Proof.
  unfold is_int, INT_MIN, INT_MAX. intros Hz. unfold pretty, pretty_Z.
  destruct z as [|p|p]; [cbn; lia|..]; unfold pretty, pretty_positive.
  - etrans; [apply (pretty_N_length 9)|lia]. change (10 ^ N.of_nat 10)%N with 10000000000%N. lia.
  - rewrite str_length_app. change (String.length "-") with 1%nat.
    assert (String.length (pretty (N.pos p)) ≤ 10)%nat; [|lia].
    apply (pretty_N_length 9). change (10 ^ N.of_nat 10)%N with 10000000000%N. lia.
Qed.

Definition is_digit (c : Ascii.ascii) : bool :=
  bool_decide (c ∈ ["0"; "1"; "2"; "3"; "4"; "5"; "6"; "7"; "8"; "9"; "-"]%char).

(** All characters of [s] satisfy [P]. *)
Fixpoint str_all (P : Ascii.ascii → bool) (s : string) : bool :=
  match s with EmptyString => true | String c s => P c && str_all P s end.

Lemma str_all_app P s t : str_all P (s +:+ t) = str_all P s && str_all P t.
Proof.
  induction s as [|c s IH]; [done|]. change (String c s +:+ t) with (String c (s +:+ t)).
  cbn. by rewrite IH, andb_assoc.
Qed.

Lemma pretty_N_char_digit x : is_digit (pretty_N_char x) = true.
Proof. destruct x as [|[[[[|p|]|[|p|]|]|[[|p|]|[|p|]|]|]|[[[|p|]|[|p|]|]|[[|p|]|[|p|]|]|]|]]; done. Qed.

Lemma pretty_N_go_digits x s : str_all is_digit s = true → str_all is_digit (pretty_N_go x s) = true.
Proof.
  revert s. induction (N.lt_wf_0 x) as [x _ IH]; intros s Hs.
  destruct (decide (x = 0%N)) as [->|Hne]; [by rewrite pretty_N_go_0|].
  rewrite pretty_N_go_step by lia. apply IH; [apply N.div_lt; lia|].
  cbn [str_all]. by rewrite pretty_N_char_digit, Hs.
Qed.

Lemma pretty_N_digits (x : N) : str_all is_digit (pretty x) = true.
Proof. unfold pretty, pretty_N. case_decide; [done|]. by apply pretty_N_go_digits. Qed.

Lemma pretty_Z_digits (z : Z) : str_all is_digit (pretty z) = true.
Proof.
  unfold pretty, pretty_Z. destruct z as [|p|p]; [done|apply pretty_N_digits|].
  rewrite str_all_app. apply andb_true_iff. split; [done|]. apply pretty_N_digits.
Qed.

(** A character outside [P] ends the longest prefix inside [P]. *)
Lemma str_split_unique P s1 s2 c t1 d t2 :
  str_all P s1 = true → str_all P s2 = true → P c = false → P d = false →
  s1 +:+ String c t1 = s2 +:+ String d t2 → s1 = s2 ∧ String c t1 = String d t2.
Proof.
  revert s2. induction s1 as [|x s1 IH]; intros [|y s2] H1 H2 Hc Hd E; cbn in *.
  - done.
  - injection E as -> _. apply andb_true_iff in H2 as [H2 _]. congruence.
  - injection E as -> _. apply andb_true_iff in H1 as [H1 _]. congruence.
  - injection E as -> E. apply andb_true_iff in H1 as [_ H1]. apply andb_true_iff in H2 as [_ H2].
    destruct (IH s2 H1 H2 Hc Hd E) as [-> ->]. done.
Qed.

(** So a printed number can be read back from its context. *)
Lemma pretty_Z_split (a b : Z) c t1 d t2 :
  is_digit c = false → is_digit d = false →
  pretty a +:+ String c t1 = pretty b +:+ String d t2 → a = b ∧ String c t1 = String d t2.
Proof.
  intros Hc Hd E. destruct (str_split_unique is_digit _ _ _ _ _ _
    (pretty_Z_digits a) (pretty_Z_digits b) Hc Hd E) as [Hp ?].
  split; [by apply (inj pretty)|done].
Qed.

Lemma str_app_cancel s t1 t2 : s +:+ t1 = s +:+ t2 → t1 = t2.
Proof.
  induction s as [|c s IH]; [done|].
  change (String c s +:+ t1) with (String c (s +:+ t1)).
  change (String c s +:+ t2) with (String c (s +:+ t2)). intros [= E]. auto.
Qed.
End Digits.
