(* ===== verification/KList.v ===== *)
(** * Kernel linked lists (linux/list.h)

    The modules keep their passengers, animals, ... in the circular doubly
    linked lists of linux/list.h.  That header is not part of the repository,
    so its operations are the fields of a class [ListApi] and what it documents
    about them is a second class [ListLaws]: every component is verified
    against this interface only.  The file KListModel.v instantiates it.

    The file also holds the two iteration macros the sources expand in place
    ([list_for_each_safe] and [list_for_each]), as loops over the links, with
    the proof rule of the first one, and the invariant of a family of disjoint
    lists ([Rings]) with one lemma per operation. *)

From S2P Require Import Prelude.

(** ** The interface

    [node] is the type of addresses of [struct list_head] objects: list heads
    and the [node] fields embedded in list elements; [lmem] is the memory that
    holds all the [next] and [prev] fields. *)

Class ListApi (node : Type) := {
  lmem : Type;
  list_next : node → lmem → node;              (* n->next *)
  INIT_LIST_HEAD : node → lmem → lmem;         (* INIT_LIST_HEAD(n) *)
  list_add_tail : node → node → lmem → lmem;   (* list_add_tail(new, head) *)
  list_del : node → lmem → lmem;               (* list_del(entry) *)
  list_move_tail : node → node → lmem → lmem;  (* list_move_tail(entry, head) *)
  list_empty : node → lmem → bool;             (* list_empty(head) *)
}.
Arguments lmem : clear implicits.
Arguments lmem node {_}.

(** What linux/list.h documents.  [ring m h xs]: in memory [m] the list whose
    head is [h] has exactly the entries [xs], first to last. *)
Class ListLaws {node : Type} (LA : ListApi node) := {
  ring : lmem node → node → list node → Prop;
  ring_nodup m h xs : ring m h xs → NoDup (h :: xs);
  ring_first m h xs : ring m h xs → list_next h m = default h (head xs);
  ring_next m h l1 x l2 :
    ring m h (l1 ++ x :: l2) → list_next x m = default h (head l2);
  ring_empty m h xs : ring m h xs → (list_empty h m = true ↔ xs = []);
  (* initialising a head makes its list empty *)
  ring_init m h : ring (INIT_LIST_HEAD h m) h [];
  ring_init_frame m n h xs :
    ring m h xs → n ∉ h :: xs → ring (INIT_LIST_HEAD n m) h xs;
  (* insertion before the head, that is at the tail *)
  ring_add m h xs n :
    ring m h xs → n ∉ h :: xs → ring (list_add_tail n h m) h (xs ++ [n]);
  ring_add_frame m h xs n h' ys :
    ring m h xs → ring m h' ys → n ∉ h' :: ys →
    (∀ x, x ∈ h :: xs → x ∉ h' :: ys) → ring (list_add_tail n h m) h' ys;
  (* removal *)
  ring_del m h l1 n l2 :
    ring m h (l1 ++ n :: l2) → ring (list_del n m) h (l1 ++ l2);
  ring_del_frame m h l1 n l2 h' ys :
    ring m h (l1 ++ n :: l2) → ring m h' ys →
    (∀ x, x ∈ h :: l1 ++ n :: l2 → x ∉ h' :: ys) → ring (list_del n m) h' ys;
  (* removal from one list and insertion at the tail of another *)
  ring_move_src m h l1 n l2 h' ys :
    ring m h (l1 ++ n :: l2) → ring m h' ys →
    (∀ x, x ∈ h :: l1 ++ n :: l2 → x ∉ h' :: ys) →
    ring (list_move_tail n h' m) h (l1 ++ l2);
  ring_move_dst m h l1 n l2 h' ys :
    ring m h (l1 ++ n :: l2) → ring m h' ys →
    (∀ x, x ∈ h :: l1 ++ n :: l2 → x ∉ h' :: ys) →
    ring (list_move_tail n h' m) h' (ys ++ [n]);
  ring_move_frame m h l1 n l2 h' ys h'' zs :
    ring m h (l1 ++ n :: l2) → ring m h' ys → ring m h'' zs →
    (∀ x, x ∈ h :: l1 ++ n :: l2 → x ∉ h' :: ys) →
    (∀ x, x ∈ h :: l1 ++ n :: l2 → x ∉ h'' :: zs) →
    (∀ x, x ∈ h' :: ys → x ∉ h'' :: zs) →
    ring (list_move_tail n h' m) h'' zs;
}.

(** ** Iteration

    [list_for_each_safe(pos, n, head) body] is the C loop

      for (pos = head->next, n = pos->next; pos != head;
           pos = n, n = pos->next) body

    [nxt] reads a [next] field; [body] returns [true] when it executes
    [break].  The loop gets fuel because nothing in the macro bounds it. *)

Section ForEach.
Context {node : Type} `{!EqDecision node} {W : Type}.
Context (nxt : node → M W node) (body : node → M W bool) (head : node).

Fixpoint for_each_safe_loop (fuel : nat) (pos n : node) : M W unit :=
  if decide (pos = head) then mret tt else
  match fuel with
  | O => starve
  | S fuel =>
      brk ← body pos;
      if (brk : bool) then mret tt else
      n' ← nxt n; for_each_safe_loop fuel n n'
  end.

Definition list_for_each_safe (fuel : nat) : M W unit :=
  pos ← nxt head; n ← nxt pos; for_each_safe_loop fuel pos n.

(** [list_for_each(pos, head) body] advances with [pos->next] after the
    body ran, so its body must not unlink [pos]. *)
Fixpoint for_each_loop (fuel : nat) (pos : node) : M W unit :=
  if decide (pos = head) then mret tt else
  match fuel with
  | O => starve
  | S fuel =>
      brk ← body pos;
      if (brk : bool) then mret tt else
      n ← nxt pos; for_each_loop fuel n
  end.

Definition list_for_each (fuel : nat) : M W unit :=
  pos ← nxt head; for_each_loop fuel pos.

(** What neither the body nor following a link changes, the loop keeps. *)
Lemma keeps_list_for_each_safe {B} (f : W → B) fuel :
  (∀ n, keeps f (nxt n)) → (∀ n, keeps f (body n)) → keeps f (list_for_each_safe fuel).
Proof.
  intros Hn Hb. assert (Hloop : ∀ pos n, keeps f (for_each_safe_loop fuel pos n)).
  { induction fuel as [|k IH]; intros pos n; cbn; case_decide; auto with keeps; [done|].
    apply keeps_bind; [done|]. intros []; auto with keeps. }
  unfold list_for_each_safe. auto 10 with keeps.
Qed.

(** Proof rule of [list_for_each_safe].  [I rest w] holds at the loop test
    when the entries [rest] are still to be visited; the body may unlink and
    free the entry it is given.  With at least as much fuel as entries the
    loop finishes. *)
Section Rule.
Context (I : list node → W → Prop) (Q : W → Prop).

Definition step_to (x : node) (rest : list node) (w : W) : Prop :=
  nxt x w = Done (default head (hd_error rest), w).

Hypothesis I_head : ∀ rest w, I rest w → ∃ v, nxt head w = Done (v, w).
Hypothesis I_next : ∀ x rest w, I (x :: rest) w → step_to x rest w.
Hypothesis I_body : ∀ x rest w, I (x :: rest) w →
  wp (body x) (λ brk w', if brk then Q w' else I rest w') w.
Hypothesis I_exit : ∀ w, I [] w → Q w.

Lemma wp_for_each_safe_loop xs fuel w :
  head ∉ xs → (length xs ≤ fuel)%nat → I xs w → ∀ n,
  (∀ x rest, xs = x :: rest → n = default head (hd_error rest)) →
  wp (for_each_safe_loop fuel (default head (hd_error xs)) n) (λ _, Q) w.
Proof using I_head I_next I_body I_exit.
  revert xs w. induction fuel as [|fuel IH]; intros xs w Hh Hlen HI n Hn.
  - destruct xs; [|cbn in Hlen; lia]. cbn. rewrite decide_True by done. by apply I_exit.
  - destruct xs as [|x rest]; cbn.
    { rewrite decide_True by done. by apply I_exit. }
    rewrite decide_False by set_solver.
    apply wp_bind. eapply wp_mono; [by apply I_body|]. intros [] w' HI'; [done|].
    rewrite (Hn x rest eq_refl).
    apply wp_bind. destruct rest as [|y rest'].
    + destruct (I_head _ _ HI') as [v Hv]. eapply wp_run; [exact Hv|].
      apply IH; [set_solver|cbn; lia|done|done].
    + eapply wp_run; [by eapply I_next|].
      cbn in Hlen. eapply (IH (y :: rest')); [set_solver|cbn; lia|done|].
      intros ? ? [= -> ->]. done.
Qed.

Lemma wp_list_for_each_safe xs fuel w :
  head ∉ xs → (length xs ≤ fuel)%nat → I xs w → step_to head xs w →
  wp (list_for_each_safe fuel) (λ _, Q) w.
Proof using I_head I_next I_body I_exit.
  intros Hh Hlen HI Hfirst. unfold list_for_each_safe.
  apply wp_bind. eapply wp_run; [exact Hfirst|].
  apply wp_bind. destruct xs as [|x rest].
  - cbn. eapply wp_run; [exact Hfirst|]. cbn.
    by apply (wp_for_each_safe_loop [] fuel w).
  - cbn. eapply wp_run; [by eapply I_next|].
    apply (wp_for_each_safe_loop (x :: rest)); try done.
    intros ? ? [= -> ->]. done.
Qed.
End Rule.

(** Proof rule of [list_for_each]: the successor is read after the body. *)
Section PlainRule.
Context (I : list node → W → Prop) (Q : W → Prop).

Hypothesis P_body : ∀ x rest w, I (x :: rest) w →
  wp (body x) (λ brk w', if brk then Q w' else step_to x rest w' ∧ I rest w') w.
Hypothesis P_exit : ∀ w, I [] w → Q w.

Lemma wp_for_each_loop xs fuel w :
  head ∉ xs → (length xs ≤ fuel)%nat → I xs w →
  wp (for_each_loop fuel (default head (hd_error xs))) (λ _, Q) w.
Proof using P_body P_exit.
  revert xs w. induction fuel as [|fuel IH]; intros [|x rest] w Hh Hlen HI;
    cbn in Hlen; try lia; cbn.
  1, 2: rewrite decide_True by done; by apply P_exit.
  rewrite decide_False by set_solver.
  apply wp_bind. eapply wp_mono; [by apply P_body|]. intros [] w'; [done|].
  intros [Hn HI']. apply wp_bind. eapply wp_run; [exact Hn|].
  apply IH; [set_solver|lia|done].
Qed.

Lemma wp_list_for_each xs fuel w :
  head ∉ xs → (length xs ≤ fuel)%nat → I xs w → step_to head xs w →
  wp (list_for_each fuel) (λ _, Q) w.
Proof using P_body P_exit.
  intros Hh Hlen HI Hfirst. apply wp_bind. eapply wp_run; [exact Hfirst|].
  by apply wp_for_each_loop.
Qed.
End PlainRule.
End ForEach.

(** ** Families of disjoint lists

    [Rings m H Q]: every head (a node satisfying [H]) has the entries [Q h];
    no head is an entry and no entry is on two lists. *)

Section Rings.
Context {node : Type} `{!EqDecision node} {LA : ListApi node} {LL : ListLaws LA}.
Implicit Types (m : lmem node) (H : node → Prop) (Q : node → list node).

Record Rings m H Q : Prop := {
  rings_ring h : H h → ring m h (Q h);
  rings_head h x : H h → x ∈ Q h → ¬ H x;
  rings_disj h1 h2 x : H h1 → H h2 → x ∈ Q h1 → x ∈ Q h2 → h1 = h2;
}.

Definition unlinked H Q (n : node) : Prop := ¬ H n ∧ ∀ h, H h → n ∉ Q h.

Lemma rings_sep m H Q h1 h2 :
  Rings m H Q → H h1 → H h2 → h1 ≠ h2 →
  ∀ x, x ∈ h1 :: Q h1 → x ∉ h2 :: Q h2.
Proof.
  intros [_ Hh Hd] H1 H2 Hne x. rewrite !elem_of_cons. intros Hx Hx'.
  naive_solver.
Qed.

Lemma rings_ext m H Q Q' :
  Rings m H Q → (∀ h, H h → Q h = Q' h) → Rings m H Q'.
Proof.
  intros [Hr Hh Hd] E. split.
  - intros h Hhd. rewrite <- E by done. auto.
  - intros h x Hhd. rewrite <- E by done. eauto.
  - intros h1 h2 x Hh1 Hh2. rewrite <- !E by done. eauto.
Qed.

Definition fupd Q h xs : node → list node :=
  λ n, if decide (n = h) then xs else Q n.

Lemma rings_init m H Q h :
  Rings m H Q → ¬ H h → (∀ h', H h' → h ∉ Q h') →
  Rings (INIT_LIST_HEAD h m) (λ n, n = h ∨ H n) (fupd Q h []).
Proof.
  intros [Hr Hh Hd] Hn Hq. unfold fupd. split.
  - intros h' [->|Hh']; case_decide; subst; try done; try apply ring_init.
    apply ring_init_frame; [auto|]. rewrite elem_of_cons. naive_solver.
  - intros h' x Hh'. case_decide; [by intros ?%elem_of_nil|]. naive_solver.
  - intros h1 h2 x H1 H2. repeat case_decide; subst; try done;
      try (by intros ?%elem_of_nil); try (by intros _ ?%elem_of_nil).
    naive_solver.
Qed.

Lemma rings_add m H Q h n :
  Rings m H Q → H h → unlinked H Q n →
  Rings (list_add_tail n h m) H (fupd Q h (Q h ++ [n])).
Proof.
  intros R Hh [Hn Hfree]. pose proof R as [Hr Hhd Hd]. unfold fupd. split.
  - intros h' Hh'. case_decide as E; subst.
    + apply ring_add; [auto|]. rewrite elem_of_cons. naive_solver.
    + apply (ring_add_frame _ h (Q h)); [auto|auto| |].
      * rewrite elem_of_cons. naive_solver.
      * eapply rings_sep; eauto.
  - intros h' x Hh' Hx. case_decide; subst; [|by eauto].
    apply elem_of_app in Hx as [?| ->%list_elem_of_singleton]; eauto.
  - assert (Hin : ∀ h0 x, x ∈ (if decide (h0 = h) then Q h ++ [n] else Q h0) →
              x ∈ Q h0 ∨ x = n ∧ h0 = h).
    { intros h0 x. case_decide; subst; [|by auto].
      rewrite elem_of_app, list_elem_of_singleton. naive_solver. }
    intros h1 h2 x H1 H2 [Hx1|[-> ->]]%Hin [Hx2|[Hx2 ->]]%Hin; subst; eauto;
      exfalso; naive_solver.
Qed.

Lemma rings_del m H Q h l1 n l2 :
  Rings m H Q → H h → Q h = l1 ++ n :: l2 →
  Rings (list_del n m) H (fupd Q h (l1 ++ l2)).
Proof.
  intros R Hh E. pose proof R as [Hr Hhd Hd]. unfold fupd.
  assert (Hsub : ∀ x, x ∈ l1 ++ l2 → x ∈ Q h)
    by (intros x; rewrite E, !elem_of_app, elem_of_cons; naive_solver).
  split.
  - intros h' Hh'. pose proof (Hr h Hh) as Hrh. rewrite E in Hrh.
    case_decide; subst; [by apply ring_del|].
    eapply ring_del_frame; [exact Hrh|auto|].
    rewrite <- E. eapply rings_sep; eauto.
  - intros h' x Hh'. case_decide; subst; eauto.
  - intros h1 h2 x H1 H2. repeat case_decide; subst; eauto.
Qed.

Lemma rings_move m H Q h l1 n l2 h' :
  Rings m H Q → H h → H h' → h ≠ h' → Q h = l1 ++ n :: l2 →
  Rings (list_move_tail n h' m) H (fupd (fupd Q h (l1 ++ l2)) h' (Q h' ++ [n])).
Proof.
  intros R Hh Hh' Hne E. pose proof R as [Hr Hhd Hd].
  pose proof (ring_nodup _ _ _ (Hr h Hh)) as Hnd. rewrite E in Hnd.
  assert (Hsub : ∀ x, x ∈ l1 ++ l2 → x ∈ Q h ∧ x ≠ n).
  { intros x. rewrite E. apply NoDup_cons in Hnd as [_ Hnd].
    apply NoDup_app in Hnd as (_ & Hd1 & Hd2). apply NoDup_cons in Hd2 as [Hd2 _].
    rewrite !elem_of_app, elem_of_cons. intros Hx. split; [naive_solver|].
    intros ->. destruct Hx; [eapply Hd1; [done|left]|done]. }
  assert (Hin : n ∈ Q h) by (rewrite E, elem_of_app, elem_of_cons; auto).
  pose proof (Hr h Hh) as Hrh. rewrite E in Hrh.
  pose proof (rings_sep _ _ _ h h' R Hh Hh' Hne) as Hsep. rewrite E in Hsep.
  assert (Hup : ∀ h0 x, H h0 → x ∈ fupd (fupd Q h (l1 ++ l2)) h' (Q h' ++ [n]) h0 →
            x ∈ Q h0 ∧ x ≠ n ∨ x = n ∧ h0 = h').
  { intros h0 x Hh0. unfold fupd. destruct (decide (h0 = h')) as [->|].
    - rewrite elem_of_app, list_elem_of_singleton. destruct (decide (x = n)); naive_solver.
    - destruct (decide (h0 = h)) as [->|]; [naive_solver|].
      intros Hx. left. split; [done|]. intros ->. assert (h0 = h) by eauto. done. }
  split.
  - intros h'' Hh''. unfold fupd. destruct (decide (h'' = h')) as [->|];
      [|destruct (decide (h'' = h)) as [->|]].
    + eapply ring_move_dst; eauto.
    + eapply ring_move_src; eauto.
    + eapply ring_move_frame; [exact Hrh|apply (Hr h' Hh')|auto|done| |].
      * rewrite <- E. by eapply rings_sep.
      * by eapply rings_sep.
  - intros h'' x Hh'' [[Hx _]|[-> ->]]%(Hup _ _ Hh''); eauto.
  - intros h1 h2 x H1 H2 [[Hx1 ?]|[-> ->]]%(Hup _ _ H1) [[Hx2 ?]|[? ->]]%(Hup _ _ H2); subst; try done; eauto.
Qed.
End Rings.

Create HintDb klist.
#[export] Hint Resolve rings_ring : klist.
