(* ===== verification/KListModel.v ===== *)
(** * A pointer model of linux/list.h

    A concrete instance of the interface of KList.v: the links of all nodes
    are two finite maps, and the operations redirect [next] and [prev] fields
    the way a circular doubly linked list does.  It discharges the laws, so
    the hypotheses of the other files can hold, and it makes their definitions
    evaluate on concrete inputs.  It is an instance for witnesses, not a
    translation of a file of the repository. *)

From S2P Require Import Prelude KList.

Section Model.
Context {node : Type} `{Countable node}.

Record links := Links { nxt : gmap node node; prv : gmap node node }.

(* a node whose links were never set points to itself *)
Definition nx (m : links) (n : node) : node := default n (nxt m !! n).
Definition pv (m : links) (n : node) : node := default n (prv m !! n).

Definition set_nx (n v : node) (m : links) : links :=
  Links (<[n:=v]> (nxt m)) (prv m).
Definition set_pv (n v : node) (m : links) : links :=
  Links (nxt m) (<[n:=v]> (prv m)).

Definition add_between (n p q : node) (m : links) : links :=
  set_nx p n (set_pv n p (set_nx n q (set_pv q n m))).
Definition add_tail (n h : node) (m : links) : links := add_between n (pv m h) h m.
Definition del (n : node) (m : links) : links :=
  set_nx (pv m n) (nx m n) (set_pv (nx m n) (pv m n) m).
Definition init_head (h : node) (m : links) : links := set_nx h h (set_pv h h m).

#[export] Instance list_model : ListApi node := {
  lmem := links;
  list_next n m := nx m n;
  INIT_LIST_HEAD := init_head;
  list_add_tail := add_tail;
  list_del := del;
  list_move_tail n h m := add_tail n h (del n m);
  list_empty h m := bool_decide (nx m h = h);
}.

(** [path m a xs b]: following the links from [a] visits [xs] and then [b]. *)
Fixpoint path (m : links) (a : node) (xs : list node) (b : node) : Prop :=
  match xs with
  | [] => nx m a = b ∧ pv m b = a
  | x :: xs => nx m a = x ∧ pv m x = a ∧ path m x xs b
  end.

Definition ring_model (m : links) (h : node) (xs : list node) : Prop :=
  NoDup (h :: xs) ∧ path m h xs h.

Lemma nx_set_nx m n v x : nx (set_nx n v m) x = if decide (x = n) then v else nx m x.
Proof.
  unfold nx, set_nx; cbn. rewrite lookup_insert. by repeat case_decide; subst.
Qed.
Lemma nx_set_pv m n v x : nx (set_pv n v m) x = nx m x.
Proof. done. Qed.
Lemma pv_set_pv m n v x : pv (set_pv n v m) x = if decide (x = n) then v else pv m x.
Proof.
  unfold pv, set_pv; cbn. rewrite lookup_insert. by repeat case_decide; subst.
Qed.
Lemma pv_set_nx m n v x : pv (set_nx n v m) x = pv m x.
Proof. done. Qed.

Lemma path_app m a l1 x l2 b : path m a (l1 ++ x :: l2) b ↔ path m a l1 x ∧ path m x l2 b.
Proof. revert a. induction l1 as [|y l1 IH]; intros a; cbn; [|rewrite IH]; tauto. Qed.

Lemma path_ext m m' a xs b :
  (∀ x, x ∈ a :: xs → nx m' x = nx m x) → (∀ x, x ∈ xs ++ [b] → pv m' x = pv m x) →
  path m a xs b → path m' a xs b.
Proof.
  revert a. induction xs as [|y xs IH]; intros a Hn Hp; cbn.
  - rewrite Hn, Hp by set_solver. done.
  - rewrite (Hn a), (Hp y) by set_solver. intros (? & ? & Hpath). split_and!; [done..|].
    apply IH; [set_solver..|done].
Qed.

Lemma path_prev m a xs b : path m a xs b → pv m b = default a (last xs).
Proof.
  induction xs as [|x xs IH] using rev_ind; cbn; [tauto|].
  rewrite path_app, last_snoc. cbn. tauto.
Qed.

Lemma path_next m a xs b : path m a xs b → nx m a = default b (head xs).
Proof. destruct xs; cbn; tauto. Qed.
End Model.
Arguments links node {_ _}.

(** Case analysis on the links written by the operations. *)
Ltac link_step :=
  rewrite ?nx_set_nx, ?nx_set_pv, ?pv_set_nx, ?pv_set_pv,
    ?nx_set_nx, ?nx_set_pv, ?pv_set_nx, ?pv_set_pv;
  repeat (case_decide; subst; try done; try congruence);
  try done; try (exfalso; set_solver).

Section Laws.
Context {node : Type} `{Countable node}.
Implicit Types (m : links node) (h n : node) (xs ys l : list node).

Lemma ring_model_split m h l1 n l2 :
  ring_model m h (l1 ++ n :: l2) →
  path m h l1 n ∧ path m n l2 h ∧ NoDup (h :: l1 ++ l2) ∧ n ∉ h :: l1 ++ l2.
Proof.
  intros [Hnd Hp]. apply path_app in Hp as [Hp1 Hp2]. split_and!; try done.
  - eapply sublist_NoDup; [exact Hnd|].
    apply sublist_skip, sublist_app; [done|by apply sublist_cons].
  - change (h :: l1 ++ n :: l2) with ((h :: l1) ++ n :: l2) in Hnd.
    change (h :: l1 ++ l2) with ((h :: l1) ++ l2).
    apply NoDup_app in Hnd as (? & Hd & [? ?]%NoDup_cons). rewrite elem_of_app.
    intros [?|?]; [eapply Hd; [done|left]|done].
Qed.

Lemma model_add m h xs n :
  ring_model m h xs → n ∉ h :: xs → ring_model (add_tail n h m) h (xs ++ [n]).
Proof.
  intros [Hnd Hp] Hn. split.
  { change (h :: xs ++ [n]) with ((h :: xs) ++ [n]). apply NoDup_app. split_and!; [done| |].
    - intros x Hx ->%list_elem_of_singleton. done.
    - apply NoDup_singleton. }
  unfold add_tail, add_between. rewrite (path_prev _ _ _ _ Hp).
  destruct xs as [|z l _] using rev_ind.
  - cbn. link_step.
  - rewrite last_snoc. cbn. rewrite <- (assoc_L (++)). cbn.
    apply path_app in Hp as [Hp1 Hp2].
    assert (z ∉ h :: l ∧ h ∉ l ++ [z]) as [Hz Hh].
    { apply NoDup_cons in Hnd as [Hh Hnd]. split; [|done].
      apply NoDup_app in Hnd as (_ & Hd & _). rewrite elem_of_cons.
      intros [->|Hz]; [set_solver|]. eapply Hd; [done|left]. }
    rewrite path_app. split.
    + eapply path_ext; [..|exact Hp1].
      * intros x Hx. link_step.
      * intros x Hx. link_step.
    + cbn. link_step.
Qed.

Lemma model_add_frame m h xs n h' ys :
  ring_model m h xs → ring_model m h' ys → n ∉ h' :: ys →
  (∀ x, x ∈ h :: xs → x ∉ h' :: ys) → ring_model (add_tail n h m) h' ys.
Proof.
  intros [_ Hp] [Hnd Hp'] Hn Hd. split; [done|].
  assert (Hpv : pv m h ∈ h :: xs).
  { rewrite (path_prev _ _ _ _ Hp). destruct (last xs) as [z|] eqn:Hz; cbn; [|left].
    right. apply last_Some in Hz as [? ->]. set_solver. }
  eapply path_ext; [..|exact Hp']; intros x Hx; unfold add_tail, add_between.
  - pose proof (Hd (pv m h) Hpv). link_step.
  - assert (x ∈ h' :: ys) by set_solver. pose proof (Hd h ltac:(left)). link_step.
Qed.

Lemma model_del m h l1 n l2 :
  ring_model m h (l1 ++ n :: l2) → ring_model (del n m) h (l1 ++ l2).
Proof.
  intros (Hp1 & Hp2 & Hnd & Hn)%ring_model_split. split; [done|].
  unfold del. rewrite (path_prev _ _ _ _ Hp1), (path_next _ _ _ _ Hp2).
  destruct l1 as [|p l1 _] using rev_ind; destruct l2 as [|q l2]; cbn in *.
  - link_step.
  - apply NoDup_cons in Hnd as [Hh Hnd]. apply NoDup_cons in Hnd as [Hq Hnd].
    destruct Hp2 as (? & ? & Hp2). split_and!; [link_step..|].
    eapply path_ext; [..|exact Hp2]; intros x Hx; link_step.
  - rewrite last_snoc, (right_id_L [] (++)). cbn.
    rewrite path_app in Hp1 |- *. destruct Hp1 as [Hp1 Hp3].
    rewrite (right_id_L [] (++)) in Hn, Hnd.
    assert (p ∉ h :: l1 ∧ h ∉ l1 ++ [p]) as [Hz Hh].
    { apply NoDup_cons in Hnd as [Hh Hnd]. split; [|done].
      apply NoDup_app in Hnd as (_ & Hd & _). rewrite elem_of_cons.
      intros [->|Hz]; [set_solver|]. eapply Hd; [done|left]. }
    split; [|cbn; link_step].
    eapply path_ext; [..|exact Hp1]; intros x Hx; link_step.
  - rewrite last_snoc. cbn. rewrite <- (assoc_L (++)) in *. cbn in *.
    rewrite path_app in Hp1 |- *. destruct Hp1 as [Hp1 Hp3]. destruct Hp2 as (Hq1 & Hq2 & Hp2).
    apply NoDup_cons in Hnd as [Hh Hnd]. apply NoDup_app in Hnd as (Hnd1 & Hd & Hnd2).
    apply NoDup_cons in Hnd2 as [Hpq Hnd2]. apply NoDup_cons in Hnd2 as [Hq Hnd2].
    assert (p ∉ l1) by (intros ?; eapply Hd; [done|left]).
    assert (q ∉ l1) by (intros ?; eapply Hd; [done|set_solver]).
    assert (∀ x, x ∈ l1 → x ∉ l2) by (intros x ? ?; eapply (Hd x); [done|set_solver]).
    split_and!; [|cbn; split_and!; [link_step..|]].
    + eapply path_ext; [..|exact Hp1]; intros x Hx; link_step.
    + eapply path_ext; [..|exact Hp2]; intros x Hx; link_step.
Qed.

Lemma model_del_frame m h l1 n l2 h' ys :
  ring_model m h (l1 ++ n :: l2) → ring_model m h' ys →
  (∀ x, x ∈ h :: l1 ++ n :: l2 → x ∉ h' :: ys) → ring_model (del n m) h' ys.
Proof.
  intros (Hp1 & Hp2 & _ & _)%ring_model_split [Hnd Hp'] Hd. split; [done|].
  unfold del. rewrite (path_prev _ _ _ _ Hp1), (path_next _ _ _ _ Hp2).
  assert (Hp : default h (last l1) ∉ h' :: ys).
  { apply Hd. destruct (last l1) as [z|] eqn:Hz; cbn; [|left].
    apply last_Some in Hz as [? ->]. set_solver. }
  assert (Hq : default h (head l2) ∉ h' :: ys) by (apply Hd; destruct l2; cbn; set_solver).
  eapply path_ext; [..|exact Hp']; intros x Hx; [|assert (x ∈ h' :: ys) by set_solver];
    link_step.
Qed.
End Laws.

#[export] Instance list_model_laws {node} `{Countable node} :
  ListLaws (@list_model node _ _).
Proof.
  apply (Build_ListLaws node list_model ring_model).
  - by intros m h xs [? _].
  - intros m h xs [_ Hp]. apply (path_next _ _ _ _ Hp).
  - intros m h l1 x l2 (_ & Hp & _)%ring_model_split. apply (path_next _ _ _ _ Hp).
  - intros m h xs [Hnd Hp]. cbn. rewrite bool_decide_eq_true, (path_next _ _ _ _ Hp).
    destruct xs; cbn; [done|]. split; [intros ->|done]. apply NoDup_cons in Hnd. set_solver.
  - intros m h. split; [apply NoDup_singleton|]. cbn. unfold init_head. link_step.
  - intros m n h xs [Hnd Hp] Hn. split; [done|].
    eapply path_ext; [..|exact Hp]; intros x Hx; cbn; unfold init_head; link_step.
  - apply model_add.
  - apply model_add_frame.
  - apply model_del.
  - apply model_del_frame.
  - intros m h l1 n l2 h' ys Hr Hr' Hd. cbn.
    pose proof (ring_model_split _ _ _ _ _ Hr) as (_ & _ & _ & Hn).
    pose proof (model_del _ _ _ _ _ Hr) as Hr1.
    pose proof (model_del_frame _ _ _ _ _ _ _ Hr Hr' Hd) as Hr2.
    eapply model_add_frame; [exact Hr2|done|done|]. intros x Hx Hx'.
    eapply Hd; [|exact Hx]. set_solver.
  - intros m h l1 n l2 h' ys Hr Hr' Hd. cbn.
    eapply model_add; [by eapply model_del_frame|]. apply Hd. set_solver.
  - intros m h l1 n l2 h' ys h'' zs Hr Hr' Hr'' Hd0 Hd Hd'. cbn.
    assert (n ∉ h'' :: zs) by (apply Hd; set_solver).
    eapply model_add_frame; [|by eapply model_del_frame|done|done].
    by eapply model_del_frame.
Qed.
