(* ===== verification/ProcEntry.v ===== *)
(** * Proc entries

    Every module of the repository that has a file under /proc uses the same
    scheme: [open] allocates a buffer, stores it in the static variable
    [message] and prints into it, [read] copies it out once (the static
    variable [read_p] ends the second read), [release] frees it.  This file
    has the state of that scheme around the module's own data [D], the
    accesses the handlers are made of, and their proof rules. *)

From S2P Require Import Decimal.
From S2P Require Import Prelude.

Section Entry.
Context {D : Type}.

Record proc := Proc {
  data : D;                       (* the other variables of the module *)
  message : option loc;           (* static char *message *)
  read_p : Z;                     (* static int read_p *)
  buffers : gmap loc string;      (* live buffers and the text in them *)
}.

Definition set_data v (s : proc) : proc := Proc v (message s) (read_p s) (buffers s).
Definition set_message v (s : proc) : proc := Proc (data s) v (read_p s) (buffers s).
Definition set_read_p v (s : proc) : proc := Proc (data s) (message s) v (buffers s).
Definition set_buffers v (s : proc) : proc := Proc (data s) (message s) (read_p s) v.

(** [message = kmalloc(...)]; [mem] is its result, the memory it returns
    holds arbitrary bytes [junk]. *)
Definition new_message (mem : option loc) (junk : string) : M proc unit :=
  modify (λ s, match mem with
               | Some l => set_message (Some l) (set_buffers (<[l := junk]> (buffers s)) s)
               | None => set_message None s
               end).

(** Code that works on the text [message] points to. *)
Definition on_message {A} (m : D → M string A) : M proc A := λ s,
  match message s with
  | None => Fault NullDeref
  | Some l =>
      match buffers s !! l with
      | None => Fault UseAfterFree
      | Some t =>
          match m (data s) t with
          | Done (x, t') => Done (x, set_buffers (<[l := t']> (buffers s)) s)
          | Fault f => Fault f
          | NoFuel => NoFuel
          end
      end
  end.

(** Code that works on the module's own data only. *)
Definition on_data {A} (m : M D A) : M proc A := λ s,
  match m (data s) with
  | Done (x, d) => Done (x, set_data d s)
  | Fault f => Fault f
  | NoFuel => NoFuel
  end.

(** The text itself, as [strlen] and [copy_to_user] read it. *)
Definition message_text : M proc string := λ s,
  match message s with
  | None => Fault NullDeref
  | Some l => match buffers s !! l with Some t => Done (t, s) | None => Fault UseAfterFree end
  end.

(** [read_p = !read_p], and the new value. *)
Definition toggle_read_p : M proc Z :=
  modify (λ s, set_read_p (if bool_decide (read_p s = 0) then 1 else 0) s) ;;
  gets read_p.

(** [kfree(message)]; kfree(NULL) does nothing. *)
Definition kfree_message : M proc unit := λ s,
  match message s with
  | None => Done (tt, s)
  | Some l =>
      match buffers s !! l with
      | None => Fault DoubleFree
      | Some _ => Done (tt, set_buffers (delete l (buffers s)) s)
      end
  end.

(** A reader such as [cat]: reads until 0 is returned; the text of all the
    reads together. *)
Fixpoint read_all (read : M proc (Z * string)) (fuel : nat) : M proc string :=
  match fuel with
  | O => starve
  | S fuel =>
      r ← read;
      if bool_decide (r.1 = 0) then mret ""
      else rest ← read_all read fuel; mret (r.2 +:+ rest)
  end.

(** The read handler of the course examples, where [strlen(message)] comes
    before the toggle, and their release handler. *)
Definition strlen_read : M proc (Z * string) :=
  t ← message_text;
  r ← toggle_read_p;
  if bool_decide (r ≠ 0) then mret (0, "") else mret (Z.of_nat (String.length t), t).

Definition release_message : M proc Z := kfree_message ;; mret 0.

(** A visitor opens the entry, reads it to the end and closes it; a file that
    could not be opened is neither read nor closed.  The result of open and the
    text read. *)
Definition visit_entry (open : M proc Z) (read : M proc (Z * string)) (release : M proc Z)
  : M proc (Z * string) :=
  r ← open;
  if bool_decide (r ≠ 0) then mret (r, "") else
  t ← read_all read 2;
  release ;;
  mret (r, t).

(** ** Rules *)

Implicit Types (s : proc) (t : string).

Lemma wp_on_message {A} (m : D → M string A) s l t (Q : A → proc → Prop) :
  message s = Some l → buffers s !! l = Some t →
  wp (m (data s)) (λ x t', Q x (set_buffers (<[l := t']> (buffers s)) s)) t →
  wp (on_message m) Q s.
Proof.
  intros Hl Ht. unfold wp, on_message. rewrite Hl, Ht. by destruct (m (data s) t) as [[x t']| |].
Qed.

Lemma wp_on_data {A} (m : M D A) s (Q : A → proc → Prop) :
  wp m (λ x d, Q x (set_data d s)) (data s) → wp (on_data m) Q s.
Proof. unfold wp, on_data. by destruct (m (data s)) as [[x d]| |]. Qed.

Lemma wp_message_text s l t (Q : string → proc → Prop) :
  message s = Some l → buffers s !! l = Some t → Q t s → wp message_text Q s.
Proof. intros Hl Ht HQ. unfold wp, message_text. by rewrite Hl, Ht. Qed.

(** The first toggle after [read_p = 1] gives 0, the next one 1. *)
Lemma wp_toggle_first s (Q : Z → proc → Prop) :
  read_p s ≠ 0 → Q 0 (set_read_p 0 s) → wp toggle_read_p Q s.
Proof.
  intros Hr HQ. apply wp_bind, wp_modify. rewrite bool_decide_eq_false_2 by done. exact HQ.
Qed.
Lemma wp_toggle_second s (Q : Z → proc → Prop) :
  read_p s = 0 → Q 1 (set_read_p 1 s) → wp toggle_read_p Q s.
Proof.
  intros Hr HQ. apply wp_bind, wp_modify. rewrite bool_decide_eq_true_2 by done. exact HQ.
Qed.

Lemma wp_kfree_message s l t (Q : unit → proc → Prop) :
  message s = Some l → buffers s !! l = Some t →
  Q tt (set_buffers (delete l (buffers s)) s) → wp kfree_message Q s.
Proof. intros Hl Ht HQ. unfold wp, kfree_message. by rewrite Hl, Ht. Qed.

(** A reader that gets the text once and then the end of the file. *)
Lemma wp_read_all (read : M proc (Z * string)) fuel s l t (Q : string → proc → Prop) :
  (2 ≤ fuel)%nat → t ≠ "" → message s = Some l → buffers s !! l = Some t → read_p s ≠ 0 →
  (∀ (P : Z * string → proc → Prop) s', message s' = Some l → buffers s' !! l = Some t →
     read_p s' ≠ 0 → P (Z.of_nat (String.length t), t) (set_read_p 0 s') → wp read P s') →
  (∀ (P : Z * string → proc → Prop) s', message s' = Some l → buffers s' !! l = Some t →
     read_p s' = 0 → P (0, "") (set_read_p 1 s') → wp read P s') →
  Q t (set_read_p 1 s) → wp (read_all read fuel) Q s.
Proof.
  intros Hf Hne Hl Ht Hr H1 H2 HQ. destruct fuel as [|[|fuel]]; [lia..|]. cbn [read_all].
  apply wp_bind, H1; [done..|]. cbn [fst snd].
  rewrite bool_decide_eq_false_2 by (destruct t; [done|cbn [String.length]; lia]).
  apply wp_bind, wp_bind, H2; [done..|]. cbn [fst snd].
  rewrite bool_decide_eq_true_2 by done. apply wp_ret, wp_ret. by rewrite str_app_nil_r.
Qed.

Lemma strlen_read_first s l t (Q : Z * string → proc → Prop) :
  message s = Some l → buffers s !! l = Some t → read_p s ≠ 0 →
  Q (Z.of_nat (String.length t), t) (set_read_p 0 s) → wp strlen_read Q s.
Proof.
  intros Hl Ht Hr HQ. apply wp_bind. eapply wp_message_text; [done..|].
  apply wp_bind, wp_toggle_first; [done|]. by rewrite bool_decide_eq_false_2 by (intros H; done).
Qed.

Lemma strlen_read_second s l t (Q : Z * string → proc → Prop) :
  message s = Some l → buffers s !! l = Some t → read_p s = 0 →
  Q (0, "") (set_read_p 1 s) → wp strlen_read Q s.
Proof.
  intros Hl Ht Hr HQ. apply wp_bind. eapply wp_message_text; [done..|].
  apply wp_bind, wp_toggle_second; [done|]. exact HQ.
Qed.

(** A visitor gets the text an open has left in [message], and the buffer is
    freed; or an open that failed is all there is. *)
Lemma wp_visit_entry (open : M proc Z) s (Q : Z * string → proc → Prop) :
  wp open (λ r s',
    (r ≠ 0 ∧ Q (r, "") s') ∨
    (r = 0 ∧ ∃ l t, message s' = Some l ∧ buffers s' !! l = Some t ∧ t ≠ "" ∧ read_p s' ≠ 0 ∧
       Q (0, t) (Proc (data s') (Some l) 1 (delete l (buffers s'))))) s →
  wp (visit_entry open strlen_read release_message) Q s.
Proof.
  intros Hopen. apply wp_bind. eapply wp_mono; [exact Hopen|].
  intros r [d m rp bs] [[Hr HQ]|(-> & l & t & Hl & Ht & Hne & Hr & HQ)]; cbn in *.
  { rewrite bool_decide_eq_true_2 by done. by apply wp_ret. }
  rewrite bool_decide_eq_false_2 by auto. apply wp_bind.
  eapply (wp_read_all strlen_read 2 _ l t); [lia|done..| | |].
  - intros P s' ? ? ? ?. by eapply strlen_read_first.
  - intros P s' ? ? ? ?. by eapply strlen_read_second.
  - apply wp_bind, wp_bind. eapply wp_kfree_message; [done..|]. apply wp_ret, wp_ret.
    by rewrite Hl.
Qed.
End Entry.
Arguments proc : clear implicits.
Arguments Proc {D}.

(** The buffer is empty again after a session. *)
Lemma delete_message (m : gmap loc string) l t : m !! l = None → delete l (<[l := t]> m) = m.
Proof. intros Hm. by rewrite delete_insert_eq, delete_id. Qed.
