(* ===== verification/KThread.v ===== *)
(** * Kernel threads and mutexes

    What the modules keep of the kernel's objects: the state of a mutex and the
    pointer [kthread_run] returns. *)

From S2P Require Import Prelude.

(** A [struct mutex] before mutex_init, after it, and after mutex_destroy. *)
Inductive mutex_state : Type := MutexRaw | MutexReady | MutexDestroyed.

(** The pointer [kthread_run] returns: a task, or an error code encoded in the
    pointer ([IS_ERR], [PTR_ERR]). *)
Inductive task_ptr : Type := Task (running : bool) | ErrPtr (err : Z).

Definition IS_ERR (t : task_ptr) : bool := if t is ErrPtr _ then true else false.
Definition PTR_ERR (t : task_ptr) : Z := if t is ErrPtr err then err else 0.
