(* ===== verification/ElevatorData.v ===== *)
(** * Data of the elevator module (elevator.h, lines 9-71)

    The records, the enumerations and the constants of elevator.h, the memory
    they live in ([world]) and the accesses the code makes to it.  Array
    indices are checked against the declared bound, [passenger] pointers
    against the set of live objects. *)

From S2P Require Import Prelude KList.

(** ** Constants and enumerations *)

Definition MAX_FLOOR : Z := 10.
Definition MAX_W : Z := 30.
Definition MAX_P : Z := 10.
Definition M_SLEEP : Z := 2.
Definition L_SLEEP : Z := 1.

(** [enum { IDLE, OFFLINE, LOADING, UP, DOWN } STATE]: an [int] in C, so an
    object of this type can hold any integer; [getState] has a branch for
    that. *)
Notation STATE := Z (only parsing).
Definition IDLE : STATE := 0.
Definition OFFLINE : STATE := 1.
Definition LOADING : STATE := 2.
Definition UP : STATE := 3.
Definition DOWN : STATE := 4.

(** [enum { ADULT, CHILD, ROOM, BELL } P_TYPE] *)
Notation P_TYPE := Z (only parsing).
Definition ADULT : P_TYPE := 0.
Definition CHILD : P_TYPE := 1.
Definition ROOM : P_TYPE := 2.
Definition BELL : P_TYPE := 3.

(** ** Structures *)

(** Addresses of the [struct list_head] objects of the module. *)
Inductive node : Type :=
| EP (i : nat)   (* &e.p[i] *)
| FW (i : nat)   (* &b.f[i].waiting *)
| PN (l : loc).  (* &p->node, p at address l *)

#[export] Instance node_eq_dec : EqDecision node.
Proof. solve_decision. Defined.
#[export] Instance node_countable : Countable node.
Proof.
  apply (inj_countable'
    (λ n, match n with EP i => inl (inl i) | FW i => inl (inr i) | PN l => inr l end)
    (λ s, match s with inl (inl i) => EP i | inl (inr i) => FW i | inr l => PN l end)).
  by intros [].
Defined.
#[export] Instance PN_inj : Inj (=) (=) PN.
Proof. by intros ?? [=]. Qed.

(** [struct passenger_type] without its [node], which lives in the link
    memory under the address [PN l]. *)
Record passenger := Passenger { type : P_TYPE; s_floor : Z; d_floor : Z }.

#[export] Instance passenger_eq_dec : EqDecision passenger.
Proof. solve_decision. Defined.

(** [struct elevator_type] without the array [p] of list heads. *)
Record elevator := Elevator {
  status : STATE;
  e_w_units : Z; e_p_units : Z;
  e_adult : Z; e_child : Z; e_room : Z; e_bell : Z;
  current : Z; next : Z;
  shutdown : Z; direction : Z;
}.

(** [struct floors_type] without its list head. *)
Record floors := Floors {
  level : Z;
  f_w_units : Z; f_p_units : Z;
  f_adult : Z; f_child : Z; f_room : Z; f_bell : Z;
  serviced : Z;
}.

#[export] Instance elevator_eq_dec : EqDecision elevator.
Proof. solve_decision. Defined.
#[export] Instance floors_eq_dec : EqDecision floors.
Proof. solve_decision. Defined.

(** The elevator's object is the static variable [e]; the only pointer to it
    is the field [e] of the building. *)
Inductive elevator_ptr : Type := Addr_e.

Record building := Building { b_f : list floors; b_e : option elevator_ptr }.

(** ** Field updates *)

Definition set_status v (e : elevator) : elevator :=
  Elevator v (e_w_units e) (e_p_units e) (e_adult e) (e_child e) (e_room e) (e_bell e)
    (current e) (next e) (shutdown e) (direction e).
Definition set_shutdown v (e : elevator) : elevator :=
  Elevator (status e) (e_w_units e) (e_p_units e) (e_adult e) (e_child e) (e_room e)
    (e_bell e) (current e) (next e) v (direction e).
Definition set_position (c n : Z) (e : elevator) : elevator :=
  Elevator (status e) (e_w_units e) (e_p_units e) (e_adult e) (e_child e) (e_room e)
    (e_bell e) c n (shutdown e) (direction e).
Definition set_direction v (e : elevator) : elevator :=
  Elevator (status e) (e_w_units e) (e_p_units e) (e_adult e) (e_child e) (e_room e)
    (e_bell e) (current e) (next e) (shutdown e) v.

(** Adding to the load and to the counters of passengers; removing is adding
    the opposite. *)
Definition e_load (dw dp : Z) (e : elevator) : elevator :=
  Elevator (status e) (e_w_units e +i dw) (e_p_units e +i dp) (e_adult e) (e_child e)
    (e_room e) (e_bell e) (current e) (next e) (shutdown e) (direction e).
Definition e_count (da dc dr db : Z) (e : elevator) : elevator :=
  Elevator (status e) (e_w_units e) (e_p_units e) (e_adult e +i da) (e_child e +i dc)
    (e_room e +i dr) (e_bell e +i db) (current e) (next e) (shutdown e) (direction e).
Definition f_load (dw dp : Z) (x : floors) : floors :=
  Floors (level x) (f_w_units x +i dw) (f_p_units x +i dp) (f_adult x) (f_child x)
    (f_room x) (f_bell x) (serviced x).
Definition f_count (da dc dr db : Z) (x : floors) : floors :=
  Floors (level x) (f_w_units x) (f_p_units x) (f_adult x +i da) (f_child x +i dc)
    (f_room x +i dr) (f_bell x +i db) (serviced x).
Definition f_serve (x : floors) : floors :=
  Floors (level x) (f_w_units x) (f_p_units x) (f_adult x) (f_child x) (f_room x)
    (f_bell x) (serviced x +i 1).

(** ** Memory *)

Section World.
Context {LA : ListApi node}.

Record world := World {
  links : lmem node;            (* every next/prev field *)
  heap : gmap loc passenger;    (* the live passenger objects *)
  w_e : elevator;               (* static elevator e *)
  w_b : building;               (* static building b *)
  bad_unlocks : nat;            (* calls of mutex_unlock by a task that did not own the mutex *)
}.

Definition set_links v (w : world) : world := World v (heap w) (w_e w) (w_b w) (bad_unlocks w).
Definition set_heap v (w : world) : world := World (links w) v (w_e w) (w_b w) (bad_unlocks w).
Definition set_e v (w : world) : world := World (links w) (heap w) v (w_b w) (bad_unlocks w).
Definition set_b v (w : world) : world := World (links w) (heap w) (w_e w) v (bad_unlocks w).
Definition count_bad_unlock (w : world) : world :=
  World (links w) (heap w) (w_e w) (w_b w) (S (bad_unlocks w)).

(** [mutex_unlock(&e_tp.mutx)], which every critical section calls whether or
    not it got the lock; [r] is the result of the task's lock call.  With 0 the
    task owns the mutex and releases it.  Otherwise it does not own it, and the
    call is one the kernel forbids; in code that runs alone, where nobody else
    holds the mutex, it is counted and has no other effect.  What it does to
    other tasks is in Concurrency.v. *)
Definition mutex_unlock (r : Z) : M world unit :=
  when (negb (bool_decide (r = 0))) (modify count_bad_unlock).

(** 1 for a lock call that was interrupted. *)
Definition interrupted (r : Z) : nat := if bool_decide (r = 0) then 0 else 1.

(** Array indices into the ten floors. *)
Definition idx (i : Z) : M world nat :=
  if decide (0 ≤ i < MAX_FLOOR) then mret (Z.to_nat i) else crash OutOfBounds.

(** [*p] *)
Definition deref (p : loc) : M world passenger := λ w,
  match heap w !! p with
  | Some v => Done (v, w)
  | None => Fault UseAfterFree
  end.

(** [kfree(p)] *)
Definition kfree (p : loc) : M world unit := λ w,
  match heap w !! p with
  | Some _ => Done (tt, set_heap (delete p (heap w)) w)
  | None => Fault DoubleFree
  end.

(** The memory of a list node is that of the object it is embedded in. *)
Definition live (n : node) : M world unit := λ w,
  match n with
  | PN p => match heap w !! p with Some _ => Done (tt, w) | None => Fault UseAfterFree end
  | _ => Done (tt, w)
  end.

Definition upd_e (g : elevator → elevator) : M world unit :=
  modify (λ w, set_e (g (w_e w)) w).

(** [b->f[i].field] as a value and as an assignment. *)
Definition get_f (i : nat) : M world floors := λ w,
  match b_f (w_b w) !! i with
  | Some x => Done (x, w)
  | None => Fault OutOfBounds
  end.
Definition upd_f (i : nat) (g : floors → floors) : M world unit := λ w,
  match b_f (w_b w) !! i with
  | Some x => Done (tt, set_b (Building (<[i := g x]> (b_f (w_b w))) (b_e (w_b w))) w)
  | None => Fault OutOfBounds
  end.

(** Dereferencing [b->e]. *)
Definition load_be : M world elevator_ptr := λ w,
  match b_e (w_b w) with
  | Some p => Done (p, w)
  | None => Fault NullDeref
  end.

(** The list operations, on live nodes. *)
Definition node_next (n : node) : M world node :=
  live n ;; gets (λ w, list_next n (links w)).
Definition do_init_head (h : node) : M world unit :=
  modify (λ w, set_links (INIT_LIST_HEAD h (links w)) w).
Definition do_add_tail (n h : node) : M world unit :=
  live n ;; modify (λ w, set_links (list_add_tail n h (links w)) w).
Definition do_del (n : node) : M world unit :=
  live n ;; modify (λ w, set_links (list_del n (links w)) w).
Definition do_move_tail (n h : node) : M world unit :=
  live n ;; modify (λ w, set_links (list_move_tail n h (links w)) w).
Definition is_empty (h : node) : M world bool := gets (λ w, list_empty h (links w)).

(** [list_entry(ptr, passenger, node)]: [node] is the first field of
    [passenger], so the result is the address of the enclosing object. *)
Inductive pass_ptr : Type :=
| HeapPass (l : loc)     (* a passenger object *)
| InFloor (i : nat)      (* the bytes of b.f[i], read as a passenger *)
| InElevator (i : nat).  (* the bytes of e.p[i] and of what follows it *)
Definition list_entry (n : node) : pass_ptr :=
  match n with PN l => HeapPass l | FW i => InFloor i | EP i => InElevator i end.

(** Entries of a list of passengers. *)
Definition entry (n : node) : M world loc :=
  match list_entry n with HeapPass l => mret l | _ => crash UseAfterFree end.

(** None of these accesses is a call of [mutex_unlock]. *)
Lemma keeps_idx i : keeps bad_unlocks (idx i).
Proof. unfold idx. case_decide; auto with keeps. Qed.
Lemma keeps_deref p : keeps bad_unlocks (deref p).
Proof. intros w a w'. unfold deref. by case_match; intros [= _ <-]. Qed.
Lemma keeps_kfree p : keeps bad_unlocks (kfree p).
Proof. intros w a w'. unfold kfree. by case_match; intros [= _ <-]. Qed.
Lemma keeps_live n : keeps bad_unlocks (live n).
Proof. intros w a w'. unfold live. destruct n; try case_match; by intros [= _ <-]. Qed.
Lemma keeps_upd_e g : keeps bad_unlocks (upd_e g).
Proof. by apply keeps_modify. Qed.
Lemma keeps_upd_f i g : keeps bad_unlocks (upd_f i g).
Proof. intros w a w'. unfold upd_f. by case_match; intros [= _ <-]. Qed.
Lemma keeps_load_be : keeps bad_unlocks load_be.
Proof. intros w a w'. unfold load_be. by case_match; intros [= _ <-]. Qed.
Lemma keeps_node_next n : keeps bad_unlocks (node_next n).
Proof. apply keeps_bind; [apply keeps_live|]. auto with keeps. Qed.
Lemma keeps_do_add_tail n h : keeps bad_unlocks (do_add_tail n h).
Proof. apply keeps_bind; [apply keeps_live|]. intros _. by apply keeps_modify. Qed.
Lemma keeps_do_del n : keeps bad_unlocks (do_del n).
Proof. apply keeps_bind; [apply keeps_live|]. intros _. by apply keeps_modify. Qed.
Lemma keeps_do_move_tail n h : keeps bad_unlocks (do_move_tail n h).
Proof. apply keeps_bind; [apply keeps_live|]. intros _. by apply keeps_modify. Qed.
Lemma keeps_is_empty h : keeps bad_unlocks (is_empty h).
Proof. apply keeps_gets. Qed.
Lemma keeps_entry n : keeps bad_unlocks (entry n).
Proof. unfold entry. case_match; auto with keeps. Qed.

(** The fuel of the loops over lists: one step per passenger object. *)
Definition heap_fuel (w : world) : nat := size (heap w).
End World.
Arguments world {LA}.

#[export] Hint Resolve keeps_idx keeps_deref keeps_kfree keeps_live keeps_upd_e keeps_upd_f
  keeps_load_be keeps_node_next keeps_do_add_tail keeps_do_del keeps_do_move_tail
  keeps_is_empty keeps_entry : keeps.
