(* ===== verification/ElevatorOps.v ===== *)
(** * Operations of elevator.h (lines 110-434)

    One definition per function, in the order of the file.  The functions take
    the [building *b] of the code implicitly: every call passes the address of
    the static variable [b], and the elevator is reached through [b->e] where
    the code does so ([load_be]).  [printk] has no effect on the state. *)

From S2P Require Import Prelude KList ElevatorData.

Section Ops.
Context {LA : ListApi node}.
Notation MW := (M world).

(** [initElevator] *)
Definition initElevator : MW unit :=
  for_range 10 (λ i, do_init_head (EP i)) ;;
  upd_e (λ _, {| status := OFFLINE; current := 0; next := 1;
                 e_w_units := 0; e_p_units := 0;
                 e_adult := 0; e_child := 0; e_room := 0; e_bell := 0;
                 shutdown := 0; direction := 1 |}).

(** [initBuilding] *)
Definition initBuilding : MW unit :=
  for_range 10 (λ i,
    do_init_head (FW i) ;;
    upd_f i (λ _, {| level := Z.of_nat i; f_w_units := 0; f_p_units := 0;
                     f_adult := 0; f_child := 0; f_room := 0; f_bell := 0;
                     serviced := 0 |})) ;;
  modify (λ w, set_b (Building (b_f (w_b w)) (Some Addr_e)) w).

(** [getPass], [getWeight]: units of a passenger, on the object read at [p]. *)
Definition getPass (p : passenger) : Z :=
  if bool_decide (type p = CHILD) || bool_decide (type p = ADULT) then 1
  else if bool_decide (type p = ROOM) || bool_decide (type p = BELL) then 2
  else -1.

Definition getWeight (p : passenger) : Z :=
  if bool_decide (type p = CHILD) then 1
  else if bool_decide (type p = ADULT) then 2
  else if bool_decide (type p = ROOM) then 4
  else if bool_decide (type p = BELL) then 8
  else -1.

(** The [switch (p->type)] of [addPass], [delPass] and [movePass]: which of
    the four counters changes, by [d]; no case applies to another type. *)
Definition switch_type {A} (t : P_TYPE) (count : Z → Z → Z → Z → A → A) (d : Z) : A → A :=
  if bool_decide (t = ADULT) then count d 0 0 0
  else if bool_decide (t = CHILD) then count 0 d 0 0
  else if bool_decide (t = ROOM) then count 0 0 d 0
  else if bool_decide (t = BELL) then count 0 0 0 d
  else λ x, x.

(** [addPass]: to the waiting list of the start floor. *)
Definition addPass (l : loc) : MW unit :=
  p ← deref l;
  let w_unit := getWeight p in
  let p_unit := getPass p in
  if bool_decide (w_unit = -1) || bool_decide (p_unit = -1) then mret tt
  else
    i ← idx (s_floor p);
    do_add_tail (PN l) (FW i) ;;
    upd_f i (f_load w_unit p_unit) ;;
    upd_f i (switch_type (type p) f_count 1).

(** [delPass]: from the elevator, at its destination. *)
Definition delPass (l : loc) : MW unit :=
  p ← deref l;
  let w_unit := getWeight p in
  let p_unit := getPass p in
  if bool_decide (w_unit = -1) || bool_decide (p_unit = -1) then mret tt
  else
    _ ← load_be;
    upd_e (switch_type (type p) e_count (-1)) ;;
    upd_e (e_load (- w_unit) (- p_unit)) ;;
    i ← idx (s_floor p);
    upd_f i f_serve ;;
    do_del (PN l) ;;
    kfree l.

(** [movePass]: from the waiting list into the elevator. *)
Definition movePass (l : loc) : MW unit :=
  p ← deref l;
  let w_unit := getWeight p in
  let p_unit := getPass p in
  if bool_decide (w_unit = -1) || bool_decide (p_unit = -1) then mret tt
  else
    _ ← load_be;
    i ← idx (s_floor p);
    upd_f i (switch_type (type p) f_count (-1)) ;;
    upd_e (switch_type (type p) e_count 1) ;;
    upd_f i (f_load (- w_unit) (- p_unit)) ;;
    upd_e (e_load w_unit p_unit) ;;
    d ← idx (d_floor p);
    do_move_tail (PN l) (EP d).

(** [getState] *)
Definition getState (e : elevator) : string :=
  if bool_decide (status e = IDLE) then "Idle"
  else if bool_decide (status e = OFFLINE) then "Offline"
  else if bool_decide (status e = LOADING) then "Loading"
  else if bool_decide (status e = UP) then "Up"
  else if bool_decide (status e = DOWN) then "Down"
  else "Not Set".

(** [hasSpace] *)
Definition hasSpace (e : elevator) : bool :=
  bool_decide (e_w_units e < MAX_W) && bool_decide (e_p_units e < MAX_P).

(** [canFit]; the sums are [int] additions. *)
Definition canFit (p : passenger) (e : elevator) : bool :=
  bool_decide (getWeight p +i e_w_units e ≤ MAX_W) &&
  bool_decide (getPass p +i e_p_units e ≤ MAX_P).

(** [pDirection]: 1 for up, 0 otherwise. *)
Definition pDirection (p : passenger) : Z :=
  if bool_decide (d_floor p > s_floor p) then 1 else 0.

(** [checkFloor] *)
Definition checkFloor (i : Z) : MW bool :=
  j ← idx i; emp ← is_empty (FW j); mret (negb emp).

(** [checkBuilding], [checkElevator]: the loop over the floors returns at
    the first non-empty list. *)
Fixpoint any_nonempty (heads : list node) : MW bool :=
  match heads with
  | [] => mret false
  | h :: hs => emp ← is_empty h; if negb emp then mret true else any_nonempty hs
  end.
Definition checkBuilding : MW bool := any_nonempty (FW <$> seq 0 10).
Definition checkElevator : MW bool := any_nonempty (EP <$> seq 0 10).

(** [find].  [list_entry] is applied to the head of the waiting list, not to
    its first entry, so [p] points into the floor: its [type], [s_floor] and
    [d_floor] are the words at the offsets of [level], [w_units] and
    [p_units]. *)
Definition floor_as_passenger (x : floors) : passenger :=
  Passenger (level x) (f_w_units x) (f_p_units x).

Definition find : MW (option pass_ptr) :=
  _ ← load_be;
  e ← gets w_e;
  i ← idx (current e);
  emp ← is_empty (FW i);
  if negb emp then
    let ptr := list_entry (FW i) in
    x ← get_f i;
    let p := floor_as_passenger x in
    if canFit p e && bool_decide (pDirection p = direction e) then mret (Some ptr)
    else mret None
  else mret None.

(** The operations the critical sections call leave the mutex alone. *)
Lemma keeps_addPass l : keeps bad_unlocks (addPass l).
Proof. unfold addPass. apply keeps_bind; [auto with keeps|]. intros p. case_match; auto 10 with keeps. Qed.
Lemma keeps_delPass l : keeps bad_unlocks (delPass l).
Proof. unfold delPass. apply keeps_bind; [auto with keeps|]. intros p. case_match; auto 20 with keeps. Qed.
Lemma keeps_movePass l : keeps bad_unlocks (movePass l).
Proof. unfold movePass. apply keeps_bind; [auto with keeps|]. intros p. case_match; auto 20 with keeps. Qed.
Lemma keeps_checkFloor i : keeps bad_unlocks (checkFloor i).
Proof. unfold checkFloor. auto 10 with keeps. Qed.
Lemma keeps_any_nonempty hs : keeps bad_unlocks (any_nonempty hs).
Proof.
  induction hs as [|h hs IH]; cbn; [auto with keeps|].
  apply keeps_bind; [auto with keeps|]. intros emp. case_match; auto with keeps.
Qed.
End Ops.

#[export] Hint Resolve keeps_addPass keeps_delPass keeps_movePass keeps_checkFloor
  keeps_any_nonempty : keeps.
