(* ===== verification/ElevatorSpec.v ===== *)
(** * Abstract state of the elevator and the representation relation

    The abstract state keeps what the module is about: who waits on which
    floor, who is on board for which floor, how many were serviced, and the
    position of the elevator.  [rep L w a] says that the memory [w] holds the
    abstract state [a]: the linked lists are the queues, every counter of the
    records is the (wrapped) sum it stands for, and the live passenger objects
    are those of the queues and those of [L], which are on no list. *)

From S2P Require Import Prelude KList ElevatorData ElevatorOps.

(** ** Abstract state *)

(** A passenger with the address of its object as identity. *)
Notation pent := (positive * passenger)%type.

Record astate := AState {
  waiting : list (list pent);    (* the queue of each floor *)
  onboard : list (list pent);    (* passengers on board, by destination *)
  served : list Z;               (* the counters [serviced] *)
  a_status : STATE;
  a_current : Z; a_next : Z;
  a_shutdown : Z; a_direction : Z;
}.

Definition with_waiting v (a : astate) : astate :=
  AState v (onboard a) (served a) (a_status a) (a_current a) (a_next a)
    (a_shutdown a) (a_direction a).
Definition with_status v (a : astate) : astate :=
  AState (waiting a) (onboard a) (served a) v (a_current a) (a_next a)
    (a_shutdown a) (a_direction a).
Definition with_shutdown v (a : astate) : astate :=
  AState (waiting a) (onboard a) (served a) (a_status a) (a_current a) (a_next a)
    v (a_direction a).
Definition with_position c n d (a : astate) : astate :=
  AState (waiting a) (onboard a) (served a) (a_status a) c n (a_shutdown a) d.

(** Rows of the two tables. *)
Definition row (ls : list (list pent)) (i : nat) : list pent := default [] (ls !! i).

(** ** Well-formed passengers *)

Definition valid_pass (p : passenger) : Prop :=
  0 ≤ type p ≤ 3 ∧ 0 ≤ s_floor p < MAX_FLOOR ∧ 0 ≤ d_floor p < MAX_FLOOR.

#[export] Instance valid_pass_dec p : Decision (valid_pass p).
Proof. apply _. Defined.

Definition floor_ix (z : Z) : nat := Z.to_nat z.

Lemma valid_weight p : valid_pass p → 1 ≤ getWeight p ≤ 8.
Proof.
  intros (Ht & _ & _). unfold getWeight, CHILD, ADULT, ROOM, BELL.
  repeat case_bool_decide; lia.
Qed.
Lemma valid_units p : valid_pass p → 1 ≤ getPass p ≤ 2.
Proof.
  intros (Ht & _ & _). unfold getPass, CHILD, ADULT, ROOM, BELL.
  repeat case_bool_decide; cbn; lia.
Qed.

(** ** The sums the counters stand for *)

Definition weight (q : list pent) : Z := zsum (λ x, getWeight x.2) q.
Definition units (q : list pent) : Z := zsum (λ x, getPass x.2) q.
Definition tally (t : P_TYPE) (q : list pent) : Z :=
  zsum (λ x, if bool_decide (type x.2 = t) then 1 else 0) q.

#[global] Arguments weight : simpl never.
#[global] Arguments units : simpl never.
#[global] Arguments tally : simpl never.

Definition elevator_of (a : astate) : elevator :=
  let q := concat (onboard a) in
  {| status := a_status a;
     e_w_units := wrap32 (weight q); e_p_units := wrap32 (units q);
     e_adult := wrap32 (tally ADULT q); e_child := wrap32 (tally CHILD q);
     e_room := wrap32 (tally ROOM q); e_bell := wrap32 (tally BELL q);
     current := a_current a; next := a_next a;
     shutdown := a_shutdown a; direction := a_direction a |}.

Definition floor_of (i : nat) (q : list pent) (s : Z) : floors :=
  {| level := Z.of_nat i;
     f_w_units := wrap32 (weight q); f_p_units := wrap32 (units q);
     f_adult := wrap32 (tally ADULT q); f_child := wrap32 (tally CHILD q);
     f_room := wrap32 (tally ROOM q); f_bell := wrap32 (tally BELL q);
     serviced := s |}.

(** ** Abstract operations *)

Definition serve (i : nat) (s : list Z) : list Z := alter (λ n, n +i 1) i s.

(** A new passenger joins the queue of its start floor. *)
Definition a_add (x : pent) (a : astate) : astate :=
  let i := floor_ix (s_floor x.2) in
  with_waiting (<[i := row (waiting a) i ++ [x]]> (waiting a)) a.

(** Passenger [x] leaves row [i] of the elevator, whose others are [rest]. *)
Definition a_leave (i : nat) (x : pent) (rest : list pent) (a : astate) : astate :=
  AState (waiting a) (<[i := rest]> (onboard a))
    (serve (floor_ix (s_floor x.2)) (served a))
    (a_status a) (a_current a) (a_next a) (a_shutdown a) (a_direction a).

(** Passenger [x] leaves the queue of floor [i], whose others are [rest], and
    boards. *)
Definition a_board (i : nat) (x : pent) (rest : list pent) (a : astate) : astate :=
  let d := floor_ix (d_floor x.2) in
  AState (<[i := rest]> (waiting a))
    (<[d := row (onboard a) d ++ [x]]> (onboard a)) (served a)
    (a_status a) (a_current a) (a_next a) (a_shutdown a) (a_direction a).

(** ** Representation *)

(** [x] is on a list. *)
Definition listed (a : astate) (x : pent) : Prop :=
  ∃ i, x ∈ row (waiting a) i ∨ x ∈ row (onboard a) i.

Definition is_head (n : node) : Prop :=
  match n with EP i | FW i => (i < 10)%nat | PN _ => False end.

Definition nodes_of (q : list pent) : list node := (λ x, PN x.1) <$> q.

Definition entries (a : astate) (n : node) : list node :=
  match n with
  | EP i => nodes_of (row (onboard a) i)
  | FW i => nodes_of (row (waiting a) i)
  | PN _ => []
  end.

Section Rep.
Context {LA : ListApi node} {LL : ListLaws LA}.

Record rep (L : gmap loc passenger) (w : world) (a : astate) : Prop := {
  rep_waiting_len : length (waiting a) = 10%nat;
  rep_onboard_len : length (onboard a) = 10%nat;
  rep_served_len : length (served a) = 10%nat;
  rep_e : w_e w = elevator_of a;
  rep_be : b_e (w_b w) = Some Addr_e;
  rep_f_len : length (b_f (w_b w)) = 10%nat;
  rep_f i s : served a !! i = Some s →
    b_f (w_b w) !! i = Some (floor_of i (row (waiting a) i) s);
  rep_rings : Rings (links w) is_head (entries a);
  rep_heap x : listed a x → heap w !! x.1 = Some x.2;
  rep_extra : L ⊆ heap w;
  rep_dom l p : heap w !! l = Some p → listed a (l, p) ∨ L !! l = Some p;
  rep_disj x : listed a x → L !! x.1 = None;
}.
End Rep.

(** The state [initElevator] and [initBuilding] establish. *)
Definition a_init : astate :=
  AState (replicate 10 []) (replicate 10 []) (replicate 10 0) OFFLINE 0 1 0 1.
