(* ===== verification/ElevatorRefine.v ===== *)
(** * The operations of elevator.h refine the abstract ones

    Each function of ElevatorOps.v, run from a memory that represents an
    abstract state, finishes without a fault in a memory that represents the
    state after the corresponding abstract operation. *)

From S2P Require Import Prelude KList ElevatorData ElevatorOps ElevatorSpec.

(** ** Rows *)

Section Rows.
Implicit Types (ls : list (list pent)) (q : list pent).

Lemma row_insert ls i j q :
  (i < length ls)%nat → row (<[i:=q]> ls) j = if decide (j = i) then q else row ls j.
Proof.
  intros Hi. unfold row. case_decide; subst.
  - by rewrite list_lookup_insert_eq.
  - by rewrite list_lookup_insert_ne.
Qed.

Lemma row_lookup ls i : (i < length ls)%nat → ls !! i = Some (row ls i).
Proof.
  intros Hi. unfold row. destruct (lookup_lt_is_Some_2 ls i Hi) as [q ->]. done.
Qed.

Lemma elem_of_concat_row ls x : x ∈ concat ls ↔ ∃ i, x ∈ row ls i.
Proof.
  unfold row. rewrite list_elem_of_In, in_concat. split.
  - intros (q & Hq%list_elem_of_In & Hx%list_elem_of_In).
    apply list_elem_of_lookup in Hq as [i Hi]. exists i. by rewrite Hi.
  - intros [i Hx]. destruct (ls !! i) as [q|] eqn:Hi; [|by apply elem_of_nil in Hx].
    exists q. rewrite <- !list_elem_of_In. split; [|done].
    apply list_elem_of_lookup. eauto.
Qed.

Lemma floor_ix_lt z : 0 ≤ z < MAX_FLOOR → (floor_ix z < 10)%nat.
Proof. unfold floor_ix, MAX_FLOOR. lia. Qed.

Lemma floor_ix_id z : 0 ≤ z → Z.of_nat (floor_ix z) = z.
Proof. unfold floor_ix. lia. Qed.
End Rows.

Create HintDb elev.
#[export] Hint Resolve floor_ix_lt : elev.

(** ** Counters *)

Definition ind (t t' : P_TYPE) : Z := if bool_decide (t = t') then 1 else 0.

Section Counters.
Lemma switch_type_valid {A} t (count : Z → Z → Z → Z → A → A) d :
  0 ≤ t ≤ 3 → switch_type t count d =
    count (ind t ADULT * d) (ind t CHILD * d) (ind t ROOM * d) (ind t BELL * d).
Proof.
  intros Ht. unfold switch_type, ind, ADULT, CHILD, ROOM, BELL.
  assert (t = 0 ∨ t = 1 ∨ t = 2 ∨ t = 3) as [-> | [-> | [-> | ->]]] by lia;
    cbn [bool_decide decide decide_rel Z.eq_dec];
    repeat (rewrite bool_decide_eq_true_2 by done || rewrite bool_decide_eq_false_2 by done);
    by rewrite ?Z.mul_1_l, ?Z.mul_0_l.
Qed.

(** The sums of [q'] differ from those of [q] by [d] times passenger [p]. *)
Definition shifted (d : Z) (p : passenger) (q q' : list pent) : Prop :=
  weight q' = weight q + d * getWeight p ∧ units q' = units q + d * getPass p ∧
  ∀ t, tally t q' = tally t q + ind (type p) t * d.

Lemma shifted_snoc q x : shifted 1 x.2 q (q ++ [x]).
Proof.
  unfold shifted, weight, units, tally, ind. rewrite !zsum_snoc. split_and!; [lia..|].
  intros t. rewrite zsum_snoc. lia.
Qed.

Lemma shifted_remove l1 x l2 : shifted (-1) x.2 (l1 ++ x :: l2) (l1 ++ l2).
Proof.
  unfold shifted, weight, units, tally, ind. rewrite !zsum_middle. split_and!; [lia..|].
  intros t. rewrite zsum_middle. lia.
Qed.

(** A change of one row changes the whole table the same way. *)
Lemma shifted_concat d p ls i q' :
  (i < length ls)%nat → shifted d p (row ls i) q' →
  shifted d p (concat ls) (concat (<[i:=q']> ls)).
Proof.
  intros Hi (Hw & Hu & Ht). unfold shifted, weight, units, tally in *.
  pose proof (λ g, zsum_concat_insert g ls i (row ls i) q' (row_lookup _ _ Hi)) as Hc.
  rewrite !Hc. split_and!; [lia..|]. intros t. rewrite Hc. specialize (Ht t). lia.
Qed.

(** The updates of a floor's record, for any order of its two steps. *)
Lemma floor_of_shifted d p i q q' s :
  shifted d p q q' → 0 ≤ type p ≤ 3 →
  switch_type (type p) f_count d
    (f_load (d * getWeight p) (d * getPass p) (floor_of i q s)) = floor_of i q' s.
Proof.
  intros (Hw & Hu & Ht) Hv. rewrite switch_type_valid by done.
  unfold f_count, f_load, floor_of; cbn. rewrite !wrap32_add_l, Hw, Hu, !Ht. done.
Qed.

Lemma f_load_count_comm dw dp t d x :
  0 ≤ t ≤ 3 → f_load dw dp (switch_type t f_count d x) = switch_type t f_count d (f_load dw dp x).
Proof. intros Ht. by rewrite !switch_type_valid by done. Qed.

Lemma e_load_count_comm dw dp t d x :
  0 ≤ t ≤ 3 → e_load dw dp (switch_type t e_count d x) = switch_type t e_count d (e_load dw dp x).
Proof. intros Ht. by rewrite !switch_type_valid by done. Qed.

Lemma elevator_of_shifted d p a a' :
  shifted d p (concat (onboard a)) (concat (onboard a')) → 0 ≤ type p ≤ 3 →
  a_status a' = a_status a → a_current a' = a_current a → a_next a' = a_next a →
  a_shutdown a' = a_shutdown a → a_direction a' = a_direction a →
  switch_type (type p) e_count d
    (e_load (d * getWeight p) (d * getPass p) (elevator_of a)) = elevator_of a'.
Proof.
  intros (Hw & Hu & Ht) Hv E1 E2 E3 E4 E5. rewrite switch_type_valid by done.
  unfold e_count, e_load, elevator_of; cbn.
  rewrite !wrap32_add_l, Hw, Hu, !Ht, E1, E2, E3, E4, E5. done.
Qed.

Lemma f_serve_floor_of i q s : f_serve (floor_of i q s) = floor_of i q (s +i 1).
Proof. done. Qed.
End Counters.

(** ** Rules for the memory accesses *)

Section Access.
Context {LA : ListApi node}.
Implicit Types (w : world).

Lemma wp_deref w l p (Q : passenger → world → Prop) :
  heap w !! l = Some p → Q p w → wp (deref l) Q w.
Proof. intros H HQ. unfold wp, deref. by rewrite H. Qed.

Lemma wp_kfree w l p (Q : unit → world → Prop) :
  heap w !! l = Some p → Q tt (set_heap (delete l (heap w)) w) → wp (kfree l) Q w.
Proof. intros H HQ. unfold wp, kfree. by rewrite H. Qed.

Lemma wp_idx w i (Q : nat → world → Prop) :
  0 ≤ i < MAX_FLOOR → Q (floor_ix i) w → wp (idx i) Q w.
Proof. intros H HQ. unfold idx. by rewrite decide_True by done. Qed.

Lemma wp_live w n (Q : unit → world → Prop) :
  (∀ l, n = PN l → is_Some (heap w !! l)) → Q tt w → wp (live n) Q w.
Proof.
  intros H HQ. unfold wp, live. destruct n as [i|i|l]; try done.
  destruct (H l eq_refl) as [p ->]. done.
Qed.

Lemma wp_upd_f w i x g (Q : unit → world → Prop) :
  b_f (w_b w) !! i = Some x →
  Q tt (set_b (Building (<[i := g x]> (b_f (w_b w))) (b_e (w_b w))) w) →
  wp (upd_f i g) Q w.
Proof. intros H HQ. unfold wp, upd_f. by rewrite H. Qed.

Lemma wp_get_f w i x (Q : floors → world → Prop) :
  b_f (w_b w) !! i = Some x → Q x w → wp (get_f i) Q w.
Proof. intros H HQ. unfold wp, get_f. by rewrite H. Qed.

Lemma wp_load_be w p (Q : elevator_ptr → world → Prop) :
  b_e (w_b w) = Some p → Q p w → wp load_be Q w.
Proof. intros H HQ. unfold wp, load_be. by rewrite H. Qed.

Lemma wp_do_add_tail w l h (Q : unit → world → Prop) :
  is_Some (heap w !! l) → Q tt (set_links (list_add_tail (PN l) h (links w)) w) →
  wp (do_add_tail (PN l) h) Q w.
Proof.
  intros H HQ. apply wp_bind, wp_live; [by intros ? [= <-]|]. exact HQ.
Qed.

Lemma wp_do_del w l (Q : unit → world → Prop) :
  is_Some (heap w !! l) → Q tt (set_links (list_del (PN l) (links w)) w) →
  wp (do_del (PN l)) Q w.
Proof.
  intros H HQ. apply wp_bind, wp_live; [by intros ? [= <-]|]. exact HQ.
Qed.

Lemma wp_do_move_tail w l h (Q : unit → world → Prop) :
  is_Some (heap w !! l) → Q tt (set_links (list_move_tail (PN l) h (links w)) w) →
  wp (do_move_tail (PN l) h) Q w.
Proof.
  intros H HQ. apply wp_bind, wp_live; [by intros ? [= <-]|]. exact HQ.
Qed.
End Access.

(** ** The queues in memory *)

Section Lists.
Context {LA : ListApi node} {LL : ListLaws LA}.
Implicit Types (w : world) (a : astate) (L : gmap loc passenger).

Lemma nodes_of_app q1 q2 : nodes_of (q1 ++ q2) = nodes_of q1 ++ nodes_of q2.
Proof. apply fmap_app. Qed.

Lemma elem_of_entries a h l :
  PN l ∈ entries a h → ∃ p, listed a (l, p).
Proof.
  unfold listed. destruct h as [i|i|]; cbn; [..|by intros ?%elem_of_nil].
  all: intros ([l' p] & [= ->] & Hx)%list_elem_of_fmap; eauto.
Qed.

Lemma entries_not_head a h n : n ∈ entries a h → ¬ is_head n.
Proof.
  destruct h as [i|i|]; cbn; [..|by intros ?%elem_of_nil].
  all: intros (x & -> & Hx)%list_elem_of_fmap; cbn; tauto.
Qed.

Lemma rep_extra_unlinked L w a l p :
  rep L w a → L !! l = Some p → unlinked is_head (entries a) (PN l).
Proof.
  intros R HL. split; [by intros []|]. intros h _ [q Hl]%elem_of_entries.
  pose proof (rep_disj _ _ _ R _ Hl) as Hn. cbn in Hn. congruence.
Qed.

Lemma rep_extra_heap L w a l p : rep L w a → L !! l = Some p → heap w !! l = Some p.
Proof. intros R HL. eapply lookup_weaken; [exact HL|apply (rep_extra _ _ _ R)]. Qed.

Lemma listed_waiting a i l1 x l2 : row (waiting a) i = l1 ++ x :: l2 → listed a x.
Proof. intros E. exists i. left. rewrite E. set_solver. Qed.
Lemma listed_onboard a i l1 x l2 : row (onboard a) i = l1 ++ x :: l2 → listed a x.
Proof. intros E. exists i. right. rewrite E. set_solver. Qed.

Lemma listed_lt L w a i x :
  rep L w a → x ∈ row (waiting a) i ∨ x ∈ row (onboard a) i → (i < 10)%nat.
Proof.
  intros R Hx. destruct (decide (i < 10)%nat) as [|Hi]; [done|].
  unfold row in Hx. rewrite !lookup_ge_None_2 in Hx
    by (rewrite ?(rep_waiting_len _ _ _ R), ?(rep_onboard_len _ _ _ R); lia).
  cbn in Hx. rewrite elem_of_nil in Hx. tauto.
Qed.

(** No object is on two lists, or twice on one. *)
Lemma rep_row_nodup L w a h :
  rep L w a → is_head h → NoDup (h :: entries a h).
Proof. intros R Hh. apply (ring_nodup (links w)), (rings_ring _ _ _ (rep_rings _ _ _ R)), Hh. Qed.

Lemma rep_addr_inj L w a x y :
  rep L w a → listed a x → listed a y → x.1 = y.1 → x = y.
Proof.
  intros R Hx Hy E. apply (rep_heap _ _ _ R) in Hx, Hy. rewrite E in Hx.
  destruct x, y; cbn in *. congruence.
Qed.

Lemma is_empty_row L w a h :
  rep L w a → is_head h → list_empty h (links w) = bool_decide (entries a h = []).
Proof.
  intros R Hh. pose proof (ring_empty _ _ _ (rings_ring _ _ _ (rep_rings _ _ _ R) h Hh)).
  destruct (list_empty h (links w)); case_bool_decide; naive_solver.
Qed.

Lemma nodes_of_nil q : nodes_of q = [] ↔ q = [].
Proof. by destruct q. Qed.
End Lists.

(** ** addPass, delPass, movePass *)

Section PassengerOps.
Context {LA : ListApi node} {LL : ListLaws LA}.
Implicit Types (w : world) (a : astate) (L : gmap loc passenger) (x : pent).

Lemma listed_add a x y :
  (floor_ix (s_floor x.2) < length (waiting a))%nat →
  listed (a_add x a) y ↔ listed a y ∨ y = x.
Proof.
  intros Hi. unfold listed, a_add; cbn. setoid_rewrite row_insert; [|done..]. split.
  - intros [j [Hj|Hj]]; [|eauto]. case_decide; subst; [|eauto].
    apply elem_of_app in Hj as [?| ->%list_elem_of_singleton]; eauto.
  - intros [[j Hj]| ->].
    + exists j. case_decide; subst; [|done]. rewrite elem_of_app. tauto.
    + exists (floor_ix (s_floor x.2)). rewrite decide_True by done. set_solver.
Qed.

(** [a_add] touches one queue only. *)
Lemma entries_add a x h :
  (floor_ix (s_floor x.2) < length (waiting a))%nat →
  fupd (entries a) (FW (floor_ix (s_floor x.2)))
    (entries a (FW (floor_ix (s_floor x.2))) ++ [PN x.1]) h = entries (a_add x a) h.
Proof.
  intros Hi. unfold fupd, a_add. case_decide as E; subst; cbn.
  - rewrite row_insert, decide_True by done. by rewrite nodes_of_app.
  - destruct h as [j|j|j]; try done. cbn. rewrite row_insert, decide_False by (done || congruence).
    done.
Qed.

Theorem addPass_refines L w a l p :
  rep L w a → L !! l = Some p → valid_pass p →
  wp (addPass l) (λ _ w', rep (delete l L) w' (a_add (l, p) a)) w.
Proof.
  intros R HL Hv. pose proof (rep_extra_heap _ _ _ _ _ R HL) as Hp.
  pose proof (valid_weight p Hv). pose proof (valid_units p Hv). pose proof Hv as (Ht & Hs & Hd).
  pose proof (floor_ix_lt _ Hs) as Hi. set (i := floor_ix (s_floor p)) in *.
  pose proof R as [Hwl Hol Hsl He Hbe Hfl Hf Hr Hheap Hex Hdom Hdj].
  destruct (lookup_lt_is_Some_2 (served a) i) as [sv Hsv]; [lia|].
  pose proof (Hf _ _ Hsv) as Hfi.
  unfold addPass. apply wp_bind, (wp_deref _ _ p); [done|].
  rewrite !bool_decide_eq_false_2 by lia; cbn [orb].
  apply wp_bind, wp_idx; [done|]. fold i.
  apply wp_bind, wp_do_add_tail; [by eexists|].
  apply wp_bind. eapply wp_upd_f; [exact Hfi|].
  eapply wp_upd_f; [cbn; apply list_lookup_insert_eq; lia|]. cbn.
  rewrite list_insert_insert_eq.
  pose proof (floor_of_shifted 1 p i _ _ sv (shifted_snoc (row (waiting a) i) (l, p)) Ht) as Hfo.
  rewrite !Z.mul_1_l in Hfo. rewrite Hfo.
  split; cbn; fold i; try done; rewrite ?length_insert; try done.
  - intros j s Hj. rewrite row_insert by lia. destruct (decide (j = i)) as [->|].
    + rewrite list_lookup_insert_eq by lia. congruence.
    + rewrite list_lookup_insert_ne by done. auto.
  - eapply rings_ext; [eapply (rings_add _ _ _ (FW i)); [exact Hr|done|]|].
    + by eapply rep_extra_unlinked.
    + intros h _. apply (entries_add a (l, p)). cbn. lia.
  - intros x [Hx| ->]%listed_add; [auto|done|cbn; lia].
  - etrans; [apply delete_subseteq|done].
  - intros l' p' Hl'. rewrite listed_add by (cbn; lia).
    destruct (decide (l' = l)) as [->|]; [left; right; congruence|].
    rewrite lookup_delete_ne by done. destruct (Hdom _ _ Hl'); tauto.
  - intros x [Hx| ->]%listed_add; [|apply lookup_delete_eq|cbn; lia].
    destruct (decide (x.1 = l)) as [->|]; [apply lookup_delete_eq|].
    rewrite lookup_delete_ne by done. auto.
Qed.

(** *** delPass *)

Lemma listed_leave L w a i l1 x l2 y :
  rep L w a → row (onboard a) i = l1 ++ x :: l2 →
  listed (a_leave i x (l1 ++ l2) a) y ↔ listed a y ∧ y.1 ≠ x.1.
Proof.
  intros R E. assert (Hi : (i < 10)%nat) by (eapply (listed_lt _ _ _ _ x R); rewrite E; set_solver).
  pose proof (rep_rings _ _ _ R) as [_ _ Hd].
  pose proof (rep_row_nodup _ _ _ (EP i) R Hi) as [_ Hnd]%NoDup_cons.
  pose proof (rep_onboard_len _ _ _ R) as Hlen.
  assert (Hin : PN x.1 ∈ entries a (EP i)).
  { cbn. rewrite E. apply list_elem_of_fmap. exists x. set_solver. }
  unfold listed, a_leave; cbn. setoid_rewrite row_insert; [|lia..]. split.
  - intros [j Hj]. assert (Hj' : y ∈ row (waiting a) j ∨ y ∈ row (onboard a) j).
    { destruct Hj as [?|Hj]; [tauto|]. case_decide; subst; [|tauto]. right.
      rewrite E. set_solver. }
    pose proof (listed_lt _ _ _ _ _ R Hj'). split; [by exists j|]. intros Heq.
    destruct Hj as [Hj|Hj].
    + assert (EP i = FW j); [|done]. eapply Hd; [done..|exact Hin|].
      cbn. rewrite <- Heq. apply list_elem_of_fmap. eauto.
    + case_decide as Hij; subst.
      * cbn in Hnd. rewrite E, nodes_of_app in Hnd. apply NoDup_app in Hnd as (_ & Hnd1 & Hnd2).
        cbn in Hnd1, Hnd2. apply NoDup_cons in Hnd2 as [Hnd2 _].
        apply elem_of_app in Hj as [Hj|Hj].
        -- eapply (Hnd1 (PN y.1)); [apply list_elem_of_fmap; eauto|]. rewrite Heq. left.
        -- apply Hnd2. rewrite <- Heq. apply list_elem_of_fmap. eauto.
      * assert (EP i = EP j) as [= ->]; [|done]. eapply Hd; [done..|exact Hin|].
        cbn. rewrite <- Heq. apply list_elem_of_fmap. eauto.
  - intros [[j Hj] Hne]. exists j. case_decide; subst; [|done].
    destruct Hj as [?|Hj]; [tauto|]. rewrite E in Hj. right.
    rewrite elem_of_app, elem_of_cons in Hj. rewrite elem_of_app. naive_solver.
Qed.

Lemma entries_leave a i x rest h :
  (i < length (onboard a))%nat →
  fupd (entries a) (EP i) (nodes_of rest) h = entries (a_leave i x rest a) h.
Proof.
  intros Hi. unfold fupd, a_leave. case_decide as E; subst; cbn.
  - by rewrite row_insert, decide_True by done.
  - destruct h as [j|j|j]; try done. cbn. by rewrite row_insert, decide_False by (done || congruence).
Qed.

Theorem delPass_refines L w a i l1 x l2 :
  rep L w a → row (onboard a) i = l1 ++ x :: l2 → valid_pass x.2 →
  wp (delPass x.1) (λ _ w', rep L w' (a_leave i x (l1 ++ l2) a)) w.
Proof.
  intros R E Hv. destruct x as [l p]; cbn in *.
  pose proof (valid_weight p Hv). pose proof (valid_units p Hv). pose proof Hv as (Ht & Hs & Hd).
  assert (Hi : (i < 10)%nat) by (eapply (listed_lt _ _ _ _ (l, p) R); rewrite E; set_solver).
  pose proof (floor_ix_lt _ Hs) as Hsi. set (s := floor_ix (s_floor p)) in *.
  pose proof (listed_onboard _ _ _ _ _ E) as Hlist.
  pose proof (λ y, listed_leave L w a i l1 (l, p) l2 y R E) as Hlv.
  pose proof R as [Hwl Hol Hsl He Hbe Hfl Hf Hr Hheap Hex Hdom Hdj].
  pose proof (Hheap _ Hlist) as Hp. cbn in Hp.
  destruct (lookup_lt_is_Some_2 (served a) s) as [sv Hsv]; [lia|].
  unfold delPass. apply wp_bind, (wp_deref _ _ p); [done|].
  rewrite !bool_decide_eq_false_2 by lia; cbn [orb].
  apply wp_bind, (wp_load_be _ Addr_e); [done|].
  apply wp_bind, wp_modify, wp_bind, wp_modify, wp_bind, wp_idx; [done|]. fold s.
  apply wp_bind. eapply wp_upd_f; [cbn; exact (Hf _ _ Hsv)|].
  apply wp_bind, wp_do_del; [by eexists|].
  eapply wp_kfree; [exact Hp|]. cbn.
  split; cbn; try done; rewrite ?length_insert; try done.
  - unfold serve. by rewrite length_alter.
  - rewrite He, e_load_count_comm by done.
    etrans; [|apply (elevator_of_shifted (-1) p a); try done].
    + assert (Hm : ∀ z, -1 * z = - z) by lia. by rewrite (Hm (getWeight p)), (Hm (getPass p)).
    + apply (shifted_concat (-1)); [lia|]. rewrite E. apply (shifted_remove l1 (l, p) l2).
  - intros j sv' Hj. unfold serve in Hj. fold s in Hj. destruct (decide (j = s)) as [->|].
    + rewrite list_lookup_alter_eq, Hsv in Hj. cbn in Hj. simplify_eq.
      rewrite list_lookup_insert_eq by lia. done.
    + rewrite list_lookup_alter_ne in Hj by done. rewrite list_lookup_insert_ne by done. auto.
  - eapply rings_ext; [eapply (rings_del _ _ _ (EP i) (nodes_of l1) (PN l) (nodes_of l2)); [exact Hr|done|]|].
    + cbn. rewrite E. apply nodes_of_app.
    + intros h _. rewrite <- nodes_of_app. apply entries_leave. lia.
  - intros y [Hy Hne]%Hlv. rewrite lookup_delete_ne by done. auto.
  - apply map_subseteq_spec. intros l' p' Hl'.
    rewrite lookup_delete_ne; [eapply lookup_weaken; eauto|].
    intros <-. pose proof (Hdj _ Hlist) as Hn. cbn in Hn. congruence.
  - intros l' p' [Hne Hl']%lookup_delete_Some. destruct (Hdom _ _ Hl') as [Hl|]; [|tauto].
    left. apply Hlv. split; [done|]. cbn. congruence.
  - intros y [Hy Hne]%Hlv. auto.
Qed.
End PassengerOps.

(** *** movePass *)

Section MovePass.
Context {LA : ListApi node} {LL : ListLaws LA}.
Implicit Types (w : world) (a : astate) (L : gmap loc passenger) (x : pent).

Lemma listed_board a i l1 x l2 y :
  (i < length (waiting a))%nat → (floor_ix (d_floor x.2) < length (onboard a))%nat →
  row (waiting a) i = l1 ++ x :: l2 →
  listed (a_board i x (l1 ++ l2) a) y ↔ listed a y.
Proof.
  intros Hi Hd E. unfold listed, a_board; cbn.
  setoid_rewrite row_insert; [|done..]. split.
  - intros [j [Hj|Hj]]; case_decide; subst; try by eauto.
    + exists i. left. rewrite E. set_solver.
    + apply elem_of_app in Hj as [?| ->%list_elem_of_singleton]; [by eauto|].
      exists i. left. rewrite E. set_solver.
  - intros [j [Hj|Hj]].
    + destruct (decide (j = i)) as [->|]; [|exists j; left; by rewrite decide_False].
      rewrite E, elem_of_app, elem_of_cons in Hj. destruct Hj as [Hj|[->|Hj]].
      * exists i. left. rewrite decide_True by done. set_solver.
      * exists (floor_ix (d_floor x.2)). right. rewrite decide_True by done. set_solver.
      * exists i. left. rewrite decide_True by done. set_solver.
    + exists j. right. case_decide; subst; [|done]. set_solver.
Qed.

Lemma entries_board a i x rest h :
  (i < length (waiting a))%nat → (floor_ix (d_floor x.2) < length (onboard a))%nat →
  fupd (fupd (entries a) (FW i) (nodes_of rest)) (EP (floor_ix (d_floor x.2)))
    (entries a (EP (floor_ix (d_floor x.2))) ++ [PN x.1]) h
  = entries (a_board i x rest a) h.
Proof.
  intros Hi Hd. unfold fupd, a_board. repeat case_decide; subst; cbn; try done.
  - rewrite row_insert, decide_True by done. by rewrite nodes_of_app.
  - by rewrite row_insert, decide_True by done.
  - destruct h as [j|j|j]; try done; cbn;
      by rewrite row_insert, decide_False by (done || congruence).
Qed.

Theorem movePass_refines L w a l1 x l2 :
  let i := floor_ix (s_floor x.2) in
  rep L w a → row (waiting a) i = l1 ++ x :: l2 → valid_pass x.2 →
  wp (movePass x.1) (λ _ w', rep L w' (a_board i x (l1 ++ l2) a)) w.
Proof.
  intros i R E Hv. destruct x as [l p]; cbn in *.
  pose proof (valid_weight p Hv). pose proof (valid_units p Hv). pose proof Hv as (Ht & Hs & Hd).
  pose proof (floor_ix_lt _ Hs) as Hi. pose proof (floor_ix_lt _ Hd) as Hdi. fold i in Hi.
  pose proof (listed_waiting _ _ _ _ _ E) as Hlist.
  pose proof R as [Hwl Hol Hsl He Hbe Hfl Hf Hr Hheap Hex Hdom Hdj].
  pose proof (λ y, listed_board a i l1 (l, p) l2 y ltac:(lia) ltac:(cbn; lia) E) as Hb.
  pose proof (Hheap _ Hlist) as Hp. cbn in Hp.
  destruct (lookup_lt_is_Some_2 (served a) i) as [sv Hsv]; [lia|].
  assert (Hm : ∀ z, -1 * z = - z) by lia.
  unfold movePass. apply wp_bind, (wp_deref _ _ p); [done|].
  rewrite !bool_decide_eq_false_2 by lia; cbn [orb].
  apply wp_bind, (wp_load_be _ Addr_e); [done|].
  apply wp_bind, wp_idx; [done|]. fold i.
  apply wp_bind. eapply wp_upd_f; [exact (Hf _ _ Hsv)|].
  apply wp_bind, wp_modify, wp_bind.
  eapply wp_upd_f; [cbn; apply list_lookup_insert_eq; lia|].
  apply wp_bind, wp_modify, wp_bind, wp_idx; [done|].
  apply wp_do_move_tail; [by eexists|]. cbn. rewrite list_insert_insert_eq.
  pose proof (floor_of_shifted (-1) p i _ _ sv (shifted_remove l1 (l, p) l2) Ht) as Hfo.
  rewrite (Hm (getWeight p)), (Hm (getPass p)) in Hfo.
  rewrite f_load_count_comm, E, Hfo by done.
  split; cbn; try done; rewrite ?length_insert; try done.
  - rewrite He, e_load_count_comm by done.
    etrans; [|apply (elevator_of_shifted 1 p a); try done].
    + by rewrite (Z.mul_1_l (getWeight p)), (Z.mul_1_l (getPass p)).
    + apply (shifted_concat 1); [cbn; lia|]. apply (shifted_snoc _ (l, p)).
  - intros j s Hj. rewrite row_insert by lia. destruct (decide (j = i)) as [->|].
    + rewrite list_lookup_insert_eq by lia. congruence.
    + rewrite list_lookup_insert_ne by done. auto.
  - eapply rings_ext;
      [eapply (rings_move _ _ _ (FW i) (nodes_of l1) (PN l) (nodes_of l2)
                (EP (floor_ix (d_floor p)))); [exact Hr|done..|]|].
    + cbn. fold i. rewrite E. apply nodes_of_app.
    + intros h _. rewrite <- nodes_of_app. apply (entries_board a i (l, p)); cbn; lia.
  - intros y Hy%Hb. auto.
  - intros l' p' Hl'. rewrite Hb. auto.
  - intros y Hy%Hb. auto.
Qed.
End MovePass.

(** ** The predicates *)

Section Checks.
Context {LA : ListApi node} {LL : ListLaws LA}.
Implicit Types (w : world) (a : astate) (L : gmap loc passenger).

(** Reading whether a queue is empty. *)
Lemma wp_is_empty_FW L w a i (Q : bool → world → Prop) :
  rep L w a → (i < 10)%nat → Q (bool_decide (row (waiting a) i = [])) w →
  wp (is_empty (FW i)) Q w.
Proof.
  intros R Hi HQ. apply wp_gets. rewrite (is_empty_row L w a (FW i)) by done. cbn.
  by rewrite (bool_decide_ext _ _ (nodes_of_nil _)).
Qed.

Lemma wp_is_empty_EP L w a i (Q : bool → world → Prop) :
  rep L w a → (i < 10)%nat → Q (bool_decide (row (onboard a) i = [])) w →
  wp (is_empty (EP i)) Q w.
Proof.
  intros R Hi HQ. apply wp_gets. rewrite (is_empty_row L w a (EP i)) by done. cbn.
  by rewrite (bool_decide_ext _ _ (nodes_of_nil _)).
Qed.

Definition a_anyone (ls : list (list pent)) : bool := bool_decide (concat ls ≠ []).

Lemma any_nonempty_refines L w a (h : nat → node) (ls : list (list pent)) n k :
  rep L w a → (k + n ≤ 10)%nat → (∀ i, (i < 10)%nat → is_head (h i)) →
  (∀ i, entries a (h i) = nodes_of (row ls i)) →
  wp (any_nonempty (h <$> seq k n))
    (λ r w', w' = w ∧ r = existsb (λ i, negb (bool_decide (row ls i = []))) (seq k n)) w.
Proof.
  intros R Hk Hh E. revert k Hk. induction n as [|n IH]; intros k Hk; cbn; [done|].
  apply wp_bind, wp_gets. rewrite (is_empty_row L w a (h k)) by (auto with lia).
  rewrite E, (bool_decide_ext _ _ (nodes_of_nil _)).
  case_bool_decide; cbn; [|done]. apply IH. lia.
Qed.

Lemma existsb_rows ls :
  existsb (λ i, negb (bool_decide (row ls i = []))) (seq 0 (length ls)) = a_anyone ls.
Proof.
  unfold a_anyone. apply eq_bool_prop_intro.
  rewrite bool_decide_spec, Is_true_true, existsb_exists. split.
  - intros (i & _ & Hi). apply negb_true_iff, bool_decide_eq_false in Hi.
    destruct (row ls i) as [|x q] eqn:E; [done|]. intros Hc.
    assert (Hx : x ∈ concat ls) by (apply elem_of_concat_row; exists i; rewrite E; left).
    rewrite Hc in Hx. by apply elem_of_nil in Hx.
  - intros Hne. destruct (concat ls) as [|x q] eqn:E; [done|].
    assert (Hx : x ∈ concat ls) by (rewrite E; left).
    apply elem_of_concat_row in Hx as [i Hi]. exists i. split.
    + apply in_seq. destruct (decide (i < length ls)%nat); [lia|].
      unfold row in Hi. rewrite lookup_ge_None_2 in Hi by lia. by apply elem_of_nil in Hi.
    + apply negb_true_iff, bool_decide_eq_false. intros Hn. rewrite Hn in Hi.
      by apply elem_of_nil in Hi.
Qed.

Lemma checkBuilding_refines L w a :
  rep L w a → wp checkBuilding (λ r w', w' = w ∧ r = a_anyone (waiting a)) w.
Proof.
  intros R. unfold checkBuilding. rewrite <- existsb_rows, (rep_waiting_len _ _ _ R).
  by eapply any_nonempty_refines.
Qed.

Lemma checkElevator_refines L w a :
  rep L w a → wp checkElevator (λ r w', w' = w ∧ r = a_anyone (onboard a)) w.
Proof.
  intros R. unfold checkElevator. rewrite <- existsb_rows, (rep_onboard_len _ _ _ R).
  by eapply any_nonempty_refines.
Qed.

Lemma checkFloor_refines L w a i :
  rep L w a → 0 ≤ i < MAX_FLOOR →
  wp (checkFloor i)
    (λ r w', w' = w ∧ r = negb (bool_decide (row (waiting a) (floor_ix i) = []))) w.
Proof.
  intros R Hi. unfold checkFloor. apply wp_bind, wp_idx; [done|].
  apply wp_bind. eapply wp_is_empty_FW; [done|auto with elev|]. done.
Qed.
End Checks.

(** ** Initialisation *)

Section Init.
Context {LA : ListApi node} {LL : ListLaws LA}.
Implicit Types (w : world) (L : gmap loc passenger).

(** Initialising a head keeps the other empty lists empty. *)
Definition empty_lists (hs : node → Prop) (m : lmem node) : Prop := ∀ h, hs h → ring m h [].

Lemma empty_lists_init (hs : node → Prop) m n :
  empty_lists hs m → empty_lists (λ h, h = n ∨ hs h) (INIT_LIST_HEAD n m).
Proof.
  intros H h [->|Hh]; [apply ring_init|].
  destruct (decide (h = n)) as [->|Hne]; [apply ring_init|].
  apply ring_init_frame; [auto|]. rewrite list_elem_of_singleton. congruence.
Qed.

Definition heads_up_to (ne nf : nat) (h : node) : Prop :=
  match h with EP i => (i < ne)%nat | FW i => (i < nf)%nat | PN _ => False end.

Lemma empty_lists_mono (P P' : node → Prop) m :
  empty_lists P m → (∀ h, P' h → P h) → empty_lists P' m.
Proof. unfold empty_lists. auto. Qed.

Lemma row_replicate n i : row (replicate n []) i = [].
Proof.
  unfold row. destruct (replicate n [] !! i) eqn:E; [|done].
  by apply lookup_replicate in E as [-> _].
Qed.

Lemma init_not_listed x : ¬ listed a_init x.
Proof.
  intros [i Hi]. unfold a_init in Hi; cbn [waiting onboard] in Hi.
  rewrite !row_replicate in Hi. destruct Hi as [?%elem_of_nil|?%elem_of_nil]; done.
Qed.

Theorem init_refines w :
  length (b_f (w_b w)) = 10%nat →
  wp (initElevator ;; initBuilding) (λ _ w', rep (heap w) w' a_init) w.
Proof.
  intros Hlen. unfold initElevator, initBuilding.
  apply wp_bind, wp_bind.
  eapply wp_mono; [apply (wp_for_range 10 _ (λ k w', heap w' = heap w ∧ w_b w' = w_b w ∧
    empty_lists (heads_up_to k 0) (links w')))|].
  { intros k w' Hk (E1 & E2 & He). apply wp_modify. split_and!; [done..|].
    eapply empty_lists_mono; [by apply empty_lists_init|].
    intros [i|i|i]; cbn; try lia. intros Hi. destruct (decide (i = k)); [left; congruence|right; lia]. }
  { split_and!; [done..|]. intros [i|i|i]; cbn; lia. }
  intros _ w1 (E1 & E2 & He1). apply wp_modify.
  set (w2 := set_e _ w1). assert (Hw2 : w_e w2 = elevator_of a_init) by reflexivity.
  apply wp_bind.
  eapply wp_mono; [apply (wp_for_range 10 _ (λ k w', heap w' = heap w ∧
    w_e w' = elevator_of a_init ∧ length (b_f (w_b w')) = 10%nat ∧
    (∀ i, (i < k)%nat → b_f (w_b w') !! i = Some (floor_of i [] 0)) ∧
    empty_lists (heads_up_to 10 k) (links w')))|].
  { intros k w' Hk (F1 & F2 & F3 & F4 & He). apply wp_bind, wp_modify.
    destruct (lookup_lt_is_Some_2 (b_f (w_b w')) k) as [x Hx]; [lia|].
    eapply wp_upd_f; [exact Hx|]. split_and!; [done|done|cbn; by rewrite length_insert| |].
    - intros i Hi. cbn. destruct (decide (i = k)) as [->|].
      + by rewrite list_lookup_insert_eq by lia.
      + rewrite list_lookup_insert_ne by done. apply F4. lia.
    - cbn. eapply empty_lists_mono; [by apply empty_lists_init|].
      intros [i|i|i]; cbn; try tauto. intros Hi.
      destruct (decide (i = k)); [left; congruence|right; lia]. }
  { split_and!; [exact E1|done|cbn; by rewrite E2|lia|done]. }
  intros _ w3 (F1 & F2 & F3 & F4 & He3). apply wp_modify.
  split; try done.
  - intros i s Hs. cbn [waiting served a_init] in *. rewrite row_replicate. apply lookup_replicate in Hs as [-> Hi]. auto.
  - split.
    + intros h Hh. assert (entries a_init h = []) as ->.
      { destruct h; cbn [entries a_init waiting onboard]; by rewrite ?row_replicate. }
      apply He3. by destruct h.
    + intros h x Hh. destruct h; cbn [entries a_init waiting onboard];
        rewrite ?row_replicate; by intros ?%elem_of_nil.
    + intros h1 h2 x _ _. destruct h1; cbn [entries a_init waiting onboard];
        rewrite ?row_replicate; by intros ?%elem_of_nil.
  - by intros x ?%init_not_listed.
  - cbn. by rewrite F1.
  - cbn. rewrite F1. auto.
  - by intros x ?%init_not_listed.
Qed.
End Init.

(** ** Properties of the operations, on every branch *)

Section Properties.
Context {LA : ListApi node} {LL : ListLaws LA}.
Implicit Types (w : world) (a : astate) (L : gmap loc passenger).

Lemma weight_invalid p : ¬ (0 ≤ type p ≤ 3) → getWeight p = -1.
Proof.
  intros Ht. unfold getWeight, CHILD, ADULT, ROOM, BELL. repeat case_bool_decide; lia.
Qed.

Definition floors_in_range (p : passenger) : Prop :=
  0 ≤ s_floor p < MAX_FLOOR ∧ 0 ≤ d_floor p < MAX_FLOOR.

Lemma floors_type_valid p : floors_in_range p → 0 ≤ type p ≤ 3 → valid_pass p.
Proof. unfold floors_in_range, valid_pass. lia. Qed.

(** C13. [addPass] on a passenger object that is on no list: appended at the tail
    of its start floor's queue, whose counters grow by its weight, units and
    type; an object with an invalid type is left where it is. *)
Theorem addPass_spec L w a l p :
  rep L w a → L !! l = Some p → floors_in_range p →
  wp (addPass l) (λ _ w',
    (0 ≤ type p ≤ 3 → rep (delete l L) w' (a_add (l, p) a)) ∧
    (¬ (0 ≤ type p ≤ 3) → w' = w)) w.
Proof.
  intros R HL Hf. destruct (decide (0 ≤ type p ≤ 3)) as [Ht|Ht].
  - eapply wp_mono; [eapply addPass_refines; [done|done|by apply floors_type_valid]|].
    cbn. intros _ w' R'. by split.
  - unfold addPass. apply wp_bind, (wp_deref _ _ p); [by eapply rep_extra_heap|].
    rewrite (weight_invalid p Ht). by apply wp_ret.
Qed.

(** C14. [delPass] on a passenger on board, anywhere in its list: unlinked and
    freed, the counters of the elevator fall by its weight, units and type,
    and its start floor has serviced one more; an object with an invalid
    type is left where it is. *)
Theorem delPass_spec L w a i l1 l p l2 :
  rep L w a → row (onboard a) i = l1 ++ (l, p) :: l2 → floors_in_range p →
  wp (delPass l) (λ _ w',
    (0 ≤ type p ≤ 3 → rep L w' (a_leave i (l, p) (l1 ++ l2) a) ∧ heap w' !! l = None) ∧
    (¬ (0 ≤ type p ≤ 3) → w' = w)) w.
Proof.
  intros R E Hf. pose proof (listed_onboard _ _ _ _ _ E) as Hl.
  destruct (decide (0 ≤ type p ≤ 3)) as [Ht|Ht].
  - eapply wp_mono;
      [eapply (delPass_refines _ _ _ _ _ (l, p)); [done|exact E|by apply floors_type_valid]|].
    cbn. intros _ w' R'. split; [|done]. intros _. split; [done|].
    destruct (heap w' !! l) as [p'|] eqn:Hp; [|done].
    destruct (rep_dom _ _ _ R' _ _ Hp) as [Hl'|Hl'].
    + apply (listed_leave L w a i l1 (l, p) l2) in Hl' as [_ Hne]; done.
    + pose proof (rep_disj _ _ _ R _ Hl). cbn in *. congruence.
  - unfold delPass. apply wp_bind, (wp_deref _ _ p); [by apply (rep_heap _ _ _ R (l, p))|].
    rewrite (weight_invalid p Ht). by apply wp_ret.
Qed.

(** C15. [movePass] on a passenger waiting on its start floor, anywhere in the
    queue: moved to the tail of the list of its destination, its weight,
    units and type pass from the floor's counters to the elevator's; an
    object with an invalid type is left where it is. *)
Theorem movePass_spec L w a l1 l p l2 :
  rep L w a → row (waiting a) (floor_ix (s_floor p)) = l1 ++ (l, p) :: l2 → floors_in_range p →
  wp (movePass l) (λ _ w',
    (0 ≤ type p ≤ 3 → rep L w' (a_board (floor_ix (s_floor p)) (l, p) (l1 ++ l2) a)) ∧
    (¬ (0 ≤ type p ≤ 3) → w' = w)) w.
Proof.
  intros R E Hf. pose proof (listed_waiting _ _ _ _ _ E) as Hl.
  destruct (decide (0 ≤ type p ≤ 3)) as [Ht|Ht].
  - eapply wp_mono;
      [eapply (movePass_refines _ _ _ _ (l, p)); [done|exact E|by apply floors_type_valid]|].
    cbn. intros _ w' R'. by split.
  - unfold movePass. apply wp_bind, (wp_deref _ _ p); [by apply (rep_heap _ _ _ R (l, p))|].
    rewrite (weight_invalid p Ht). by apply wp_ret.
Qed.

(** [find] never returns a passenger: when it returns a pointer, that
    pointer is into the record of the current floor, whatever the queue
    holds. *)
Theorem find_returns_no_passenger L w a :
  rep L w a → 0 ≤ a_current a < MAX_FLOOR →
  wp find (λ o w', w' = w ∧
    (o = None ∨ o = Some (InFloor (floor_ix (a_current a)))) ∧
    (o ≠ None → row (waiting a) (floor_ix (a_current a)) ≠ []) ∧
    ∀ l, o ≠ Some (HeapPass l)) w.
Proof.
  intros R Hc. pose proof (floor_ix_lt _ Hc) as Hi.
  unfold find. apply wp_bind, (wp_load_be _ Addr_e); [apply (rep_be _ _ _ R)|].
  apply wp_bind, wp_gets. rewrite (rep_e _ _ _ R). cbn [current elevator_of].
  apply wp_bind, wp_idx; [done|].
  apply wp_bind. eapply wp_is_empty_FW; [done..|].
  case_bool_decide as E; cbn [negb]; [apply wp_ret; by split_and!; [..|left| |]|].
  destruct (lookup_lt_is_Some_2 (b_f (w_b w)) (floor_ix (a_current a))) as [x Hx];
    [by rewrite (rep_f_len _ _ _ R)|].
  apply wp_bind. eapply wp_get_f; [exact Hx|].
  destruct (canFit _ _ && _); apply wp_ret; split_and!; auto.
Qed.
End Properties.
