(* ===== verification/RunElevator.v ===== *)
(** * The elevator thread (runElevator, elevator.c lines 36-146)

    The body of the thread's loop is two critical sections: [load_section]
    (lines 51-95) unloads and loads at the current floor, [move_section] (lines
    102-140) moves to the next floor or changes the status.  Each is refined
    by a function on the abstract state. *)

From S2P Require Import Prelude KList ElevatorData ElevatorOps ElevatorSpec ElevatorRefine.

(** ** The code *)

Section Code.
Context {LA : ListApi node}.
Notation MW := (M world).

(** lines 60-71: everyone whose destination is here gets off *)
Definition unload_loop : MW unit :=
  e0 ← gets w_e;
  c ← idx (current e0);
  fuel ← gets heap_fuel;
  list_for_each_safe node_next
    (λ ptr,
      l ← entry ptr;
      p ← deref l;
      e ← gets w_e;
      when (bool_decide (d_floor p = current e)) (delPass l) ;;
      mret false)
    (EP c) fuel.

(** lines 76-91: the queue is loaded in order, until someone does not fit or
    goes the other way *)
Definition load_loop : MW unit :=
  e0 ← gets w_e;
  c ← idx (current e0);
  fuel ← gets heap_fuel;
  list_for_each_safe node_next
    (λ ptr,
      l ← entry ptr;
      p ← deref l;
      e ← gets w_e;
      if canFit p e && bool_decide (pDirection p = direction e) then
        when (bool_decide (s_floor p = current e)) (movePass l) ;;
        mret false
      else mret true)
    (FW c) fuel.

(** lines 51-95 *)
Definition load_section : MW unit :=
  e0 ← gets w_e;
  when (negb (bool_decide (status e0 = OFFLINE)))
    (c ← idx (current e0);
     wait_empty ← is_empty (FW c);
     here ← (if negb wait_empty then mret true
             else (on_empty ← is_empty (EP c); mret (negb on_empty)));
     when here
       (upd_e (set_status LOADING) ;;
        on_empty ← is_empty (EP c);
        when (negb on_empty) unload_loop ;;
        someone ← checkFloor (current e0);
        e1 ← gets w_e;
        when (someone && negb (bool_decide (shutdown e1 = 1))) load_loop)).

(** lines 117-138 *)
Definition move (e : elevator) : elevator :=
  if bool_decide (next e = 0) then
    set_status UP (set_direction 1 (set_position (next e) (next e +i 1) e))
  else if bool_decide (next e = 9) then
    set_status DOWN (set_direction 0 (set_position (next e) (next e -i 1) e))
  else if bool_decide (direction e = 1) then
    set_position (next e) (next e +i 1) (set_status UP e)
  else
    set_position (next e) (next e -i 1) (set_status DOWN e).

(** lines 102-140 *)
Definition move_section : MW unit :=
  e0 ← gets w_e;
  when (negb (bool_decide (status e0 = OFFLINE)))
    (waiting ← checkBuilding;
     servicing ← checkElevator;
     if negb servicing && negb waiting then upd_e (set_status IDLE)
     else if negb servicing && negb (bool_decide (shutdown e0 = 0)) then
       upd_e (set_status OFFLINE)
     else upd_e move).

(** One iteration of the loop, given the results [r1] and [r2] of its two
    calls of [mutex_lock_interruptible] (0 when the lock was taken). *)
Definition iteration (r1 r2 : Z) : MW unit :=
  when (bool_decide (r1 = 0)) load_section ;;
  mutex_unlock r1 ;;
  when (bool_decide (r2 = 0)) move_section ;;
  mutex_unlock r2.

(** [runElevator]: [should_stop k] is the result of the [k]-th call of
    [kthread_should_stop], [lock k] the results of the lock calls of the
    [k]-th iteration. *)
Fixpoint runElevator (should_stop : nat → bool) (lock : nat → Z * Z) (fuel k : nat)
  : MW Z :=
  if should_stop k then mret 0 else
  match fuel with
  | O => starve
  | S fuel =>
      iteration (lock k).1 (lock k).2 ;;
      runElevator should_stop lock fuel (S k)
  end.
End Code.

(** ** The calls of mutex_unlock *)

Section Unlocks.
Context {LA : ListApi node}.

Lemma keeps_load_section : keeps bad_unlocks load_section.
Proof.
  unfold load_section, unload_loop, load_loop.
  assert (∀ l, keeps bad_unlocks (delPass l)) by apply keeps_delPass.
  apply keeps_bind; [auto with keeps|]. intros e0. apply keeps_when, keeps_bind; [auto with keeps|].
  intros c. apply keeps_bind; [auto with keeps|]. intros we. apply keeps_bind.
  { case_match; auto 10 with keeps. }
  intros here. apply keeps_when, keeps_bind; [auto with keeps|]. intros _.
  apply keeps_bind; [auto with keeps|]. intros oe. apply keeps_bind.
  { apply keeps_when. do 3 (apply keeps_bind; [auto with keeps|]; intros ?).
    apply keeps_list_for_each_safe; auto 20 with keeps. }
  intros _. apply keeps_bind; [auto with keeps|]. intros someone.
  apply keeps_bind; [auto with keeps|]. intros e1. apply keeps_when.
  do 3 (apply keeps_bind; [auto with keeps|]; intros ?).
  apply keeps_list_for_each_safe; [auto with keeps|]. intros n.
  do 3 (apply keeps_bind; [auto with keeps|]; intros ?). case_match; auto with keeps.
Qed.

Lemma keeps_move_section : keeps bad_unlocks move_section.
Proof.
  unfold move_section, checkBuilding, checkElevator.
  apply keeps_bind; [auto with keeps|]. intros e0. apply keeps_when.
  do 2 (apply keeps_bind; [auto with keeps|]; intros ?).
  case_match; [auto with keeps|]. case_match; auto with keeps.
Qed.

(** The unlock call after a lock call that returned [r]. *)
Lemma wp_mutex_unlock r w (Q : unit → world → Prop) :
  Q tt (Nat.iter (interrupted r) count_bad_unlock w) → wp (mutex_unlock r) Q w.
Proof. unfold mutex_unlock, interrupted. by case_bool_decide. Qed.
End Unlocks.

(** ** The abstract thread *)

Fixpoint a_unload (c : nat) (q : list pent) (a : astate) : astate :=
  match q with
  | [] => a
  | x :: q => a_unload c q (a_leave c x q a)
  end.

(** Can [x] board now? *)
Definition boards (x : pent) (a : astate) : bool :=
  canFit x.2 (elevator_of a) && bool_decide (pDirection x.2 = a_direction a).

Fixpoint a_load (c : nat) (q : list pent) (a : astate) : astate :=
  match q with
  | [] => a
  | x :: q => if boards x a then a_load c q (a_board c x q a) else a
  end.

Definition here (a : astate) : nat := floor_ix (a_current a).

Definition a_load_section (a : astate) : astate :=
  if bool_decide (a_status a = OFFLINE) then a else
  if bool_decide (row (waiting a) (here a) = []) &&
     bool_decide (row (onboard a) (here a) = []) then a
  else
    let a1 := with_status LOADING a in
    let a2 := a_unload (here a) (row (onboard a1) (here a)) a1 in
    if bool_decide (row (waiting a2) (here a) ≠ []) && bool_decide (a_shutdown a2 ≠ 1)
    then a_load (here a) (row (waiting a2) (here a)) a2 else a2.

Definition a_move (a : astate) : astate :=
  if bool_decide (a_next a = 0) then
    with_status UP (with_position (a_next a) (a_next a +i 1) 1 a)
  else if bool_decide (a_next a = 9) then
    with_status DOWN (with_position (a_next a) (a_next a -i 1) 0 a)
  else if bool_decide (a_direction a = 1) then
    with_status UP (with_position (a_next a) (a_next a +i 1) (a_direction a) a)
  else
    with_status DOWN (with_position (a_next a) (a_next a -i 1) (a_direction a) a).

Definition a_move_section (a : astate) : astate :=
  if bool_decide (a_status a = OFFLINE) then a else
  if negb (a_anyone (onboard a)) && negb (a_anyone (waiting a)) then with_status IDLE a
  else if negb (a_anyone (onboard a)) && bool_decide (a_shutdown a ≠ 0) then
    with_status OFFLINE a
  else a_move a.

Definition a_iteration (a : astate) : astate := a_move_section (a_load_section a).

(** An iteration whose lock calls return [r1] and [r2]. *)
Definition a_attempt (r1 r2 : Z) (a : astate) : astate :=
  let a1 := if bool_decide (r1 = 0) then a_load_section a else a in
  if bool_decide (r2 = 0) then a_move_section a1 else a1.

(** ** The invariant of the abstract state *)

(** The elevator stands on a floor, the next floor is adjacent, on the side
    of its direction -- except right after a start, which resets the floor
    but not the direction. *)
Definition position_ok (c n d : Z) : Prop :=
  (d = 1 ∧ 0 ≤ c ≤ 8 ∧ n = c + 1) ∨ (d = 0 ∧ 1 ≤ c ≤ 9 ∧ n = c - 1) ∨
  (d = 0 ∧ c = 0 ∧ n = 1).

#[export] Instance position_ok_dec c n d : Decision (position_ok c n d).
Proof. apply _. Defined.

Record wf (a : astate) : Prop := {
  wf_waiting_len : length (waiting a) = 10%nat;
  wf_onboard_len : length (onboard a) = 10%nat;
  wf_served_len : length (served a) = 10%nat;
  wf_served i s : served a !! i = Some s → is_int s;
  wf_waiting i x : x ∈ row (waiting a) i → valid_pass x.2 ∧ floor_ix (s_floor x.2) = i;
  wf_onboard i x : x ∈ row (onboard a) i → valid_pass x.2 ∧ floor_ix (d_floor x.2) = i;
  wf_status : IDLE ≤ a_status a ≤ DOWN;
  wf_position : position_ok (a_current a) (a_next a) (a_direction a);
  wf_shutdown : a_shutdown a = 0 ∨ a_shutdown a = 1;
  wf_weight : weight (concat (onboard a)) ≤ MAX_W;
  wf_units : units (concat (onboard a)) ≤ MAX_P;
  wf_offline : a_status a = OFFLINE ∨ a_status a = IDLE → concat (onboard a) = [];
}.

Lemma position_here a : wf a → 0 ≤ a_current a < MAX_FLOOR.
Proof. intros W. pose proof (wf_position _ W). unfold position_ok, MAX_FLOOR in *. lia. Qed.

Lemma here_lt a : wf a → (here a < 10)%nat.
Proof. intros W. by apply floor_ix_lt, position_here. Qed.

#[export] Hint Resolve position_here here_lt : elev.

(** ** Preservation of the invariant *)

Section Wf.
Implicit Types (a : astate) (x : pent) (q : list pent).

Lemma onboard_valid a x : wf a → x ∈ concat (onboard a) → valid_pass x.2.
Proof. intros W [i Hi]%elem_of_concat_row. by eapply wf_onboard. Qed.

Lemma weight_nonneg q : (∀ x, x ∈ q → valid_pass x.2) → 0 ≤ weight q.
Proof. intros H. apply zsum_nonneg. intros x Hx%H%valid_weight. lia. Qed.
Lemma units_nonneg q : (∀ x, x ∈ q → valid_pass x.2) → 0 ≤ units q.
Proof. intros H. apply zsum_nonneg. intros x Hx%H%valid_units. lia. Qed.

Lemma wf_load_bounds a :
  wf a → 0 ≤ weight (concat (onboard a)) ≤ MAX_W ∧ 0 ≤ units (concat (onboard a)) ≤ MAX_P.
Proof.
  intros W. pose proof (wf_weight _ W). pose proof (wf_units _ W).
  pose proof (weight_nonneg _ (λ x, onboard_valid a x W)).
  pose proof (units_nonneg _ (λ x, onboard_valid a x W)). lia.
Qed.

Lemma wf_leave a i l1 x l2 :
  wf a → row (onboard a) i = l1 ++ x :: l2 → a_status a = LOADING →
  wf (a_leave i x (l1 ++ l2) a).
Proof.
  intros W E Hst. assert (Hi : (i < length (onboard a))%nat).
  { destruct (decide (i < length (onboard a))%nat) as [|Hi]; [done|].
    unfold row in E. rewrite lookup_ge_None_2 in E by lia. by destruct l1. }
  assert (Hsh : shifted (-1) x.2 (concat (onboard a)) (concat (<[i:=l1 ++ l2]> (onboard a)))).
  { apply shifted_concat; [done|]. rewrite E. apply shifted_remove. }
  destruct Hsh as (Hw & Hu & _).
  assert (Hv : valid_pass x.2) by (eapply (wf_onboard _ W i); rewrite E; set_solver).
  pose proof (valid_weight _ Hv). pose proof (valid_units _ Hv).
  destruct W as [H1 H2 H3 Hsv H4 H5 H6 H7 H8 H9 H10 H11]. split; cbn; try done.
  - by rewrite length_insert.
  - unfold serve. by rewrite length_alter.
  - intros j s. unfold serve. rewrite list_lookup_alter. case_decide; [|apply Hsv].
    destruct (served a !! _); cbn; [|done]. intros [= <-]. apply wrap32_range.
  - intros j y. rewrite row_insert by done. case_decide; subst; [|auto].
    intros Hy. apply H5. rewrite E. set_solver.
  - lia.
  - lia.
  - rewrite Hst. unfold OFFLINE, IDLE, LOADING. lia.
Qed.

Lemma boards_fits a x :
  wf a → valid_pass x.2 → boards x a = true ↔
    getWeight x.2 + weight (concat (onboard a)) ≤ MAX_W ∧
    getPass x.2 + units (concat (onboard a)) ≤ MAX_P ∧
    pDirection x.2 = a_direction a.
Proof.
  intros W Hv. pose proof (wf_load_bounds _ W) as [Hw Hu].
  pose proof (valid_weight _ Hv). pose proof (valid_units _ Hv).
  unfold MAX_W, MAX_P in *. unfold boards, canFit, MAX_W, MAX_P.
  rewrite !andb_true_iff, !bool_decide_eq_true. cbn [elevator_of e_w_units e_p_units].
  rewrite (wrap32_small (weight _)), (wrap32_small (units _)), !wrap32_small by lia. tauto.
Qed.

Lemma wf_board a i l1 x l2 :
  wf a → row (waiting a) i = l1 ++ x :: l2 → boards x a = true → a_status a = LOADING →
  wf (a_board i x (l1 ++ l2) a).
Proof.
  intros W E Hb Hst. assert (Hi : (i < length (waiting a))%nat).
  { destruct (decide (i < length (waiting a))%nat) as [|Hi]; [done|].
    unfold row in E. rewrite lookup_ge_None_2 in E by lia. by destruct l1. }
  assert (Hv : valid_pass x.2) by (eapply (wf_waiting _ W i); rewrite E; set_solver).
  apply boards_fits in Hb as (Hbw & Hbu & Hbd); [|done..].
  pose proof Hv as (Ht & Hs & Hd). pose proof (floor_ix_lt _ Hd) as Hdi.
  pose proof (wf_onboard_len _ W).
  assert (Hsh : shifted 1 x.2 (concat (onboard a))
    (concat (<[floor_ix (d_floor x.2) := row (onboard a) (floor_ix (d_floor x.2)) ++ [x]]>
               (onboard a)))).
  { apply shifted_concat; [lia|]. apply shifted_snoc. }
  destruct Hsh as (Hw & Hu & _).
  destruct W as [H1 H2 H3 Hsv H4 H5 H6 H7 H8 H9 H10 H11]. split; cbn; try done.
  - by rewrite length_insert.
  - by rewrite length_insert.
  - intros j y. rewrite row_insert by done. case_decide; subst; [|auto].
    intros Hy. apply H4. rewrite E. set_solver.
  - intros j y. rewrite row_insert by lia. case_decide; subst; [|auto].
    intros [Hy| ->%list_elem_of_singleton]%elem_of_app; auto.
  - lia.
  - lia.
  - rewrite Hst. unfold OFFLINE, IDLE, LOADING. lia.
Qed.

Lemma wf_with_status v a :
  wf a → IDLE ≤ v ≤ DOWN → (v = OFFLINE ∨ v = IDLE → concat (onboard a) = []) →
  wf (with_status v a).
Proof. intros [] ? ?. by split. Qed.

Lemma wf_unload c q a :
  wf a → row (onboard a) c = q → a_status a = LOADING →
  wf (a_unload c q a) ∧ a_status (a_unload c q a) = LOADING.
Proof.
  revert a. induction q as [|x q IH]; intros a W E Hst; cbn; [done|].
  pose proof (wf_leave a c [] x q W E Hst). apply IH; [done| |done].
  cbn. rewrite row_insert, decide_True; [done..|].
  apply lookup_lt_is_Some. unfold row in E. destruct (onboard a !! c); [done|by inversion E].
Qed.

Lemma wf_load c q a :
  wf a → row (waiting a) c = q → a_status a = LOADING →
  wf (a_load c q a) ∧ a_status (a_load c q a) = LOADING.
Proof.
  revert a. induction q as [|x q IH]; intros a W E Hst; cbn; [done|].
  destruct (boards x a) eqn:Hb; [|done].
  pose proof (wf_board a c [] x q W E Hb Hst). apply IH; [done| |done].
  cbn. rewrite row_insert, decide_True; [done..|].
  apply lookup_lt_is_Some. unfold row in E. destruct (waiting a !! c); [done|by inversion E].
Qed.

Lemma wf_load_section a : wf a → wf (a_load_section a).
Proof.
  intros W. unfold a_load_section. case_bool_decide; [done|].
  destruct (bool_decide _ && _); [done|]. cbv zeta.
  assert (W1 : wf (with_status LOADING a)).
  { apply wf_with_status; [done|done|]. unfold OFFLINE, IDLE, LOADING. lia. }
  destruct (wf_unload (here a) _ _ W1 eq_refl eq_refl) as [W2 Hst2].
  destruct (bool_decide _ && _); [|done]. by apply wf_load.
Qed.

Lemma a_anyone_false ls : a_anyone ls = false ↔ concat ls = [].
Proof. unfold a_anyone. rewrite bool_decide_eq_false. split; [apply dec_stable|tauto]. Qed.

Lemma wf_move a : wf a → a_status a ≠ OFFLINE → wf (a_move a).
Proof.
  intros W _. pose proof (wf_position _ W) as Hp.
  destruct W as [H1 H2 H3 Hsv H4 H5 H6 H7 H8 H9 H10 H11].
  assert (Hn : 0 ≤ a_next a ≤ 9) by (unfold position_ok in Hp; lia).
  unfold a_move.
  repeat case_bool_decide; (split; cbn; try done;
    [rewrite wrap32_small by lia; unfold position_ok in *; lia
    |unfold OFFLINE, IDLE, UP, DOWN; lia]).
Qed.

Lemma wf_move_section a : wf a → wf (a_move_section a).
Proof.
  intros W. unfold a_move_section. case_bool_decide; [done|].
  destruct (a_anyone (onboard a)) eqn:Ho; cbn; [by apply wf_move|].
  apply a_anyone_false in Ho.
  destruct (a_anyone (waiting a)); cbn; [|by apply wf_with_status].
  case_bool_decide; [by apply wf_with_status|]. by apply wf_move.
Qed.

Lemma wf_iteration a : wf a → wf (a_iteration a).
Proof. intros W. by apply wf_move_section, wf_load_section. Qed.
End Wf.

#[export] Hint Resolve wf_load_section wf_move_section wf_iteration : elev.

(** ** The thread refines the abstract thread *)

Section Refine.
Context {LA : ListApi node} {LL : ListLaws LA}.
Implicit Types (w : world) (a : astate) (L : gmap loc passenger) (x : pent) (q : list pent).

(** Following the links of a list. *)
Lemma node_next_head L w a h :
  rep L w a → is_head h →
  node_next h w = Done (default h (hd_error (entries a h)), w).
Proof.
  intros R Hh. unfold node_next, mbind, M_bind, gets.
  assert (live h w = Done (tt, w)) as -> by by destruct h.
  by rewrite (ring_first _ _ _ (rings_ring _ _ _ (rep_rings _ _ _ R) h Hh)).
Qed.

Lemma node_next_entry L w a h l1 l p l2 :
  rep L w a → is_head h → entries a h = l1 ++ PN l :: l2 → heap w !! l = Some p →
  node_next (PN l) w = Done (default h (hd_error l2), w).
Proof.
  intros R Hh E Hp. unfold node_next, mbind, M_bind, gets, live. rewrite Hp.
  pose proof (rings_ring _ _ _ (rep_rings _ _ _ R) h Hh) as Hr. rewrite E in Hr.
  by rewrite (ring_next _ _ _ _ _ Hr).
Qed.

(** The fuel of the loops covers every queue. *)
Lemma row_fuel L w a h :
  rep L w a → is_head h → (length (entries a h) ≤ heap_fuel w)%nat.
Proof.
  intros R Hh. pose proof (rep_row_nodup _ _ _ _ R Hh) as [_ Hnd]%NoDup_cons.
  assert (∃ q, entries a h = nodes_of q ∧ ∀ x, x ∈ q → listed a x) as (q & E & Hq).
  { destruct h as [i|i|]; [..|done]; cbn; eexists; (split; [done|]);
      intros x Hx; exists i; tauto. }
  rewrite E in *. unfold heap_fuel. rewrite <- size_dom. unfold nodes_of in *.
  rewrite length_fmap, <- (length_fmap fst).
  change (λ x : positive * passenger, PN x.1) with (PN ∘ fst (B:=passenger)) in Hnd.
  rewrite list_fmap_compose in Hnd. apply NoDup_fmap_1 in Hnd.
  rewrite <- (size_list_to_set (C:=gset positive)) by done.
  apply subseteq_size. intros l. rewrite elem_of_list_to_set, elem_of_dom.
  intros (x & -> & Hx)%list_elem_of_fmap. eexists. apply (rep_heap _ _ _ R). auto.
Qed.

Lemma row_head_listed a c q x :
  row (waiting a) c = x :: q ∨ row (onboard a) c = x :: q → listed a x.
Proof. intros [E|E]; exists c; rewrite E; [left|right]; left. Qed.

Theorem unload_loop_refines L w a :
  rep L w a → wf a → a_status a = LOADING →
  wp unload_loop
    (λ _ w', rep L w' (a_unload (here a) (row (onboard a) (here a)) a)) w.
Proof.
  intros R W Hst. pose proof (here_lt _ W) as Hc. set (c := here a) in *.
  set (fin := a_unload c (row (onboard a) c) a).
  unfold unload_loop. apply wp_bind, wp_gets. rewrite (rep_e _ _ _ R).
  apply wp_bind, wp_idx; [by apply position_here|]. fold (here a). fold c.
  apply wp_bind, wp_gets.
  set (I := λ (rest : list node) w', ∃ q a', rest = nodes_of q ∧ rep L w' a' ∧ wf a' ∧
    a_status a' = LOADING ∧ here a' = c ∧ row (onboard a') c = q ∧ a_unload c q a' = fin).
  eapply (wp_list_for_each_safe _ _ _ I) with (xs := nodes_of (row (onboard a) c)).
  - intros rest w' (q & a' & _ & R' & _). eexists. by eapply node_next_head.
  - intros n rest w' ([|x q] & a' & E & R' & W' & _ & _ & Hq & _); [done|].
    injection E as -> ->. eapply (node_next_entry _ _ a' (EP c) []); [done|done| |].
    + cbn. by rewrite Hq.
    + eapply (rep_heap _ _ _ R'), (row_head_listed _ c q). by right.
  - intros n rest w' ([|x q] & a' & E & R' & W' & Hst' & Hh & Hq & Hfin); [done|].
    injection E as -> ->.
    pose proof (row_head_listed a' c q x ltac:(by right)) as Hx.
    destruct (wf_onboard _ W' c x) as [Hv Hd]; [rewrite Hq; left|].
    apply wp_bind, wp_ret, wp_bind, (wp_deref _ _ x.2); [by apply (rep_heap _ _ _ R')|].
    apply wp_bind, wp_gets. rewrite (rep_e _ _ _ R'). cbn [current elevator_of].
    rewrite bool_decide_eq_true_2; cbn [when].
    2:{ pose proof (position_here _ W'). destruct Hv as (_ & _ & ?).
        unfold here, floor_ix in *. lia. }
    apply wp_bind. eapply wp_mono; [by apply (delPass_refines L w' a' c [] x q)|].
    cbn. intros _ w'' R''. exists q, (a_leave c x q a'). split_and!; try done.
    + by apply (wf_leave a' c [] x q).
    + cbn. rewrite row_insert, decide_True; [done..|]. by rewrite (wf_onboard_len _ W').
  - intros w' (q & a' & E & R' & _ & _ & _ & Hq & Hfin). symmetry in E.
    apply nodes_of_nil in E as ->. cbn in Hfin. by subst a'.
  - intros (y & ? & _)%list_elem_of_fmap; done.
  - by apply (row_fuel L w a (EP c)).
  - exists (row (onboard a) c), a. done.
  - by apply (node_next_head L w a (EP c)).
Qed.

Theorem load_loop_refines L w a :
  rep L w a → wf a → a_status a = LOADING →
  wp load_loop
    (λ _ w', rep L w' (a_load (here a) (row (waiting a) (here a)) a)) w.
Proof.
  intros R W Hst. pose proof (here_lt _ W) as Hc. set (c := here a) in *.
  set (fin := a_load c (row (waiting a) c) a).
  unfold load_loop. apply wp_bind, wp_gets. rewrite (rep_e _ _ _ R).
  apply wp_bind, wp_idx; [by apply position_here|]. fold (here a). fold c.
  apply wp_bind, wp_gets.
  set (I := λ (rest : list node) w', ∃ q a', rest = nodes_of q ∧ rep L w' a' ∧ wf a' ∧
    a_status a' = LOADING ∧ here a' = c ∧ row (waiting a') c = q ∧ a_load c q a' = fin).
  eapply (wp_list_for_each_safe _ _ _ I) with (xs := nodes_of (row (waiting a) c)).
  - intros rest w' (q & a' & _ & R' & _). eexists. by eapply node_next_head.
  - intros n rest w' ([|x q] & a' & E & R' & W' & _ & _ & Hq & _); [done|].
    injection E as -> ->. eapply (node_next_entry _ _ a' (FW c) []); [done|done| |].
    + cbn. by rewrite Hq.
    + eapply (rep_heap _ _ _ R'), (row_head_listed _ c q). by left.
  - intros n rest w' ([|x q] & a' & E & R' & W' & Hst' & Hh & Hq & Hfin); [done|].
    injection E as -> ->.
    pose proof (row_head_listed a' c q x ltac:(by left)) as Hx.
    destruct (wf_waiting _ W' c x) as [Hv Hs]; [rewrite Hq; left|].
    apply wp_bind, wp_ret, wp_bind, (wp_deref _ _ x.2); [by apply (rep_heap _ _ _ R')|].
    apply wp_bind, wp_gets. rewrite (rep_e _ _ _ R').
    cbn [a_load] in Hfin. unfold boards in Hfin.
    change (direction (elevator_of a')) with (a_direction a').
    destruct (canFit x.2 (elevator_of a') && _) eqn:Hb; [|by apply wp_ret; subst a'].
    rewrite bool_decide_eq_true_2; cbn [when].
    2:{ pose proof (position_here _ W'). destruct Hv as (_ & ? & _).
        cbn. unfold here, floor_ix in *. lia. }
    apply wp_bind. subst c. rewrite <- Hs in Hq.
    eapply wp_mono; [by apply (movePass_refines L w' a' [] x q)|].
    rewrite Hs in *. cbn. intros _ w'' R''. exists q, (a_board (here a) x q a'). split_and!; try done.
    + by apply (wf_board a' (here a) [] x q).
    + cbn. rewrite row_insert, decide_True; [done..|]. by rewrite (wf_waiting_len _ W').
  - intros w' (q & a' & E & R' & _ & _ & _ & Hq & Hfin). symmetry in E.
    apply nodes_of_nil in E as ->. cbn in Hfin. by subst a'.
  - intros (y & ? & _)%list_elem_of_fmap; done.
  - by apply (row_fuel L w a (FW c)).
  - exists (row (waiting a) c), a. done.
  - by apply (node_next_head L w a (FW c)).
Qed.

(** Steps that only write the elevator's own fields. *)
Lemma rep_upd_e L w a a' :
  rep L w a → waiting a' = waiting a → onboard a' = onboard a → served a' = served a →
  rep L (set_e (elevator_of a') w) a'.
Proof.
  intros [] E1 E2 E3.
  assert (El : ∀ x, listed a' x ↔ listed a x) by (intros x; unfold listed; by rewrite E1, E2).
  assert (Ee : ∀ h, entries a h = entries a' h) by (intros []; cbn; by rewrite ?E1, ?E2).
  split; cbn; rewrite ?E1, ?E2, ?E3; try done.
  - eapply rings_ext; [done|]. auto.
  - intros x ?%El. auto.
  - intros l p ?. rewrite El. auto.
  - intros x ?%El. auto.
Qed.

Lemma wp_set_status L w a v (Q : unit → world → Prop) :
  rep L w a → (∀ w', rep L w' (with_status v a) → Q tt w') →
  wp (upd_e (set_status v)) Q w.
Proof.
  intros R HQ. apply wp_modify, HQ. rewrite (rep_e _ _ _ R).
  by apply (rep_upd_e L w a (with_status v a)).
Qed.
End Refine.

Section Sections.
Context {LA : ListApi node} {LL : ListLaws LA}.
Implicit Types (w : world) (a : astate) (L : gmap loc passenger).

Lemma here_unload c q a : here (a_unload c q a) = here a.
Proof. revert a. induction q as [|x q IH]; intros a; cbn; [done|]. by rewrite IH. Qed.

Lemma waiting_unload c q a : waiting (a_unload c q a) = waiting a.
Proof. revert a. induction q as [|x q IH]; intros a; cbn; [done|]. by rewrite IH. Qed.

Lemma shutdown_unload c q a : a_shutdown (a_unload c q a) = a_shutdown a.
Proof. revert a. induction q as [|x q IH]; intros a; cbn; [done|]. by rewrite IH. Qed.

(** The unloading step as the code guards it: nothing to do on an empty
    list. *)
Lemma guarded_unload L w a (Q : unit → world → Prop) :
  rep L w a → wf a → a_status a = LOADING →
  (∀ w', rep L w' (a_unload (here a) (row (onboard a) (here a)) a) → Q tt w') →
  wp (when (negb (bool_decide (row (onboard a) (here a) = []))) unload_loop) Q w.
Proof.
  intros R W Hst HQ. case_bool_decide as E; cbn.
  - apply wp_ret, HQ. rewrite E. done.
  - eapply wp_mono; [by eapply unload_loop_refines|]. intros []. auto.
Qed.

Theorem load_section_refines L w a :
  rep L w a → wf a → wp load_section (λ _ w', rep L w' (a_load_section a)) w.
Proof.
  intros R W. unfold load_section, a_load_section.
  apply wp_bind, wp_gets. rewrite (rep_e _ _ _ R). cbn [status elevator_of].
  case_bool_decide as Hoff; cbn [negb when]; [by apply wp_ret|].
  cbn [current elevator_of].
  pose proof (position_here _ W) as Hpos. pose proof (here_lt _ W) as Hc.
  apply wp_bind, wp_idx; [done|]. fold (here a).
  apply wp_bind. eapply wp_is_empty_FW; [done..|].
  apply wp_bind. eapply (wp_mono _
    (λ r w', w' = w ∧ r = negb (bool_decide (row (waiting a) (here a) = []) &&
       bool_decide (row (onboard a) (here a) = [])))).
  { destruct (bool_decide (row (waiting a) (here a) = [])); cbn; [|done].
    apply wp_bind. eapply wp_is_empty_EP; [done..|]. done. }
  intros r w' [-> ->]. destruct (bool_decide _ && bool_decide _); cbn [negb when]; [by apply wp_ret|].
  cbv zeta. set (a1 := with_status LOADING a).
  assert (W1 : wf a1).
  { apply wf_with_status; [done|done|]. unfold OFFLINE, IDLE, LOADING. lia. }
  apply wp_bind. eapply (wp_set_status L w a); [done|]. fold a1. intros w1 R1.
  apply wp_bind. eapply (wp_is_empty_EP L w1 a1 (here a)); [done..|].
  apply wp_bind. eapply (guarded_unload L w1 a1); [done..|]. intros w2 R2.
  destruct (wf_unload (here a) _ a1 W1 eq_refl eq_refl) as [W2 Hst2].
  change (here a1) with (here a) in R2. set (a2 := a_unload (here a) _ a1) in *.
  assert (Hh2 : here a2 = here a) by apply (here_unload _ _ a1).
  apply wp_bind. eapply wp_mono; [by apply (checkFloor_refines L w2 a2)|].
  fold (here a). intros r w' [-> ->].
  apply wp_bind, wp_gets. rewrite (rep_e _ _ _ R2). cbn [shutdown elevator_of].
  rewrite <- !bool_decide_not.
  destruct (bool_decide _ && _) eqn:Hg; cbn [when].
  - rewrite <- Hh2. by apply load_loop_refines.
  - by apply wp_ret.
Qed.

Lemma move_elevator_of a : move (elevator_of a) = elevator_of (a_move a).
Proof.
  unfold move, a_move. cbn [next direction elevator_of]. by repeat case_bool_decide.
Qed.

Lemma a_move_queues a :
  waiting (a_move a) = waiting a ∧ onboard (a_move a) = onboard a ∧
  served (a_move a) = served a ∧ a_shutdown (a_move a) = a_shutdown a.
Proof. unfold a_move. by repeat case_bool_decide. Qed.

Theorem move_section_refines L w a :
  rep L w a → wp move_section (λ _ w', rep L w' (a_move_section a)) w.
Proof.
  intros R. unfold move_section, a_move_section.
  apply wp_bind, wp_gets. rewrite (rep_e _ _ _ R). cbn [status elevator_of].
  case_bool_decide as Hoff; cbn [negb when]; [by apply wp_ret|].
  apply wp_bind. eapply wp_mono; [by apply (checkBuilding_refines L)|]. intros r ? [-> ->].
  apply wp_bind. eapply wp_mono; [by apply (checkElevator_refines L)|]. intros r ? [-> ->].
  cbn [shutdown elevator_of]. rewrite <- bool_decide_not.
  destruct (negb _ && negb _); [by eapply wp_set_status|].
  destruct (negb _ && bool_decide _); [by eapply wp_set_status|].
  apply wp_modify. rewrite (rep_e _ _ _ R), move_elevator_of.
  destruct (a_move_queues a) as (? & ? & ? & _). by apply (rep_upd_e L w a (a_move a)).
Qed.

(** Forbidden unlock calls do not show in what the memory represents. *)
Lemma rep_unlocks L w a n : rep L w a → rep L (Nat.iter n count_bad_unlock w) a.
Proof. intros R. induction n as [|n IH]; [done|]. by destruct IH. Qed.

(** A critical section with its lock call's result: the body if it is 0, and
    the unlock call. *)
Lemma guarded_refines L w a (m : M world unit) (f : astate → astate) r :
  rep L w a → (∀ w, rep L w a → wp m (λ _ w', rep L w' (f a)) w) → keeps bad_unlocks m →
  wp (when (bool_decide (r = 0)) m ;; mutex_unlock r) (λ _ w',
    rep L w' (if bool_decide (r = 0) then f a else a) ∧
    bad_unlocks w' = (bad_unlocks w + interrupted r)%nat) w.
Proof.
  intros R Hm Hk. unfold interrupted. case_bool_decide as Hr; cbn [when].
  - subst r. apply wp_bind. eapply wp_mono; [by apply (wp_keeps bad_unlocks), Hm|].
    intros _ w' [R' E]. apply wp_mutex_unlock. by rewrite Nat.add_0_r.
  - apply wp_bind, wp_ret, wp_mutex_unlock. unfold interrupted.
    rewrite bool_decide_eq_false_2 by done. split; [by apply (rep_unlocks L w a 1)|cbn; lia].
Qed.

Lemma attempt_refines L w a r1 r2 :
  rep L w a → wf a →
  wp (iteration r1 r2) (λ _ w', rep L w' (a_attempt r1 r2 a) ∧ wf (a_attempt r1 r2 a) ∧
    bad_unlocks w' = (bad_unlocks w + interrupted r1 + interrupted r2)%nat) w.
Proof.
  intros R W. unfold a_attempt.
  assert (W1 : wf (if bool_decide (r1 = 0) then a_load_section a else a))
    by (case_bool_decide; auto with elev).
  set (a1 := if bool_decide (r1 = 0) then a_load_section a else a) in *.
  assert (E : ∀ Q, wp (when (bool_decide (r1 = 0)) load_section ;; mutex_unlock r1)
      (λ _, wp (when (bool_decide (r2 = 0)) move_section ;; mutex_unlock r2) Q) w →
    wp (iteration r1 r2) Q w).
  { intros Q. unfold iteration, wp, mbind, M_bind.
    destruct (when _ load_section w) as [[? w1]| |]; [|done..].
    by destruct (mutex_unlock r1 w1) as [[? w2]| |]. }
  apply E. eapply wp_mono.
  { apply (guarded_refines L w a load_section a_load_section r1 R);
      [intros w0 R0; by apply load_section_refines|apply keeps_load_section]. }
  fold a1. intros _ w1 [R1 E1]. eapply wp_mono.
  { apply (guarded_refines L w1 a1 move_section a_move_section r2 R1);
      [intros w0 R0; by apply move_section_refines|apply keeps_move_section]. }
  cbn. intros _ w2 [R2 E2]. split_and!; [done|case_bool_decide; auto with elev|lia].
Qed.

Theorem iteration_refines L w a :
  rep L w a → wf a →
  wp (iteration 0 0) (λ _ w', rep L w' (a_iteration a) ∧ wf (a_iteration a)) w.
Proof.
  intros R W. eapply wp_mono; [by apply (attempt_refines L w a 0 0)|].
  intros _ w' (R' & W' & _). done.
Qed.
End Sections.

Lemma wf_init : wf a_init.
Proof.
  split; try done.
  - intros i s [-> _]%lookup_replicate. done.
  - intros i x. cbn [waiting a_init]. rewrite row_replicate. by intros ?%elem_of_nil.
  - intros i x. cbn [onboard a_init]. rewrite row_replicate. by intros ?%elem_of_nil.
  - cbn. unfold position_ok. lia.
  - by left.
Qed.

(** ** The loop *)

Section Loop.
Context {LA : ListApi node} {LL : ListLaws LA}.
Implicit Types (w : world) (a : astate) (L : gmap loc passenger).

(** When nothing interrupts the lock calls and the thread is stopped at its
    [n]-th test, it has run [n] iterations. *)
Lemma runElevator_refines L w a (should_stop : nat → bool) fuel k n :
  rep L w a → wf a →
  (∀ j, (j < n)%nat → should_stop (k + j)%nat = false) → should_stop (k + n)%nat = true →
  (n ≤ fuel)%nat →
  wp (runElevator should_stop (λ _, (0, 0)) fuel k)
    (λ r w', r = 0 ∧ rep L w' (Nat.iter n a_iteration a) ∧ wf (Nat.iter n a_iteration a)) w.
Proof.
  revert fuel k w a. induction n as [|n IH]; intros fuel k w a R W Hgo Hstop Hf.
  - rewrite Nat.add_0_r in Hstop. destruct fuel; cbn; rewrite Hstop; by apply wp_ret.
  - destruct fuel as [|fuel]; [lia|]. cbn [runElevator].
    specialize (Hgo 0%nat) as Hgo0. rewrite Nat.add_0_r in Hgo0. rewrite Hgo0 by lia.
    apply wp_bind. eapply wp_mono; [by eapply iteration_refines|].
    intros [] w' [R' W']. rewrite Nat.iter_succ_r.
    apply IH; [done|done| | |lia].
    + intros j Hj. rewrite Nat.add_succ_l, <- Nat.add_succ_r. apply Hgo. lia.
    + by rewrite Nat.add_succ_l, <- Nat.add_succ_r.
Qed.
End Loop.

(** ** Properties of the thread *)

(** ** What unloading and loading do to the rows *)

Section RowsAfter.
Implicit Types (a : astate) (q : list pent).

Lemma unload_rows c q a :
  row (onboard a) c = q → (c < length (onboard a))%nat →
  row (onboard (a_unload c q a)) c = [] ∧ waiting (a_unload c q a) = waiting a ∧
  ∀ j, j ≠ c → row (onboard (a_unload c q a)) j = row (onboard a) j.
Proof.
  revert a. induction q as [|x q IH]; intros b E Hl; cbn [a_unload]; [done|].
  destruct (IH (a_leave c x q b)) as (I1 & I2 & I3).
  - cbn. by rewrite row_insert, decide_True.
  - cbn. by rewrite length_insert.
  - split_and!; [done..|]. intros j Hj. rewrite I3 by done. cbn.
    by rewrite row_insert, decide_False.
Qed.

(** Those who board are a prefix of the queue. *)
Lemma load_prefix c q a :
  (c < 10)%nat → wf a → a_status a = LOADING → row (waiting a) c = q →
  ∃ boarded rest, q = boarded ++ rest ∧ let a' := a_load c q a in
    wf a' ∧ row (waiting a') c = rest ∧
    (∀ d, row (onboard a') d = row (onboard a) d ++
       filter (λ x, floor_ix (d_floor x.2) = d) boarded) ∧
    Forall (λ x, pDirection x.2 = a_direction a) boarded ∧
    weight (concat (onboard a')) = weight (concat (onboard a)) + weight boarded ∧
    (∀ x q, rest = x :: q → boards x a' = false).
Proof.
  intros Hc. revert a. induction q as [|x q IH]; intros b W Hst E; cbn [a_load].
  { exists [], []. cbv zeta. split_and!; try done.
    - intros d. by rewrite filter_nil, (right_id_L [] (++)).
    - unfold weight at 3. rewrite zsum_nil. lia. }
  destruct (boards x b) eqn:Hb.
  2:{ exists [], (x :: q). cbv zeta. split_and!; try done.
      - intros d. by rewrite filter_nil, (right_id_L [] (++)).
      - unfold weight at 3. rewrite zsum_nil. lia.
      - by intros ? ? [= <- <-]. }
  pose proof (wf_board b c [] x q W E Hb Hst) as W1. cbn [app] in W1.
  destruct (wf_waiting _ W c x) as [Hv _]; [rewrite E; left|].
  pose proof Hv as (_ & _ & Hdf). pose proof (floor_ix_lt _ Hdf).
  pose proof (wf_waiting_len _ W). pose proof (wf_onboard_len _ W).
  destruct (IH (a_board c x q b) W1 Hst) as (bs & rest & -> & I1 & I2 & I3 & I4 & I5 & I6).
  { cbn. rewrite row_insert, decide_True; [done..|lia]. }
  exists (x :: bs), rest. cbv zeta. split_and!; try done.
  - intros d. rewrite I3. cbn [onboard a_board]. rewrite row_insert by lia.
    rewrite filter_cons. repeat case_decide; subst; try done.
    by rewrite <- (assoc_L (++)).
  - constructor; [|done]. apply (boards_fits b x W Hv) in Hb. tauto.
  - rewrite I5. unfold weight, a_board; cbn [onboard].
    rewrite (zsum_concat_insert _ (onboard b) _ (row (onboard b) (floor_ix (d_floor x.2))))
      by (apply row_lookup; lia).
    rewrite zsum_snoc, zsum_cons. lia.
Qed.
End RowsAfter.

Section Properties.
Context {LA : ListApi node} {LL : ListLaws LA}.
Implicit Types (w : world) (a : astate) (L : gmap loc passenger).

(** C10. One iteration of the thread finishes (no invalid access, no loop without
    end), whichever of its lock calls are interrupted, leaves the memory well
    formed, and keeps the load of the elevator within MAX_W and MAX_P and its
    position inside the building.  Each interrupted lock call is followed by one
    forbidden unlock call, and there are no others. *)
Theorem iteration_safe L w a r1 r2 :
  rep L w a → wf a →
  wp (iteration r1 r2) (λ _ w',
    rep L w' (a_attempt r1 r2 a) ∧ wf (a_attempt r1 r2 a) ∧
    bad_unlocks w' = (bad_unlocks w + interrupted r1 + interrupted r2)%nat ∧
    0 ≤ e_w_units (w_e w') ≤ MAX_W ∧ 0 ≤ e_p_units (w_e w') ≤ MAX_P ∧
    0 ≤ current (w_e w') < MAX_FLOOR ∧ 0 ≤ next (w_e w') < MAX_FLOOR ∧
    Z.abs (current (w_e w') - next (w_e w')) = 1) w.
Proof.
  intros R W. eapply wp_mono; [by eapply attempt_refines|].
  intros [] w' (R' & W' & Hb). pose proof (wf_load_bounds _ W') as [Hw Hu].
  pose proof (wf_position _ W') as Hp.
  rewrite (rep_e _ _ _ R'). cbn [elevator_of e_w_units e_p_units current next].
  unfold MAX_W, MAX_P, MAX_FLOOR, position_ok in *.
  rewrite !wrap32_small by lia. split_and!; try done; lia.
Qed.

(** C12. Unloading removes and frees exactly the passengers on board for the
    current floor; the code's test [p->d_floor == e._current] holds for each
    of them. *)
Theorem unload_loop_spec L w a :
  rep L w a → wf a → a_status a = LOADING →
  wp unload_loop (λ _ w',
    list_empty (EP (here a)) (links w') = true ∧
    (∀ x, x ∈ row (onboard a) (here a) → heap w' !! x.1 = None) ∧
    (∀ x, listed a x → x ∉ row (onboard a) (here a) → heap w' !! x.1 = Some x.2)) w.
Proof.
  intros R W Hst. pose proof (here_lt _ W) as Hc.
  pose proof (λ x, rep_heap _ _ _ R x) as Hheap.
  eapply wp_mono; [by eapply unload_loop_refines|]. cbn. intros [] w' R'.
  set (c := here a) in *.
  destruct (unload_rows c _ a eq_refl) as (H1 & H2 & H3); [rewrite (wf_onboard_len _ W); done|].
  set (a' := a_unload c _ a) in *.
  assert (Hkeep : ∀ x, listed a x → x ∉ row (onboard a) c → listed a' x).
  { intros x [j [Hj|Hj]] Hx; exists j; [left; by rewrite H2|right].
    rewrite H3; [done|]. intros ->. done. }
  split_and!.
  - rewrite (is_empty_row L w' a' (EP c)) by done. cbn. by rewrite H1.
  - intros x Hx. destruct (heap w' !! x.1) as [p|] eqn:Hp; [|done].
    assert (Hxl : listed a x) by (exists c; by right).
    destruct (rep_dom _ _ _ R' _ _ Hp) as [Hl|Hl].
    + exfalso. assert (Hla : listed a (x.1, p)).
      { destruct Hl as [j [Hj|Hj]]; exists j; [left; by rewrite <- H2|right].
        destruct (decide (j = c)) as [->|]; [|by rewrite <- H3].
        rewrite H1 in Hj. by apply elem_of_nil in Hj. }
      assert (E : (x.1, p) = x) by by apply (rep_addr_inj L w a). rewrite E in Hl.
      destruct Hl as [j Hj]. pose proof (rep_rings _ _ _ R) as [_ _ Hd].
      assert (Hin : PN x.1 ∈ entries a (EP c)) by (apply list_elem_of_fmap; by exists x).
      destruct (decide (j = c)) as [->|Hjc].
      * rewrite H1, elem_of_nil in Hj. destruct Hj as [Hj|[]]. rewrite H2 in Hj.
        assert (EP c = FW c); [|done]. eapply Hd; [done..|exact Hin|].
        apply list_elem_of_fmap. by exists x.
      * assert (Hjl : (j < 10)%nat) by (eapply (listed_lt _ _ _ _ _ R'); exact Hj).
        destruct Hj as [Hj|Hj]; [rewrite H2 in Hj|rewrite H3 in Hj by done].
        -- assert (EP c = FW j); [|done]. eapply Hd; [done..|exact Hin|].
           apply list_elem_of_fmap. by exists x.
        -- assert (EP c = EP j) as [= ->]; [|done]. eapply Hd; [done..|exact Hin|].
           apply list_elem_of_fmap. by exists x.
    + pose proof (rep_disj _ _ _ R _ Hxl) as Hn. congruence.
  - intros x Hx Hxc. apply (rep_heap _ _ _ R'). auto.
Qed.

(** C11. Loading is first come, first served: those who board are the longest
    prefix of the queue in which everybody, given those who boarded before,
    fits and goes the elevator's way; they join the lists of their
    destinations in that order, and the rest of the queue keeps its order. *)
Theorem load_loop_fifo L w a :
  rep L w a → wf a → a_status a = LOADING →
  wp load_loop (λ _ w', ∃ boarded rest a',
    row (waiting a) (here a) = boarded ++ rest ∧ rep L w' a' ∧
    row (waiting a') (here a) = rest ∧
    (∀ d, row (onboard a') d = row (onboard a) d ++
       filter (λ x, floor_ix (d_floor x.2) = d) boarded) ∧
    Forall (λ x, pDirection x.2 = a_direction a) boarded ∧
    weight (concat (onboard a')) = weight (concat (onboard a)) + weight boarded ∧
    weight (concat (onboard a')) ≤ MAX_W ∧ units (concat (onboard a')) ≤ MAX_P ∧
    (∀ x q, rest = x :: q → boards x a' = false)) w.
Proof.
  intros R W Hst. pose proof (here_lt _ W) as Hc.
  eapply wp_mono; [by eapply load_loop_refines|]. cbn. intros [] w' R'.
  set (c := here a) in *.
  destruct (load_prefix c _ a Hc W Hst eq_refl) as (bs & rest & E & I1 & I2 & I3 & I4 & I5 & I6).
  exists bs, rest, (a_load c (row (waiting a) c) a).
  pose proof (wf_weight _ I1). pose proof (wf_units _ I1). split_and!; try done.
Qed.
End Properties.
