(* ===== verification/Liveness.v ===== *)
(** * Progress of the elevator

    With no new requests the elevator delivers everybody: every iteration of
    the thread that changes the queues lowers the [workload], and as long as
    somebody is in the building at most 19 iterations pass between two such
    changes, because the position runs through a cycle that visits every floor
    in both directions.  The exceptions are proved too: what a pending
    shutdown does instead, and the passenger who is never served. *)

From S2P Require Import Prelude KList ElevatorData ElevatorOps ElevatorSpec.
From S2P Require Import ElevatorRefine RunElevator.

(** ** Positions *)

Definition pos : Type := Z * Z * Z.   (* current, next, direction *)
Definition a_pos (a : astate) : pos := (a_current a, a_next a, a_direction a).

Definition pmove (p : pos) : pos :=
  let '(_, n, d) := p in
  if bool_decide (n = 0) then (n, n +i 1, 1)
  else if bool_decide (n = 9) then (n, n -i 1, 0)
  else if bool_decide (d = 1) then (n, n +i 1, d)
  else (n, n -i 1, d).

Lemma a_move_pos a : a_pos (a_move a) = pmove (a_pos a).
Proof. unfold a_move, pmove, a_pos. by repeat case_bool_decide. Qed.

(** All positions of the invariant [position_ok]. *)
Definition all_pos : list pos :=
  ((λ i, let c := Z.of_nat i in (c, c + 1, 1)) <$> seq 0 9) ++
  ((λ i, let c := Z.of_nat i in (c, c - 1, 0)) <$> seq 1 9) ++
  [(0, 1, 0)].

Lemma elem_of_all_pos c n d : position_ok c n d → (c, n, d) ∈ all_pos.
Proof.
  unfold position_ok, all_pos. rewrite !elem_of_app, list_elem_of_singleton, !list_elem_of_fmap.
  intros [(-> & ? & ->)|[(-> & ? & ->)|(-> & -> & ->)]].
  - left. exists (Z.to_nat c). rewrite elem_of_seq. split; [|lia]. cbn. repeat f_equal; lia.
  - right; left. exists (Z.to_nat c). rewrite elem_of_seq. split; [|lia]. cbn. repeat f_equal; lia.
  - auto.
Qed.

(** The visits the loading rule needs: every floor in some direction, and the
    floors that have a floor above them going up, below them going down. *)
Definition at_floor (i : nat) (p : pos) : bool := bool_decide (p.1.1 = Z.of_nat i).
Definition at_floor_dir (i : nat) (d : Z) (p : pos) : bool :=
  at_floor i p && bool_decide (p.2 = d).

Definition reach_bound : nat := 18.

Definition reaches (t : pos → bool) (p : pos) : bool :=
  existsb (λ k, t (Nat.iter k pmove p)) (seq 0 (S reach_bound)).

Lemma reaches_spec t p :
  reaches t p = true → ∃ k, (k ≤ reach_bound)%nat ∧ t (Nat.iter k pmove p) = true.
Proof.
  unfold reaches. rewrite existsb_exists. intros (k & Hk%in_seq & Ht). exists k.
  split; [lia|done].
Qed.

Lemma every_floor_visited p i : p ∈ all_pos → (i < 10)%nat → reaches (at_floor i) p = true.
Proof.
  intros Hp Hi.
  assert (H : forallb (λ p, forallb (λ i, reaches (at_floor i) p) (seq 0 10)) all_pos = true)
    by (vm_compute; reflexivity).
  rewrite forallb_forall in H. specialize (H p (proj1 (list_elem_of_In _ _) Hp)).
  rewrite forallb_forall in H. apply H, in_seq. lia.
Qed.

Lemma every_way_visited p i d :
  p ∈ all_pos → (i < 10)%nat →
  (d = 1 ∧ (i < 9)%nat ∨ d = 0 ∧ (0 < i)%nat) → reaches (at_floor_dir i d) p = true.
Proof.
  intros Hp Hi Hd.
  assert (H : forallb (λ p,
     forallb (λ i, reaches (at_floor_dir i 1) p) (seq 0 9) &&
     forallb (λ i, reaches (at_floor_dir i 0) p) (seq 1 9)) all_pos = true)
    by (vm_compute; reflexivity).
  rewrite forallb_forall in H. specialize (H p (proj1 (list_elem_of_In _ _) Hp)).
  apply andb_true_iff in H as [H1 H0]. rewrite forallb_forall in H1, H0.
  destruct Hd as [[-> ?]|[-> ?]]; [apply H1|apply H0]; apply in_seq; lia.
Qed.

(** ** Work left *)

(** Two units for a waiting passenger, one for a passenger on board. *)
Definition workload (a : astate) : nat :=
  (2 * length (concat (waiting a)) + length (concat (onboard a)))%nat.

Definition a_iterate (n : nat) (a : astate) : astate := Nat.iter n a_iteration a.

Lemma a_iterate_S n a : a_iterate (S n) a = a_iteration (a_iterate n a).
Proof. done. Qed.
Lemma a_iterate_add n m a : a_iterate (n + m) a = a_iterate n (a_iterate m a).
Proof. apply Nat.iter_add. Qed.
Lemma wf_iterate n a : wf a → wf (a_iterate n a).
Proof. intros W. induction n; cbn; auto with elev. Qed.

Section Length.
Implicit Types (ls : list (list pent)) (q : list pent).

Lemma length_concat_insert ls i q :
  (i < length ls)%nat →
  (length (concat (<[i:=q]> ls)) + length (row ls i) = length (concat ls) + length q)%nat.
Proof.
  intros Hi. pose proof (zsum_concat_insert (λ _, 1) ls i (row ls i) q (row_lookup _ _ Hi)).
  rewrite !zsum_one in *. lia.
Qed.

Lemma concat_nil_rows ls : concat ls = [] ↔ ∀ i, row ls i = [].
Proof.
  split.
  - intros E i. destruct (row ls i) as [|x q] eqn:Hr; [done|].
    assert (Hx : x ∈ concat ls) by (apply elem_of_concat_row; exists i; rewrite Hr; left).
    rewrite E in Hx. by apply elem_of_nil in Hx.
  - intros H. destruct (concat ls) as [|x q] eqn:E; [done|].
    assert (Hx : x ∈ concat ls) by (rewrite E; left).
    apply elem_of_concat_row in Hx as [i Hi]. rewrite H in Hi. by apply elem_of_nil in Hi.
Qed.

Lemma concat_cons_row ls : concat ls ≠ [] → ∃ i x q, row ls i = x :: q ∧ (i < length ls)%nat.
Proof.
  intros Hne. destruct (concat ls) as [|x q] eqn:E; [done|].
  assert (Hx : x ∈ concat ls) by (rewrite E; left).
  apply elem_of_concat_row in Hx as [i Hi]. exists i.
  destruct (row ls i) as [|y q'] eqn:Hr; [by apply elem_of_nil in Hi|]. exists y, q'.
  split; [done|]. unfold row in Hr. destruct (ls !! i) eqn:Hl; [|done].
  by eapply lookup_lt_Some.
Qed.
End Length.

Section Steps.
Implicit Types (a : astate) (x : pent) (q : list pent).

(** What an iteration leaves alone. *)
Definition same_queues a a' : Prop :=
  waiting a' = waiting a ∧ onboard a' = onboard a ∧ served a' = served a ∧
  a_shutdown a' = a_shutdown a.

Lemma unload_workload c q a :
  row (onboard a) c = q → (c < length (onboard a))%nat →
  (workload (a_unload c q a) + length q = workload a)%nat ∧
  length (onboard (a_unload c q a)) = length (onboard a).
Proof.
  revert a. induction q as [|x q IH]; intros a E Hc; cbn [a_unload]; [cbn; lia|].
  destruct (IH (a_leave c x q a)) as [IH1 IH2]; cbn;
    [by rewrite row_insert, decide_True|by rewrite length_insert|].
  cbn in IH2. rewrite length_insert in IH2. split; [|done].
  pose proof (length_concat_insert (onboard a) c q Hc) as Hl. rewrite E in Hl.
  unfold workload in *. cbn in *. lia.
Qed.

Lemma load_workload c q a :
  wf a → row (waiting a) c = q → a_status a = LOADING →
  (workload (a_load c q a) ≤ workload a)%nat ∧
  (∀ x q', q = x :: q' → boards x a = true → workload (a_load c q a) < workload a)%nat.
Proof.
  revert a. induction q as [|x q IH]; intros a W E Hst; cbn [a_load]; [done|].
  destruct (boards x a) eqn:Hb; [|split; [done|congruence]].
  pose proof (wf_board a c [] x q W E Hb Hst) as W'. cbn in W'.
  destruct (wf_waiting _ W c x) as [Hv Hs]; [rewrite E; left|].
  pose proof Hv as (_ & Hsf & Hdf). pose proof (floor_ix_lt _ Hdf). pose proof (floor_ix_lt _ Hsf).
  pose proof (wf_waiting_len _ W). pose proof (wf_onboard_len _ W).
  destruct (IH (a_board c x q a)) as [IH1 _]; [done| |done|].
  { cbn. rewrite row_insert, decide_True; [done..|lia]. }
  pose proof (length_concat_insert (waiting a) c q ltac:(lia)) as Hl1. rewrite E in Hl1.
  pose proof (length_concat_insert (onboard a) (floor_ix (d_floor x.2))
    (row (onboard a) (floor_ix (d_floor x.2)) ++ [x]) ltac:(lia)) as Hl2.
  rewrite length_app in Hl2. cbn [length] in *.
  assert (workload (a_board c x q a) < workload a)%nat
    by (unfold workload, a_board; cbn [waiting onboard]; lia).
  split; [lia|intros; lia].
Qed.

(** The loading section lowers the workload, or nobody could get on or off
    and it changes the status only. *)
Lemma load_section_progress a :
  wf a → a_status a ≠ OFFLINE →
  (workload (a_load_section a) < workload a)%nat ∨
  same_queues a (a_load_section a) ∧ a_pos (a_load_section a) = a_pos a ∧
  a_status (a_load_section a) ≠ OFFLINE ∧
  row (onboard a) (here a) = [] ∧
  (a_shutdown a = 0 → ∀ x q, row (waiting a) (here a) = x :: q → boards x a = false).
Proof.
  intros W Hoff. unfold a_load_section. rewrite bool_decide_eq_false_2 by done.
  pose proof (here_lt _ W) as Hc. pose proof (wf_onboard_len _ W).
  destruct (bool_decide (row (waiting a) (here a) = [])) eqn:Hw;
  destruct (bool_decide (row (onboard a) (here a) = [])) eqn:Ho; cbn [andb];
    rewrite ?bool_decide_eq_true, ?bool_decide_eq_false in *.
  { right. split_and!; try done. intros _ x q E. congruence. }
  all: cbv zeta.
  all: set (a1 := with_status LOADING a).
  all: assert (W1 : wf a1)
    by (apply wf_with_status; [done|done|unfold OFFLINE, IDLE, LOADING; lia]).
  all: destruct (wf_unload (here a) _ a1 W1 eq_refl eq_refl) as [W2 Hst2].
  all: destruct (unload_workload (here a) _ a1 eq_refl) as [Hwl _]; [cbn; lia|].
  all: change (row (onboard a1)) with (row (onboard a)) in *.
  all: change (workload a1) with (workload a) in *.
  - left. destruct (bool_decide _ && _);
      [|destruct (row (onboard a) (here a)); [done|cbn [length] in *; lia]].
    pose proof (load_workload (here a) _ _ W2 eq_refl Hst2) as [Hle _].
    destruct (row (onboard a) (here a)); [done|cbn [length] in *; lia].
  - rewrite Ho in *. cbn [a_unload] in *. clear Hwl Hst2.
    destruct (row (waiting a1) (here a)) as [|x q] eqn:Hr; [done|].
    rewrite bool_decide_eq_true_2 by done. cbn [andb].
    case_bool_decide as Hs; [|right; split_and!; try done; intros Hs'; cbn in Hs; lia].
    destruct (boards x a1) eqn:Hb.
    + left. pose proof (load_workload (here a) _ a1 W1 Hr eq_refl) as [_ Hlt].
      by eapply Hlt.
    + right. cbn [a_load]. rewrite Hb. split_and!; try done.
      intros _ x' q' E. cbn in Hr. rewrite E in Hr. injection Hr as -> ->. exact Hb.
  - left. destruct (bool_decide _ && _);
      [|destruct (row (onboard a) (here a)); [done|cbn [length] in *; lia]].
    pose proof (load_workload (here a) _ _ W2 eq_refl Hst2) as [Hle _].
    destruct (row (onboard a) (here a)); [done|cbn [length] in *; lia].
Qed.

Lemma move_section_workload a : workload (a_move_section a) = workload a.
Proof.
  unfold a_move_section. repeat (case_bool_decide || destruct (a_anyone _)); try done; cbn;
    by destruct (a_move_queues a) as (E1 & E2 & _); unfold workload; rewrite E1, E2.
Qed.
End Steps.

(** ** Between two changes of the workload *)

Section Progress.
Implicit Types (a : astate) (x : pent) (q : list pent).

(** The elevator has something to do: passengers on board, or somebody
    waiting while no shutdown is pending. *)
Definition active a : Prop :=
  a_status a ≠ OFFLINE ∧
  (concat (onboard a) ≠ [] ∨ concat (waiting a) ≠ [] ∧ a_shutdown a = 0).

(** Everybody waiting can board: the elevator never leaves the lowest floor
    downwards, so it takes nobody from there to the same floor. *)
Definition servable a : Prop :=
  ∀ i x, x ∈ row (waiting a) i → s_floor x.2 ≠ 0 ∨ d_floor x.2 ≠ 0.

Lemma same_queues_refl a : same_queues a a.
Proof. done. Qed.
Lemma same_queues_trans a a' a'' : same_queues a a' → same_queues a' a'' → same_queues a a''.
Proof. unfold same_queues. intros (? & ? & ? & ?) (? & ? & ? & ?). split_and!; congruence. Qed.
Lemma same_queues_active a a' :
  same_queues a a' → a_status a' ≠ OFFLINE → active a → active a'.
Proof. intros (E1 & E2 & _ & E3) ? [_ H]. split; [done|]. by rewrite E1, E2, E3. Qed.

Lemma active_moves a :
  active a → a_move_section a = a_move a.
Proof.
  intros [Hoff H]. unfold a_move_section. rewrite bool_decide_eq_false_2 by done.
  assert (Hany : ∀ ls, concat ls ≠ [] → a_anyone ls = true).
  { intros ls Hls. unfold a_anyone. by rewrite bool_decide_eq_true. }
  destruct H as [H|[H Hs]]; [by rewrite (Hany _ H)|].
  rewrite (Hany (waiting a)) by done. rewrite Hs. cbn.
  rewrite andb_false_r. cbn. by rewrite andb_false_r.
Qed.

Lemma a_move_status a : a_status (a_move a) ≠ OFFLINE ∧ a_status (a_move a) ≠ IDLE.
Proof. unfold a_move. by repeat case_bool_decide. Qed.

Lemma iteration_progress a :
  wf a → active a →
  (workload (a_iteration a) < workload a)%nat ∨
  same_queues a (a_iteration a) ∧ a_pos (a_iteration a) = pmove (a_pos a) ∧
  a_status (a_iteration a) ≠ OFFLINE ∧
  row (onboard a) (here a) = [] ∧
  (a_shutdown a = 0 → ∀ x q, row (waiting a) (here a) = x :: q → boards x a = false).
Proof.
  intros W Hact. pose proof Hact as [Hoff _]. unfold a_iteration.
  destruct (load_section_progress a W Hoff) as [?|(Hsq & Hpos & Hoff' & Hrest)].
  { left. by rewrite move_section_workload. }
  right. rewrite active_moves by by eapply same_queues_active.
  destruct (a_move_queues (a_load_section a)) as (E1 & E2 & E3 & E4).
  split_and!; [eapply same_queues_trans; done| |apply a_move_status|apply Hrest..].
  by rewrite a_move_pos, Hpos.
Qed.

Lemma frozen_run k a :
  wf a → active a →
  (∃ j, j ≤ k ∧ workload (a_iterate j a) < workload a)%nat ∨
  same_queues a (a_iterate k a) ∧ a_pos (a_iterate k a) = Nat.iter k pmove (a_pos a) ∧
  a_status (a_iterate k a) ≠ OFFLINE.
Proof.
  intros W Hact. induction k as [|k IH]; [right; split_and!; try done; by destruct Hact|].
  destruct IH as [(j & Hj & ?)|(Hsq & Hpos & Hst)]; [left; exists j; lia|].
  pose proof (wf_iterate k a W) as Wk.
  destruct (iteration_progress (a_iterate k a) Wk) as [Hlt|(Hsq' & Hpos' & Hst' & _)].
  - by eapply same_queues_active.
  - left. exists (S k). split; [done|]. rewrite a_iterate_S.
    destruct Hsq as (E1 & E2 & _). unfold workload in Hlt at 2. rewrite E1, E2 in Hlt. exact Hlt.
  - right. rewrite a_iterate_S. split_and!; [by eapply same_queues_trans| |done].
    by rewrite Hpos', Hpos.
Qed.

(** A visit at which somebody can get on or off changes the workload. *)
Lemma progress_at a t :
  wf a → active a → reaches t (a_pos a) = true →
  (∀ b, wf b → same_queues a b → t (a_pos b) = true → a_status b ≠ OFFLINE →
     ¬ (row (onboard b) (here b) = [] ∧
        (a_shutdown b = 0 → ∀ x q, row (waiting b) (here b) = x :: q → boards x b = false))) →
  ∃ j, (j ≤ S reach_bound ∧ workload (a_iterate j a) < workload a)%nat.
Proof.
  intros W Hact (k & Hk & Ht)%reaches_spec Hvisit.
  destruct (frozen_run k a W Hact) as [(j & ? & ?)|(Hsq & Hpos & Hst)]; [exists j; lia|].
  pose proof (wf_iterate k a W) as Wk.
  destruct (iteration_progress (a_iterate k a) Wk) as [Hlt|(_ & _ & _ & Hno)].
  - by eapply same_queues_active.
  - exists (S k). split; [lia|]. rewrite a_iterate_S.
    destruct Hsq as (E1 & E2 & _). unfold workload in Hlt at 2. rewrite E1, E2 in Hlt. exact Hlt.
  - exfalso. apply (Hvisit (a_iterate k a)); try done. by rewrite Hpos.
Qed.

Lemma a_pos_all a : wf a → a_pos a ∈ all_pos.
Proof. intros W. by apply elem_of_all_pos, wf_position. Qed.

Lemma at_floor_here i a : at_floor i (a_pos a) = true → here a = i.
Proof. unfold at_floor, here, floor_ix. rewrite bool_decide_eq_true. cbn. lia. Qed.

Lemma empty_boards x a :
  wf a → valid_pass x.2 → concat (onboard a) = [] → pDirection x.2 = a_direction a →
  boards x a = true.
Proof.
  intros W Hv E Hd. apply boards_fits; [done..|]. rewrite E.
  pose proof (valid_weight _ Hv). pose proof (valid_units _ Hv).
  unfold weight, units, MAX_W, MAX_P. rewrite !zsum_nil. lia.
Qed.

(** Within [S reach_bound] iterations somebody gets on or off. *)
Theorem progress a :
  wf a → active a → (a_shutdown a = 0 → servable a) →
  ∃ j, (j ≤ S reach_bound ∧ workload (a_iterate j a) < workload a)%nat.
Proof.
  intros W Hact Hserv. pose proof (a_pos_all a W) as Hp. pose proof Hact as [_ Hwho].
  destruct (decide (concat (onboard a) = [])) as [Ho|Ho].
  - destruct Hwho as [|[Hw Hs]]; [done|].
    destruct (concat_cons_row _ Hw) as (i & x & q & Hr & Hi).
    rewrite (wf_waiting_len _ W) in Hi.
    assert (Hx : x ∈ row (waiting a) i) by (rewrite Hr; left).
    pose proof (Hserv Hs i x Hx) as Hsx. destruct (wf_waiting _ W i x Hx) as [Hv Hfl].
    pose proof Hv as (_ & Hsf & Hdf). unfold floor_ix, MAX_FLOOR in *.
    apply (progress_at a (at_floor_dir i (pDirection x.2))); [done..| |].
    + apply every_way_visited; [done..|]. unfold pDirection. case_bool_decide; [left|right]; lia.
    + intros b Wb (E1 & E2 & _ & E4) [Hat Hd]%andb_true_iff _ [_ Hno].
      apply bool_decide_eq_true in Hd. apply at_floor_here in Hat. rewrite Hat, E1 in Hno.
      rewrite E4 in Hno. specialize (Hno Hs x q Hr).
      rewrite empty_boards in Hno; [done|done|done|by rewrite E2|done].
  - destruct (concat_cons_row _ Ho) as (i & x & q & Hr & Hi).
    rewrite (wf_onboard_len _ W) in Hi.
    apply (progress_at a (at_floor i)); [done..|by apply every_floor_visited|].
    intros b Wb (E1 & E2 & _) Hat%at_floor_here _ [Hno _]. rewrite Hat, E2, Hr in Hno. done.
Qed.
End Progress.

(** ** What an iteration preserves *)

Section Preserved.
Implicit Types (a : astate) (x : pent) (q : list pent).

Lemma waiting_load_sub c q a i x :
  (c < length (waiting a))%nat → row (waiting a) c = q →
  x ∈ row (waiting (a_load c q a)) i → x ∈ row (waiting a) i.
Proof.
  revert a. induction q as [|y q IH]; intros a Hc E; cbn [a_load]; [done|].
  destruct (boards y a); [|done]. intros Hx. apply IH in Hx.
  - cbn in Hx. rewrite row_insert in Hx by done. case_decide; subst; [|done].
    rewrite E. by right.
  - cbn. by rewrite length_insert.
  - cbn. by rewrite row_insert, decide_True.
Qed.

Lemma shutdown_load c q a : a_shutdown (a_load c q a) = a_shutdown a.
Proof. revert a. induction q as [|x q IH]; intros a; cbn; [done|]. case_match; [|done]. by rewrite IH. Qed.

Lemma shutdown_load_section a : a_shutdown (a_load_section a) = a_shutdown a.
Proof.
  unfold a_load_section. case_bool_decide; [done|]. case_match; [done|]. cbv zeta.
  case_match; rewrite ?shutdown_load, shutdown_unload; done.
Qed.

Lemma shutdown_move_section a : a_shutdown (a_move_section a) = a_shutdown a.
Proof.
  unfold a_move_section. case_bool_decide; [done|].
  case_match; [done|]. case_match; [done|]. by destruct (a_move_queues a) as (_ & _ & _ & ?).
Qed.

Lemma shutdown_iterate n a : a_shutdown (a_iterate n a) = a_shutdown a.
Proof.
  induction n as [|n IH]; [done|]. rewrite a_iterate_S. unfold a_iteration.
  by rewrite shutdown_move_section, shutdown_load_section.
Qed.

Lemma waiting_move_section a : waiting (a_move_section a) = waiting a.
Proof.
  unfold a_move_section. case_bool_decide; [done|].
  case_match; [done|]. case_match; [done|]. by destruct (a_move_queues a) as (? & _).
Qed.

Lemma waiting_iteration_sub a i x :
  wf a → x ∈ row (waiting (a_iteration a)) i → x ∈ row (waiting a) i.
Proof.
  intros W. unfold a_iteration. rewrite waiting_move_section. unfold a_load_section.
  case_bool_decide; [done|]. case_match; [done|]. cbv zeta.
  case_match; [|by rewrite waiting_unload].
  intros Hx%waiting_load_sub; [by rewrite waiting_unload in Hx| |done].
  rewrite waiting_unload. cbn. rewrite (wf_waiting_len _ W). auto with elev.
Qed.

Lemma servable_iterate n a : wf a → servable a → servable (a_iterate n a).
Proof.
  intros W H. induction n as [|n IH]; [done|]. intros i x Hx.
  rewrite a_iterate_S in Hx. eapply IH, waiting_iteration_sub; [|done]. by apply wf_iterate.
Qed.

Lemma status_load_section a : a_status a ≠ OFFLINE → wf a → a_status (a_load_section a) ≠ OFFLINE.
Proof.
  intros Hst W. unfold a_load_section. rewrite bool_decide_eq_false_2 by done.
  case_match; [done|]. cbv zeta.
  assert (W1 : wf (with_status LOADING a)).
  { apply wf_with_status; [done|done|]. unfold OFFLINE, IDLE, LOADING. lia. }
  destruct (wf_unload (here a) _ _ W1 eq_refl eq_refl) as [W2 Hst2].
  case_match; [|by rewrite Hst2]. destruct (wf_load (here a) _ _ W2 eq_refl Hst2) as [_ ->]. done.
Qed.

(** Without a shutdown the elevator does not go offline. *)
Lemma status_iterate n a :
  wf a → a_shutdown a = 0 → a_status a ≠ OFFLINE → a_status (a_iterate n a) ≠ OFFLINE.
Proof.
  intros W Hs Hst. induction n as [|n IH]; [done|]. rewrite a_iterate_S.
  pose proof (wf_iterate n a W) as Wn. pose proof (status_load_section _ IH Wn).
  pose proof (shutdown_iterate n a) as Hsn. unfold a_iteration, a_move_section.
  rewrite bool_decide_eq_false_2 by done. case_match; [done|].
  rewrite shutdown_load_section, Hsn, Hs, (bool_decide_eq_false_2 (0 ≠ 0)), andb_false_r by lia.
  apply a_move_status.
Qed.
End Preserved.

(** ** Everybody is delivered *)

Section Drain.
Implicit Types (a : astate) (x : pent) (q : list pent).

Lemma workload_zero a : workload a = 0%nat ↔ concat (waiting a) = [] ∧ concat (onboard a) = [].
Proof.
  unfold workload. split; [|intros [-> ->]; done].
  intros H. split; apply length_zero_iff_nil; lia.
Qed.

Lemma not_empty_active a :
  a_status a ≠ OFFLINE → a_shutdown a = 0 → workload a ≠ 0%nat → active a.
Proof.
  intros Hst Hs Hw. split; [done|]. rewrite workload_zero in Hw.
  destruct (decide (concat (onboard a) = [])); [right|by left].
  split; [intros ?; tauto|done].
Qed.

Lemma drain m a :
  (workload a ≤ m)%nat → wf a → a_shutdown a = 0 → a_status a ≠ OFFLINE → servable a →
  ∃ n, (n ≤ S reach_bound * m)%nat ∧ workload (a_iterate n a) = 0%nat.
Proof.
  revert a. induction m as [|m IH]; intros a Hm W Hs Hst Hserv; [exists 0%nat|].
  { change (a_iterate 0 a) with a. lia. }
  destruct (decide (workload a = 0%nat)) as [|Hw].
  { exists 0%nat. change (a_iterate 0 a) with a. lia. }
  destruct (progress a W (not_empty_active a Hst Hs Hw) (λ _, Hserv)) as (j & Hj & Hlt).
  destruct (IH (a_iterate j a)) as (n & Hn & Hz); [lia|by apply wf_iterate|..].
  - by rewrite shutdown_iterate.
  - by apply status_iterate.
  - by apply servable_iterate.
  - exists (n + j)%nat. rewrite a_iterate_add. split; [lia|done].
Qed.

(** An empty building makes the elevator idle, and it stays so. *)
Lemma empty_idle a :
  wf a → a_status a ≠ OFFLINE → workload a = 0%nat →
  a_status (a_iteration a) = IDLE ∧ same_queues a (a_iteration a).
Proof.
  intros W Hst Hz. pose proof Hz as [Hw Ho]%workload_zero.
  unfold a_iteration. assert (a_load_section a = a) as ->.
  { unfold a_load_section. rewrite bool_decide_eq_false_2 by done.
    by rewrite (proj1 (concat_nil_rows _) Hw), (proj1 (concat_nil_rows _) Ho). }
  unfold a_move_section. rewrite bool_decide_eq_false_2 by done.
  rewrite (proj2 (a_anyone_false (onboard a)) Ho), (proj2 (a_anyone_false (waiting a)) Hw). done.
Qed.

Lemma same_queues_workload a a' : same_queues a a' → workload a' = workload a.
Proof. intros (E1 & E2 & _). unfold workload. by rewrite E1, E2. Qed.

Lemma empty_idle_iterate n a :
  wf a → a_status a ≠ OFFLINE → workload a = 0%nat →
  workload (a_iterate n a) = 0%nat ∧ a_status (a_iterate n a) ≠ OFFLINE ∧
  (0 < n → a_status (a_iterate n a) = IDLE)%nat.
Proof.
  intros W Hst Hz. induction n as [|n (IH1 & IH2 & _)]; [by split_and!; [..|lia]|].
  rewrite a_iterate_S.
  destruct (empty_idle _ (wf_iterate n a W) IH2 IH1) as [Hi Hsq].
  rewrite (same_queues_workload _ _ Hsq), Hi. done.
Qed.

(** Enough iterations for a workload of [m]. *)
Definition drain_bound (m : nat) : nat := S (S reach_bound * m).

Theorem drained n a :
  wf a → a_shutdown a = 0 → a_status a ≠ OFFLINE → servable a →
  (drain_bound (workload a) ≤ n)%nat →
  concat (waiting (a_iterate n a)) = [] ∧ concat (onboard (a_iterate n a)) = [] ∧
  a_status (a_iterate n a) = IDLE.
Proof.
  intros W Hs Hst Hserv Hn. unfold drain_bound in Hn.
  destruct (drain (workload a) a) as (k & Hk & Hz); try done.
  replace n with ((n - k) + k)%nat by lia. rewrite a_iterate_add.
  destruct (empty_idle_iterate (n - k) (a_iterate k a)) as (Hz' & _ & Hi);
    [by apply wf_iterate|by apply status_iterate|done|].
  apply workload_zero in Hz' as [? ?]. split_and!; [done..|]. apply Hi. lia.
Qed.
End Drain.

(** ** Conservation: nobody is lost or counted twice *)

Section Conservation.
Implicit Types (a : astate) (x : pent) (q : list pent).

(** Passengers of [q] who started on floor [i]. *)
Definition starters (i : nat) (q : list pent) : Z :=
  zsum (λ x, if bool_decide (floor_ix (s_floor x.2) = i) then 1 else 0) q.

(** For floor [i]: serviced, plus still waiting, plus on board (as the
    wrapping counter of the code sees it). *)
Definition account (i : nat) a : Z :=
  wrap32 (default 0 (served a !! i) + starters i (concat (waiting a))
          + starters i (concat (onboard a))).

Lemma served_leave i c x rest a :
  (floor_ix (s_floor x.2) < length (served a))%nat →
  default 0 (served (a_leave c x rest a) !! i) =
    if decide (floor_ix (s_floor x.2) = i) then default 0 (served a !! i) +i 1
    else default 0 (served a !! i).
Proof.
  intros Hl. cbn. unfold serve. case_decide as E.
  - subst. rewrite list_lookup_alter_eq.
    destruct (lookup_lt_is_Some_2 _ _ Hl) as [s ->]. done.
  - by rewrite list_lookup_alter_ne.
Qed.

Lemma account_leave i c x q a :
  row (onboard a) c = x :: q → (c < length (onboard a))%nat →
  (floor_ix (s_floor x.2) < length (served a))%nat →
  account i (a_leave c x q a) = account i a.
Proof.
  intros E Hc Hl. unfold account. rewrite served_leave by done.
  unfold starters, a_leave; cbn [waiting onboard].
  rewrite (zsum_concat_insert _ (onboard a) c (row (onboard a) c) q) by by apply row_lookup.
  rewrite E, zsum_cons. case_decide as E1.
  - rewrite bool_decide_eq_true_2 by done. rewrite <- !Z.add_assoc, wrap32_add_l.
    f_equal. lia.
  - rewrite bool_decide_eq_false_2 by done. f_equal. lia.
Qed.

Lemma account_board i c x q a :
  row (waiting a) c = x :: q → (c < length (waiting a))%nat →
  (floor_ix (d_floor x.2) < length (onboard a))%nat →
  account i (a_board c x q a) = account i a.
Proof.
  intros E Hc Hd. unfold account, starters, a_board; cbn [waiting onboard served].
  rewrite (zsum_concat_insert _ (waiting a) c (row (waiting a) c) q) by by apply row_lookup.
  rewrite (zsum_concat_insert _ (onboard a) _ (row (onboard a) (floor_ix (d_floor x.2))))
    by by apply row_lookup.
  rewrite E, zsum_cons, zsum_snoc. f_equal. lia.
Qed.

Lemma account_unload i c q a :
  wf a → row (onboard a) c = q → (c < 10)%nat → a_status a = LOADING →
  account i (a_unload c q a) = account i a.
Proof.
  revert a. induction q as [|x q IH]; intros a W E Hc Hst; cbn [a_unload]; [done|].
  pose proof (wf_leave a c [] x q W E Hst) as W'. cbn in W'.
  pose proof (wf_onboard_len _ W). pose proof (wf_served_len _ W).
  destruct (wf_onboard _ W c x) as [(_ & Hs%floor_ix_lt & _) _]; [rewrite E; left|].
  rewrite IH; [apply account_leave; [done|lia..]|done| |done|done].
  cbn. by rewrite row_insert, decide_True by lia.
Qed.

Lemma account_load i c q a :
  wf a → row (waiting a) c = q → (c < 10)%nat → a_status a = LOADING →
  account i (a_load c q a) = account i a.
Proof.
  revert a. induction q as [|x q IH]; intros a W E Hc Hst; cbn [a_load]; [done|].
  destruct (boards x a) eqn:Hb; [|done].
  pose proof (wf_board a c [] x q W E Hb Hst) as W'. cbn in W'.
  pose proof (wf_onboard_len _ W). pose proof (wf_waiting_len _ W).
  destruct (wf_waiting _ W c x) as [(_ & _ & Hd%floor_ix_lt) _]; [rewrite E; left|].
  rewrite IH; [apply account_board; [done|lia..]|done| |done|done].
  cbn. by rewrite row_insert, decide_True by lia.
Qed.

Lemma account_same i a a' : same_queues a a' → account i a' = account i a.
Proof. intros (E1 & E2 & E3 & _). unfold account. by rewrite E1, E2, E3. Qed.

Lemma account_load_section i a : wf a → account i (a_load_section a) = account i a.
Proof.
  intros W. unfold a_load_section. case_bool_decide; [done|]. case_match; [done|]. cbv zeta.
  pose proof (here_lt _ W) as Hc.
  assert (W1 : wf (with_status LOADING a)).
  { apply wf_with_status; [done|done|]. unfold OFFLINE, IDLE, LOADING. lia. }
  destruct (wf_unload (here a) _ _ W1 eq_refl eq_refl) as [W2 Hst2].
  pose proof (account_unload i (here a) _ _ W1 eq_refl Hc eq_refl) as Hu.
  case_match; [rewrite account_load by done|]; by rewrite Hu.
Qed.

Lemma same_queues_move_section a : same_queues a (a_move_section a).
Proof.
  unfold a_move_section. case_bool_decide; [done|]. case_match; [done|]. case_match; [done|].
  exact (a_move_queues _).
Qed.

Lemma account_move_section i a : account i (a_move_section a) = account i a.
Proof. apply account_same, same_queues_move_section. Qed.

Theorem account_iteration i a : wf a → account i (a_iteration a) = account i a.
Proof. intros W. unfold a_iteration. by rewrite account_move_section, account_load_section. Qed.

Corollary account_iterate i n a : wf a → account i (a_iterate n a) = account i a.
Proof.
  intros W. induction n as [|n IH]; [done|]. rewrite a_iterate_S.
  rewrite account_iteration by by apply wf_iterate. done.
Qed.

(** When nobody is left, the counters have grown by those who were there. *)
Lemma served_when_empty i a a' s :
  wf a → wf a' → concat (waiting a') = [] → concat (onboard a') = [] →
  account i a' = account i a → served a !! i = Some s →
  served a' !! i = Some (s +i (starters i (concat (waiting a)) + starters i (concat (onboard a)))).
Proof.
  intros W W' Hw Ho Hacc Hs.
  destruct (lookup_lt_is_Some_2 (served a') i) as [s' Hs'].
  { rewrite (wf_served_len _ W'), <- (wf_served_len _ W). by eapply lookup_lt_Some. }
  rewrite Hs'. f_equal. unfold account in Hacc. rewrite Hw, Ho, Hs, Hs' in Hacc.
  unfold starters at 1 2 in Hacc. rewrite !zsum_nil, !Z.add_0_r in Hacc. cbn [default id] in Hacc.
  unfold id in Hacc. rewrite (wrap32_id s') in Hacc by by eapply wf_served. by rewrite Z.add_assoc.
Qed.
End Conservation.

(** ** A pending shutdown *)

Section Shutdown.
Implicit Types (a : astate) (x : pent) (q : list pent).

Lemma waiting_iterate_shutdown n a :
  wf a → a_shutdown a = 1 → waiting (a_iterate n a) = waiting a.
Proof.
  intros W Hs. induction n as [|n IH]; [done|]. rewrite a_iterate_S. unfold a_iteration.
  rewrite waiting_move_section, <- IH. pose proof (shutdown_iterate n a) as Hn.
  set (b := a_iterate n a) in *. unfold a_load_section.
  case_bool_decide; [done|]. case_match; [done|]. cbv zeta.
  rewrite shutdown_unload. cbn [a_shutdown with_status].
  rewrite Hn, Hs, (bool_decide_eq_false_2 (1 ≠ 1)), andb_false_r by lia.
  by rewrite waiting_unload.
Qed.

(** Where a shutdown ends: nobody on board; offline if somebody is still
    waiting, idle otherwise. *)
Definition rest_status a : STATE :=
  if bool_decide (concat (waiting a) = []) then IDLE else OFFLINE.

Definition offline_left a : Prop := a_status a = OFFLINE → concat (waiting a) ≠ [].

Lemma offline_left_iterate n a :
  wf a → a_shutdown a = 1 → offline_left a → offline_left (a_iterate n a).
Proof.
  intros W Hs H. induction n as [|n IH]; [done|]. unfold offline_left in *.
  rewrite (waiting_iterate_shutdown (S n)), <- (waiting_iterate_shutdown n a) by done.
  rewrite a_iterate_S. intros Hoff.
  destruct (decide (a_status (a_iterate n a) = OFFLINE)) as [|Hst]; [auto|].
  pose proof (wf_iterate n a W) as Wn. pose proof (status_load_section _ Hst Wn) as Hst'.
  unfold a_iteration, a_move_section in Hoff. rewrite bool_decide_eq_false_2 in Hoff by done.
  assert (Hw : waiting (a_load_section (a_iterate n a)) = waiting (a_iterate n a)).
  { pose proof (waiting_iterate_shutdown 1 _ Wn) as Hw. rewrite shutdown_iterate in Hw.
    cbn in Hw. unfold a_iteration in Hw. rewrite waiting_move_section in Hw. auto. }
  destruct (a_anyone (onboard _)) eqn:Ho; [by apply a_move_status in Hoff|].
  destruct (a_anyone (waiting _)) eqn:Hw'; [|done]. rewrite <- Hw.
  intros Hn%a_anyone_false. congruence.
Qed.

Lemma shutdown_unboards m a :
  (length (concat (onboard a)) ≤ m)%nat → wf a → a_shutdown a = 1 →
  ∃ n, (n ≤ S reach_bound * m)%nat ∧ concat (onboard (a_iterate n a)) = [].
Proof.
  revert a. induction m as [|m IH]; intros a Hm W Hs.
  { exists 0%nat. split; [lia|]. apply length_zero_iff_nil. change (a_iterate 0 a) with a. lia. }
  destruct (decide (concat (onboard a) = [])) as [|Ho]; [exists 0%nat; split; [lia|done]|].
  assert (Hact : active a).
  { split; [|by left]. intros Hoff. apply Ho, (wf_offline _ W). by left. }
  destruct (progress a W Hact) as (j & Hj & Hlt); [lia|].
  unfold workload in Hlt. rewrite (waiting_iterate_shutdown j a W Hs) in Hlt.
  destruct (IH (a_iterate j a)) as (n & Hn & Hz); [lia|by apply wf_iterate| |].
  - by rewrite shutdown_iterate.
  - exists (n + j)%nat. rewrite a_iterate_add. split; [lia|done].
Qed.

Definition settled b a : Prop :=
  waiting a = waiting b ∧ concat (onboard a) = [] ∧ a_status a = rest_status b.

Lemma settle b a :
  wf a → a_shutdown a = 1 → waiting a = waiting b → concat (onboard a) = [] →
  offline_left a → settled b (a_iteration a).
Proof.
  intros W Hs Hw Ho Hoff. pose proof (waiting_iterate_shutdown 1 a W Hs) as Hw1.
  unfold settled. change (a_iteration a) with (a_iterate 1 a). rewrite Hw1.
  split; [done|]. cbn. unfold rest_status. rewrite <- Hw.
  destruct (decide (a_status a = OFFLINE)) as [Hst|Hst].
  - assert (a_iteration a = a) as ->.
    { unfold a_iteration, a_load_section, a_move_section.
      by rewrite !(bool_decide_eq_true_2 (a_status a = OFFLINE)). }
    split; [done|]. rewrite bool_decide_eq_false_2 by auto. done.
  - pose proof (status_load_section a Hst W) as Hst'.
    cbn in Hw1. unfold a_iteration in *. rewrite waiting_move_section in Hw1.
    assert (Hol : concat (onboard (a_load_section a)) = []).
    { apply length_zero_iff_nil. apply (f_equal length) in Ho. cbn in Ho.
      destruct (load_section_progress a W Hst) as [Hlt|((_ & E & _) & _)]; [|by rewrite E].
      unfold workload in Hlt. rewrite Hw1 in Hlt. lia. }
    unfold a_move_section. rewrite bool_decide_eq_false_2 by done.
    rewrite shutdown_load_section, Hs, (proj2 (a_anyone_false _) Hol). cbn.
    unfold a_anyone. rewrite Hw1. repeat case_bool_decide; try done; cbn; tauto.
Qed.

Theorem shutdown_settles n a :
  wf a → a_shutdown a = 1 → a_status a ≠ OFFLINE →
  (drain_bound (length (concat (onboard a))) ≤ n)%nat → settled a (a_iterate n a).
Proof.
  intros W Hs Hst Hn. unfold drain_bound in Hn.
  destruct (shutdown_unboards _ a (Nat.le_refl _) W Hs) as (k & Hk & Hz).
  assert (Hleft : ∀ m, offline_left (a_iterate m a)).
  { intros m. apply offline_left_iterate; [done..|]. intros ?. done. }
  replace n with (S (n - k - 1) + k)%nat by lia. rewrite a_iterate_add.
  assert (Hset : ∀ m, concat (onboard (a_iterate m (a_iterate k a))) = []).
  { intros m. induction m as [|m IH]; [done|]. rewrite a_iterate_S.
    rewrite <- a_iterate_add in *.
    apply (settle a); [by apply wf_iterate|by rewrite shutdown_iterate| |done|done].
    by apply waiting_iterate_shutdown. }
  rewrite a_iterate_S. specialize (Hset (n - k - 1)%nat). rewrite <- a_iterate_add in *.
  apply settle; [by apply wf_iterate|by rewrite shutdown_iterate| |done|done].
  by apply waiting_iterate_shutdown.
Qed.
End Shutdown.

(** ** The passenger who is never served *)

Section Starvation.
Implicit Types (a : astate) (x : pent) (q : list pent).

(** Somebody at the head of the queue of the lowest floor asked to be taken
    to that same floor, which counts as going down. *)
Definition stuck_head a : Prop :=
  ∃ x q, row (waiting a) 0 = x :: q ∧ s_floor x.2 = 0 ∧ d_floor x.2 = 0.

(** The elevator never leaves the lowest floor downwards. *)
Definition upward_at_bottom a : Prop := a_current a = 0 → a_direction a = 1.

Lemma upward_move a : wf a → upward_at_bottom (a_move a).
Proof.
  intros W. pose proof (wf_position _ W) as Hp. unfold upward_at_bottom, a_move.
  repeat case_bool_decide; cbn; unfold position_ok in Hp; try done; lia.
Qed.

Lemma row_waiting_load i c q a :
  (c < length (waiting a))%nat → i ≠ c → row (waiting (a_load c q a)) i = row (waiting a) i.
Proof.
  revert a. induction q as [|x q IH]; intros a Hc Hi; cbn [a_load]; [done|].
  case_match; [|done]. rewrite IH; cbn; [|by rewrite length_insert|done].
  by rewrite row_insert, decide_False.
Qed.

Lemma direction_unload c q a : a_direction (a_unload c q a) = a_direction a.
Proof. revert a. induction q as [|x q IH]; intros a; cbn; [done|]. by rewrite IH. Qed.

Lemma stuck_load_section a :
  wf a → upward_at_bottom a → stuck_head a →
  row (waiting (a_load_section a)) 0 = row (waiting a) 0.
Proof.
  intros W Hup (x & q & Hr & Hs & Hd). unfold a_load_section.
  case_bool_decide; [done|]. case_match; [done|]. cbv zeta.
  case_match; [|by rewrite waiting_unload].
  destruct (decide (here a = 0%nat)) as [Hh|Hh].
  - rewrite Hh, !waiting_unload. cbn [waiting with_status]. rewrite Hr.
    cbn [a_load]. unfold boards. rewrite direction_unload. cbn [a_direction with_status].
    rewrite Hup by (pose proof (position_here _ W); unfold here, floor_ix in Hh; lia).
    unfold pDirection. rewrite Hs, Hd. cbn. rewrite andb_false_r.
    by rewrite waiting_unload.
  - rewrite row_waiting_load; rewrite ?waiting_unload; [done| |done].
    cbn. rewrite (wf_waiting_len _ W). auto with elev.
Qed.

Theorem starved n a :
  wf a → a_shutdown a = 0 → a_status a ≠ OFFLINE → upward_at_bottom a → stuck_head a →
  row (waiting (a_iterate n a)) 0 = row (waiting a) 0 ∧
  upward_at_bottom (a_iterate n a) ∧ (0 < n → a_status (a_iterate n a) ≠ IDLE)%nat.
Proof.
  intros W Hs Hst Hup Hstuck. induction n as [|n (IH1 & IH2 & _)]; [split_and!; [done..|lia]|].
  rewrite a_iterate_S. pose proof (wf_iterate n a W) as Wn.
  assert (Hstn : stuck_head (a_iterate n a)) by (unfold stuck_head in *; by rewrite IH1).
  pose proof (stuck_load_section _ Wn IH2 Hstn) as Hrow.
  pose proof (status_load_section _ (status_iterate n a W Hs Hst) Wn) as Hoff.
  assert (Hact : active (a_load_section (a_iterate n a))).
  { split; [done|]. right. rewrite shutdown_load_section, shutdown_iterate. split; [|done].
    destruct Hstn as (x & q & Hr & _). rewrite <- Hrow in Hr.
    intros Hn. rewrite (proj1 (concat_nil_rows _) Hn) in Hr. done. }
  unfold a_iteration. rewrite active_moves by done.
  destruct (a_move_queues (a_load_section (a_iterate n a))) as (-> & _).
  split_and!; [congruence|by apply upward_move, wf_load_section|]. intros _. apply a_move_status.
Qed.
End Starvation.

(** ** Properties of the running thread *)

Section Properties.
Context {LA : ListApi node} {LL : ListLaws LA}.
Implicit Types (w : world) (a : astate) (L : gmap loc passenger).

(** The thread is stopped at its [n]-th test of [kthread_should_stop]. *)
Definition stops_at (should_stop : nat → bool) (n : nat) : Prop :=
  (∀ j, (j < n)%nat → should_stop j = false) ∧ should_stop n = true.

Lemma empty_in_memory L w a :
  rep L w a → concat (waiting a) = [] → concat (onboard a) = [] →
  (∀ i, (i < 10)%nat → list_empty (FW i) (links w) = true ∧ list_empty (EP i) (links w) = true) ∧
  heap w = L ∧ e_w_units (w_e w) = 0 ∧ e_p_units (w_e w) = 0.
Proof.
  intros R Hw Ho. rewrite concat_nil_rows in Hw. split_and!.
  - intros i Hi. rewrite !(is_empty_row L w a) by done. cbn [entries].
    rewrite Hw, (proj1 (concat_nil_rows _) Ho). done.
  - apply map_eq. intros l. destruct (heap w !! l) as [p|] eqn:Hp.
    + destruct (rep_dom _ _ _ R _ _ Hp) as [[i Hi]|]; [|done].
      rewrite Hw, (proj1 (concat_nil_rows _) Ho) in Hi.
      destruct Hi as [?%elem_of_nil|?%elem_of_nil]; done.
    + destruct (L !! l) as [p|] eqn:HL; [|done].
      by rewrite (rep_extra_heap _ _ _ _ _ R HL) in Hp.
  - rewrite (rep_e _ _ _ R). cbn. by rewrite Ho.
  - rewrite (rep_e _ _ _ R). cbn. by rewrite Ho.
Qed.

(** C3. The thread on its own, with no request or stop arriving and every lock call
    successful, delivers everybody.  Suppose the elevator is in service (it was
    started and is not OFFLINE), no stop is pending, and nobody waits on the
    lowest floor for the lowest floor ([servable]).  Then after [drain_bound]
    iterations the elevator is idle and empty, every queue is empty, every
    passenger object has been freed, and the [serviced] counter of each floor has
    grown by the number of passengers who had started there. *)
Theorem runElevator_serves_everyone L w a should_stop fuel n :
  rep L w a → wf a → a_shutdown a = 0 → a_status a ≠ OFFLINE → servable a →
  stops_at should_stop n → (drain_bound (workload a) ≤ n ≤ fuel)%nat →
  wp (runElevator should_stop (λ _, (0, 0)) fuel 0) (λ r w',
    r = 0 ∧ status (w_e w') = IDLE ∧
    (∀ i, (i < 10)%nat →
       list_empty (FW i) (links w') = true ∧ list_empty (EP i) (links w') = true) ∧
    heap w' = L ∧ e_w_units (w_e w') = 0 ∧ e_p_units (w_e w') = 0 ∧
    (∀ i x, b_f (w_b w) !! i = Some x → ∃ x', b_f (w_b w') !! i = Some x' ∧
       serviced x' = serviced x +i (starters i (concat (waiting a)) +
                                    starters i (concat (onboard a))))) w.
Proof.
  intros R W Hs Hst Hserv [Hgo Hstop] [Hn Hf].
  destruct (drained n a W Hs Hst Hserv Hn) as (Hw & Ho & Hi).
  eapply wp_mono; [by apply (runElevator_refines L w a should_stop fuel 0 n)|].
  intros r w' (-> & R' & W'). fold (a_iterate n a) in R', W'.
  destruct (empty_in_memory _ _ _ R' Hw Ho) as (? & ? & ? & ?).
  split_and!; try done; [by rewrite (rep_e _ _ _ R')|].
  intros i x Hx. assert (Hil : (i < 10)%nat).
  { rewrite <- (rep_f_len _ _ _ R). by eapply lookup_lt_Some. }
  destruct (lookup_lt_is_Some_2 (served a) i) as [s Hsv]; [by rewrite (wf_served_len _ W)|].
  pose proof (rep_f _ _ _ R _ _ Hsv) as Hx0. rewrite Hx in Hx0. injection Hx0 as ->.
  eexists. split; [apply (rep_f _ _ _ R')|done].
  apply (served_when_empty i a); [done..|by apply account_iterate|done].
Qed.

(** C24. After a stop request everybody on board is delivered and nobody else
    boards; the elevator ends offline if passengers are still waiting, but
    idle -- not offline -- if nobody is. *)
Theorem runElevator_shutdown L w a should_stop fuel n :
  rep L w a → wf a → a_shutdown a = 1 → a_status a ≠ OFFLINE →
  stops_at should_stop n →
  (drain_bound (length (concat (onboard a))) ≤ n ≤ fuel)%nat →
  wp (runElevator should_stop (λ _, (0, 0)) fuel 0) (λ r w', ∃ a',
    r = 0 ∧ rep L w' a' ∧ waiting a' = waiting a ∧ concat (onboard a') = [] ∧
    e_p_units (w_e w') = 0 ∧
    status (w_e w') = (if bool_decide (concat (waiting a) = []) then IDLE else OFFLINE)) w.
Proof.
  intros R W Hs Hst [Hgo Hstop] [Hn Hf].
  destruct (shutdown_settles n a W Hs Hst Hn) as (Hw & Ho & Hi).
  eapply wp_mono; [by apply (runElevator_refines L w a should_stop fuel 0 n)|].
  intros r w' (-> & R' & W'). fold (a_iterate n a) in R', W'.
  exists (a_iterate n a). rewrite (rep_e _ _ _ R'). split_and!; try done.
  cbn [e_p_units elevator_of]. by rewrite Ho.
Qed.

(** C35. A request from the lowest floor to itself can block that floor.  Suppose the
    elevator is in service, no stop is pending, such a passenger is at the head
    of the queue of the lowest floor, and, if the elevator is on the lowest
    floor, its direction is up.  Then however long the thread runs on its own
    with every lock call successful, nobody in that queue is taken, and the
    elevator never becomes idle.  (Every move to the lowest floor leaves the
    direction up.  Only right after a start that follows a stop on the way down,
    [start_keeps_direction], is it down there, and the passenger can board.) *)
Theorem runElevator_starves L w a should_stop fuel n x q :
  rep L w a → wf a → a_shutdown a = 0 → a_status a ≠ OFFLINE →
  (a_current a = 0 → a_direction a = 1) →
  row (waiting a) 0 = x :: q → s_floor x.2 = 0 → d_floor x.2 = 0 →
  stops_at should_stop n → (0 < n ≤ fuel)%nat →
  wp (runElevator should_stop (λ _, (0, 0)) fuel 0) (λ r w', ∃ a',
    rep L w' a' ∧ row (waiting a') 0 = x :: q ∧ status (w_e w') ≠ IDLE) w.
Proof.
  intros R W Hs Hst Hup Hr Hsf Hdf [Hgo Hstop] [Hn Hf].
  destruct (starved n a W Hs Hst Hup) as (Hrow & _ & Hi); [by exists x, q|].
  eapply wp_mono; [by apply (runElevator_refines L w a should_stop fuel 0 n)|].
  intros r w' (-> & R' & W'). fold (a_iterate n a) in R', W'.
  exists (a_iterate n a). rewrite (rep_e _ _ _ R'). rewrite Hrow. auto.
Qed.
End Properties.
