(* ===== verification/Attempts.v ===== *)
(** * The thread under interrupted lock calls

    [runElevator] takes the mutex twice in every iteration and either call
    can be interrupted; the section is then skipped, but not the unlock call.
    Liveness.v is about the iterations in which both calls succeed; here an
    execution is the list of the results of the lock calls, of any shape.  The
    thread runs on its own, so that an unlock call without a lock releases
    nobody's lock and is only counted; what such a call does to other tasks is
    in Concurrency.v.  The thread still ends when it is told to, and only then,
    and loses nobody.  Its sweep through the building is compared with a closed
    formula. *)

From S2P Require Import Prelude KList ElevatorData ElevatorOps ElevatorSpec.
From S2P Require Import ElevatorRefine RunElevator Liveness.

(** The results of the two lock calls of an iteration. *)
Notation locks := (Z * Z)%type.

Definition a_attempts (ls : list locks) (a : astate) : astate :=
  foldl (λ a r, a_attempt r.1 r.2 a) a ls.

(** The first [n] iterations of a thread whose lock calls return [lock]. *)
Definition lock_results (lock : nat → locks) (k n : nat) : list locks := lock <$> seq k n.

(** The number of interrupted lock calls. *)
Definition interrupted_calls (ls : list locks) : nat :=
  sum_list_with (λ r, interrupted r.1 + interrupted r.2)%nat ls.

(** ** What one attempt preserves *)

Section Attempt.
Implicit Types (a : astate) (ls : list locks).

(** A property the two sections preserve is preserved by every attempt. *)
Lemma attempt_ind (P : astate → Prop) r1 r2 a :
  (∀ b, wf b → P b → P (a_load_section b)) → (∀ b, wf b → P b → P (a_move_section b)) →
  wf a → P a → P (a_attempt r1 r2 a).
Proof.
  intros Hl Hm W H. unfold a_attempt.
  assert (wf (if bool_decide (r1 = 0) then a_load_section a else a) ∧
          P (if bool_decide (r1 = 0) then a_load_section a else a)) as [W1 H1]
    by (destruct (bool_decide (r1 = 0)); auto with elev).
  destruct (bool_decide (r2 = 0)); auto.
Qed.

Lemma wf_attempt r1 r2 a : wf a → wf (a_attempt r1 r2 a).
Proof. intros W. apply (attempt_ind wf); auto with elev. Qed.

Lemma attempts_ind (P : astate → Prop) ls a :
  (∀ b, wf b → P b → P (a_load_section b)) → (∀ b, wf b → P b → P (a_move_section b)) →
  wf a → P a → P (a_attempts ls a).
Proof.
  intros Hl Hm. revert a. induction ls as [|[r1 r2] ls IH]; intros a W H; [done|].
  apply IH; [by apply wf_attempt|by apply attempt_ind].
Qed.

Lemma wf_attempts ls a : wf a → wf (a_attempts ls a).
Proof. intros W. apply (attempts_ind wf); auto with elev. Qed.

Lemma account_attempts i ls a : wf a → account i (a_attempts ls a) = account i a.
Proof.
  intros W. apply (attempts_ind (λ b, account i b = account i a)); [..|done|done].
  - intros b Wb <-. by apply account_load_section.
  - intros b _ <-. apply account_move_section.
Qed.

(** In service: no stop request pending and not offline. *)
Definition in_service a : Prop := a_shutdown a = 0 ∧ a_status a ≠ OFFLINE.

(** Nothing happens on an empty floor. *)
Lemma empty_load_section a : workload a = 0%nat → a_load_section a = a.
Proof.
  intros [Hw Ho]%workload_zero. unfold a_load_section. case_bool_decide; [done|].
  by rewrite (proj1 (concat_nil_rows _) Hw), (proj1 (concat_nil_rows _) Ho).
Qed.

End Attempt.

(** ** The loop, whatever its lock calls return *)

Section Loop.
Context {LA : ListApi node} {LL : ListLaws LA}.
Implicit Types (w : world) (a : astate) (L : gmap loc passenger).

(** An iteration whose first lock call is interrupted moves on without
    unloading: passengers for the floor the elevator is on are carried past it. *)
Lemma interrupted_rides_past L w a r (x : pent) :
  rep L w a → wf a → r ≠ 0 → x ∈ row (onboard a) (floor_ix (a_current a)) →
  wp (iteration r 0) (λ _ w', ∃ a', rep L w' a' ∧ wf a' ∧
    a_current a' = a_next a ∧ a_next a ≠ a_current a ∧ onboard a' = onboard a) w.
Proof.
  intros R W Hr Hx. eapply wp_mono; [by apply (attempt_refines L w a)|].
  assert (Hon : concat (onboard a) ≠ []).
  { intros E. rewrite (proj1 (concat_nil_rows _) E) in Hx. by apply elem_of_nil in Hx. }
  assert (E : a_attempt r 0 a = a_move a).
  { unfold a_attempt. rewrite (bool_decide_eq_false_2 (r = 0)), (bool_decide_eq_true_2 (0 = 0)) by done.
    unfold a_move_section. rewrite bool_decide_eq_false_2 by (intros E; apply Hon, (wf_offline _ W); by left).
    destruct (a_anyone (onboard a)) eqn:Ho; [done|by apply a_anyone_false in Ho]. }
  rewrite E. intros _ w' (R' & W' & _). exists (a_move a). split_and!; [done..| | |].
  - unfold a_move. by repeat case_bool_decide.
  - pose proof (wf_position _ W) as Hp. unfold position_ok in Hp. lia.
  - apply a_move_queues.
Qed.

Lemma runElevator_attempts L w a (should_stop : nat → bool) lock fuel k n :
  rep L w a → wf a →
  (∀ j, (j < n)%nat → should_stop (k + j)%nat = false) → should_stop (k + n)%nat = true →
  (n ≤ fuel)%nat →
  wp (runElevator should_stop lock fuel k) (λ r w', r = 0 ∧
    bad_unlocks w' = (bad_unlocks w + interrupted_calls (lock_results lock k n))%nat ∧
    rep L w' (a_attempts (lock_results lock k n) a) ∧ wf (a_attempts (lock_results lock k n) a)) w.
Proof.
  revert fuel k w a. induction n as [|n IH]; intros fuel k w a R W Hgo Hstop Hf.
  - rewrite Nat.add_0_r in Hstop. destruct fuel; cbn; rewrite Hstop; apply wp_ret;
      by rewrite Nat.add_0_r.
  - destruct fuel as [|fuel]; [lia|]. cbn [runElevator].
    specialize (Hgo 0%nat) as Hgo0. rewrite Nat.add_0_r in Hgo0. rewrite Hgo0 by lia.
    apply wp_bind. eapply wp_mono; [by eapply attempt_refines|].
    intros [] w' (R' & W' & Hb). eapply wp_mono; [apply (IH fuel (S k)); [done|done| | |lia]|].
    + intros j Hj. rewrite Nat.add_succ_l, <- Nat.add_succ_r. apply Hgo. lia.
    + by rewrite Nat.add_succ_l, <- Nat.add_succ_r.
    + intros r w'' (-> & Hb' & R'' & W''). split_and!; [done| |done..].
      rewrite Hb', Hb. unfold lock_results, interrupted_calls; cbn. lia.
Qed.

(** Nothing else ends the loop. *)
Lemma runElevator_runs_on L w a (should_stop : nat → bool) lock fuel k :
  rep L w a → wf a → (∀ j, (k ≤ j ≤ k + fuel)%nat → should_stop j = false) →
  runElevator should_stop lock fuel k w = NoFuel.
Proof.
  revert k w a. induction fuel as [|fuel IH]; intros k w a R W Hgo; cbn [runElevator];
    rewrite Hgo by lia; [done|].
  pose proof (attempt_refines L w a (lock k).1 (lock k).2 R W) as (u & w' & E & R' & W' & _)%wp_done.
  unfold mbind, M_bind. rewrite E. eapply IH; [done..|]. intros j Hj. apply Hgo. lia.
Qed.
End Loop.

(** ** The sweep through the building *)

(** Floor number [k] of the tour 0, 1, ..., 9, 8, ..., 1, 0, 1, ... *)
Definition tour (k : nat) : Z :=
  let m := Z.of_nat k mod 18 in if bool_decide (m ≤ 9) then m else 18 - m.

(** Going up in the first half of a tour. *)
Definition tour_up (k : nat) : bool := bool_decide (Z.of_nat k mod 18 < 9).

Definition sweep (k : nat) : pos := (tour k, tour (S k), if tour_up k then 1 else 0).

Definition e_pos (e : elevator) : pos := (current e, next e, direction e).

Section Sweep.
Lemma e_pos_move e : e_pos (move e) = pmove (e_pos e).
Proof. unfold move, pmove, e_pos. by repeat case_bool_decide. Qed.

Lemma move_status e :
  direction e = 0 ∨ direction e = 1 → status (move e) = if bool_decide (direction (move e) = 1) then UP else DOWN.
Proof. unfold move. intros Hd. repeat case_bool_decide; cbn in *; try done; lia. Qed.

Lemma sweep_period k : sweep k = sweep (k mod 18).
Proof.
  unfold sweep, tour, tour_up. rewrite Nat2Z.inj_mod.
  assert (E : Z.of_nat (S (k mod 18)) mod 18 = Z.of_nat (S k) mod 18).
  { rewrite !Nat2Z.inj_succ, Nat2Z.inj_mod. dlia. }
  by rewrite E, Z.mod_mod.
Qed.

Lemma pmove_sweep k : pmove (sweep k) = sweep (S k).
Proof.
  rewrite (sweep_period k), (sweep_period (S k)).
  assert (Hk : (k mod 18 < 18)%nat) by (by apply Nat.mod_upper_bound).
  replace (S k mod 18)%nat with (S (k mod 18) mod 18)%nat
    by (change (S k) with (1 + k)%nat; by rewrite <- (Nat.Div0.add_mod_idemp_r 1 k 18)).
  assert (H : forallb (λ m, bool_decide (pmove (sweep m) = sweep (S m mod 18))) (seq 0 18) = true)
    by (vm_compute; reflexivity).
  rewrite forallb_forall in H. eapply bool_decide_eq_true_1, H, in_seq. lia.
Qed.

(** Every position of the invariant joins the tour at the next move. *)
Lemma joins_tour p : p ∈ all_pos → ∃ j, (j < 18)%nat ∧ pmove p = sweep j.
Proof.
  intros Hp.
  assert (H : forallb (λ p, existsb (λ j, bool_decide (pmove p = sweep j)) (seq 0 18)) all_pos = true)
    by (vm_compute; reflexivity).
  rewrite forallb_forall in H. specialize (H p (proj1 (list_elem_of_In _ _) Hp)).
  apply existsb_exists in H as (j & Hj%in_seq & E%bool_decide_eq_true). exists j. split; [lia|done].
Qed.
End Sweep.

(** ** Properties *)

Section Properties.
Context {LA : ListApi node} {LL : ListLaws LA}.
Implicit Types (w : world) (a : astate) (L : gmap loc passenger).

(** C18. The thread on its own ends exactly when kthread_should_stop says so,
    whatever its lock calls return.  It then has run as many iterations as there
    were negative answers, without an invalid access, and leaves well-formed
    memory in which nobody was lost; every interrupted lock call was followed by
    one forbidden unlock call, and there were no others.  As long as the answer
    is no it runs on. *)
Theorem runElevator_terminates L w a should_stop lock fuel :
  rep L w a → wf a →
  (∀ n, stops_at should_stop n → (n ≤ fuel)%nat →
     wp (runElevator should_stop lock fuel 0) (λ r w', r = 0 ∧
       bad_unlocks w' = (bad_unlocks w + interrupted_calls (lock_results lock 0 n))%nat ∧
       let a' := a_attempts (lock_results lock 0 n) a in
       rep L w' a' ∧ wf a' ∧ ∀ i, account i a' = account i a) w) ∧
  ((∀ j, (j ≤ fuel)%nat → should_stop j = false) →
     runElevator should_stop lock fuel 0 w = NoFuel).
Proof.
  intros R W. split.
  - intros n [Hgo Hstop] Hf. eapply wp_mono; [by eapply (runElevator_attempts L w a _ lock fuel 0 n)|].
    intros r w' (-> & Hb & R' & W'). split_and!; [done..|]. intros a'. split_and!; [done..|].
    intros i. by apply account_attempts.
  - intros Hno. eapply runElevator_runs_on; [done..|]. intros j Hj. apply Hno. lia.
Qed.

(** C19. The position logic of the thread is a sweep: from every position the
    invariant allows, the floors visited by any number of moves are those of the
    tour 0, 1, ..., 9, 8, ..., 1, 0, ..., joined at one of its eighteen places,
    with the next floor, the direction and the status that go with it. *)
Theorem move_sweeps e :
  position_ok (current e) (next e) (direction e) →
  ∃ j, (j < 18)%nat ∧ ∀ k, let e' := Nat.iter (S k) move e in
    current e' = tour (j + k) ∧ next e' = tour (S (j + k)) ∧
    direction e' = (if tour_up (j + k) then 1 else 0) ∧
    status e' = (if tour_up (j + k) then UP else DOWN).
Proof.
  intros Hp. destruct (joins_tour (e_pos e)) as (j & Hj & E); [by apply elem_of_all_pos|].
  exists j. split; [done|].
  assert (Hpos : ∀ k, e_pos (Nat.iter (S k) move e) = sweep (j + k)).
  { intros k. induction k as [|k IH]; [by rewrite Nat.add_0_r, <- E, <- e_pos_move|].
    change (Nat.iter (S (S k)) move e) with (move (Nat.iter (S k) move e)).
    by rewrite e_pos_move, IH, pmove_sweep, Nat.add_succ_r. }
  intros k. cbv zeta. pose proof (Hpos k) as Hk. unfold e_pos, sweep in Hk.
  injection Hk as Hc Hn Hd. split_and!; try done.
  change (Nat.iter (S k) move e) with (move (Nat.iter k move e)) in *.
  rewrite move_status; [rewrite Hd; by destruct (tour_up _)|].
  destruct k as [|k]; [unfold position_ok in Hp; cbn; lia|].
  specialize (Hpos k). unfold e_pos, sweep in Hpos. injection Hpos as _ _ Hd'.
  change (direction (move (Nat.iter k move e)) = 0 ∨ direction (move (Nat.iter k move e)) = 1).
  rewrite Hd'. destruct (tour_up _); lia.
Qed.
End Properties.
