(* ===== verification/Stats.v ===== *)
(** * The report of /proc/elevator (printStats, elevator.h lines 304-352)

    [printStats] prints the state of the elevator and a line per floor into
    the buffer of ENTRY_SIZE bytes that [elevator_open] allocates.  It is
    proved to print [report], never to write beyond the buffer whatever the
    counters hold, and to print different text for different values. *)

From Stdlib Require Import Ascii.
From S2P Require Import Decimal.
From S2P Require Import Prelude KList ElevatorData ElevatorOps ElevatorSpec.
From S2P Require Import ElevatorRefine RunElevator.

Definition ENTRY_SIZE : nat := 1024.

(** ** The code *)

(** Lines 324-349; [k] is [i + 1], [half] and [len] are the local variables. *)
Fixpoint print_floors (cap : nat) (fs : list floors) (k : nat) (half len : Z) : M string Z :=
  match k with
  | O => mret len
  | S i =>
      match fs !! i with
      | None => crash OutOfBounds
      | Some x =>
          let half := if bool_decide (Z.rem (f_w_units x) 2 ≠ 0) then 1 else half in
          if bool_decide (half ≠ 0) then
            n ← sprintf_at cap len
                  ("Floor " +:+ pretty (Z.of_nat i +i 1) +:+ ": " +:+ pretty (f_p_units x) +:+
                   "/" +:+ pretty (Z.quot (f_w_units x) 2) +:+ ".5" +:+
                   " waiting (P/W) and " +:+ pretty (serviced x) +:+ " serviced" +:+ nl);
            print_floors cap fs i 0 (len +i n)
          else
            n ← sprintf_at cap len
                  ("Floor " +:+ pretty (Z.of_nat i +i 1) +:+ ": " +:+ pretty (f_p_units x) +:+
                   "/" +:+ pretty (Z.quot (f_w_units x) 2) +:+
                   " waiting (P/W) and " +:+ pretty (serviced x) +:+ " serviced" +:+ nl);
            print_floors cap fs i half (len +i n)
      end
  end.

(** Writes at the start of a buffer of [cap] bytes; returns the length. *)
Definition printStats `{ListApi node} (cap : nat) (w : world) : M string Z :=
  match b_e (w_b w) with
  | None => crash NullDeref
  | Some Addr_e =>
      let e := w_e w in
      let half := if bool_decide (Z.rem (e_w_units e) 2 ≠ 0) then 1 else 0 in
      n ← sprintf_at cap 0 ("State: " +:+ getState e +:+ nl);
      let len := 0 +i n in
      n ← sprintf_at cap len ("Current Floor: " +:+ pretty (current e +i 1) +:+ nl);
      let len := len +i n in
      n ← sprintf_at cap len ("Next Floor: " +:+ pretty (next e +i 1) +:+ nl);
      let len := len +i n in
      n ← (if bool_decide (half ≠ 0) then
             sprintf_at cap len
               ("Elevator Load (P/W): " +:+ pretty (e_p_units e) +:+ "/" +:+
                pretty (Z.quot (e_w_units e) 2) +:+ ".5" +:+ nl)
           else
             sprintf_at cap len
               ("Elevator Load (P/W):  " +:+ pretty (e_p_units e) +:+ "/" +:+
                pretty (Z.quot (e_w_units e) 2) +:+ nl));
      let len := len +i n in
      print_floors cap (b_f (w_b w)) 10 0 len
  end.

(** ** The report *)

Definition odd (w : Z) : bool := bool_decide (Z.rem w 2 ≠ 0).
Definition half_units (w : Z) (t : string) : string :=
  pretty (Z.quot w 2) +:+ (if odd w then ".5" +:+ t else t).

(** A line followed by [t]. *)
Definition floor_line (i : nat) (x : floors) (t : string) : string :=
  "Floor " +:+ pretty (Z.of_nat i + 1) +:+ ": " +:+ pretty (f_p_units x) +:+ "/" +:+
  half_units (f_w_units x)
    (" waiting (P/W) and " +:+ pretty (serviced x) +:+ " serviced" +:+ nl +:+ t).

Fixpoint floor_lines (fs : list floors) (k : nat) : string :=
  match k with
  | O => ""
  | S i => match fs !! i with Some x => floor_line i x (floor_lines fs i) | None => "" end
  end.

Definition load_line (p w : Z) (t : string) : string :=
  "Elevator Load (P/W): " +:+ (if odd w then "" else " ") +:+ pretty p +:+ "/" +:+
  half_units w (nl +:+ t).

Definition report (e : elevator) (fs : list floors) : string :=
  "State: " +:+ getState e +:+ nl +:+ "Current Floor: " +:+ pretty (current e + 1) +:+ nl +:+
  "Next Floor: " +:+ pretty (next e + 1) +:+ nl +:+
  load_line (e_p_units e) (e_w_units e) (floor_lines fs 10).

(** ** Lengths *)

Definition ints_of_floor (x : floors) : Prop :=
  is_int (f_p_units x) ∧ is_int (f_w_units x) ∧ is_int (serviced x).

Section Lengths.
Lemma quot_int w : is_int w → is_int (Z.quot w 2).
Proof. unfold is_int, INT_MIN, INT_MAX. intros ?. dlia. Qed.

Lemma half_units_length w t :
  is_int w → (String.length (half_units w t) ≤ 13 + String.length t)%nat.
Proof.
  intros Hw. unfold half_units. rewrite str_length_app.
  pose proof (pretty_int_length _ (quot_int w Hw)).
  destruct (odd w); rewrite ?str_length_app; cbn [String.length]; lia.
Qed.

Lemma floor_line_length i x t :
  (i < 10)%nat → ints_of_floor x →
  (String.length (floor_line i x t) ≤ 84 + String.length t)%nat.
Proof.
  intros Hi (Hp & Hw & Hs). unfold floor_line. rewrite !str_length_app.
  pose proof (pretty_int_length _ Hp).
  assert (is_int (Z.of_nat i + 1)) as Hi' by (unfold is_int, INT_MIN, INT_MAX; lia).
  pose proof (pretty_int_length _ Hi').
  pose proof (half_units_length (f_w_units x)
    (" waiting (P/W) and " +:+ pretty (serviced x) +:+ " serviced" +:+ nl +:+ t) Hw) as Hh.
  pose proof (pretty_int_length _ Hs).
  rewrite !str_length_app in Hh. unfold nl in *. cbn [String.length] in *. lia.
Qed.

Lemma floor_lines_length fs k :
  (k ≤ 10)%nat → Forall ints_of_floor fs → (String.length (floor_lines fs k) ≤ 84 * k)%nat.
Proof.
  intros Hk Hfs. induction k as [|i IH]; [cbn; lia|]. cbn [floor_lines].
  destruct (fs !! i) as [x|] eqn:Hx; [|cbn; lia].
  pose proof (floor_line_length i x (floor_lines fs i) ltac:(lia)
    (Forall_lookup_1 _ _ _ _ Hfs Hx)). lia.
Qed.

Lemma getState_length e : (String.length (getState e) ≤ 7)%nat.
Proof. unfold getState. repeat case_bool_decide; cbn; lia. Qed.

Lemma load_line_length p w t :
  is_int p → is_int w → (String.length (load_line p w t) ≤ 48 + String.length t)%nat.
Proof.
  intros Hp Hw. unfold load_line. rewrite !str_length_app.
  pose proof (pretty_int_length _ Hp).
  pose proof (half_units_length w (nl +:+ t) Hw) as Hh. rewrite str_length_app in Hh.
  unfold nl in *. destruct (odd w); cbn [String.length] in *; lia.
Qed.

Lemma report_length e fs :
  is_int (current e + 1) → is_int (next e + 1) → is_int (e_p_units e) → is_int (e_w_units e) →
  Forall ints_of_floor fs → (String.length (report e fs) < ENTRY_SIZE)%nat.
Proof.
  intros Hc Hn Hp Hw Hfs. unfold report, ENTRY_SIZE. rewrite !str_length_app.
  pose proof (getState_length e). pose proof (pretty_int_length _ Hc).
  pose proof (pretty_int_length _ Hn). pose proof (floor_lines_length fs 10 (Nat.le_refl _) Hfs).
  pose proof (load_line_length _ _ (floor_lines fs 10) Hp Hw).
  unfold nl in *. cbn [String.length] in *. lia.
Qed.
End Lengths.

(** ** printStats prints the report *)

Section Print.
Lemma floor_line_app i x t : floor_line i x t = floor_line i x "" +:+ t.
Proof.
  unfold floor_line, half_units, nl.
  destruct (odd (f_w_units x)); rewrite !str_app_assoc; done.
Qed.

Lemma load_line_app p w t : load_line p w t = load_line p w "" +:+ t.
Proof.
  unfold load_line, half_units, nl. destruct (odd w); rewrite !str_app_assoc; done.
Qed.

Lemma wrap32_len n : (n < ENTRY_SIZE)%nat → wrap32 (Z.of_nat n) = Z.of_nat n.
Proof. unfold ENTRY_SIZE. intros ?. apply wrap32_small. lia. Qed.

(** [len += sprintf(buf + len, ...)] keeps [len] the length of the text. *)
Lemma len_step s t :
  (String.length (t +:+ s) < ENTRY_SIZE)%nat →
  Z.of_nat (String.length t) +i Z.of_nat (String.length s) = Z.of_nat (String.length (t +:+ s)).
Proof.
  intros Hlen. rewrite str_length_app in *. rewrite <- Nat2Z.inj_add. by apply wrap32_len.
Qed.

Local Ltac append :=
  apply wp_bind, wp_sprintf_end; [rewrite ?str_length_app in *; lia|];
  rewrite len_step by (rewrite ?str_length_app in *; lia).

Lemma wp_print_floors cap fs k t (Q : Z → string → Prop) :
  (k ≤ length fs)%nat → (k ≤ 10)%nat →
  (String.length (t +:+ floor_lines fs k) < cap ≤ ENTRY_SIZE)%nat →
  Q (Z.of_nat (String.length (t +:+ floor_lines fs k))) (t +:+ floor_lines fs k) →
  wp (print_floors cap fs k 0 (Z.of_nat (String.length t))) Q t.
Proof.
  revert t. induction k as [|i IH]; intros t Hk Hk' Hcap HQ.
  - cbn [floor_lines] in *. rewrite str_app_nil_r in HQ. by apply wp_ret.
  - cbn [floor_lines print_floors] in *.
    destruct (lookup_lt_is_Some_2 fs i) as [x Hx]; [lia|]. rewrite Hx in *.
    rewrite floor_line_app, <- str_app_assoc in Hcap, HQ.
    assert (Hlen : (String.length (t +:+ floor_line i x "") < cap)%nat).
    { rewrite str_length_app in Hcap. lia. }
    rewrite (wrap32_small (Z.of_nat i + 1)) by lia.
    unfold floor_line, half_units, odd in *.
    destruct (bool_decide (Z.rem (f_w_units x) 2 ≠ 0)); cbn [bool_decide decide];
      [rewrite bool_decide_eq_true_2 by done|rewrite bool_decide_eq_false_2 by (intros H; done)];
      append; apply IH; try lia; try exact Hcap; exact HQ.
Qed.

Context {LA : ListApi node}.

Theorem wp_printStats w t (Q : Z → string → Prop) :
  b_e (w_b w) = Some Addr_e → length (b_f (w_b w)) = 10%nat →
  is_int (current (w_e w) + 1) → is_int (next (w_e w) + 1) →
  is_int (e_p_units (w_e w)) → is_int (e_w_units (w_e w)) →
  Forall ints_of_floor (b_f (w_b w)) →
  let r := report (w_e w) (b_f (w_b w)) in
  Q (Z.of_nat (String.length r)) r → wp (printStats ENTRY_SIZE w) Q t.
Proof.
  intros Hbe Hfl Hc Hn Hp Hw Hfs r HQ.
  pose proof (report_length (w_e w) _ Hc Hn Hp Hw Hfs) as Hlen. fold r in Hlen.
  unfold printStats. rewrite Hbe. set (e := w_e w) in *. set (fs := b_f (w_b w)) in *.
  rewrite !wrap32_id by done.
  set (s1 := "State: " +:+ getState e +:+ nl).
  set (s2 := "Current Floor: " +:+ pretty (current e + 1) +:+ nl).
  set (s3 := "Next Floor: " +:+ pretty (next e + 1) +:+ nl).
  set (s4 := load_line (e_p_units e) (e_w_units e) "").
  assert (Hr : r = (((s1 +:+ s2) +:+ s3) +:+ s4) +:+ floor_lines fs 10).
  { unfold r, report. rewrite load_line_app. subst s1 s2 s3 s4.
    by rewrite !str_app_assoc. }
  rewrite Hr in Hlen, HQ.
  assert (Hlens : (String.length s1 + String.length s2 + String.length s3 + String.length s4
                   < ENTRY_SIZE)%nat) by (rewrite !str_length_app in Hlen; lia).
  apply wp_bind, wp_sprintf_start; [lia|].
  rewrite Z.add_0_l, wrap32_len by lia.
  append. append.
  assert (Hload : (if bool_decide ((if bool_decide (Z.rem (e_w_units e) 2 ≠ 0) then 1 else 0) ≠ 0)
           then sprintf_at ENTRY_SIZE (Z.of_nat (String.length ((s1 +:+ s2) +:+ s3)))
             ("Elevator Load (P/W): " +:+ pretty (e_p_units e) +:+ "/" +:+
              pretty (Z.quot (e_w_units e) 2) +:+ ".5" +:+ nl)
           else sprintf_at ENTRY_SIZE (Z.of_nat (String.length ((s1 +:+ s2) +:+ s3)))
             ("Elevator Load (P/W):  " +:+ pretty (e_p_units e) +:+ "/" +:+
              pretty (Z.quot (e_w_units e) 2) +:+ nl)) =
           sprintf_at ENTRY_SIZE (Z.of_nat (String.length ((s1 +:+ s2) +:+ s3))) s4).
  { subst s4. unfold load_line, half_units, odd.
    by destruct (bool_decide (Z.rem (e_w_units e) 2 ≠ 0)). }
  rewrite Hload.
  append.
  apply wp_print_floors; [lia|lia|lia|done].
Qed.
End Print.

(** ** Reading the report back *)

Section Readback.
(** The printed half units are the weight. *)
Lemma halves v : 0 ≤ v → v = 2 * Z.quot v 2 + (if odd v then 1 else 0).
Proof.
  intros Hv. pose proof (Z.rem_bound_pos v 2 Hv ltac:(lia)). pose proof (Z.quot_rem' v 2).
  unfold odd. case_bool_decide; lia.
Qed.

Lemma half_units_inj w w' c t d t' :
  is_digit c = false → is_digit d = false → c ≠ "."%char → d ≠ "."%char → 0 ≤ w → 0 ≤ w' →
  half_units w (String c t) = half_units w' (String d t') → w = w' ∧ String c t = String d t'.
Proof.
  intros Hc Hd Hc' Hd' Hw Hw' E.
  pose proof (halves w Hw) as Hsp. pose proof (halves w' Hw') as Hsp'.
  unfold half_units in E. destruct (odd w), (odd w').
  - apply (pretty_Z_split _ _ "."%char _ "."%char _) in E as [Hq E]; [|done..].
    injection E as ->. subst. split; [lia|done].
  - apply (pretty_Z_split _ _ "."%char _ d _) in E as [_ E]; [|done..]. congruence.
  - apply (pretty_Z_split _ _ c _ "."%char _) in E as [_ E]; [|done..]. congruence.
  - apply (pretty_Z_split _ _ c _ d _) in E as [Hq E]; [|done..]. split; [lia|done].
Qed.

Lemma floor_line_inj i x x' t t' :
  0 ≤ f_w_units x → 0 ≤ f_w_units x' → floor_line i x t = floor_line i x' t' →
  f_p_units x = f_p_units x' ∧ f_w_units x = f_w_units x' ∧ serviced x = serviced x' ∧ t = t'.
Proof.
  intros Hw Hw' E. unfold floor_line in E.
  apply str_app_cancel, str_app_cancel, str_app_cancel in E.
  apply (pretty_Z_split _ _ "/"%char _ "/"%char _) in E as [Ep E]; [|done..].
  injection E as E.
  apply (half_units_inj _ _ " "%char _ " "%char _) in E as [Ew E]; [|done..].
  injection E as E. 
  apply (pretty_Z_split _ _ " "%char _ " "%char _) in E as [Es E]; [|done..].
  injection E as E. done.
Qed.

Lemma floor_lines_inj fs fs' k :
  (k ≤ length fs)%nat → (k ≤ length fs')%nat →
  Forall (λ x, 0 ≤ f_w_units x) fs → Forall (λ x, 0 ≤ f_w_units x) fs' →
  floor_lines fs k = floor_lines fs' k →
  ∀ i x x', (i < k)%nat → fs !! i = Some x → fs' !! i = Some x' →
    f_p_units x = f_p_units x' ∧ f_w_units x = f_w_units x' ∧ serviced x = serviced x'.
Proof.
  intros Hk Hk' Hfs Hfs'. induction k as [|k IH]; intros E i x x' Hi Hx Hx'; [lia|].
  cbn [floor_lines] in E.
  destruct (lookup_lt_is_Some_2 fs k) as [y Hy]; [lia|].
  destruct (lookup_lt_is_Some_2 fs' k) as [y' Hy']; [lia|].
  rewrite Hy, Hy' in E.
  apply floor_line_inj in E as (Ep & Ew & Es & E);
    [|exact (Forall_lookup_1 _ _ _ _ Hfs Hy)|exact (Forall_lookup_1 _ _ _ _ Hfs' Hy')].
  destruct (decide (i = k)) as [->|]; [by simplify_eq|].
  apply (IH ltac:(lia) ltac:(lia) E i); [lia|done|done].
Qed.

Lemma getState_no_nl e : str_all (λ c, negb (bool_decide (c = Ascii.ascii_of_nat 10))) (getState e) = true.
Proof. unfold getState. repeat case_bool_decide; reflexivity. Qed.

Lemma getState_inj e e' :
  IDLE ≤ status e ≤ DOWN → IDLE ≤ status e' ≤ DOWN → getState e = getState e' → status e = status e'.
Proof.
  unfold getState, IDLE, OFFLINE, LOADING, UP, DOWN. intros H H'.
  repeat case_bool_decide; intros ?; try done; lia.
Qed.

Lemma pretty_head_digit (z : Z) s t : pretty z +:+ s ≠ String " " t ∨ s = String " " t.
Proof.
  destruct (pretty z) as [|c u] eqn:E; [destruct (decide (s = String " " t)); auto|].
  left. change (String c u +:+ s) with (String c (u +:+ s)). intros [= ->].
  pose proof (pretty_Z_digits z) as Hd. rewrite E in Hd. done.
Qed.

Lemma load_line_inj p w t p' w' t' :
  0 ≤ w → 0 ≤ w' → load_line p w t = load_line p' w' t' → p = p' ∧ w = w' ∧ t = t'.
Proof.
  intros Hw Hw' E. unfold load_line in E. apply str_app_cancel in E.
  assert (Hcont : ∀ (a v : Z) u (a' v' : Z) u', pretty a +:+ "/" +:+ half_units v (nl +:+ u) =
    pretty a' +:+ "/" +:+ half_units v' (nl +:+ u') → 0 ≤ v → 0 ≤ v' → a = a' ∧ v = v' ∧ u = u').
  { intros a v u a' v' u' E' Hv Hv'.
    apply (pretty_Z_split _ _ "/"%char _ "/"%char _) in E' as [-> E']; [|done..].
    injection E' as E'.
    apply (half_units_inj _ _ (Ascii.ascii_of_nat 10) _ (Ascii.ascii_of_nat 10) _) in E'
      as [-> E']; [|done..].
    by injection E' as ->. }
  destruct (odd w), (odd w'); [by apply Hcont|..|].
  - destruct (pretty_head_digit p ("/" +:+ half_units w (nl +:+ t))
      (pretty p' +:+ "/" +:+ half_units w' (nl +:+ t'))) as [H|H]; done.
  - symmetry in E. destruct (pretty_head_digit p' ("/" +:+ half_units w' (nl +:+ t'))
      (pretty p +:+ "/" +:+ half_units w (nl +:+ t))) as [H|H]; done.
  - apply str_app_cancel in E. by apply Hcont.
Qed.
End Readback.

(** ** Properties of the report *)

Section Properties.
Context {LA : ListApi node} {LL : ListLaws LA}.

Lemma rep_ints_of_floors L w a : rep L w a → wf a → Forall ints_of_floor (b_f (w_b w)).
Proof.
  intros R W. apply Forall_lookup. intros i x Hx.
  assert (Hi : (i < 10)%nat) by (rewrite <- (rep_f_len _ _ _ R); by eapply lookup_lt_Some).
  destruct (lookup_lt_is_Some_2 (served a) i) as [s Hs]; [by rewrite (wf_served_len _ W)|].
  rewrite (rep_f _ _ _ R _ _ Hs) in Hx. injection Hx as <-. unfold ints_of_floor; cbn.
  split_and!; [apply wrap32_range..|]. by eapply wf_served.
Qed.

Lemma printStats_report L w a t :
  rep L w a → wf a →
  wp (printStats ENTRY_SIZE w) (λ len text,
    text = report (w_e w) (b_f (w_b w)) ∧ len = Z.of_nat (String.length text) ∧
    (String.length text < ENTRY_SIZE)%nat ∧ len ≠ 0) t.
Proof.
  intros R W. pose proof (rep_ints_of_floors _ _ _ R W) as Hfs.
  pose proof (wf_position _ W) as Hp. unfold position_ok in Hp.
  assert (Hc : is_int (current (w_e w) + 1) ∧ is_int (next (w_e w) + 1)).
  { rewrite (rep_e _ _ _ R). cbn [current next elevator_of].
    unfold is_int, INT_MIN, INT_MAX. lia. }
  assert (He : is_int (e_p_units (w_e w)) ∧ is_int (e_w_units (w_e w))).
  { rewrite (rep_e _ _ _ R). split; apply wrap32_range. }
  destruct Hc as [Hc Hn], He as [Hpu Hwu].
  apply wp_printStats; try done; [apply (rep_be _ _ _ R)|apply (rep_f_len _ _ _ R)|].
  split_and!; [done|done|by apply report_length|]. unfold report.
  change ("State: " +:+ ?s) with (String "S" ("tate: " +:+ s)). cbn [String.length]. lia.
Qed.

(** [printStats] stays inside the buffer of ENTRY_SIZE bytes in every
    well-formed state, whatever the counters hold, prints the report and
    returns its length. *)
Lemma printStats_fits L w a t :
  rep L w a → wf a →
  wp (printStats ENTRY_SIZE w) (λ len text,
    text = report (w_e w) (b_f (w_b w)) ∧ len = Z.of_nat (String.length text) ∧
    (String.length text < ENTRY_SIZE)%nat ∧ len ≠ 0) t.
Proof. apply printStats_report. Qed.

(** The report determines everything it shows: two states with the same
    report have the same status, position, load, and per floor the same
    waiting load and number of serviced passengers. *)
Lemma report_determines e fs e' fs' :
  length fs = 10%nat → length fs' = 10%nat →
  IDLE ≤ status e ≤ DOWN → IDLE ≤ status e' ≤ DOWN →
  0 ≤ e_w_units e → 0 ≤ e_w_units e' →
  Forall (λ x, 0 ≤ f_w_units x) fs → Forall (λ x, 0 ≤ f_w_units x) fs' →
  report e fs = report e' fs' →
  status e = status e' ∧ current e = current e' ∧ next e = next e' ∧
  e_p_units e = e_p_units e' ∧ e_w_units e = e_w_units e' ∧
  (∀ i x x', fs !! i = Some x → fs' !! i = Some x' →
     f_p_units x = f_p_units x' ∧ f_w_units x = f_w_units x' ∧ serviced x = serviced x').
Proof.
  intros Hl Hl' Hs Hs' Hw Hw' Hfs Hfs' E. unfold report in E.
  apply str_app_cancel in E.
  apply (str_split_unique (λ c, negb (bool_decide (c = Ascii.ascii_of_nat 10)))
    _ _ (Ascii.ascii_of_nat 10) _ (Ascii.ascii_of_nat 10) _) in E as [Es E];
    [|apply getState_no_nl|apply getState_no_nl|done..].
  apply getState_inj in Es; [|done..].
  injection E as E.
  apply (pretty_Z_split _ _ (Ascii.ascii_of_nat 10) _ (Ascii.ascii_of_nat 10) _) in E
    as [Ec E]; [|done..].
  injection E as E.
  apply (pretty_Z_split _ _ (Ascii.ascii_of_nat 10) _ (Ascii.ascii_of_nat 10) _) in E
    as [En E]; [|done..].
  injection E as E.
  assert (E' : load_line (e_p_units e) (e_w_units e) (floor_lines fs 10) =
               load_line (e_p_units e') (e_w_units e') (floor_lines fs' 10))
    by (unfold load_line; f_equal; exact E).
  apply load_line_inj in E' as (Ep & Ew & Ef); [|done..].
  split_and!; try done; try lia.
  intros i x x' Hx Hx'. pose proof (lookup_lt_Some _ _ _ Hx).
  apply (floor_lines_inj fs fs' 10 ltac:(lia) ltac:(lia) Hfs Hfs' Ef i x x'); [lia|done|done].
Qed.
(** C21. [printStats] in every well-formed state finishes inside its buffer of
    ENTRY_SIZE bytes, whatever the counters hold, and returns the length of the
    text; and the text can be read back: two states that print the same text have
    the same status, position and load, and per floor the same waiting load and
    number of serviced passengers (as long as no floor's load has wrapped to a
    negative number). *)
Theorem printStats_faithful L w a L' w' a' t t' :
  rep L w a → wf a → rep L' w' a' → wf a' →
  Forall (λ x, 0 ≤ f_w_units x) (b_f (w_b w)) → Forall (λ x, 0 ≤ f_w_units x) (b_f (w_b w')) →
  wp (printStats ENTRY_SIZE w) (λ len text,
    len = Z.of_nat (String.length text) ∧ (String.length text < ENTRY_SIZE)%nat ∧
    wp (printStats ENTRY_SIZE w') (λ _ text', text = text' →
      status (w_e w) = status (w_e w') ∧ current (w_e w) = current (w_e w') ∧
      next (w_e w) = next (w_e w') ∧
      e_p_units (w_e w) = e_p_units (w_e w') ∧ e_w_units (w_e w) = e_w_units (w_e w') ∧
      (∀ i x x', b_f (w_b w) !! i = Some x → b_f (w_b w') !! i = Some x' →
         f_p_units x = f_p_units x' ∧ f_w_units x = f_w_units x' ∧ serviced x = serviced x')) t') t.
Proof.
  intros R W R' W' Hfs Hfs'.
  eapply wp_mono; [by apply (printStats_fits L w a)|]. intros len text (-> & -> & Hlen & _).
  split_and!; [done|done|].
  eapply wp_mono; [by apply (printStats_fits L' w' a')|]. intros len' text' (-> & _ & _ & _) E.
  assert (He : ∀ L0 w0 a0, rep L0 w0 a0 → wf a0 →
    IDLE ≤ status (w_e w0) ≤ DOWN ∧ 0 ≤ e_w_units (w_e w0)).
  { intros L0 w0 a0 R0 W0. rewrite (rep_e _ _ _ R0). cbn [status e_w_units elevator_of].
    pose proof (wf_load_bounds _ W0) as [Hw _]. unfold MAX_W in Hw.
    rewrite wrap32_small by lia. split; [apply (wf_status _ W0)|lia]. }
  destruct (He L w a R W), (He L' w' a' R' W').
  apply report_determines; try done; [apply (rep_f_len _ _ _ R)|apply (rep_f_len _ _ _ R')].
Qed.
End Properties.
