(* ===== verification/Syscalls.v ===== *)
(** * The system calls (elevator.c lines 149-249, part3/SystemCalls)

    [issue_request], [start_elevator] and [stop_elevator] with the results of
    [kmalloc] and [mutex_lock_interruptible] as arguments, their refinement of
    operations on the abstract state, the stub pointers through which the
    kernel calls them, and the sequences of calls and thread iterations that
    drive the module ([run_event], [trace]). *)

From S2P Require Import Prelude KList ElevatorData ElevatorOps ElevatorSpec.
From S2P Require Import ElevatorRefine RunElevator Liveness.

(** ** The code *)

Section Code.
Context {LA : ListApi node}.
Notation MW := (M world).

(** [issue_request] up to the lock (lines 161-172): [None] when it returns
    1, otherwise the new passenger.  [mem] is the result of [kmalloc]; it is
    not tested before it is written to. *)
Definition issue_prepare (mem : option loc) (p_type s_floor d_floor : Z) : MW (option loc) :=
  if bool_decide (p_type < 1) || bool_decide (p_type > 4) then mret None else
  if bool_decide (s_floor < 1) || bool_decide (s_floor > 10) then mret None else
  if bool_decide (d_floor < 1) || bool_decide (d_floor > 10) then mret None else
  e ← gets w_e;
  if bool_decide (shutdown e ≠ 0) then mret None else
  match mem with
  | None => crash NullDeref
  | Some p =>
      modify (λ w, set_heap (<[p := Passenger (p_type -i 1) (s_floor -i 1) (d_floor -i 1)]>
                               (heap w)) w) ;;
      do_init_head (PN p) ;;
      mret (Some p)
  end.

(** Lines 175-177, [r] being the result of the lock call. *)
Definition issue_enqueue (r : Z) (p : loc) : MW unit :=
  when (bool_decide (r = 0)) (addPass p) ;;
  mutex_unlock r.

Definition issue_request (mem : option loc) (r : Z) (p_type s_floor d_floor : Z) : MW Z :=
  o ← issue_prepare mem p_type s_floor d_floor;
  match o with
  | None => mret 1
  | Some p => issue_enqueue r p ;; mret 0
  end.

(** The body of [start_elevator]'s critical section (lines 195-202): the new
    value of [s], which was 0. *)
Definition start_section : MW Z :=
  e ← gets w_e;
  if bool_decide (status e ≠ OFFLINE) then mret 1
  else
    upd_e (λ e, set_shutdown 0 (set_position 0 1 (set_status IDLE e))) ;;
    mret 0.

(** [start_elevator] (lines 190-207) *)
Definition start_elevator (r : Z) : MW Z :=
  s ← (if bool_decide (r = 0) then start_section else mret 0);
  mutex_unlock r ;;
  mret s.

(** The body of [stop_elevator]'s critical section (lines 223-226). *)
Definition stop_section : MW Z :=
  e ← gets w_e;
  if bool_decide (shutdown e ≠ 0) then mret 1
  else upd_e (set_shutdown 1) ;; mret 0.

(** [stop_elevator] (lines 218-231) *)
Definition stop_elevator (r : Z) : MW Z :=
  s ← (if bool_decide (r = 0) then stop_section else mret 0);
  mutex_unlock r ;;
  mret s.
End Code.

(** ** The abstract system calls *)

Definition a_start (a : astate) : Z * astate :=
  if bool_decide (a_status a ≠ OFFLINE) then (1, a)
  else (0, with_shutdown 0 (with_position 0 1 (a_direction a) (with_status IDLE a))).

Definition a_stop (a : astate) : Z * astate :=
  if bool_decide (a_shutdown a ≠ 0) then (1, a) else (0, with_shutdown 1 a).

Definition valid_request (p_type s_floor d_floor : Z) : Prop :=
  1 ≤ p_type ≤ 4 ∧ 1 ≤ s_floor ≤ 10 ∧ 1 ≤ d_floor ≤ 10.

#[export] Instance valid_request_dec p s d : Decision (valid_request p s d).
Proof. apply _. Defined.

(** The passenger a request stands for. *)
Definition passenger_of (p_type s_floor d_floor : Z) : passenger :=
  Passenger (p_type - 1) (s_floor - 1) (d_floor - 1).

Definition accepts (a : astate) (p_type s_floor d_floor : Z) : Prop :=
  valid_request p_type s_floor d_floor ∧ a_shutdown a = 0.

#[export] Instance accepts_dec a p s d : Decision (accepts a p s d).
Proof. apply _. Defined.

Definition a_issue (mem : option loc) (p_type s_floor d_floor : Z) (a : astate) : Z * astate :=
  match mem with
  | Some l =>
      if decide (accepts a p_type s_floor d_floor)
      then (0, a_add (l, passenger_of p_type s_floor d_floor) a) else (1, a)
  | None => (1, a)
  end.

(** ** Refinement *)

Section Refine.
Context {LA : ListApi node} {LL : ListLaws LA}.
Implicit Types (w : world) (a : astate) (L : gmap loc passenger).

Lemma valid_request_pass p s d : valid_request p s d → valid_pass (passenger_of p s d).
Proof. unfold valid_request, valid_pass, MAX_FLOOR. cbn. lia. Qed.

Lemma wf_add x a : wf a → valid_pass x.2 → wf (a_add x a).
Proof.
  intros W Hp. pose proof Hp as (_ & Hs%floor_ix_lt & _). pose proof (wf_waiting_len _ W).
  destruct W. split; try done.
  - cbn. by rewrite length_insert.
  - intros i y. unfold a_add; cbn [waiting with_waiting]. rewrite row_insert by lia.
    case_decide; subst; [|eauto].
    intros [Hy| ->%list_elem_of_singleton]%elem_of_app; eauto.
Qed.

(** A fresh object that is on no list. *)
Lemma rep_alloc L w a l p :
  rep L w a → heap w !! l = None →
  rep (<[l:=p]> L) (set_links (INIT_LIST_HEAD (PN l) (links w)) (set_heap (<[l:=p]> (heap w)) w)) a.
Proof.
  intros R Hl. assert (Hn : ∀ x, listed a x → x.1 ≠ l).
  { intros x Hx%(rep_heap _ _ _ R) Heq. congruence. }
  assert (HL : L !! l = None).
  { destruct (L !! l) eqn:E; [|done]. by rewrite (rep_extra_heap _ _ _ _ _ R E) in Hl. }
  destruct R as [? ? ? ? ? ? ? [Hr Hhd Hd] Hheap Hex Hdom Hdj]. split; try done; cbn.
  - split; [|done..]. intros h Hh. apply ring_init_frame; [auto|].
    intros [Heq|Hin]%elem_of_cons; [by subst h|].
    apply elem_of_entries in Hin as [q Hq]. by eapply (Hn (l, q)).
  - intros x Hx. rewrite lookup_insert_ne by (apply not_eq_sym; auto). auto.
  - by apply insert_mono.
  - intros l' p'. rewrite !lookup_insert. case_decide; [naive_solver|auto].
  - intros x Hx. rewrite lookup_insert_ne by (apply not_eq_sym; auto). auto.
Qed.

Lemma issue_prepare_ok L w a l p s d :
  rep L w a → wf a → heap w !! l = None → accepts a p s d →
  wp (issue_prepare (Some l) p s d)
    (λ o w', o = Some l ∧ rep (<[l:=passenger_of p s d]> L) w' a) w.
Proof.
  intros R W Hl [(Hp & Hs & Hd) Hsh]. unfold issue_prepare.
  rewrite !(bool_decide_eq_false_2 (_ < _)), !(bool_decide_eq_false_2 (_ > _)) by lia. cbn [orb].
  apply wp_bind, wp_gets. rewrite (rep_e _ _ _ R). cbn [shutdown elevator_of].
  rewrite bool_decide_eq_false_2 by (intros H; done).
  apply wp_bind, wp_modify, wp_bind, wp_modify, wp_ret. split; [done|]. cbn.
  rewrite !wrap32_small by lia. by apply (rep_alloc L w a).
Qed.

Lemma issue_prepare_rejects L w a mem p s d :
  rep L w a → ¬ accepts a p s d →
  issue_prepare mem p s d w = Done (None, w).
Proof.
  intros R Hn. unfold issue_prepare.
  destruct (bool_decide (p < 1) || bool_decide (p > 4)) eqn:Ep; [done|].
  destruct (bool_decide (s < 1) || bool_decide (s > 10)) eqn:Es; [done|].
  destruct (bool_decide (d < 1) || bool_decide (d > 10)) eqn:Ed; [done|].
  rewrite orb_false_iff, !bool_decide_eq_false in Ep, Es, Ed.
  unfold mbind, M_bind, gets. rewrite (rep_e _ _ _ R). cbn [shutdown elevator_of].
  rewrite bool_decide_eq_true_2; [done|]. intros Hs. apply Hn. unfold accepts, valid_request. lia.
Qed.

Lemma issue_request_no_effect L w a mem r p s d :
  rep L w a → ¬ accepts a p s d → issue_request mem r p s d w = Done (1, w).
Proof.
  intros R Hn. unfold issue_request, mbind, M_bind. by rewrite (issue_prepare_rejects L w a).
Qed.

Lemma issue_request_refines L w a l p s d :
  rep L w a → wf a → heap w !! l = None →
  wp (issue_request (Some l) 0 p s d)
    (λ r w', ∃ a', (r, a') = a_issue (Some l) p s d a ∧ rep L w' a' ∧ wf a') w.
Proof.
  intros R W Hl. unfold issue_request, a_issue. destruct (decide (accepts a p s d)) as [Ha|Ha].
  - apply wp_bind. eapply wp_mono; [by eapply issue_prepare_ok|].
    intros ? w' [-> R']. cbn. destruct Ha as [Hv _].
    assert (HL : L !! l = None).
    { destruct (L !! l) eqn:E; [|done]. by rewrite (rep_extra_heap _ _ _ _ _ R E) in Hl. }
    apply wp_bind, wp_bind. eapply wp_mono.
    { eapply (addPass_refines _ _ _ l); [done|apply lookup_insert_eq|].
      by apply valid_request_pass. }
    intros [] w'' R''. rewrite delete_insert_eq, delete_id in R'' by done.
    apply wp_ret, wp_ret. eexists. split; [done|]. split; [done|].
    apply wf_add; [done|]. by apply valid_request_pass.
  - apply wp_bind. eapply wp_run; [by eapply issue_prepare_rejects|]. apply wp_ret. eauto.
Qed.

Lemma wf_start a : wf a → wf (a_start a).2.
Proof.
  intros W. unfold a_start. case_bool_decide as Hst; [done|].
  pose proof (wf_offline _ W (or_introl Hst)) as Ho. pose proof (wf_position _ W) as Hp.
  destruct W. split; cbn; try done; [unfold position_ok in *; lia|by left].
Qed.

Lemma wf_stop a : wf a → wf (a_stop a).2.
Proof.
  intros W. unfold a_stop. case_bool_decide; [done|]. destruct W. split; cbn; try done. by right.
Qed.

Lemma start_section_refines L w a :
  rep L w a → wp start_section (λ r w', r = (a_start a).1 ∧ rep L w' (a_start a).2) w.
Proof.
  intros R. unfold start_section, a_start.
  apply wp_bind, wp_gets. rewrite (rep_e _ _ _ R). cbn [status elevator_of].
  case_bool_decide; [by apply wp_ret|].
  apply wp_bind, wp_modify, wp_ret. split; [done|]. cbn [snd]. rewrite (rep_e _ _ _ R).
  by apply (rep_upd_e L w a (with_shutdown 0 (with_position 0 1 (a_direction a)
    (with_status IDLE a)))).
Qed.

Lemma stop_section_refines L w a :
  rep L w a → wp stop_section (λ r w', r = (a_stop a).1 ∧ rep L w' (a_stop a).2) w.
Proof.
  intros R. unfold stop_section, a_stop.
  apply wp_bind, wp_gets. rewrite (rep_e _ _ _ R). cbn [shutdown elevator_of].
  case_bool_decide; [by apply wp_ret|].
  apply wp_bind, wp_modify, wp_ret. split; [done|]. cbn [snd]. rewrite (rep_e _ _ _ R).
  by apply (rep_upd_e L w a (with_shutdown 1 a)).
Qed.

(** With the lock, the calls are their sections. *)
Lemma start_elevator_refines L w a :
  rep L w a → wp (start_elevator 0) (λ r w', r = (a_start a).1 ∧ rep L w' (a_start a).2) w.
Proof.
  intros R. apply wp_bind. eapply wp_mono; [by apply start_section_refines|].
  intros r w' H. by apply wp_bind, wp_ret, wp_ret.
Qed.
Lemma stop_elevator_refines L w a :
  rep L w a → wp (stop_elevator 0) (λ r w', r = (a_stop a).1 ∧ rep L w' (a_stop a).2) w.
Proof.
  intros R. apply wp_bind. eapply wp_mono; [by apply stop_section_refines|].
  intros r w' H. by apply wp_bind, wp_ret, wp_ret.
Qed.

(** The calls, whatever the lock call returns, perform as many forbidden unlock
    calls as lock calls were interrupted. *)
Lemma keeps_issue_prepare mem p s d : keeps bad_unlocks (issue_prepare mem p s d).
Proof.
  unfold issue_prepare. do 3 (case_match; [auto with keeps|]).
  apply keeps_bind; [auto with keeps|]. intros e0. case_match; [auto with keeps|].
  destruct mem; [|auto with keeps]. apply keeps_bind; [by apply keeps_modify|]. intros _.
  apply keeps_bind; [by apply keeps_modify|]. auto with keeps.
Qed.

Lemma bad_unlocks_iter n w : bad_unlocks (Nat.iter n count_bad_unlock w) = (bad_unlocks w + n)%nat.
Proof.
  induction n as [|n IH]; [by rewrite Nat.add_0_r|].
  rewrite Nat.iter_succ. cbn [bad_unlocks count_bad_unlock]. rewrite IH. lia.
Qed.
End Refine.

(** ** Stub pointers (part3/SystemCalls/*.c, link_syscalls, unlink_syscalls)

    The kernel proper calls the module through three exported function
    pointers, which the module sets when it is loaded. *)

Inductive fn : Type := F_issue_request | F_start_elevator | F_stop_elevator.

#[export] Instance fn_eq_dec : EqDecision fn.
Proof. solve_decision. Defined.

Record stubs := Stubs {
  STUB_issue_request : option fn;
  STUB_start_elevator : option fn;
  STUB_stop_elevator : option fn;
}.

(** The initial values in part3/SystemCalls. *)
Definition stubs_init : stubs := Stubs None None None.

Definition link_syscalls (_ : stubs) : stubs :=
  Stubs (Some F_issue_request) (Some F_start_elevator) (Some F_stop_elevator).
Definition unlink_syscalls (_ : stubs) : stubs := Stubs None None None.

Section Stubs.
Context {LA : ListApi node}.

(** Calling a function of the module: its code exists while the module is
    loaded. *)
Definition call_module {A} (loaded : bool) (m : M world A) : M world A :=
  if loaded then m else crash UseAfterFree.

Definition sys_issue_request (loaded : bool) (st : stubs) (mem : option loc) (r : Z)
    (p_type s_floor d_floor : Z) : M world Z :=
  match STUB_issue_request st with
  | Some _ => call_module loaded (issue_request mem r p_type s_floor d_floor)
  | None => mret (- ENOSYS)
  end.

Definition sys_start_elevator (loaded : bool) (st : stubs) (r : Z) : M world Z :=
  match STUB_start_elevator st with
  | Some _ => call_module loaded (start_elevator r)
  | None => mret (- ENOSYS)
  end.

Definition sys_stop_elevator (loaded : bool) (st : stubs) (r : Z) : M world Z :=
  match STUB_stop_elevator st with
  | Some _ => call_module loaded (stop_elevator r)
  | None => mret (- ENOSYS)
  end.
End Stubs.

(** ** Sequences of events

    What can happen to the module once it is loaded: a system call, with the
    results of its kmalloc and of its lock call, or one iteration of the
    elevator thread. *)

Inductive event : Type :=
| Issue (mem : option loc) (r : Z) (p_type s_floor d_floor : Z)
| Start (r : Z)
| Stop (r : Z)
| Iterate (r1 r2 : Z).

Section Events.
Context {LA : ListApi node}.

Definition run_event (ev : event) : M world Z :=
  match ev with
  | Issue mem r p s d => issue_request mem r p s d
  | Start r => start_elevator r
  | Stop r => stop_elevator r
  | Iterate r1 r2 => iteration r1 r2 ;; mret 0
  end.

Fixpoint run_events (evs : list event) : M world (list Z) :=
  match evs with
  | [] => mret []
  | ev :: evs => r ← run_event ev; rs ← run_events evs; mret (r :: rs)
  end.

(** No lock call is interrupted and kmalloc returns fresh memory. *)
Definition calm (ev : event) (w : world) : Prop :=
  match ev with
  | Issue mem r _ _ _ => r = 0 ∧ ∃ l, mem = Some l ∧ heap w !! l = None
  | Start r | Stop r => r = 0
  | Iterate r1 r2 => r1 = 0 ∧ r2 = 0
  end.

(** Calm executions: the events with the values they return. *)
Inductive trace : world → list (event * Z) → world → Prop :=
| trace_nil w : trace w [] w
| trace_cons w ev r w' tr w'' :
    calm ev w → run_event ev w = Done (r, w') → trace w' tr w'' →
    trace w ((ev, r) :: tr) w''.
End Events.

Definition a_event (ev : event) (a : astate) : Z * astate :=
  match ev with
  | Issue mem _ p s d => a_issue mem p s d a
  | Start _ => a_start a
  | Stop _ => a_stop a
  | Iterate _ _ => (0, a_iteration a)
  end.

Fixpoint a_events (evs : list event) (a : astate) : list Z * astate :=
  match evs with
  | [] => ([], a)
  | ev :: evs =>
      let '(r, a') := a_event ev a in
      let '(rs, a'') := a_events evs a' in (r :: rs, a'')
  end.

Section Simulation.
Context {LA : ListApi node} {LL : ListLaws LA}.
Implicit Types (w : world) (a : astate) (L : gmap loc passenger).

Lemma event_refines L w a ev :
  rep L w a → wf a → calm ev w →
  wp (run_event ev) (λ r w', ∃ a', (r, a') = a_event ev a ∧ rep L w' a' ∧ wf a') w.
Proof.
  intros R W Hc. destruct ev as [mem r p s d|r|r|r1 r2]; cbn in Hc.
  - destruct Hc as (-> & l & -> & Hl). by apply issue_request_refines.
  - subst r. eapply wp_mono; [by eapply start_elevator_refines|].
    cbn. intros r w' [-> R']. eexists. split; [symmetry; apply surjective_pairing|].
    split; [done|by apply wf_start].
  - subst r. eapply wp_mono; [by eapply stop_elevator_refines|].
    cbn. intros r w' [-> R']. eexists. split; [symmetry; apply surjective_pairing|].
    split; [done|by apply wf_stop].
  - destruct Hc as [-> ->]. apply wp_bind. eapply wp_mono; [by eapply iteration_refines|].
    intros [] w' [R' W']. apply wp_ret. eauto.
Qed.

Lemma trace_refines L w a tr w' :
  trace w tr w' → rep L w a → wf a →
  ∃ a', a_events tr.*1 a = (tr.*2, a') ∧ rep L w' a' ∧ wf a'.
Proof.
  intros T. revert a. induction T as [w|w ev r w' tr w'' Hc Hrun T IH]; intros a R W; [by exists a|].
  pose proof (event_refines L w a ev R W Hc) as (r' & w1 & Hrun' & a1 & Ha1 & R1 & W1)%wp_done.
  rewrite Hrun in Hrun'. injection Hrun' as <- <-.
  destruct (IH a1 R1 W1) as (a' & Ha' & R' & W'). exists a'.
  cbn. rewrite <- Ha1, Ha'. done.
Qed.
End Simulation.

(** ** Properties of the system calls *)

Section Properties.
Context {LA : ListApi node} {LL : ListLaws LA}.
Implicit Types (w : world) (a : astate) (L : gmap loc passenger).

(** A request with valid arguments, while no stop is pending, returns 0 and
    appends the new passenger to the queue of its start floor; the elevator
    itself is not touched. *)
Lemma issue_request_accepted L w a l p s d :
  rep L w a → wf a → heap w !! l = None → valid_request p s d → a_shutdown a = 0 →
  wp (issue_request (Some l) 0 p s d) (λ r w',
    r = 0 ∧ w_e w' = w_e w ∧ heap w' !! l = Some (passenger_of p s d) ∧
    rep L w' (a_add (l, passenger_of p s d) a) ∧ wf (a_add (l, passenger_of p s d) a)) w.
Proof.
  intros R W Hl Hv Hs. eapply wp_mono; [by eapply issue_request_refines|].
  intros r w' (a' & E & R' & W'). unfold a_issue in E. rewrite decide_True in E by done.
  injection E as -> ->. split_and!; try done.
  - by rewrite (rep_e _ _ _ R), (rep_e _ _ _ R').
  - apply (rep_heap _ _ _ R' (l, passenger_of p s d)).
    pose proof (valid_request_pass _ _ _ Hv) as (_ & Hf%floor_ix_lt & _).
    apply listed_add; [cbn in *; rewrite (wf_waiting_len _ W); lia|]. by right.
Qed.

(** A request with an argument out of range, or while a stop is pending,
    returns 1, changes nothing and allocates nothing. *)
Lemma issue_request_rejected L w a mem r p s d :
  rep L w a → ¬ (valid_request p s d ∧ a_shutdown a = 0) →
  issue_request mem r p s d w = Done (1, w).
Proof.
  intros R Hn. by apply (issue_request_no_effect L w a).
Qed.

(** When kmalloc fails, a request that passes the checks writes through the
    NULL pointer. *)
Lemma issue_request_no_memory L w a r p s d :
  rep L w a → valid_request p s d → a_shutdown a = 0 →
  issue_request None r p s d w = Fault NullDeref.
Proof.
  intros R (Hp & Hs & Hd) Hsh. unfold issue_request, issue_prepare.
  rewrite !(bool_decide_eq_false_2 (_ < _)), !(bool_decide_eq_false_2 (_ > _)) by lia. cbn [orb].
  unfold mbind, M_bind, gets. rewrite (rep_e _ _ _ R). cbn [shutdown elevator_of].
  by rewrite bool_decide_eq_false_2 by (intros H; done).
Qed.

(** When its lock call is interrupted, a request still returns 0, but its
    passenger joins no queue and its object is never freed: it stays among
    the objects that are on no list.  The mutex is unlocked all the same. *)
Lemma issue_request_interrupted L w a l r p s d :
  rep L w a → wf a → heap w !! l = None → valid_request p s d → a_shutdown a = 0 → r ≠ 0 →
  wp (issue_request (Some l) r p s d) (λ v w',
    v = 0 ∧ rep (<[l := passenger_of p s d]> L) w' a ∧ bad_unlocks w' = S (bad_unlocks w)) w.
Proof.
  intros R W Hl Hv Hs Hr. unfold issue_request.
  apply wp_bind. eapply wp_mono.
  { apply (wp_keeps bad_unlocks); [apply keeps_issue_prepare|by eapply issue_prepare_ok]. }
  intros ? w' [[-> R'] E]. unfold issue_enqueue. rewrite (bool_decide_eq_false_2 (r = 0)) by done.
  apply wp_bind, wp_bind, wp_ret, wp_mutex_unlock, wp_ret.
  unfold interrupted. rewrite (bool_decide_eq_false_2 (r = 0)) by done.
  split_and!; [done|by apply (rep_unlocks _ _ _ 1)|cbn; by rewrite E].
Qed.

(** C20. [issue_request] on every path.  Arguments out of range, or a pending
    stop: 1, nothing changes and nothing is allocated.  Otherwise, with memory
    and the lock: 0, and the new passenger is the last one in the queue of its
    start floor, the elevator untouched.  With the lock call interrupted: still
    0, but the passenger joins no queue and its object is never freed, it stays
    among those on no list, and the call unlocks a mutex it does not own.
    Without memory: a write through NULL. *)
Theorem issue_request_spec L w a p s d :
  rep L w a → wf a →
  (¬ accepts a p s d → ∀ mem r, issue_request mem r p s d w = Done (1, w)) ∧
  (accepts a p s d → ∀ l r, heap w !! l = None →
     wp (issue_request (Some l) r p s d) (λ v w',
       let x := (l, passenger_of p s d) in
       v = 0 ∧ heap w' !! l = Some (passenger_of p s d) ∧
       (r = 0 → w_e w' = w_e w ∧ rep L w' (a_add x a) ∧ wf (a_add x a) ∧
          last (row (waiting (a_add x a)) (floor_ix (s - 1))) = Some x) ∧
       (r ≠ 0 → rep (<[l := passenger_of p s d]> L) w' a ∧
          bad_unlocks w' = S (bad_unlocks w))) w) ∧
  (accepts a p s d → ∀ r, issue_request None r p s d w = Fault NullDeref).
Proof.
  intros R W. split_and!.
  - intros Hn mem r. by apply (issue_request_no_effect L w a).
  - intros [Hv Hs] l r Hl. destruct (decide (r = 0)) as [->|Hr].
    + eapply wp_mono; [by eapply issue_request_accepted|].
      intros v w' (-> & He & Hh & R' & W'). split_and!; try done. intros _. split_and!; try done.
      pose proof (valid_request_pass _ _ _ Hv) as (_ & Hf%floor_ix_lt & _). cbn in Hf.
      cbn. rewrite row_insert, decide_True; [by rewrite last_snoc|done|].
      by rewrite (wf_waiting_len _ W).
    + eapply wp_mono; [by eapply issue_request_interrupted|].
      intros v w' (-> & R' & Hb). split_and!; try done.
      eapply (rep_extra_heap _ _ _ _ _ R'), lookup_insert_eq.
  - intros [Hv Hs] r. by eapply issue_request_no_memory.
Qed.

Lemma start_stop_interrupted w r :
  r ≠ 0 → start_elevator r w = Done (0, count_bad_unlock w) ∧
          stop_elevator r w = Done (0, count_bad_unlock w).
Proof.
  intros Hr. unfold start_elevator, stop_elevator, mutex_unlock.
  by rewrite bool_decide_eq_false_2 by done.
Qed.

(** [start_elevator] starts an offline elevator, and only that: it becomes
    idle on the lowest floor with the stop request cleared; queues and
    passengers are kept.  Otherwise it changes nothing and returns 1 -- but
    0, the value of success, when its lock call is interrupted and all it does
    is a forbidden unlock call. *)
Lemma start_elevator_spec L w a r :
  rep L w a → wf a →
  wp (start_elevator r) (λ v w',
    (r ≠ 0 → v = 0 ∧ w' = count_bad_unlock w) ∧
    (r = 0 → a_status a ≠ OFFLINE → v = 1 ∧ rep L w' a) ∧
    (r = 0 → a_status a = OFFLINE → ∃ a', v = 0 ∧ rep L w' a' ∧ wf a' ∧
       a_status a' = IDLE ∧ a_current a' = 0 ∧ a_next a' = 1 ∧ a_shutdown a' = 0 ∧
       a_direction a' = a_direction a ∧
       waiting a' = waiting a ∧ onboard a' = onboard a ∧ served a' = served a)) w.
Proof.
  intros R W. destruct (decide (r = 0)) as [->|Hr].
  2:{ eapply wp_run; [by apply start_stop_interrupted|]. by split_and!. }
  eapply wp_mono; [by eapply start_elevator_refines|]. cbn.
  pose proof (wf_start a W) as W'. intros v w' [-> R'].
  unfold a_start in *. case_bool_decide as Hst; cbn [fst snd] in *; split_and!; intros H; try done.
  intros _. eexists. split_and!; done.
Qed.

(** [stop_elevator] returns 1 and changes nothing when a stop is already
    pending; otherwise it records the stop request and nothing else.  When
    its lock call is interrupted it returns 0 and only unlocks the mutex. *)
Lemma stop_elevator_spec L w a r :
  rep L w a → wf a →
  wp (stop_elevator r) (λ v w',
    (r ≠ 0 → v = 0 ∧ w' = count_bad_unlock w) ∧
    (r = 0 → a_shutdown a = 1 → v = 1 ∧ rep L w' a) ∧
    (r = 0 → a_shutdown a = 0 → v = 0 ∧ rep L w' (with_shutdown 1 a))) w.
Proof.
  intros R W. destruct (decide (r = 0)) as [->|Hr].
  2:{ eapply wp_run; [by apply start_stop_interrupted|]. by split_and!. }
  eapply wp_mono; [by eapply stop_elevator_refines|]. cbn.
  intros v w' [-> R']. unfold a_stop in *.
  case_bool_decide as Hs; cbn [fst snd] in *; split_and!; intros H; try done; lia.
Qed.

(** C23. [start_elevator] and [stop_elevator] on every path.  [start_elevator]
    starts an offline elevator, and only that: it becomes idle on the lowest
    floor with the stop request cleared, but keeps its direction, its queues
    and its passengers; otherwise it changes nothing and returns 1.
    [stop_elevator] records the stop request when none is pending, and nothing
    else; otherwise it changes nothing and returns 1.  When their lock call is
    interrupted both return 0, the value of success, and have no effect but that
    they unlock a mutex they do not own. *)
Theorem start_stop_spec L w a r :
  rep L w a → wf a →
  wp (start_elevator r) (λ v w',
    (r ≠ 0 → v = 0 ∧ w' = count_bad_unlock w) ∧
    (r = 0 → a_status a ≠ OFFLINE → v = 1 ∧ rep L w' a) ∧
    (r = 0 → a_status a = OFFLINE → ∃ a', v = 0 ∧ rep L w' a' ∧ wf a' ∧
       a_status a' = IDLE ∧ a_current a' = 0 ∧ a_next a' = 1 ∧ a_shutdown a' = 0 ∧
       a_direction a' = a_direction a ∧
       waiting a' = waiting a ∧ onboard a' = onboard a ∧ served a' = served a)) w ∧
  wp (stop_elevator r) (λ v w',
    (r ≠ 0 → v = 0 ∧ w' = count_bad_unlock w) ∧
    (r = 0 → a_shutdown a = 1 → v = 1 ∧ rep L w' a) ∧
    (r = 0 → a_shutdown a = 0 → v = 0 ∧ rep L w' (with_shutdown 1 a))) w.
Proof. intros R W. split; [by apply start_elevator_spec|by apply stop_elevator_spec]. Qed.

(** [start_elevator] does not reset the direction: an elevator that went
    offline going down first moves up to the second floor after a start,
    and reports that it goes down. *)
Lemma start_keeps_direction L w a :
  rep L w a → wf a → a_status a = OFFLINE → a_direction a = 0 →
  wp (start_elevator 0) (λ r w',
    r = 0 ∧ current (w_e w') = 0 ∧ current (move (w_e w')) = 1 ∧
    status (move (w_e w')) = DOWN ∧ next (move (w_e w')) = 0) w.
Proof.
  intros R W Hst Hd. eapply wp_mono; [by eapply start_elevator_refines|]. cbn.
  intros r w' [-> R']. unfold a_start in *. rewrite Hst in *.
  rewrite bool_decide_eq_false_2 in * by (intros H; done). cbn [fst snd] in *.
  rewrite (rep_e _ _ _ R'), move_elevator_of.
  unfold a_move; cbn [a_next with_shutdown with_position with_status a_direction].
  rewrite Hd. done.
Qed.

(** What a call returns once the module is wedged. *)
Definition wedged_answer (ev : event) (r : Z) : Prop :=
  match ev with
  | Issue _ _ _ _ _ => r = 1
  | Start rl | Stop rl => r = (if bool_decide (rl = 0) then 1 else 0)
  | Iterate _ _ => r = 0
  end.

Definition wedged a : Prop :=
  a_status a = IDLE ∧ a_shutdown a = 1 ∧ concat (waiting a) = [] ∧ concat (onboard a) = [].

Lemma wedged_event L w a ev :
  rep L w a → wf a → wedged a → wp (run_event ev) (λ r w', wedged_answer ev r ∧ rep L w' a) w.
Proof.
  intros R W (Hst & Hsh & Hw & Ho). destruct ev as [mem r p s d|r|r|r1 r2]; cbn.
  - eapply wp_run; [eapply (issue_request_no_effect L w a mem r p s d R)|done].
    intros [_ Hs]. congruence.
  - destruct (decide (r = 0)) as [->|Hr]; cbn.
    + eapply wp_mono; [by eapply start_elevator_refines|]. unfold a_start. rewrite Hst. done.
    + eapply wp_run; [by apply start_stop_interrupted|]. rewrite bool_decide_eq_false_2 by done.
      split; [done|by apply (rep_unlocks _ _ _ 1)].
  - destruct (decide (r = 0)) as [->|Hr]; cbn.
    + eapply wp_mono; [by eapply stop_elevator_refines|]. unfold a_stop. rewrite Hsh. done.
    + eapply wp_run; [by apply start_stop_interrupted|]. rewrite bool_decide_eq_false_2 by done.
      split; [done|by apply (rep_unlocks _ _ _ 1)].
  - assert (E1 : a_load_section a = a).
    { unfold a_load_section. rewrite Hst. rewrite bool_decide_eq_false_2 by done.
      by rewrite (proj1 (concat_nil_rows _) Hw), (proj1 (concat_nil_rows _) Ho). }
    assert (E2 : a_move_section a = a).
    { unfold a_move_section. rewrite Hst. rewrite bool_decide_eq_false_2 by done.
      rewrite (proj2 (a_anyone_false _) Ho), (proj2 (a_anyone_false _) Hw). cbn.
      unfold with_status. rewrite <- Hst. by destruct a. }
    apply wp_bind. eapply wp_mono; [by apply (attempt_refines L w a)|].
    intros _ w' (R' & _). apply wp_ret. split; [done|].
    assert (E : a_attempt r1 r2 a = a); [|by rewrite E in R'].
    unfold a_attempt. repeat case_bool_decide; by rewrite ?E1, ?E2.
Qed.

(** C37. A stop request that meets an empty, idle elevator wedges the module for
    good: whatever calls and iterations follow, every request is rejected,
    [start_elevator] and [stop_elevator] return 1, and the state never
    changes again. *)
Theorem stop_when_empty_wedges L w a evs :
  rep L w a → wf a → a_status a = IDLE → a_shutdown a = 1 →
  concat (waiting a) = [] → concat (onboard a) = [] →
  wp (run_events evs) (λ rs w', Forall2 wedged_answer evs rs ∧ rep L w' a) w.
Proof.
  intros R W Hst Hs Hw Ho. revert w R. induction evs as [|ev evs IH]; intros w R; cbn.
  - apply wp_ret. by split.
  - apply wp_bind. eapply wp_mono; [by apply (wedged_event L w a)|].
    intros r w1 [Hr R1]. apply wp_bind. eapply wp_mono; [by apply IH|].
    intros rs w2 [Hrs R2]. apply wp_ret. split; [by constructor|done].
Qed.

(** C1. Every calm execution (no interrupted lock, no failed kmalloc) behaves as
    the abstract specification: it returns the same values, its final memory
    represents the final abstract state, in particular no passenger object is
    lost, freed twice or left dangling, and no next calm event faults. *)
Theorem calm_execution_refines L w a tr w' :
  rep L w a → wf a → trace w tr w' →
  ∃ a', a_events tr.*1 a = (tr.*2, a') ∧ rep L w' a' ∧ wf a' ∧
    ∀ ev, calm ev w' → ∃ r w'', run_event ev w' = Done (r, w'').
Proof.
  intros R W T. destruct (trace_refines L w a tr w' T R W) as (a' & E & R' & W').
  exists a'. split_and!; try done. intros ev Hc.
  destruct (proj1 (wp_done _ _ _) (event_refines L w' a' ev R' W' Hc)) as (r & w'' & Hr & _).
  eauto.
Qed.
End Properties.
