(* ===== verification/Fairness.v ===== *)
(** * No fairness between floors

    Queues are first come first served, but the elevator passes a floor by when
    the head of its queue does not fit.  Requests on other floors can therefore
    keep somebody waiting forever: a bellhop on the sixth floor is passed by in
    every tour as long as three others travel past that floor. *)

From S2P Require Import Prelude KList ElevatorData ElevatorOps ElevatorSpec.
From S2P Require Import ElevatorRefine RunElevator Liveness Syscalls.

(** ** Calm executions of given events *)

Section Paths.
Context {LA : ListApi node} {LL : ListLaws LA}.
Implicit Types (w : world) (a : astate) (L : gmap loc passenger) (l : loc).

Definition addresses (a : astate) : list loc := (concat (waiting a) ++ concat (onboard a)).*1.

Lemma free_address L w a l :
  rep L w a → L !! l = None → l ∉ addresses a → heap w !! l = None.
Proof.
  intros R HL Hl. destruct (heap w !! l) as [p|] eqn:E; [|done].
  destruct (rep_dom _ _ _ R _ _ E) as [[i Hi]|]; [|congruence]. destruct Hl.
  unfold addresses. apply list_elem_of_fmap. exists (l, p). split; [done|].
  rewrite elem_of_app, !elem_of_concat_row. destruct Hi; eauto.
Qed.

(** [calm] for the abstract state: the object of a request is a free one. *)
Definition a_calm L (ev : event) (a : astate) : Prop :=
  match ev with
  | Issue mem r _ _ _ => r = 0 ∧ ∃ l, mem = Some l ∧ L !! l = None ∧ l ∉ addresses a
  | Start r | Stop r => r = 0
  | Iterate r1 r2 => r1 = 0 ∧ r2 = 0
  end.

Fixpoint a_calms L (evs : list event) (a : astate) : Prop :=
  match evs with
  | [] => True
  | ev :: evs => a_calm L ev a ∧ a_calms L evs (a_event ev a).2
  end.

Lemma trace_app w tr1 w1 tr2 w2 : trace w tr1 w1 → trace w1 tr2 w2 → trace w (tr1 ++ tr2) w2.
Proof. induction 1 as [|w ev r w' tr w'' Hc E T IH]; intros H; [done|]. cbn. econstructor; eauto. Qed.

Lemma calm_path L w a evs :
  rep L w a → wf a → a_calms L evs a →
  ∃ tr w', trace w tr w' ∧ tr.*1 = evs ∧ tr.*2 = (a_events evs a).1 ∧
    rep L w' (a_events evs a).2 ∧ wf (a_events evs a).2.
Proof.
  revert w a. induction evs as [|ev evs IH]; intros w a R W Hc.
  { exists [], w. split_and!; try done. constructor. }
  destruct Hc as [Hev Hc].
  assert (Hcalm : calm ev w).
  { destruct ev; cbn in *; [|done..]. destruct Hev as (-> & l & -> & HL & Hl).
    split; [done|]. exists l. split; [done|]. by eapply free_address. }
  destruct (proj1 (wp_done _ _ _) (event_refines L w a ev R W Hcalm)) as (r & w1 & E & a1 & Ea & R1 & W1).
  rewrite <- Ea in Hc. destruct (IH w1 a1 R1 W1 Hc) as (tr & w' & T & E1 & E2 & R' & W').
  exists ((ev, r) :: tr), w'. cbn [a_events fmap list_fmap fst snd]. rewrite <- Ea.
  destruct (a_events evs a1) as [rs a'] eqn:Ers. cbn in *. subst.
  split_and!; try done. by econstructor.
Qed.
End Paths.

(** ** The counters of serviced passengers are never read *)

Definition strip (a : astate) : astate :=
  AState (waiting a) (onboard a) [] (a_status a) (a_current a) (a_next a)
    (a_shutdown a) (a_direction a).

Section Strip.
Implicit Types (a : astate) (q : list pent).

Lemma strip_unload c q a : strip (a_unload c q a) = a_unload c q (strip a).
Proof. revert a. induction q as [|x q IH]; intros a; cbn; [done|]. by rewrite IH. Qed.

Lemma strip_load c q a : strip (a_load c q a) = a_load c q (strip a).
Proof.
  revert a. induction q as [|x q IH]; intros a; cbn [a_load]; [done|].
  change (boards x (strip a)) with (boards x a). destruct (boards x a); [apply IH|done].
Qed.

Lemma strip_load_section a : strip (a_load_section a) = a_load_section (strip a).
Proof.
  unfold a_load_section. change (a_status (strip a)) with (a_status a).
  change (here (strip a)) with (here a).
  change (waiting (strip a)) with (waiting a). change (onboard (strip a)) with (onboard a).
  destruct (bool_decide (a_status a = OFFLINE)); [done|].
  destruct (_ && _); [done|]. cbv zeta.
  change (with_status LOADING (strip a)) with (strip (with_status LOADING a)).
  change (onboard (strip (with_status LOADING a))) with (onboard (with_status LOADING a)).
  rewrite <- strip_unload. set (a2 := a_unload _ _ _).
  change (waiting (strip a2)) with (waiting a2). change (a_shutdown (strip a2)) with (a_shutdown a2).
  destruct (_ && _); [apply strip_load|done].
Qed.

Lemma strip_move_section a : strip (a_move_section a) = a_move_section (strip a).
Proof.
  unfold a_move_section, a_move. cbn [strip onboard waiting a_status a_shutdown a_next a_direction].
  repeat (case_match; try done).
Qed.

Lemma strip_event ev a :
  (a_event ev a).1 = (a_event ev (strip a)).1 ∧
  strip (a_event ev a).2 = (a_event ev (strip a)).2.
Proof.
  destruct ev as [mem r p s d|r|r|r1 r2]; cbn.
  - unfold a_issue. destruct mem as [l|]; [|done].
    destruct (decide (accepts a p s d)) as [H|H], (decide (accepts (strip a) p s d)) as [H'|H']; done.
  - unfold a_start. cbn. by case_bool_decide.
  - unfold a_stop. cbn. by case_bool_decide.
  - split; [done|]. unfold a_iteration. by rewrite strip_move_section, strip_load_section.
Qed.

Lemma strip_events evs a :
  (a_events evs a).1 = (a_events evs (strip a)).1 ∧
  strip (a_events evs a).2 = strip (a_events evs (strip a)).2.
Proof.
  revert a. induction evs as [|ev evs IH]; intros a; [done|]. cbn [a_events].
  destruct (strip_event ev a) as [E1 E2].
  destruct (a_event ev a) as [r a1], (a_event ev (strip a)) as [r' a1']. cbn [fst snd] in *. subst.
  destruct (IH a1) as [E1 E2], (a_events evs a1), (a_events evs (strip a1)). cbn [fst snd] in *.
  by subst.
Qed.

Lemma strip_calms L evs a : a_calms L evs (strip a) → a_calms L evs a.
Proof.
  revert a. induction evs as [|ev evs IH]; intros a; [done|]. cbn [a_calms].
  intros [H1 H2]. split; [by destruct ev|]. destruct (strip_event ev a) as [_ E]. apply IH.
  by rewrite E.
Qed.
End Strip.

(** ** The rush *)

(** Bellhop [l0] waits on the sixth floor (number 5) for the tenth, nobody else
    is in the building, and the elevator is at the bottom. *)
Definition bellhop (l0 : loc) : pent := (l0, Passenger BELL 5 9).
Definition left_behind (l0 : loc) (a : astate) : Prop :=
  strip a = AState (<[5%nat := [bellhop l0]]> (replicate 10 [])) (replicate 10 []) [] UP 0 1 0 1.

(** Three bellhops request to go from the fifth to the seventh floor; then a
    whole tour of the elevator. *)
Definition rush (l1 l2 l3 : loc) : list event :=
  [Issue (Some l1) 0 4 5 7; Issue (Some l2) 0 4 5 7; Issue (Some l3) 0 4 5 7] ++
  replicate 18 (Iterate 0 0).

Lemma rush_round l0 l1 l2 l3 a :
  left_behind l0 a →
  (a_events (rush l1 l2 l3) a).1 = replicate 21 0 ∧ left_behind l0 (a_events (rush l1 l2 l3) a).2.
Proof.
  unfold left_behind. intros E. destruct (strip_events (rush l1 l2 l3) a) as [-> ->]. rewrite E.
  vm_compute. by split.
Qed.

Lemma iterate_calm L n a : a_calms L (replicate n (Iterate 0 0)) a.
Proof. revert a. induction n as [|n IH]; intros a; [done|]. by split. Qed.

Lemma rush_calm L l0 l1 l2 l3 a :
  NoDup [l0; l1; l2; l3] → L !! l1 = None → L !! l2 = None → L !! l3 = None →
  left_behind l0 a → a_calms L (rush l1 l2 l3) a.
Proof.
  intros Hnd H1 H2 H3 E. apply strip_calms. rewrite E.
  rewrite !NoDup_cons, !not_elem_of_cons in Hnd.
  unfold rush. cbn [app a_calms]. split_and!.
  - split; [done|]. exists l1. split_and!; [done..|]. vm_compute addresses. set_solver.
  - split; [done|]. exists l2. split_and!; [done..|]. vm_compute addresses. set_solver.
  - split; [done|]. exists l3. split_and!; [done..|]. vm_compute addresses. set_solver.
  - apply iterate_calm.
Qed.

(** ** Property *)

Section Property.
Context {LA : ListApi node} {LL : ListLaws LA}.
Implicit Types (w : world) (a : astate) (L : gmap loc passenger) (l : loc).

(** C36. The elevator is not fair: for every number [n] of tours there is an execution,
    without interruptions or failures, in which every request is accepted and
    everybody else who asks is taken where they want to go, but the bellhop who
    was there first still waits on the sixth floor, at the head of its queue. *)
Theorem rush_starves L w a l0 l1 l2 l3 n :
  NoDup [l0; l1; l2; l3] → L !! l1 = None → L !! l2 = None → L !! l3 = None →
  rep L w a → wf a → left_behind l0 a →
  ∃ tr w' a', trace w tr w' ∧ tr.*1 = concat (replicate n (rush l1 l2 l3)) ∧
    Forall (λ r, r = 0) tr.*2 ∧ rep L w' a' ∧ wf a' ∧
    waiting a' = <[5%nat := [bellhop l0]]> (replicate 10 []) ∧ concat (onboard a') = [].
Proof.
  intros Hnd H1 H2 H3 R W Hl.
  assert (∃ tr w' a', trace w tr w' ∧ tr.*1 = concat (replicate n (rush l1 l2 l3)) ∧
    Forall (λ r, r = 0) tr.*2 ∧ rep L w' a' ∧ wf a' ∧ left_behind l0 a')
    as (tr & w' & a' & T & E & Hz & R' & W' & Hl').
  { revert w a R W Hl. induction n as [|n IH]; intros w a R W Hl.
    { exists [], w, a. split_and!; try done. constructor. }
    destruct (calm_path L w a (rush l1 l2 l3) R W) as (tr1 & w1 & T1 & E1 & E2 & R1 & W1);
      [by eapply rush_calm|].
    destruct (rush_round l0 l1 l2 l3 a Hl) as [Er Hl1]. rewrite Er in E2.
    destruct (IH w1 _ R1 W1 Hl1) as (tr2 & w2 & a2 & T2 & E3 & Hz & R2 & W2 & Hl2).
    exists (tr1 ++ tr2), w2, a2. rewrite !fmap_app, E1, E2, E3. split_and!; try done.
    - by eapply trace_app.
    - apply Forall_app. split; [|done]. by apply Forall_replicate. }
  exists tr, w', a'. unfold left_behind, strip in Hl'. injection Hl' as Hw Ho _ _ _ _ _.
  split_and!; try done. by rewrite Ho.
Qed.
End Property.
