(* ===== verification/SyscallAbi.v ===== *)
(** * The system call wrappers (part3/SystemCalls/syscalls.h, lines 91-256)

    SYSCALL_DEFINE<n>(name, t1, a1, ...) gives the entry point the system call
    table refers to.  Its arguments are 64-bit registers, declared as [long]
    (or [long long]); the macros convert each to the declared type before the
    body written by the module's author runs.  Modelled: the macros [__MAP],
    [__SC_LONG], [__SC_CAST], [__SC_TEST], [__SYSCALL_DEFINEx] and
    [SYSCALL_DEFINE0] with the types of x86-64, and the three system calls of
    the project defined with them.  A kernel with wrappers of its own
    (CONFIG_ARCH_HAS_SYSCALL_WRAPPER) takes the last two from a header that is
    not part of the repository. *)

From S2P Require Import Prelude KList ElevatorData ElevatorOps ElevatorSpec.
From S2P Require Import ElevatorRefine RunElevator Liveness Syscalls.

(** ** C types *)

Inductive ctype : Type :=
| T_char | T_uchar | T_short | T_ushort | T_int | T_uint
| T_long | T_ulong | T_llong | T_ullong.

#[export] Instance ctype_eq_dec : EqDecision ctype.
Proof. solve_decision. Defined.

Definition sizeof (t : ctype) : Z :=
  match t with
  | T_char | T_uchar => 1
  | T_short | T_ushort => 2
  | T_int | T_uint => 4
  | T_long | T_ulong | T_llong | T_ullong => 8
  end.

Definition is_signed (t : ctype) : bool :=
  match t with T_char | T_short | T_int | T_long | T_llong => true | _ => false end.

(** The number of values of the type. *)
Definition modulus (t : ctype) : Z := 2 ^ (8 * sizeof t).

Definition in_type (t : ctype) (z : Z) : Prop :=
  if is_signed t then - (modulus t / 2) ≤ z < modulus t / 2 else 0 ≤ z < modulus t.

(** Conversion of an integer to type [t]. *)
Definition cast (t : ctype) (z : Z) : Z :=
  if is_signed t then (z + modulus t / 2) mod modulus t - modulus t / 2 else z mod modulus t.

(** ** The macros *)

(** [__MAP(n, m, t1, a1, ..., tn, an)]; [None] when there are fewer pairs. *)
Fixpoint MAP {T A B} (n : nat) (m : T → A → B) (args : list (T * A)) : option (list B) :=
  match n, args with
  | O, _ => Some []
  | S n, (t, a) :: args => bs ← MAP n m args; Some (m t a :: bs)
  | S _, [] => None
  end.

Definition TYPE_IS_LL (t : ctype) : bool :=
  bool_decide (t = T_llong) || bool_decide (t = T_ullong).
(** The type of the parameter that receives the register. *)
Definition SC_LONG (t : ctype) : ctype := if TYPE_IS_LL t then T_llong else T_long.
Definition SC_CAST (t : ctype) (a : Z) : Z := cast t a.
(** The assertion at compile time. *)
Definition SC_TEST (t : ctype) : bool :=
  negb (negb (TYPE_IS_LL t) && bool_decide (sizeof t > sizeof T_long)).

Definition SYSCALL_DEFINE_MAXARGS : nat := 6.

(** The register that carries an [int] argument: its upper half is arbitrary. *)
Definition register (z high : Z) : Z := z + high * 2 ^ 32.

Section Code.
Context {W : Type}.

(** The arguments [__se_sys##name] passes on: its parameters are the registers
    as [__SC_LONG] values, converted to the declared types.  [None] is an error of
    the compiler. *)
Definition syscall_args (x : nat) (ts : list ctype) (regs : list Z) : option (list Z) :=
  if bool_decide (x ≤ SYSCALL_DEFINE_MAXARGS)%nat && forallb SC_TEST ts then
    params ← MAP x (λ t a, cast (SC_LONG t) a) (zip ts regs);
    MAP x SC_CAST (zip ts params)
  else None.

(** [__se_sys##name] *)
Definition SYSCALL_DEFINEx (x : nat) (ts : list ctype) (do_sys : list Z → M W Z)
    (regs : list Z) : option (M W Z) :=
  args ← syscall_args x ts regs;
  Some (ret ← do_sys args; mret (cast T_long ret)).

Definition SYSCALL_DEFINE0 (do_sys : M W Z) : M W Z := do_sys.
End Code.

(** The entry points of part3/SystemCalls. *)
Section Entries.
Context {LA : ListApi node} (loaded : bool) (st : stubs).

Definition int3 (f : Z → Z → Z → M world Z) (args : list Z) : M world Z :=
  match args with [a; b; c] => f a b c | _ => crash OutOfBounds end.

Definition entry_issue_request (mem : option loc) (r : Z) (regs : list Z) : option (M world Z) :=
  SYSCALL_DEFINEx 3 [T_int; T_int; T_int] (int3 (sys_issue_request loaded st mem r)) regs.
Definition entry_start_elevator (r : Z) : M world Z :=
  SYSCALL_DEFINE0 (sys_start_elevator loaded st r).
Definition entry_stop_elevator (r : Z) : M world Z :=
  SYSCALL_DEFINE0 (sys_stop_elevator loaded st r).
End Entries.

(** ** Proofs *)

Section Casts.
Implicit Types (t : ctype) (z : Z).

Lemma modulus_pos t : 0 < modulus t ∧ modulus t = 2 * (modulus t / 2).
Proof. by destruct t. Qed.

Lemma cast_in_type t z : in_type t (cast t z).
Proof.
  destruct (modulus_pos t) as [Hp Hm]. unfold in_type, cast.
  pose proof (Z.mod_pos_bound (z + modulus t / 2) (modulus t) Hp).
  pose proof (Z.mod_pos_bound z (modulus t) Hp). destruct (is_signed t); lia.
Qed.

Lemma cast_id t z : in_type t z → cast t z = z.
Proof.
  destruct (modulus_pos t) as [Hp Hm]. unfold in_type, cast.
  destruct (is_signed t); intros Hz; rewrite Z.mod_small; lia.
Qed.

(** The conversion changes a value by a multiple of the modulus. *)
Lemma cast_congr t z : ∃ k, cast t z = z + k * modulus t.
Proof.
  destruct (modulus_pos t) as [Hp Hm]. unfold cast. destruct (is_signed t).
  - exists (- ((z + modulus t / 2) / modulus t)).
    pose proof (Z.div_mod (z + modulus t / 2) (modulus t) ltac:(lia)). lia.
  - exists (- (z / modulus t)). pose proof (Z.div_mod z (modulus t) ltac:(lia)). lia.
Qed.

Lemma cast_shift t z k : cast t (z + k * modulus t) = cast t z.
Proof.
  destruct (modulus_pos t) as [Hp _]. unfold cast. destruct (is_signed t).
  - replace (z + k * modulus t + modulus t / 2) with (z + modulus t / 2 + k * modulus t) by lia.
    by rewrite Z.mod_add by lia.
  - by rewrite Z.mod_add by lia.
Qed.

(** Receiving the register first as a [long] does not matter. *)
Lemma cast_through_long t z : SC_TEST t = true → cast t (cast (SC_LONG t) z) = cast t z.
Proof.
  intros _. destruct (cast_congr (SC_LONG t) z) as [k ->].
  assert (∃ q, modulus (SC_LONG t) = q * modulus t) as [q ->].
  { destruct t; [by exists (2 ^ 56)|by exists (2 ^ 56)|by exists (2 ^ 48)|by exists (2 ^ 48)
      |by exists (2 ^ 32)|by exists (2 ^ 32)|by exists 1..]. }
  by rewrite Z.mul_assoc, cast_shift.
Qed.

Lemma cast_int z : cast T_int z = wrap32 z.
Proof. done. Qed.

Lemma cast_register z high : is_int z → cast T_int (register z high) = z.
Proof.
  intros Hz. unfold register. change (2 ^ 32) with (modulus T_int).
  rewrite cast_shift, cast_int. by apply wrap32_id.
Qed.

Lemma MAP_all {T A B} (m : T → A → B) (args : list (T * A)) :
  MAP (length args) m args = Some ((λ p, m p.1 p.2) <$> args).
Proof. induction args as [|[t a] args IH]; [done|]. cbn. by rewrite IH. Qed.

Lemma casts_through_long ts (regs : list Z) :
  length regs = length ts → forallb SC_TEST ts = true →
  (λ p, SC_CAST p.1 p.2) <$> zip ts ((λ p, cast (SC_LONG p.1) p.2) <$> zip ts regs) =
  zip_with cast ts regs.
Proof.
  revert regs. induction ts as [|t ts IH]; intros [|z regs] Hl; try done.
  cbn [forallb]. intros [Ht Hts]%andb_true_iff. injection Hl as Hl.
  cbn [zip zip_with fmap list_fmap fst snd]. unfold SC_CAST at 1.
  rewrite cast_through_long by done. f_equal. by apply IH.
Qed.
End Casts.

Section Properties.
Context {LA : ListApi node} {LL : ListLaws LA}.
Implicit Types (w : world) (a : astate) (L : gmap loc passenger).

Lemma int3_args x y z :
  syscall_args 3 [T_int; T_int; T_int] [x; y; z] = Some [cast T_int x; cast T_int y; cast T_int z].
Proof.
  unfold syscall_args, SC_CAST. cbn [length forallb andb MAP zip zip_with mbind option_bind].
  by rewrite !cast_through_long.
Qed.

Lemma entry_issue_request_eq mem r x y z :
  entry_issue_request true (link_syscalls stubs_init) mem r [x; y; z] =
    Some (ret ← issue_request mem r (cast T_int x) (cast T_int y) (cast T_int z);
          mret (cast T_long ret)).
Proof.
  unfold entry_issue_request, SYSCALL_DEFINEx. by rewrite int3_args.
Qed.

(** A wrapper with any declared types (up to six) compiles and runs its body
    with arguments of exactly these types, whatever the registers hold: each is
    the register reduced to the width of its type, and the register itself when
    it already is a value of the type.  The result is a [long]. *)
Lemma syscall_wrapper_types {W} (ts : list ctype) (do_sys : list Z → M W Z) (regs : list Z) :
  (length ts ≤ SYSCALL_DEFINE_MAXARGS)%nat → length regs = length ts →
  ∃ args, SYSCALL_DEFINEx (length ts) ts do_sys regs =
      Some (ret ← do_sys args; mret (cast T_long ret)) ∧
    Forall2 in_type ts args ∧
    (∀ i t z, ts !! i = Some t → regs !! i = Some z → ∃ v k, args !! i = Some v ∧
       v = z + k * modulus t ∧ (in_type t z → v = z)) ∧
    ∀ r, in_type T_long (cast T_long r).
Proof.
  intros Hmax Hlen.
  assert (Htest : forallb SC_TEST ts = true) by (apply forallb_forall; by intros [] _).
  exists (zip_with cast ts regs). split_and!.
  - unfold SYSCALL_DEFINEx, syscall_args. rewrite (bool_decide_eq_true_2 (_ ≤ _)%nat) by done. rewrite Htest. cbn [andb].
    assert (E : length (zip ts regs) = length ts) by (rewrite length_zip; lia).
    rewrite <- E at 1. rewrite MAP_all. cbn [mbind option_bind].
    set (ps := (λ p, _) <$> zip ts regs).
    assert (E' : length (zip ts ps) = length ts).
    { rewrite length_zip. unfold ps. rewrite length_fmap. lia. }
    rewrite <- E' at 1. rewrite MAP_all. cbn [mbind option_bind]. unfold ps.
    by rewrite casts_through_long.
  - clear Hmax Htest. revert regs Hlen. induction ts as [|t ts IH]; intros [|z regs] Hl; try done.
    injection Hl as Hl. constructor; [apply cast_in_type|by apply IH].
  - intros i t z Ht Hz. destruct (cast_congr t z) as [k Hk]. exists (cast t z), k.
    split_and!; [|done|apply cast_id]. rewrite lookup_zip_with, Ht. cbn. by rewrite Hz.
  - intros r. apply cast_in_type.
Qed.

(** C30. The entry point of issue_request with arbitrary registers: it decides on
    their low 32 bits only.  With the module loaded and memory available it
    never faults and returns 0 or 1. *)
Theorem entry_issue_request_registers L w a l r0 r1 r2 :
  rep L w a → wf a → heap w !! l = None →
  let st := link_syscalls stubs_init in
  ∃ m, entry_issue_request true st (Some l) 0 [r0; r1; r2] = Some m ∧
    wp m (λ r w', ∃ a', rep L w' a' ∧ wf a' ∧
      (r, a') = a_issue (Some l) (wrap32 r0) (wrap32 r1) (wrap32 r2) a) w ∧
    ∀ k0 k1 k2, entry_issue_request true st (Some l) 0
      [r0 + k0 * 2 ^ 32; r1 + k1 * 2 ^ 32; r2 + k2 * 2 ^ 32] = Some m.
Proof.
  intros R W Hl st.
  pose proof (entry_issue_request_eq (Some l) 0) as E. fold st in E.
  exists (ret ← issue_request (Some l) 0 (wrap32 r0) (wrap32 r1) (wrap32 r2);
          mret (cast T_long ret)).
  split_and!.
  - by rewrite E, !cast_int.
  - apply wp_bind. eapply wp_mono; [by apply (issue_request_refines L w a)|].
    intros r w' (a' & Er & R' & W'). apply wp_ret. exists a'. split_and!; [done..|].
    rewrite <- Er. f_equal. apply cast_id. unfold a_issue in Er.
    case_decide; injection Er as -> _; done.
  - intros k0 k1 k2. rewrite E. change (2 ^ 32) with (modulus T_int).
    by rewrite !cast_shift, !cast_int.
Qed.
End Properties.
