(* ===== verification/SyscallHeader.v ===== *)
(** * The rest of syscalls.h: tracing data and inline functions

    Lines 116-204 build, for every system call, the data the kernel traces it
    with; lines 259-274 and 1153-1294 are functions that are compiled into
    their callers.  What these call is not part of the repository: it comes as
    records of operations, with laws where a lemma needs them. *)

From S2P Require Import Prelude SyscallAbi.

(** ** Tracing (lines 116-204) *)

Module Trace.
Definition SC_STR_ADECL (t a : string) : string := a.
Definition SC_STR_TDECL (t a : string) : string := t.

(** The classes of events the kernel knows; two are the system calls'. *)
Inductive event_class : Type :=
| event_class_syscall_enter
| event_class_syscall_exit
| other_class (n : nat).

#[export] Instance event_class_eq_dec : EqDecision event_class.
Proof. solve_decision. Defined.

(** The functions that print an event. *)
Inductive event_funcs : Type := enter_syscall_print_funcs | exit_syscall_print_funcs.

Record trace_event_call := TraceEvent {
  class : event_class; name : string; funcs : event_funcs; flag_cap_any : bool
}.

Definition SYSCALL_TRACE_ENTER_EVENT (sname : string) : trace_event_call :=
  TraceEvent event_class_syscall_enter ("sys_enter" +:+ sname) enter_syscall_print_funcs true.
Definition SYSCALL_TRACE_EXIT_EVENT (sname : string) : trace_event_call :=
  TraceEvent event_class_syscall_exit ("sys_exit" +:+ sname) exit_syscall_print_funcs true.

(** [None] stands for NULL; the number is filled in at boot. *)
Record syscall_metadata := Metadata {
  meta_name : string; syscall_nr : Z; nb_args : nat;
  types : option (list string); args : option (list string);
  enter_event : trace_event_call; exit_event : trace_event_call;
}.

(** [None]: the compiler rejects the declaration.  [ftrace] is
    CONFIG_FTRACE_SYSCALLS; without it there is no such data. *)
Definition SYSCALL_METADATA (ftrace : bool) (sname : string) (nb : nat)
    (params : list (string * string)) : option (option syscall_metadata) :=
  if ftrace then
    ts ← MAP nb SC_STR_TDECL params;
    xs ← MAP nb SC_STR_ADECL params;
    Some (Some (Metadata ("sys" +:+ sname) (-1) nb
      (if bool_decide (nb = 0%nat) then None else Some ts)
      (if bool_decide (nb = 0%nat) then None else Some xs)
      (SYSCALL_TRACE_ENTER_EVENT sname) (SYSCALL_TRACE_EXIT_EVENT sname)))
  else Some None.

Definition is_syscall_trace_event (ftrace : bool) (tp_event : trace_event_call) : Z :=
  if ftrace then
    if bool_decide (class tp_event = event_class_syscall_enter) ||
       bool_decide (class tp_event = event_class_syscall_exit) then 1 else 0
  else 0.

(** The data describe the call: its name, one type and one name for each
    parameter, and two events that are told from each other, and from all
    others, by name and class. *)
Lemma metadata_describes (call : string) (params : list (string * string)) :
  ∃ md, SYSCALL_METADATA true ("_" +:+ call) (length params) params = Some (Some md) ∧
    meta_name md = "sys_" +:+ call ∧ nb_args md = length params ∧
    default [] (types md) = params.*1 ∧ default [] (args md) = params.*2 ∧
    name (enter_event md) ≠ name (exit_event md) ∧
    is_syscall_trace_event true (enter_event md) = 1 ∧
    is_syscall_trace_event true (exit_event md) = 1 ∧
    ∀ n nm fs b, is_syscall_trace_event true (TraceEvent (other_class n) nm fs b) = 0.
Proof.
  unfold SYSCALL_METADATA. rewrite !MAP_all. eexists. split; [reflexivity|].
  destruct params as [|[t a] params]; split_and!; try done; cbn; f_equal;
    by apply list_fmap_ext; intros ? [].
Qed.
End Trace.

(** ** The way back to user mode (lines 259-274) *)

Module UserMode.
(** What the check uses of the kernel. *)
Record task_ops {W : Type} := TaskOps {
  test_thread_flag : W → bool;                 (* of TIF_FSCHECK *)
  clear_thread_flag : M W unit;
  limit_is_user : W → bool;                    (* segment_eq(get_fs(), USER_DS) *)
  CHECK_DATA_CORRUPTION : bool → M W bool;
  kill_current : M W unit;                     (* force_sig(SIGKILL, current) *)
}.
Arguments task_ops : clear implicits.

Section Code.
Context {W : Type} (ops : task_ops W).
(** Whether the architecture defines TIF_FSCHECK. *)
Context (tif_fscheck : bool).

Definition addr_limit_user_check : M W unit :=
  w ← gets (λ w, w);
  if tif_fscheck && negb (test_thread_flag ops w) then mret tt
  else
    bad ← CHECK_DATA_CORRUPTION ops (negb (limit_is_user ops w));
    when bad (kill_current ops) ;;
    when tif_fscheck (clear_thread_flag ops).
End Code.

(** What the documentation says of these operations: the corruption check
    reports its condition, and each changes what its name says. *)
Class TaskLaws {W} (ops : task_ops W) (killed : W → bool) : Prop := {
  corruption_reported b w : CHECK_DATA_CORRUPTION ops b w = Done (b, w);
  clear_flag w : ∃ w', clear_thread_flag ops w = Done (tt, w') ∧
    test_thread_flag ops w' = false ∧ limit_is_user ops w' = limit_is_user ops w ∧
    killed w' = killed w;
  kill_kills w : ∃ w', kill_current ops w = Done (tt, w') ∧ killed w' = true ∧
    test_thread_flag ops w' = test_thread_flag ops w ∧ limit_is_user ops w' = limit_is_user ops w;
}.

(** No task returns to user mode with the kernel's address limit: it does not
    if the limit is the user's, and a task that was flagged is killed
    otherwise.  The flag is down afterwards, so that the next return costs a
    single test. *)
Lemma addr_limit_checked {W} (ops : task_ops W) killed `{!TaskLaws ops killed} w :
  wp (addr_limit_user_check ops true) (λ _ w',
    test_thread_flag ops w' = false ∧ limit_is_user ops w' = limit_is_user ops w ∧
    killed w' = killed w || (test_thread_flag ops w && negb (limit_is_user ops w)) ∧
    wp (addr_limit_user_check ops true) (λ _ w'', w'' = w') w') w.
Proof.
  assert (Hdown : ∀ w, test_thread_flag ops w = false →
    addr_limit_user_check ops true w = Done (tt, w)).
  { intros w0 E. unfold addr_limit_user_check, mbind, M_bind, gets. by rewrite E. }
  assert (Hdown' : ∀ w, test_thread_flag ops w = false →
    wp (addr_limit_user_check ops true) (λ _ w'', w'' = w) w).
  { intros w0 E. unfold wp. by rewrite Hdown. }
  destruct (test_thread_flag ops w) eqn:Et.
  2:{ unfold wp. rewrite (Hdown _ Et). rewrite orb_false_r. split_and!; try done. by apply Hdown'. }
  unfold addr_limit_user_check at 1, wp, mbind at 1, M_bind at 1, gets at 1.
  rewrite Et. cbn [andb negb]. unfold mbind, M_bind. rewrite corruption_reported. unfold when, mret, M_ret.
  destruct (limit_is_user ops w) eqn:El; cbn [negb].
  - destruct (clear_flag w) as (w1 & -> & E1 & E2 & E3). cbn.
    split_and!; [done|congruence|by rewrite orb_false_r|by apply Hdown'].
  - destruct (kill_kills w) as (w1 & -> & E1 & E2 & E3).
    destruct (clear_flag w1) as (w2 & -> & F1 & F2 & F3).
    split_and!; [done|congruence|rewrite orb_true_r; congruence|by apply Hdown'].
Qed.

(** A task that satisfies the laws. *)
Record task := Task { fscheck : bool; user_limit : bool; killed : bool }.
Definition some_ops : task_ops task := TaskOps task fscheck
  (modify (λ t, Task false (user_limit t) (killed t))) user_limit (λ b, mret b)
  (modify (λ t, Task (fscheck t) (user_limit t) true)).

#[export] Instance some_laws : TaskLaws some_ops killed.
Proof. split; [done|..]; intros w; eexists; by split_and!. Qed.

(** A flagged task with the kernel's limit is killed. *)
Example flagged_killed :
  addr_limit_user_check some_ops true (Task true false false) = Done (tt, Task false false true).
Proof. reflexivity. Qed.
End UserMode.

(** ** Calls for the kernel's own use (lines 1153-1294) *)

Module Ksys.
Definition EINVAL : Z := 22.

(** The functions behind the calls; paths are addresses, results are C's. *)
Record fs_ops {W : Type} := FsOps {
  getname : Z → M W Z;
  do_unlinkat : Z → Z → M W Z;
  do_rmdir : Z → Z → M W Z;
  do_mkdirat : Z → Z → Z → M W Z;
  do_symlinkat : Z → Z → Z → M W Z;
  do_mknodat : Z → Z → Z → Z → M W Z;
  do_linkat : Z → Z → Z → Z → Z → M W Z;
  do_fchmodat : Z → Z → Z → M W Z;
  do_faccessat : Z → Z → Z → M W Z;
  do_fchownat : Z → Z → Z → Z → Z → M W Z;
  do_sys_ftruncate : Z → Z → Z → M W Z;
  close_fd : Z → Z → M W Z;                     (* __close_fd *)
  current_files : W → Z;
  do_sys_open : Z → Z → Z → Z → M W Z;
  force_o_largefile : W → bool;
  do_sys_truncate : Z → Z → M W Z;
  current_personality : W → Z;
  set_personality : Z → M W unit;
}.
Arguments fs_ops : clear implicits.

Section Code.
Context {W : Type} (ops : fs_ops W).
(** Constants of other headers. *)
Context (AT_FDCWD AT_SYMLINK_NOFOLLOW O_LARGEFILE : Z).

(** Without CONFIG_ADVISE_SYSCALLS. *)
Definition ksys_fadvise64_64 (fd offset len advice : Z) : M W Z := mret (- EINVAL).

Definition ksys_unlink (pathname : Z) : M W Z :=
  name ← getname ops pathname; do_unlinkat ops AT_FDCWD name.
Definition ksys_rmdir (pathname : Z) : M W Z := do_rmdir ops AT_FDCWD pathname.
Definition ksys_mkdir (pathname mode : Z) : M W Z := do_mkdirat ops AT_FDCWD pathname mode.
Definition ksys_symlink (oldname newname : Z) : M W Z := do_symlinkat ops oldname AT_FDCWD newname.
Definition ksys_mknod (filename mode dev : Z) : M W Z := do_mknodat ops AT_FDCWD filename mode dev.
Definition ksys_link (oldname newname : Z) : M W Z :=
  do_linkat ops AT_FDCWD oldname AT_FDCWD newname 0.
Definition ksys_chmod (filename mode : Z) : M W Z := do_fchmodat ops AT_FDCWD filename mode.
Definition ksys_access (filename mode : Z) : M W Z := do_faccessat ops AT_FDCWD filename mode.
Definition ksys_chown (filename user group : Z) : M W Z :=
  do_fchownat ops AT_FDCWD filename user group 0.
Definition ksys_lchown (filename user group : Z) : M W Z :=
  do_fchownat ops AT_FDCWD filename user group AT_SYMLINK_NOFOLLOW.

(** The length is passed as a [loff_t], which is signed. *)
Definition ksys_ftruncate (fd length : Z) : M W Z :=
  do_sys_ftruncate ops fd (cast T_llong length) 1.
Definition ksys_close (fd : Z) : M W Z := files ← gets (current_files ops); close_fd ops files fd.
Definition ksys_open (filename flags mode : Z) : M W Z :=
  large ← gets (force_o_largefile ops);
  do_sys_open ops AT_FDCWD filename
    (if large : bool then Z.lor flags O_LARGEFILE else flags) mode.
Definition ksys_truncate (pathname length : Z) : M W Z := do_sys_truncate ops pathname length.

Definition ksys_personality (personality : Z) : M W Z :=
  old ← gets (current_personality ops);
  when (bool_decide (personality ≠ 4294967295)) (set_personality ops personality) ;;
  mret old.
End Code.

(** [set_personality] sets what [current->personality] reads. *)
Class PersonalityLaws {W} (ops : fs_ops W) : Prop :=
  personality_set p w : ∃ w', set_personality ops p w = Done (tt, w') ∧
    current_personality ops w' = p.

Section Properties.
Context {W : Type} (ops : fs_ops W).

(** 0xffffffff asks for the personality without changing it; any other number
    is read back by the next call, and the old one can be restored. *)
Lemma personality_read_back `{!PersonalityLaws ops} p w :
  ksys_personality ops 4294967295 w = Done (current_personality ops w, w) ∧
  (p ≠ 4294967295 →
     wp (old ← ksys_personality ops p; now ← ksys_personality ops 4294967295; mret (old, now))
       (λ r w', r = (current_personality ops w, p) ∧ current_personality ops w' = p) w).
Proof.
  split; [done|]. intros Hp. destruct (personality_set p w) as (w' & E & Ep).
  unfold wp, ksys_personality, mbind, M_bind, gets, when, mret, M_ret.
  rewrite bool_decide_eq_true_2 by done. rewrite E. cbn. by rewrite Ep.
Qed.

(** An unsigned length of 2^63 or more arrives as a negative offset. *)
Lemma ftruncate_length fd n :
  0 ≤ n < 2 ^ 64 →
  ksys_ftruncate ops fd n = do_sys_ftruncate ops fd (if decide (n < 2 ^ 63) then n else n - 2 ^ 64) 1.
Proof.
  intros Hn. unfold ksys_ftruncate. f_equal. unfold cast. cbn [is_signed].
  change (modulus T_llong) with 18446744073709551616. case_decide; dlia.
Qed.
End Properties.
End Ksys.
