(* ===== verification/Prototypes.v ===== *)
(** * The calls that syscalls.h declares (part3/SystemCalls/syscalls.h, lines 289-1298)

    The header is the kernel's, with the three calls of the project added at the
    end.  Here are its prototypes: the name of each call, the types of its
    parameters (their names are left out) and the preprocessor conditions around
    it.  What a type name stands for is a parameter of the theorems, as the
    headers with the typedefs are not part of the repository. *)

From S2P Require Import Prelude SyscallAbi.

(** ** C declarations *)

Inductive ty : Type :=
| Scalar (t : ctype)
| Named (name : string)        (* the name of a typedef *)
| Struct (name : string)
| Union (name : string)
| Void
| Const (t : ty)
| Ptr (is_user : bool) (t : ty).   (* [__user]: into the memory of the process *)

Notation Int := (Scalar T_int).
Notation Uint := (Scalar T_uint).
Notation Long := (Scalar T_long).
Notation Ulong := (Scalar T_ulong).
Notation Char := (Scalar T_char).
Notation Uchar := (Scalar T_uchar).
Notation user t := (Ptr true t).

(** The integer type with the representation of a parameter; an address is
    64 bits wide.  Objects are passed by address only. *)
Fixpoint representation (typedef : string → ctype) (t : ty) : option ctype :=
  match t with
  | Scalar t => Some t
  | Named name => Some (typedef name)
  | Const t => representation typedef t
  | Ptr _ _ => Some T_ulong
  | Struct _ | Union _ | Void => None
  end.

(** Conditions of the preprocessor. *)
Inductive cond : Type :=
| BitsPerLong32                (* BITS_PER_LONG == 32 *)
| Def (macro : string)         (* defined(macro) *)
| Not (c : cond)
| Or (c1 c2 : cond).

#[export] Instance cond_eq_dec : EqDecision cond.
Proof. solve_decision. Defined.

Record config := Config { bits_per_long_32 : bool; defined : string → bool }.

Fixpoint holds (cfg : config) (c : cond) : bool :=
  match c with
  | BitsPerLong32 => bits_per_long_32 cfg
  | Def macro => defined cfg macro
  | Not c => negb (holds cfg c)
  | Or c1 c2 => holds cfg c1 || holds cfg c2
  end.

(** A prototype, or [#if] with its two branches. *)
Inductive item : Type :=
| Proto (name : string) (params : list ty)
| If (c : cond) (yes no : list item).

(** What the preprocessor leaves. *)
Definition proto : Type := string * list ty.

Fixpoint declared (cfg : config) (i : item) : list proto :=
  match i with
  | Proto name params => [(name, params)]
  | If c yes no => if holds cfg c then flat_map (declared cfg) yes else flat_map (declared cfg) no
  end.

Definition declares (cfg : config) (l : list item) : list proto := flat_map (declared cfg) l.

(** ** The prototypes *)

(** Lines 289-425: aio, fs/xattr.c to fs/open.c. *)
Definition fs_calls : list item :=
  [Proto "sys_io_setup" [Uint; user (Named "aio_context_t")];
   Proto "sys_io_destroy" [Named "aio_context_t"];
   Proto "sys_io_submit" [Named "aio_context_t"; Long; user (user (Struct "iocb"))];
   Proto "sys_io_cancel" [Named "aio_context_t"; user (Struct "iocb"); user (Struct "io_event")];
   Proto "sys_io_getevents" [Named "aio_context_t"; Long; Long; user (Struct "io_event");
     user (Struct "timespec")];
   Proto "sys_io_pgetevents" [Named "aio_context_t"; Long; Long; user (Struct "io_event");
     user (Struct "timespec"); Ptr false (Const (Struct "__aio_sigset"))];
   Proto "sys_setxattr" [user (Const Char); user (Const Char); user (Const Void); Named "size_t";
     Int];
   Proto "sys_lsetxattr" [user (Const Char); user (Const Char); user (Const Void); Named "size_t";
     Int];
   Proto "sys_fsetxattr" [Int; user (Const Char); user (Const Void); Named "size_t"; Int];
   Proto "sys_getxattr" [user (Const Char); user (Const Char); user Void; Named "size_t"];
   Proto "sys_lgetxattr" [user (Const Char); user (Const Char); user Void; Named "size_t"];
   Proto "sys_fgetxattr" [Int; user (Const Char); user Void; Named "size_t"];
   Proto "sys_listxattr" [user (Const Char); user Char; Named "size_t"];
   Proto "sys_llistxattr" [user (Const Char); user Char; Named "size_t"];
   Proto "sys_flistxattr" [Int; user Char; Named "size_t"];
   Proto "sys_removexattr" [user (Const Char); user (Const Char)];
   Proto "sys_lremovexattr" [user (Const Char); user (Const Char)];
   Proto "sys_fremovexattr" [Int; user (Const Char)];
   Proto "sys_getcwd" [user Char; Ulong];
   Proto "sys_lookup_dcookie" [Named "u64"; user Char; Named "size_t"];
   Proto "sys_eventfd2" [Uint; Int];
   Proto "sys_epoll_create1" [Int];
   Proto "sys_epoll_ctl" [Int; Int; Int; user (Struct "epoll_event")];
   Proto "sys_epoll_pwait" [Int; user (Struct "epoll_event"); Int; Int;
     user (Const (Named "sigset_t")); Named "size_t"];
   Proto "sys_dup" [Uint];
   Proto "sys_dup3" [Uint; Uint; Int];
   Proto "sys_fcntl" [Uint; Uint; Ulong];
   If (BitsPerLong32)
     [Proto "sys_fcntl64" [Uint; Uint; Ulong]]
     [];
   Proto "sys_inotify_init1" [Int];
   Proto "sys_inotify_add_watch" [Int; user (Const Char); Named "u32"];
   Proto "sys_inotify_rm_watch" [Int; Named "__s32"];
   Proto "sys_ioctl" [Uint; Uint; Ulong];
   Proto "sys_ioprio_set" [Int; Int; Int];
   Proto "sys_ioprio_get" [Int; Int];
   Proto "sys_flock" [Uint; Uint];
   Proto "sys_mknodat" [Int; user (Const Char); Named "umode_t"; Uint];
   Proto "sys_mkdirat" [Int; user (Const Char); Named "umode_t"];
   Proto "sys_unlinkat" [Int; user (Const Char); Int];
   Proto "sys_symlinkat" [user (Const Char); Int; user (Const Char)];
   Proto "sys_linkat" [Int; user (Const Char); Int; user (Const Char); Int];
   Proto "sys_renameat" [Int; user (Const Char); Int; user (Const Char)];
   Proto "sys_umount" [user Char; Int];
   Proto "sys_mount" [user Char; user Char; user Char; Ulong; user Void];
   Proto "sys_pivot_root" [user (Const Char); user (Const Char)];
   Proto "sys_statfs" [user (Const Char); user (Struct "statfs")];
   Proto "sys_statfs64" [user (Const Char); Named "size_t"; user (Struct "statfs64")];
   Proto "sys_fstatfs" [Uint; user (Struct "statfs")];
   Proto "sys_fstatfs64" [Uint; Named "size_t"; user (Struct "statfs64")];
   Proto "sys_truncate" [user (Const Char); Long];
   Proto "sys_ftruncate" [Uint; Ulong];
   If (BitsPerLong32)
     [Proto "sys_truncate64" [user (Const Char); Named "loff_t"];
      Proto "sys_ftruncate64" [Uint; Named "loff_t"]]
     [];
   Proto "sys_fallocate" [Int; Int; Named "loff_t"; Named "loff_t"];
   Proto "sys_faccessat" [Int; user (Const Char); Int];
   Proto "sys_chdir" [user (Const Char)];
   Proto "sys_fchdir" [Uint];
   Proto "sys_chroot" [user (Const Char)];
   Proto "sys_fchmod" [Uint; Named "umode_t"];
   Proto "sys_fchmodat" [Int; user (Const Char); Named "umode_t"];
   Proto "sys_fchownat" [Int; user (Const Char); Named "uid_t"; Named "gid_t"; Int];
   Proto "sys_fchown" [Uint; Named "uid_t"; Named "gid_t"];
   Proto "sys_openat" [Int; user (Const Char); Int; Named "umode_t"];
   Proto "sys_close" [Uint];
   Proto "sys_vhangup" []].

(** Lines 427-516: fs/pipe.c to fs/utimes.c. *)
Definition io_calls : list item :=
  [Proto "sys_pipe2" [user Int; Int];
   Proto "sys_quotactl" [Uint; user (Const Char); Named "qid_t"; user Void];
   Proto "sys_getdents64" [Uint; user (Struct "linux_dirent64"); Uint];
   Proto "sys_llseek" [Uint; Ulong; Ulong; user (Named "loff_t"); Uint];
   Proto "sys_lseek" [Uint; Named "off_t"; Uint];
   Proto "sys_read" [Uint; user Char; Named "size_t"];
   Proto "sys_write" [Uint; user (Const Char); Named "size_t"];
   Proto "sys_readv" [Ulong; user (Const (Struct "iovec")); Ulong];
   Proto "sys_writev" [Ulong; user (Const (Struct "iovec")); Ulong];
   Proto "sys_pread64" [Uint; user Char; Named "size_t"; Named "loff_t"];
   Proto "sys_pwrite64" [Uint; user (Const Char); Named "size_t"; Named "loff_t"];
   Proto "sys_preadv" [Ulong; user (Const (Struct "iovec")); Ulong; Ulong; Ulong];
   Proto "sys_pwritev" [Ulong; user (Const (Struct "iovec")); Ulong; Ulong; Ulong];
   Proto "sys_sendfile64" [Int; Int; user (Named "loff_t"); Named "size_t"];
   Proto "sys_pselect6" [Int; user (Named "fd_set"); user (Named "fd_set"); user (Named "fd_set");
     user (Struct "timespec"); user Void];
   Proto "sys_ppoll" [user (Struct "pollfd"); Uint; user (Struct "timespec");
     user (Const (Named "sigset_t")); Named "size_t"];
   Proto "sys_signalfd4" [Int; user (Named "sigset_t"); Named "size_t"; Int];
   Proto "sys_vmsplice" [Int; user (Const (Struct "iovec")); Ulong; Uint];
   Proto "sys_splice" [Int; user (Named "loff_t"); Int; user (Named "loff_t"); Named "size_t"; Uint];
   Proto "sys_tee" [Int; Int; Named "size_t"; Uint];
   Proto "sys_readlinkat" [Int; user (Const Char); user Char; Int];
   Proto "sys_newfstatat" [Int; user (Const Char); user (Struct "stat"); Int];
   Proto "sys_newfstat" [Uint; user (Struct "stat")];
   If (Or (Def "__ARCH_WANT_STAT64") (Def "__ARCH_WANT_COMPAT_STAT64"))
     [Proto "sys_fstat64" [Ulong; user (Struct "stat64")];
      Proto "sys_fstatat64" [Int; user (Const Char); user (Struct "stat64"); Int]]
     [];
   Proto "sys_sync" [];
   Proto "sys_fsync" [Uint];
   Proto "sys_fdatasync" [Uint];
   Proto "sys_sync_file_range2" [Int; Uint; Named "loff_t"; Named "loff_t"];
   Proto "sys_sync_file_range" [Int; Named "loff_t"; Named "loff_t"; Uint];
   Proto "sys_timerfd_create" [Int; Int];
   Proto "sys_timerfd_settime" [Int; Int; user (Const (Struct "__kernel_itimerspec"));
     user (Struct "__kernel_itimerspec")];
   Proto "sys_timerfd_gettime" [Int; user (Struct "__kernel_itimerspec")];
   Proto "sys_utimensat" [Int; user (Const Char); user (Struct "timespec"); Int]].

(** Lines 518-639: kernel/acct.c to kernel/signal.c. *)
Definition kernel_calls : list item :=
  [Proto "sys_acct" [user (Const Char)];
   Proto "sys_capget" [Named "cap_user_header_t"; Named "cap_user_data_t"];
   Proto "sys_capset" [Named "cap_user_header_t"; Const (Named "cap_user_data_t")];
   Proto "sys_personality" [Uint];
   Proto "sys_exit" [Int];
   Proto "sys_exit_group" [Int];
   Proto "sys_waitid" [Int; Named "pid_t"; user (Struct "siginfo"); Int; user (Struct "rusage")];
   Proto "sys_set_tid_address" [user Int];
   Proto "sys_unshare" [Ulong];
   Proto "sys_futex" [user (Named "u32"); Int; Named "u32"; user (Struct "timespec");
     user (Named "u32"); Named "u32"];
   Proto "sys_get_robust_list" [Int; user (user (Struct "robust_list_head")); user (Named "size_t")];
   Proto "sys_set_robust_list" [user (Struct "robust_list_head"); Named "size_t"];
   Proto "sys_nanosleep" [user (Struct "__kernel_timespec"); user (Struct "__kernel_timespec")];
   Proto "sys_getitimer" [Int; user (Struct "itimerval")];
   Proto "sys_setitimer" [Int; user (Struct "itimerval"); user (Struct "itimerval")];
   Proto "sys_kexec_load" [Ulong; Ulong; user (Struct "kexec_segment"); Ulong];
   Proto "sys_init_module" [user Void; Ulong; user (Const Char)];
   Proto "sys_delete_module" [user (Const Char); Uint];
   Proto "sys_timer_create" [Named "clockid_t"; user (Struct "sigevent"); user (Named "timer_t")];
   Proto "sys_timer_gettime" [Named "timer_t"; user (Struct "__kernel_itimerspec")];
   Proto "sys_timer_getoverrun" [Named "timer_t"];
   Proto "sys_timer_settime" [Named "timer_t"; Int; user (Const (Struct "__kernel_itimerspec"));
     user (Struct "itimerspec")];
   Proto "sys_timer_delete" [Named "timer_t"];
   Proto "sys_clock_settime" [Named "clockid_t"; user (Const (Struct "__kernel_timespec"))];
   Proto "sys_clock_gettime" [Named "clockid_t"; user (Struct "__kernel_timespec")];
   Proto "sys_clock_getres" [Named "clockid_t"; user (Struct "__kernel_timespec")];
   Proto "sys_clock_nanosleep" [Named "clockid_t"; Int; user (Const (Struct "__kernel_timespec"));
     user (Struct "__kernel_timespec")];
   Proto "sys_syslog" [Int; user Char; Int];
   Proto "sys_ptrace" [Long; Long; Ulong; Ulong];
   Proto "sys_sched_setparam" [Named "pid_t"; user (Struct "sched_param")];
   Proto "sys_sched_setscheduler" [Named "pid_t"; Int; user (Struct "sched_param")];
   Proto "sys_sched_getscheduler" [Named "pid_t"];
   Proto "sys_sched_getparam" [Named "pid_t"; user (Struct "sched_param")];
   Proto "sys_sched_setaffinity" [Named "pid_t"; Uint; user Ulong];
   Proto "sys_sched_getaffinity" [Named "pid_t"; Uint; user Ulong];
   Proto "sys_sched_yield" [];
   Proto "sys_sched_get_priority_max" [Int];
   Proto "sys_sched_get_priority_min" [Int];
   Proto "sys_sched_rr_get_interval" [Named "pid_t"; user (Struct "timespec")];
   Proto "sys_restart_syscall" [];
   Proto "sys_kill" [Named "pid_t"; Int];
   Proto "sys_tkill" [Named "pid_t"; Int];
   Proto "sys_tgkill" [Named "pid_t"; Named "pid_t"; Int];
   Proto "sys_sigaltstack" [user (Const (Struct "sigaltstack")); user (Struct "sigaltstack")];
   Proto "sys_rt_sigsuspend" [user (Named "sigset_t"); Named "size_t"];
   If (Not (Def "CONFIG_ODD_RT_SIGACTION"))
     [Proto "sys_rt_sigaction" [Int; user (Const (Struct "sigaction")); user (Struct "sigaction");
        Named "size_t"]]
     [];
   Proto "sys_rt_sigprocmask" [Int; user (Named "sigset_t"); user (Named "sigset_t");
     Named "size_t"];
   Proto "sys_rt_sigpending" [user (Named "sigset_t"); Named "size_t"];
   Proto "sys_rt_sigtimedwait" [user (Const (Named "sigset_t")); user (Named "siginfo_t");
     user (Const (Struct "timespec")); Named "size_t"];
   Proto "sys_rt_sigqueueinfo" [Named "pid_t"; Int; user (Named "siginfo_t")]].

(** Lines 641-691: kernel/sys.c to kernel/timer.c. *)
Definition sys_calls : list item :=
  [Proto "sys_setpriority" [Int; Int; Int];
   Proto "sys_getpriority" [Int; Int];
   Proto "sys_reboot" [Int; Int; Uint; user Void];
   Proto "sys_setregid" [Named "gid_t"; Named "gid_t"];
   Proto "sys_setgid" [Named "gid_t"];
   Proto "sys_setreuid" [Named "uid_t"; Named "uid_t"];
   Proto "sys_setuid" [Named "uid_t"];
   Proto "sys_setresuid" [Named "uid_t"; Named "uid_t"; Named "uid_t"];
   Proto "sys_getresuid" [user (Named "uid_t"); user (Named "uid_t"); user (Named "uid_t")];
   Proto "sys_setresgid" [Named "gid_t"; Named "gid_t"; Named "gid_t"];
   Proto "sys_getresgid" [user (Named "gid_t"); user (Named "gid_t"); user (Named "gid_t")];
   Proto "sys_setfsuid" [Named "uid_t"];
   Proto "sys_setfsgid" [Named "gid_t"];
   Proto "sys_times" [user (Struct "tms")];
   Proto "sys_setpgid" [Named "pid_t"; Named "pid_t"];
   Proto "sys_getpgid" [Named "pid_t"];
   Proto "sys_getsid" [Named "pid_t"];
   Proto "sys_setsid" [];
   Proto "sys_getgroups" [Int; user (Named "gid_t")];
   Proto "sys_setgroups" [Int; user (Named "gid_t")];
   Proto "sys_newuname" [user (Struct "new_utsname")];
   Proto "sys_sethostname" [user Char; Int];
   Proto "sys_setdomainname" [user Char; Int];
   Proto "sys_getrlimit" [Uint; user (Struct "rlimit")];
   Proto "sys_setrlimit" [Uint; user (Struct "rlimit")];
   Proto "sys_getrusage" [Int; user (Struct "rusage")];
   Proto "sys_umask" [Int];
   Proto "sys_prctl" [Int; Ulong; Ulong; Ulong; Ulong];
   Proto "sys_getcpu" [user Uint; user Uint; user (Struct "getcpu_cache")];
   Proto "sys_gettimeofday" [user (Struct "timeval"); user (Struct "timezone")];
   Proto "sys_settimeofday" [user (Struct "timeval"); user (Struct "timezone")];
   Proto "sys_adjtimex" [user (Struct "timex")];
   Proto "sys_getpid" [];
   Proto "sys_getppid" [];
   Proto "sys_getuid" [];
   Proto "sys_geteuid" [];
   Proto "sys_getgid" [];
   Proto "sys_getegid" [];
   Proto "sys_gettid" [];
   Proto "sys_sysinfo" [user (Struct "sysinfo")]].

(** Lines 693-766: ipc, net, mm/filemap.c, mm/nommu.c, security/keys. *)
Definition ipc_calls : list item :=
  [Proto "sys_mq_open" [user (Const Char); Int; Named "umode_t"; user (Struct "mq_attr")];
   Proto "sys_mq_unlink" [user (Const Char)];
   Proto "sys_mq_timedsend" [Named "mqd_t"; user (Const Char); Named "size_t"; Uint;
     user (Const (Struct "__kernel_timespec"))];
   Proto "sys_mq_timedreceive" [Named "mqd_t"; user Char; Named "size_t"; user Uint;
     user (Const (Struct "__kernel_timespec"))];
   Proto "sys_mq_notify" [Named "mqd_t"; user (Const (Struct "sigevent"))];
   Proto "sys_mq_getsetattr" [Named "mqd_t"; user (Const (Struct "mq_attr"));
     user (Struct "mq_attr")];
   Proto "sys_msgget" [Named "key_t"; Int];
   Proto "sys_msgctl" [Int; Int; user (Struct "msqid_ds")];
   Proto "sys_msgrcv" [Int; user (Struct "msgbuf"); Named "size_t"; Long; Int];
   Proto "sys_msgsnd" [Int; user (Struct "msgbuf"); Named "size_t"; Int];
   Proto "sys_semget" [Named "key_t"; Int; Int];
   Proto "sys_semctl" [Int; Int; Int; Ulong];
   Proto "sys_semtimedop" [Int; user (Struct "sembuf"); Uint;
     user (Const (Struct "__kernel_timespec"))];
   Proto "sys_semop" [Int; user (Struct "sembuf"); Uint];
   Proto "sys_shmget" [Named "key_t"; Named "size_t"; Int];
   Proto "sys_shmctl" [Int; Int; user (Struct "shmid_ds")];
   Proto "sys_shmat" [Int; user Char; Int];
   Proto "sys_shmdt" [user Char];
   Proto "sys_socket" [Int; Int; Int];
   Proto "sys_socketpair" [Int; Int; Int; user Int];
   Proto "sys_bind" [Int; user (Struct "sockaddr"); Int];
   Proto "sys_listen" [Int; Int];
   Proto "sys_accept" [Int; user (Struct "sockaddr"); user Int];
   Proto "sys_connect" [Int; user (Struct "sockaddr"); Int];
   Proto "sys_getsockname" [Int; user (Struct "sockaddr"); user Int];
   Proto "sys_getpeername" [Int; user (Struct "sockaddr"); user Int];
   Proto "sys_sendto" [Int; user Void; Named "size_t"; Uint; user (Struct "sockaddr"); Int];
   Proto "sys_recvfrom" [Int; user Void; Named "size_t"; Uint; user (Struct "sockaddr"); user Int];
   Proto "sys_setsockopt" [Int; Int; Int; user Char; Int];
   Proto "sys_getsockopt" [Int; Int; Int; user Char; user Int];
   Proto "sys_shutdown" [Int; Int];
   Proto "sys_sendmsg" [Int; user (Struct "user_msghdr"); Uint];
   Proto "sys_recvmsg" [Int; user (Struct "user_msghdr"); Uint];
   Proto "sys_readahead" [Int; Named "loff_t"; Named "size_t"];
   Proto "sys_brk" [Ulong];
   Proto "sys_munmap" [Ulong; Named "size_t"];
   Proto "sys_mremap" [Ulong; Ulong; Ulong; Ulong; Ulong];
   Proto "sys_add_key" [user (Const Char); user (Const Char); user (Const Void); Named "size_t";
     Named "key_serial_t"];
   Proto "sys_request_key" [user (Const Char); user (Const Char); user (Const Char);
     Named "key_serial_t"];
   Proto "sys_keyctl" [Int; Ulong; Ulong; Ulong; Ulong]].

(** Lines 768-822: clone, execve, mm. *)
Definition mm_calls : list item :=
  [If (Def "CONFIG_CLONE_BACKWARDS")
     [Proto "sys_clone" [Ulong; Ulong; user Int; Ulong; user Int]]
     [If (Def "CONFIG_CLONE_BACKWARDS3")
        [Proto "sys_clone" [Ulong; Ulong; Int; user Int; user Int; Ulong]]
        [Proto "sys_clone" [Ulong; Ulong; user Int; user Int; Ulong]]];
   Proto "sys_execve" [user (Const Char); user (Const (user (Const Char)));
     user (Const (user (Const Char)))];
   Proto "sys_fadvise64_64" [Int; Named "loff_t"; Named "loff_t"; Int];
   Proto "sys_swapon" [user (Const Char); Int];
   Proto "sys_swapoff" [user (Const Char)];
   Proto "sys_mprotect" [Ulong; Named "size_t"; Ulong];
   Proto "sys_msync" [Ulong; Named "size_t"; Int];
   Proto "sys_mlock" [Ulong; Named "size_t"];
   Proto "sys_munlock" [Ulong; Named "size_t"];
   Proto "sys_mlockall" [Int];
   Proto "sys_munlockall" [];
   Proto "sys_mincore" [Ulong; Named "size_t"; user Uchar];
   Proto "sys_madvise" [Ulong; Named "size_t"; Int];
   Proto "sys_remap_file_pages" [Ulong; Ulong; Ulong; Ulong; Ulong];
   Proto "sys_mbind" [Ulong; Ulong; Ulong; user (Const Ulong); Ulong; Uint];
   Proto "sys_get_mempolicy" [user Int; user Ulong; Ulong; Ulong; Ulong];
   Proto "sys_set_mempolicy" [Int; user (Const Ulong); Ulong];
   Proto "sys_migrate_pages" [Named "pid_t"; Ulong; user (Const Ulong); user (Const Ulong)];
   Proto "sys_move_pages" [Named "pid_t"; Ulong; user (user (Const Void)); user (Const Int);
     user Int; Int]].

(** Lines 824-908: calls added later. *)
Definition later_calls : list item :=
  [Proto "sys_rt_tgsigqueueinfo" [Named "pid_t"; Named "pid_t"; Int; user (Named "siginfo_t")];
   Proto "sys_perf_event_open" [user (Struct "perf_event_attr"); Named "pid_t"; Int; Int; Ulong];
   Proto "sys_accept4" [Int; user (Struct "sockaddr"); user Int; Int];
   Proto "sys_recvmmsg" [Int; user (Struct "mmsghdr"); Uint; Uint; user (Struct "timespec")];
   Proto "sys_wait4" [Named "pid_t"; user Int; Int; user (Struct "rusage")];
   Proto "sys_prlimit64" [Named "pid_t"; Uint; user (Const (Struct "rlimit64"));
     user (Struct "rlimit64")];
   Proto "sys_fanotify_init" [Uint; Uint];
   Proto "sys_fanotify_mark" [Int; Uint; Named "u64"; Int; user (Const Char)];
   Proto "sys_name_to_handle_at" [Int; user (Const Char); user (Struct "file_handle"); user Int;
     Int];
   Proto "sys_open_by_handle_at" [Int; user (Struct "file_handle"); Int];
   Proto "sys_clock_adjtime" [Named "clockid_t"; user (Struct "timex")];
   Proto "sys_syncfs" [Int];
   Proto "sys_setns" [Int; Int];
   Proto "sys_sendmmsg" [Int; user (Struct "mmsghdr"); Uint; Uint];
   Proto "sys_process_vm_readv" [Named "pid_t"; user (Const (Struct "iovec")); Ulong;
     user (Const (Struct "iovec")); Ulong; Ulong];
   Proto "sys_process_vm_writev" [Named "pid_t"; user (Const (Struct "iovec")); Ulong;
     user (Const (Struct "iovec")); Ulong; Ulong];
   Proto "sys_kcmp" [Named "pid_t"; Named "pid_t"; Int; Ulong; Ulong];
   Proto "sys_finit_module" [Int; user (Const Char); Int];
   Proto "sys_sched_setattr" [Named "pid_t"; user (Struct "sched_attr"); Uint];
   Proto "sys_sched_getattr" [Named "pid_t"; user (Struct "sched_attr"); Uint; Uint];
   Proto "sys_renameat2" [Int; user (Const Char); Int; user (Const Char); Uint];
   Proto "sys_seccomp" [Uint; Uint; user (Const Char)];
   Proto "sys_getrandom" [user Char; Named "size_t"; Uint];
   Proto "sys_memfd_create" [user (Const Char); Uint];
   Proto "sys_bpf" [Int; Ptr false (Union "bpf_attr"); Uint];
   Proto "sys_execveat" [Int; user (Const Char); user (Const (user (Const Char)));
     user (Const (user (Const Char))); Int];
   Proto "sys_userfaultfd" [Int];
   Proto "sys_membarrier" [Int; Int];
   Proto "sys_mlock2" [Ulong; Named "size_t"; Int];
   Proto "sys_copy_file_range" [Int; user (Named "loff_t"); Int; user (Named "loff_t");
     Named "size_t"; Uint];
   Proto "sys_preadv2" [Ulong; user (Const (Struct "iovec")); Ulong; Ulong; Ulong; Named "rwf_t"];
   Proto "sys_pwritev2" [Ulong; user (Const (Struct "iovec")); Ulong; Ulong; Ulong; Named "rwf_t"];
   Proto "sys_pkey_mprotect" [Ulong; Named "size_t"; Ulong; Int];
   Proto "sys_pkey_alloc" [Ulong; Ulong];
   Proto "sys_pkey_free" [Int];
   Proto "sys_statx" [Int; user (Const Char); Uint; Uint; user (Struct "statx")];
   Proto "sys_rseq" [user (Struct "rseq"); Named "uint32_t"; Int; Named "uint32_t"]].

(** Lines 910-930: architecture-specific calls. *)
Definition arch_calls : list item :=
  [Proto "sys_ioperm" [Ulong; Ulong; Int];
   Proto "sys_pciconfig_read" [Ulong; Ulong; Ulong; Ulong; user Void];
   Proto "sys_pciconfig_write" [Ulong; Ulong; Ulong; Ulong; user Void];
   Proto "sys_pciconfig_iobase" [Long; Ulong; Ulong];
   Proto "sys_spu_run" [Int; user (Named "__u32"); user (Named "__u32")];
   Proto "sys_spu_create" [user (Const Char); Uint; Named "umode_t"; Int]].

(** Lines 933-1012: deprecated calls. *)
Definition deprecated_calls : list item :=
  [Proto "sys_open" [user (Const Char); Int; Named "umode_t"];
   Proto "sys_link" [user (Const Char); user (Const Char)];
   Proto "sys_unlink" [user (Const Char)];
   Proto "sys_mknod" [user (Const Char); Named "umode_t"; Uint];
   Proto "sys_chmod" [user (Const Char); Named "umode_t"];
   Proto "sys_chown" [user (Const Char); Named "uid_t"; Named "gid_t"];
   Proto "sys_mkdir" [user (Const Char); Named "umode_t"];
   Proto "sys_rmdir" [user (Const Char)];
   Proto "sys_lchown" [user (Const Char); Named "uid_t"; Named "gid_t"];
   Proto "sys_access" [user (Const Char); Int];
   Proto "sys_rename" [user (Const Char); user (Const Char)];
   Proto "sys_symlink" [user (Const Char); user (Const Char)];
   Proto "sys_utimes" [user Char; user (Struct "timeval")];
   If (Or (Def "__ARCH_WANT_STAT64") (Def "__ARCH_WANT_COMPAT_STAT64"))
     [Proto "sys_stat64" [user (Const Char); user (Struct "stat64")];
      Proto "sys_lstat64" [user (Const Char); user (Struct "stat64")]]
     [];
   Proto "sys_pipe" [user Int];
   Proto "sys_dup2" [Uint; Uint];
   Proto "sys_epoll_create" [Int];
   Proto "sys_inotify_init" [];
   Proto "sys_eventfd" [Uint];
   Proto "sys_signalfd" [Int; user (Named "sigset_t"); Named "size_t"];
   Proto "sys_sendfile" [Int; Int; user (Named "off_t"); Named "size_t"];
   Proto "sys_newstat" [user (Const Char); user (Struct "stat")];
   Proto "sys_newlstat" [user (Const Char); user (Struct "stat")];
   Proto "sys_fadvise64" [Int; Named "loff_t"; Named "size_t"; Int];
   Proto "sys_alarm" [Uint];
   Proto "sys_getpgrp" [];
   Proto "sys_pause" [];
   Proto "sys_time" [user (Named "time_t")];
   Proto "sys_utime" [user Char; user (Struct "utimbuf")];
   Proto "sys_creat" [user (Const Char); Named "umode_t"];
   Proto "sys_getdents" [Uint; user (Struct "linux_dirent"); Uint];
   Proto "sys_futimesat" [Int; user (Const Char); user (Struct "timeval")];
   Proto "sys_select" [Int; user (Named "fd_set"); user (Named "fd_set"); user (Named "fd_set");
     user (Struct "timeval")];
   Proto "sys_poll" [user (Struct "pollfd"); Uint; Int];
   Proto "sys_epoll_wait" [Int; user (Struct "epoll_event"); Int; Int];
   Proto "sys_ustat" [Uint; user (Struct "ustat")];
   Proto "sys_vfork" [];
   Proto "sys_recv" [Int; user Void; Named "size_t"; Uint];
   Proto "sys_send" [Int; user Void; Named "size_t"; Uint];
   Proto "sys_bdflush" [Int; Long];
   Proto "sys_oldumount" [user Char];
   Proto "sys_uselib" [user (Const Char)];
   Proto "sys_sysctl" [user (Struct "__sysctl_args")];
   Proto "sys_sysfs" [Int; Ulong; Ulong];
   Proto "sys_fork" []].

(** Lines 1014-1118: obsolete calls. *)
Definition obsolete_calls : list item :=
  [Proto "sys_stime" [user (Named "time_t")];
   Proto "sys_sigpending" [user (Named "old_sigset_t")];
   Proto "sys_sigprocmask" [Int; user (Named "old_sigset_t"); user (Named "old_sigset_t")];
   If (Def "CONFIG_OLD_SIGSUSPEND")
     [Proto "sys_sigsuspend" [Named "old_sigset_t"]]
     [];
   If (Def "CONFIG_OLD_SIGSUSPEND3")
     [Proto "sys_sigsuspend" [Int; Int; Named "old_sigset_t"]]
     [];
   If (Def "CONFIG_OLD_SIGACTION")
     [Proto "sys_sigaction" [Int; user (Const (Struct "old_sigaction"));
        user (Struct "old_sigaction")]]
     [];
   Proto "sys_sgetmask" [];
   Proto "sys_ssetmask" [Int];
   Proto "sys_signal" [Int; Named "__sighandler_t"];
   Proto "sys_nice" [Int];
   Proto "sys_kexec_file_load" [Int; Int; Ulong; user (Const Char); Ulong];
   Proto "sys_waitpid" [Named "pid_t"; user Int; Int];
   If (Def "CONFIG_HAVE_UID16")
     [Proto "sys_chown16" [user (Const Char); Named "old_uid_t"; Named "old_gid_t"];
      Proto "sys_lchown16" [user (Const Char); Named "old_uid_t"; Named "old_gid_t"];
      Proto "sys_fchown16" [Uint; Named "old_uid_t"; Named "old_gid_t"];
      Proto "sys_setregid16" [Named "old_gid_t"; Named "old_gid_t"];
      Proto "sys_setgid16" [Named "old_gid_t"];
      Proto "sys_setreuid16" [Named "old_uid_t"; Named "old_uid_t"];
      Proto "sys_setuid16" [Named "old_uid_t"];
      Proto "sys_setresuid16" [Named "old_uid_t"; Named "old_uid_t"; Named "old_uid_t"];
      Proto "sys_getresuid16" [user (Named "old_uid_t"); user (Named "old_uid_t");
        user (Named "old_uid_t")];
      Proto "sys_setresgid16" [Named "old_gid_t"; Named "old_gid_t"; Named "old_gid_t"];
      Proto "sys_getresgid16" [user (Named "old_gid_t"); user (Named "old_gid_t");
        user (Named "old_gid_t")];
      Proto "sys_setfsuid16" [Named "old_uid_t"];
      Proto "sys_setfsgid16" [Named "old_gid_t"];
      Proto "sys_getgroups16" [Int; user (Named "old_gid_t")];
      Proto "sys_setgroups16" [Int; user (Named "old_gid_t")];
      Proto "sys_getuid16" [];
      Proto "sys_geteuid16" [];
      Proto "sys_getgid16" [];
      Proto "sys_getegid16" []]
     [];
   Proto "sys_socketcall" [Int; user Ulong];
   Proto "sys_stat" [user (Const Char); user (Struct "__old_kernel_stat")];
   Proto "sys_lstat" [user (Const Char); user (Struct "__old_kernel_stat")];
   Proto "sys_fstat" [Uint; user (Struct "__old_kernel_stat")];
   Proto "sys_readlink" [user (Const Char); user Char; Int];
   Proto "sys_old_select" [user (Struct "sel_arg_struct")];
   Proto "sys_old_readdir" [Uint; user (Struct "old_linux_dirent"); Uint];
   Proto "sys_gethostname" [user Char; Int];
   Proto "sys_uname" [user (Struct "old_utsname")];
   Proto "sys_olduname" [user (Struct "oldold_utsname")];
   If (Def "__ARCH_WANT_SYS_OLD_GETRLIMIT")
     [Proto "sys_old_getrlimit" [Uint; user (Struct "rlimit")]]
     [];
   Proto "sys_ipc" [Uint; Int; Ulong; Ulong; user Void; Long];
   Proto "sys_mmap_pgoff" [Ulong; Ulong; Ulong; Ulong; Ulong; Ulong];
   Proto "sys_old_mmap" [user (Struct "mmap_arg_struct")];
   Proto "sys_ni_syscall" []].

(** Lines 1296-1298: the calls of the project. *)
Definition elevator_calls : list item :=
  [Proto "sys_start_elevator" [];
   Proto "sys_issue_request" [Int; Int; Int];
   Proto "sys_stop_elevator" []].

(** Lines 288-1298; the calls of the kernel are left out where the architecture
    has wrappers of its own. *)
Definition header : list item :=
  If (Not (Def "CONFIG_ARCH_HAS_SYSCALL_WRAPPER"))
    (fs_calls ++ io_calls ++ kernel_calls ++ sys_calls ++ ipc_calls ++ mm_calls ++ later_calls ++
     arch_calls ++ deprecated_calls ++ obsolete_calls) [] :: elevator_calls.

(** ** Conditions along the way to a declaration *)

Definition guard : Type := list (cond * bool).

Definition allows (cfg : config) (g : guard) : bool :=
  forallb (λ cb, bool_decide (holds cfg cb.1 = cb.2)) g.

Fixpoint guarded (g : guard) (i : item) : list (guard * proto) :=
  match i with
  | Proto name params => [(g, (name, params))]
  | If c yes no => flat_map (guarded ((c, true) :: g)) yes ++ flat_map (guarded ((c, false) :: g)) no
  end.

Definition all_guarded (l : list item) : list (guard * proto) := flat_map (guarded []) l.

(** Two macros that declare the same call with different parameters. *)
Definition conflict : guard :=
  [(Def "CONFIG_OLD_SIGSUSPEND", true); (Def "CONFIG_OLD_SIGSUSPEND3", true)].

(** No configuration passes these conditions, unless it has that conflict. *)
Definition impossible (g : guard) : bool :=
  existsb (λ cb, bool_decide ((cb.1, negb cb.2) ∈ g)) g || bool_decide (conflict ⊆ g).

(** Declarations with the same name exclude each other. *)
Fixpoint distinct (seen : gmap string (list guard)) (l : list (guard * proto)) : bool :=
  match l with
  | [] => true
  | (g, (n, _)) :: l =>
      let gs := default [] (seen !! n) in
      forallb (λ g', impossible (g ++ g')) gs && distinct (<[n := g :: gs]> seen) l
  end.

Section Guards.
Context (cfg : config).
Implicit Types (i : item) (g : guard).

Definition passing (l : list (guard * proto)) : list proto :=
  flat_map (λ gp, if allows cfg gp.1 then [gp.2] else []) l.

Lemma passing_app (l1 l2 : list (guard * proto)) : passing (l1 ++ l2) = passing l1 ++ passing l2.
Proof. apply flat_map_app. Qed.

Lemma item_induction (P : item → Prop) :
  (∀ name params, P (Proto name params)) →
  (∀ c yes no, Forall P yes → Forall P no → P (If c yes no)) → ∀ i, P i.
Proof.
  intros Hp Hi. fix IH 1. intros [name params|c yes no]; [apply Hp|]. apply Hi.
  - induction yes; constructor; auto.
  - induction no; constructor; auto.
Qed.

Lemma guarded_declared i g :
  passing (guarded g i) = if allows cfg g then declared cfg i else [].
Proof.
  revert g. induction i as [name params|c yes no IHy IHn] using item_induction; intros g.
  { unfold passing. cbn. by rewrite app_nil_r. }
  assert (Hl : ∀ l g, Forall (λ i, ∀ g, passing (guarded g i) =
      if allows cfg g then declared cfg i else []) l →
    passing (flat_map (guarded g) l) = if allows cfg g then flat_map (declared cfg) l else []).
  { clear. intros l g H. induction H as [|i l Hi _ IH]; [by destruct (allows cfg g)|].
    cbn [flat_map]. rewrite passing_app, Hi, IH. by destruct (allows cfg g). }
  cbn [guarded]. rewrite passing_app, !Hl by done. cbn [allows forallb declared fst snd].
  destruct (holds cfg c), (forallb _ g) eqn:E; unfold allows; rewrite E; cbn;
    rewrite ?app_nil_r; done.
Qed.

(** The preprocessor picks the declarations whose conditions hold. *)
Lemma declares_passing (l : list item) : declares cfg l = passing (all_guarded l).
Proof.
  induction l as [|i l IH]; [done|]. unfold declares, all_guarded in *. cbn [flat_map].
  by rewrite passing_app, guarded_declared, IH.
Qed.

Lemma impossible_allows g : allows cfg conflict = false → impossible g = true → allows cfg g = false.
Proof.
  intros Hc [H|H]%orb_true_iff; apply not_true_iff_false; unfold allows; rewrite forallb_forall; intros Ha.
  - apply existsb_exists in H as (cb & Hin & Hn%bool_decide_eq_true).
    pose proof (Ha cb Hin) as H1%bool_decide_eq_true.
    pose proof (Ha _ (proj1 (list_elem_of_In _ _) Hn)) as H2%bool_decide_eq_true.
    cbn in H2. rewrite H1 in H2. by destruct cb as [? []].
  - apply bool_decide_eq_true in H. apply not_true_iff_false in Hc. apply Hc.
    apply forallb_forall. intros cb Hin%list_elem_of_In%H%list_elem_of_In. by apply Ha.
Qed.

Lemma distinct_names seen l :
  allows cfg conflict = false → distinct seen l = true →
  NoDup (passing l).*1 ∧
  ∀ n g, g ∈ default [] (seen !! n) → allows cfg g = true → n ∉ (passing l).*1.
Proof.
  intros Hc. revert seen. induction l as [|[g [n ps]] l IH]; intros seen; cbn [distinct].
  { split; [constructor|]. intros. apply not_elem_of_nil. }
  intros [Hg [Hnd Hin]%IH]%andb_true_iff. rewrite forallb_forall in Hg.
  assert (Hno : ∀ g', g' ∈ default [] (seen !! n) → allows cfg g = true → allows cfg g' = false).
  { intros g' Hg' Ha. pose proof (impossible_allows _ Hc (Hg g' (proj1 (list_elem_of_In _ _) Hg'))) as H.
    unfold allows in *. by rewrite forallb_app, Ha in H. }
  assert (Hrest : ∀ n' g', g' ∈ default [] (seen !! n') → allows cfg g' = true →
    n' ∉ (passing l).*1).
  { intros n' g' Hg' Ha. apply (Hin n' g'); [|done]. destruct (decide (n = n')) as [->|Hne].
    - rewrite lookup_insert_eq. cbn. by right.
    - by rewrite lookup_insert_ne. }
  change (passing ((g, (n, ps)) :: l)) with ((if allows cfg g then [(n, ps)] else []) ++ passing l).
  destruct (allows cfg g) eqn:Ha; [|by split]. cbn [app fmap list_fmap fst]. split.
  - constructor; [|done]. apply (Hin n g); [|done]. rewrite lookup_insert_eq. by left.
  - intros n' g' Hg' Ha'. rewrite not_elem_of_cons. split; [|by eapply Hrest].
    intros ->. pose proof (Hno g' Hg' eq_refl); congruence.
Qed.

(** A declaration under no condition but those of [g] is there. *)
Lemma passing_elem (l : list (guard * proto)) g p : (g, p) ∈ l → allows cfg g = true → p ∈ passing l.
Proof.
  intros H Ha. unfold passing. apply list_elem_of_In, in_flat_map. exists (g, p).
  split; [by apply list_elem_of_In|]. cbn [fst snd]. rewrite Ha. by left.
Qed.
End Guards.
