(* ===== verification/ProcFs.v ===== *)
(** * /proc/elevator (elevator.c lines 251-296)

    The handlers of the proc entry, over the elevator's memory as the module's
    data.  They share [message] and [read_p] between all open files.
    [copy_to_user] is modelled by what it makes visible: the bytes copied to
    the caller's buffer.  The mutex calls of [elevator_open] appear through
    their results; Concurrency.v has the mutex itself. *)

From S2P Require Import Decimal.
From S2P Require Import Prelude KList ProcEntry ElevatorData ElevatorOps ElevatorSpec.
From S2P Require Import ElevatorRefine RunElevator Stats.

Section Code.
Context {LA : ListApi node}.
Notation pstate := (proc world).

(** The loop of [elevator_open] (lines 260-265); [lock k] is the result of
    its [k]-th lock call. *)
Fixpoint open_loop (lock : nat → Z) (fuel k : nat) : M pstate unit :=
  match fuel with
  | O => starve
  | S fuel =>
      printed ← (if bool_decide (lock k = 0) then on_message (printStats ENTRY_SIZE)
                 else mret 0);
      on_data (mutex_unlock (lock k)) ;;
      if bool_decide (printed = 0) then open_loop lock fuel (S k) else mret tt
  end.

(** Lines 255-257, before the first lock call. *)
Definition open_prepare (mem : option loc) (junk : string) : M pstate unit :=
  modify (set_read_p 1) ;;
  new_message mem junk.

Definition elevator_open (mem : option loc) (junk : string) (lock : nat → Z) (fuel : nat)
  : M pstate Z :=
  open_prepare mem junk ;;
  open_loop lock fuel 0 ;;
  m ← gets message;
  match m with
  | None => mret (- ENOMEM)
  | Some _ => mret 0
  end.

(** [elevator_read] into a user buffer of [size] bytes: the value returned
    and the bytes copied. *)
Definition elevator_read (size : nat) : M pstate (Z * string) :=
  r ← toggle_read_p;
  if bool_decide (r ≠ 0) then mret (0, "")
  else t ← message_text; mret (Z.of_nat (String.length t), t).

Definition elevator_release : M pstate Z := kfree_message ;; mret 0.

(** What [cat /proc/elevator] does. *)
Definition cat_session (mem : option loc) (junk : string) (lock : nat → Z) (fuel size : nat)
  : M pstate string :=
  elevator_open mem junk lock fuel ;;
  t ← read_all (elevator_read size) fuel;
  elevator_release ;;
  mret t.
End Code.

(** ** Proofs *)

Section Proc.
Context {LA : ListApi node} {LL : ListLaws LA}.
Notation pstate := (proc world).
Implicit Types (s : pstate) (a : astate) (L : gmap loc passenger).

(** The text the entry shows. *)
Definition current_report s : string := report (w_e (data s)) (b_f (w_b (data s))).

Lemma wp_print_report L s a l t (Q : Z → pstate → Prop) :
  rep L (data s) a → wf a → message s = Some l → buffers s !! l = Some t →
  (∀ len, len ≠ 0 → Q len (set_buffers (<[l := current_report s]> (buffers s)) s)) →
  wp (on_message (printStats ENTRY_SIZE)) Q s.
Proof.
  intros R W Hl Ht HQ. eapply wp_on_message; [done..|].
  eapply wp_mono; [by apply (printStats_report L (data s) a)|].
  intros len t' (-> & _ & _ & Hne). by apply HQ.
Qed.

(** The elevator's memory after [n] forbidden unlock calls. *)
Definition unlocked (n : nat) s : pstate := set_data (Nat.iter n count_bad_unlock (data s)) s.

Lemma unlocked_0 s : unlocked 0 s = s.
Proof. by destruct s. Qed.

Lemma unlocked_S n s : unlocked n (unlocked 1 s) = unlocked (S n) s.
Proof. unfold unlocked at 1 3. by rewrite Nat.iter_succ_r. Qed.

Lemma current_report_unlocked n s : current_report (unlocked n s) = current_report s.
Proof.
  unfold current_report, unlocked; cbn [data set_data].
  induction n as [|n IH]; [done|]. by rewrite Nat.iter_succ.
Qed.

(** The unlock call of the loop. *)
Lemma wp_unlock r s (Q : unit → pstate → Prop) :
  Q tt (unlocked (interrupted r) s) → wp (on_data (mutex_unlock r)) Q s.
Proof. intros HQ. by apply wp_on_data, wp_mutex_unlock. Qed.

(** The loop ends at the first lock call that succeeds. *)
Lemma wp_open_loop L s a l t lock fuel k n :
  rep L (data s) a → wf a → message s = Some l → buffers s !! l = Some t →
  (∀ j, (j < n)%nat → lock (k + j)%nat ≠ 0) → lock (k + n)%nat = 0 → (n < fuel)%nat →
  wp (open_loop lock fuel k)
    (λ _ s', s' = set_buffers (<[l := current_report s]> (buffers s)) (unlocked n s)) s.
Proof.
  revert s fuel k. induction n as [|n IH]; intros s fuel k R W Hl Ht Hno Hyes Hf;
    (destruct fuel as [|fuel]; [lia|]); cbn [open_loop].
  - rewrite Nat.add_0_r in Hyes. rewrite Hyes, bool_decide_eq_true_2 by done. apply wp_bind.
    eapply wp_print_report; [done..|]. intros len Hne.
    apply wp_bind, wp_unlock. cbn [interrupted bool_decide]. rewrite unlocked_0.
    rewrite bool_decide_eq_false_2 by done. apply wp_ret. by rewrite unlocked_0.
  - assert (lock k ≠ 0) as Hk.
    { specialize (Hno 0%nat). rewrite Nat.add_0_r in Hno. apply Hno. lia. }
    rewrite bool_decide_eq_false_2 by done. apply wp_bind, wp_ret, wp_bind, wp_unlock.
    unfold interrupted. rewrite (bool_decide_eq_false_2 (lock k = 0)) by done.
    rewrite (bool_decide_eq_true_2 (0 = 0)) by done.
    eapply wp_mono; [apply (IH (unlocked 1 s) fuel (S k)); [|done..| | |lia]|].
    + by apply (rep_unlocks L (data s) a 1).
    + intros j Hj. rewrite Nat.add_succ_l, <- Nat.add_succ_r. apply Hno. lia.
    + by rewrite Nat.add_succ_l, <- Nat.add_succ_r.
    + intros _ s' ->. by rewrite current_report_unlocked, unlocked_S.
Qed.

(** Without a buffer it fails there. *)
Lemma open_loop_null s lock fuel k n :
  message s = None →
  (∀ j, (j < n)%nat → lock (k + j)%nat ≠ 0) → lock (k + n)%nat = 0 → (n < fuel)%nat →
  open_loop lock fuel k s = Fault NullDeref.
Proof.
  revert s fuel k. induction n as [|n IH]; intros s fuel k Hm Hno Hyes Hf;
    (destruct fuel as [|fuel]; [lia|]); cbn [open_loop].
  - rewrite Nat.add_0_r in Hyes. rewrite Hyes, bool_decide_eq_true_2 by done.
    unfold mbind, M_bind, on_message. by rewrite Hm.
  - assert (lock k ≠ 0) as Hk.
    { specialize (Hno 0%nat). rewrite Nat.add_0_r in Hno. apply Hno. lia. }
    rewrite bool_decide_eq_false_2 by done. unfold mbind, M_bind, mret, M_ret.
    unfold on_data, mutex_unlock. rewrite (bool_decide_eq_false_2 (lock k = 0)) by done.
    cbn. apply (IH (unlocked 1 s)); [done|..|lia].
    + intros j Hj. rewrite Nat.add_succ_l, <- Nat.add_succ_r. apply Hno. lia.
    + by rewrite Nat.add_succ_l, <- Nat.add_succ_r.
Qed.

Lemma elevator_open_prints L s a l junk lock fuel n (Q : Z → pstate → Prop) :
  rep L (data s) a → wf a →
  (∀ j, (j < n)%nat → lock j ≠ 0) → lock n = 0 → (n < fuel)%nat →
  Q 0 (Proc (data (unlocked n s)) (Some l) 1 (<[l := current_report s]> (buffers s))) →
  wp (elevator_open (Some l) junk lock fuel) Q s.
Proof.
  intros R W Hno Hyes Hf HQ. unfold elevator_open, open_prepare, new_message.
  apply wp_bind, wp_bind, wp_modify, wp_modify, wp_bind. eapply wp_mono.
  { eapply (wp_open_loop L _ a l junk lock fuel 0 n); [exact R|done|done|apply lookup_insert_eq|done..]. }
  intros _ s' ->. apply wp_bind, wp_gets, wp_ret. cbn.
  unfold set_buffers, set_message, set_read_p; cbn. by rewrite insert_insert_eq.
Qed.

Lemma current_report_nonempty s : current_report s ≠ "".
Proof. unfold current_report, report. done. Qed.

Lemma elevator_read_first s l t size (P : Z * string → pstate → Prop) :
  message s = Some l → buffers s !! l = Some t → read_p s ≠ 0 →
  P (Z.of_nat (String.length t), t) (set_read_p 0 s) → wp (elevator_read size) P s.
Proof.
  intros Hl Ht Hr HP. apply wp_bind, wp_toggle_first; [done|].
  rewrite bool_decide_eq_false_2 by (intros H; done).
  apply wp_bind. by eapply wp_message_text.
Qed.

Lemma elevator_read_second s size (P : Z * string → pstate → Prop) :
  read_p s = 0 → P (0, "") (set_read_p 1 s) → wp (elevator_read size) P s.
Proof. intros Hr HP. apply wp_bind, wp_toggle_second; [done|]. exact HP. Qed.
End Proc.

(** ** Properties of the entry *)

Section Properties.
Context {LA : ListApi node} {LL : ListLaws LA}.
Notation pstate := (proc world).
Implicit Types (s : pstate) (a : astate) (L : gmap loc passenger).

(** C25. One reader at a time: [cat] prints the report of the moment its lock
    call succeeds, exactly once, however often the lock call was interrupted
    before, and frees the buffer.  The elevator is not touched; each interrupted
    lock call has been followed by a forbidden unlock call. *)
Theorem cat_session_reads_report L s a l junk lock fuel size n :
  rep L (data s) a → wf a → buffers s !! l = None →
  (∀ j, (j < n)%nat → lock j ≠ 0) → lock n = 0 → (n < fuel)%nat → (2 ≤ fuel)%nat →
  wp (cat_session (Some l) junk lock fuel size) (λ text s',
    text = current_report s ∧ data s' = Nat.iter n count_bad_unlock (data s) ∧
    buffers s' = buffers s) s.
Proof.
  intros R W Hl Hno Hyes Hf Hf2. unfold cat_session. apply wp_bind.
  eapply elevator_open_prints; [done..|]. apply wp_bind.
  eapply (wp_read_all (elevator_read size) fuel _ l (current_report s));
    [done|apply current_report_nonempty|done|apply lookup_insert_eq|done| | |].
  - intros P s' ? ? ? ?. by eapply elevator_read_first.
  - intros P s' ? ? ? ?. by apply elevator_read_second.
  - apply wp_bind, wp_bind. eapply wp_kfree_message; [done|apply lookup_insert_eq|].
    apply wp_ret, wp_ret. cbn. split_and!; [done..|]. by apply delete_message.
Qed.

(** When kmalloc fails, [elevator_open] does not reach its test for NULL: the
    report is written through the NULL pointer first. *)
Theorem elevator_open_no_memory s junk lock fuel n :
  (∀ j, (j < n)%nat → lock j ≠ 0) → lock n = 0 → (n < fuel)%nat →
  elevator_open None junk lock fuel s = Fault NullDeref.
Proof.
  intros Hno Hyes Hf. unfold elevator_open, open_prepare, new_message, mbind, M_bind, modify; cbn.
  by rewrite (open_loop_null _ lock fuel 0 n).
Qed.

(** Two readers share [message]: if a second one opens the entry before the
    first closes it, the first buffer is never freed and the second close
    frees the second buffer again. *)
Theorem two_readers_double_free L s a l1 l2 j1 j2 :
  rep L (data s) a → wf a → l1 ≠ l2 → buffers s = ∅ →
  wp (elevator_open (Some l1) j1 (λ _, 0) 1 ;; elevator_open (Some l2) j2 (λ _, 0) 1 ;;
      elevator_release)
    (λ _ s', buffers s' !! l1 = Some (current_report s) ∧
             elevator_release s' = Fault DoubleFree) s.
Proof.
  intros R W Hne Hb. apply wp_bind.
  apply (elevator_open_prints L s a l1 j1 (λ _, 0) 1 0); [done..|lia|done|lia|].
  apply wp_bind. apply (elevator_open_prints L _ a l2 j2 (λ _, 0) 1 0); [done..|lia|done|lia|].
  apply wp_bind. eapply wp_kfree_message; [done|apply lookup_insert_eq|]. apply wp_ret.
  cbn [buffers set_buffers]. rewrite lookup_delete_ne, lookup_insert_ne, lookup_insert_eq by done.
  split; [done|]. unfold elevator_release, mbind, M_bind, kfree_message.
  cbn [message buffers set_buffers]. by rewrite lookup_delete_eq.
Qed.

(** [elevator_read] ignores the size of the caller's buffer: it copies the
    whole report even into a smaller one, writing beyond its end. *)
Theorem elevator_read_ignores_size s l t size :
  message s = Some l → buffers s !! l = Some t → read_p s ≠ 0 → (size < String.length t)%nat →
  wp (elevator_read size) (λ r s',
    r.2 = t ∧ r.1 = Z.of_nat (String.length r.2) ∧ (size < String.length r.2)%nat ∧
    s' = set_read_p 0 s) s.
Proof. intros Hl Ht Hr Hsz. by eapply elevator_read_first. Qed.
End Properties.
