(* ===== verification/Lifecycle.v ===== *)
(** * Loading and unloading the module (elevator.c lines 28-33, 298-369)

    [elevator_init], [initEThread] and [elevator_exit], on the module's whole
    state: the elevator's memory, the stub pointers of the kernel, the mutex,
    the proc entry and the thread.  Shown here: a successful load establishes
    the invariant the other components rely on, an unload frees every
    passenger and leaves the system calls unavailable, a load that fails
    leaves the kernel with pointers into a module that is gone, and a call in
    the window before the mutex is initialised uses it uninitialised. *)

From S2P Require Import Prelude KThread KList ElevatorData ElevatorOps ElevatorSpec.
From S2P Require Import ElevatorRefine RunElevator Liveness Syscalls.

(** ** State of the module *)

(** [struct file_operations fops] *)
Inductive proc_fn : Type := P_elevator_open | P_elevator_read | P_elevator_release.
Record file_operations := Fops {
  f_open : option proc_fn; f_read : option proc_fn; f_release : option proc_fn }.

Section Code.
Context {LA : ListApi node}.

Record kmod := KMod {
  k_world : world;
  k_stubs : stubs;
  k_fops : file_operations;
  k_entry : bool;             (* /proc/elevator exists *)
  k_mutex : mutex_state;      (* e_tp.mutx *)
  k_thread : task_ptr;        (* e_tp.kthread *)
}.

Definition set_world v (k : kmod) : kmod :=
  KMod v (k_stubs k) (k_fops k) (k_entry k) (k_mutex k) (k_thread k).
Definition set_stubs v (k : kmod) : kmod :=
  KMod (k_world k) v (k_fops k) (k_entry k) (k_mutex k) (k_thread k).
Definition set_fops v (k : kmod) : kmod :=
  KMod (k_world k) (k_stubs k) v (k_entry k) (k_mutex k) (k_thread k).
Definition set_entry v (k : kmod) : kmod :=
  KMod (k_world k) (k_stubs k) (k_fops k) v (k_mutex k) (k_thread k).
Definition set_mutex v (k : kmod) : kmod :=
  KMod (k_world k) (k_stubs k) (k_fops k) (k_entry k) v (k_thread k).
Definition set_thread v (k : kmod) : kmod :=
  KMod (k_world k) (k_stubs k) (k_fops k) (k_entry k) (k_mutex k) v.

(** Code that works on the elevator's memory only. *)
Definition in_world {A} (m : M world A) : M kmod A := λ k,
  match m (k_world k) with
  | Done (a, w) => Done (a, set_world w k)
  | Fault f => Fault f
  | NoFuel => NoFuel
  end.

(** [initEThread]; [t] is what kthread_run returns. *)
Definition initEThread (t : task_ptr) : M kmod unit :=
  modify (set_mutex MutexReady) ;;
  modify (set_thread t).

(** [elevator_init] up to the creation of the proc entry (lines 302-309) *)
Definition init_tables : M kmod unit :=
  modify (λ k, set_stubs (link_syscalls (k_stubs k)) k) ;;
  modify (set_fops (Fops (Some P_elevator_open) (Some P_elevator_read)
                         (Some P_elevator_release))) ;;
  in_world initElevator ;;
  in_world initBuilding.

(** [elevator_init]; [created] is the result of proc_create. *)
Definition elevator_init (created : bool) (t : task_ptr) : M kmod Z :=
  init_tables ;;
  if negb created then
    modify (set_entry false) ;; mret (- ENOMEM)
  else
    modify (set_entry true) ;;
    initEThread t ;;
    t' ← gets k_thread;
    if IS_ERR t' then modify (set_entry false) ;; mret (PTR_ERR t')
    else mret 0.

(** The loops of [elevator_exit]: the passengers of one list are unlinked
    and freed. *)
Definition free_list (h : node) : M world unit :=
  emp ← is_empty h;
  when (negb emp)
    (fuel ← gets heap_fuel;
     list_for_each_safe node_next
       (λ ptr, p ← entry ptr; do_del ptr ;; kfree p ;; mret false) h fuel).

(** [elevator_exit]; kthread_stop returns when the thread has ended. *)
Definition elevator_exit : M kmod unit :=
  modify (set_thread (Task false)) ;;
  modify (λ k, set_stubs (unlink_syscalls (k_stubs k)) k) ;;
  in_world (for_range 10 (λ i, free_list (EP i) ;; free_list (FW i))) ;;
  modify (set_mutex MutexDestroyed) ;;
  modify (set_entry false).

(** A system call at any moment: through the stub, and with the lock of the
    module's mutex, which must have been initialised. *)
Definition lock_mutex : M kmod unit :=
  m ← gets k_mutex;
  match m with MutexReady => mret tt | _ => crash Uninitialised end.

Definition call_start (loaded : bool) : M kmod Z :=
  st ← gets k_stubs;
  match STUB_start_elevator st with
  | None => mret (- ENOSYS)
  | Some _ => if loaded then lock_mutex ;; in_world (start_elevator 0) else crash UseAfterFree
  end.
End Code.

(** ** Freeing every list *)

Section Free.
Context {LA : ListApi node} {LL : ListLaws LA}.
Implicit Types (w : world) (L : gmap loc passenger) (Q : node → list node).

(** What [elevator_exit] keeps of the representation: the lists hold live
    objects, and the other live objects are those of [L].  The counters are
    no longer maintained. *)
Record lists_hold L w Q : Prop := {
  lh_rings : Rings (links w) is_head Q;
  lh_live h n : is_head h → n ∈ Q h → ∃ l, n = PN l ∧ is_Some (heap w !! l) ∧ L !! l = None;
  lh_dom l : is_Some (heap w !! l) → is_Some (L !! l) ∨ ∃ h, is_head h ∧ PN l ∈ Q h;
  lh_extra : L ⊆ heap w;
}.

Lemma rep_lists_hold L w a : rep L w a → lists_hold L w (entries a).
Proof.
  intros R. split.
  - apply (rep_rings _ _ _ R).
  - intros h n _ Hn.
    assert (∃ x, n = PN x.1 ∧ listed a x) as (x & -> & Hx).
    { unfold listed. destruct h as [i|i|]; cbn in Hn; [..|by apply elem_of_nil in Hn].
      all: apply list_elem_of_fmap in Hn as (x & -> & Hx); eauto. }
    exists x.1. split_and!; [done| |by apply (rep_disj _ _ _ R)].
    rewrite (rep_heap _ _ _ R x Hx). eauto.
  - intros l [p Hp]. destruct (rep_dom _ _ _ R _ _ Hp) as [Hl|Hl]; [right|left; eauto].
    pose proof Hl as [i Hi]. pose proof (listed_lt _ _ _ _ _ R Hi).
    destruct Hi as [Hi|Hi]; [exists (FW i)|exists (EP i)]; (split; [done|]); cbn;
      apply list_elem_of_fmap; by exists (l, p).
  - apply (rep_extra _ _ _ R).
Qed.

Lemma lh_next L w Q h l1 l l2 :
  lists_hold L w Q → is_head h → Q h = l1 ++ PN l :: l2 →
  node_next (PN l) w = Done (default h (hd_error l2), w).
Proof.
  intros H Hh E. destruct (lh_live _ _ _ H h (PN l) Hh) as (l' & [= <-] & [p Hp] & _).
  { rewrite E. set_solver. }
  unfold node_next, mbind, M_bind, gets, live. rewrite Hp.
  pose proof (rings_ring _ _ _ (lh_rings _ _ _ H) h Hh) as Hr. rewrite E in Hr.
  by rewrite (ring_next _ _ _ _ _ Hr).
Qed.

Lemma lh_first L w Q h :
  lists_hold L w Q → is_head h → node_next h w = Done (default h (hd_error (Q h)), w).
Proof.
  intros H Hh. unfold node_next, mbind, M_bind, gets.
  assert (live h w = Done (tt, w)) as -> by by destruct h.
  by rewrite (ring_first _ _ _ (rings_ring _ _ _ (lh_rings _ _ _ H) h Hh)).
Qed.

Lemma lh_length L w Q h :
  lists_hold L w Q → is_head h → (length (Q h) ≤ heap_fuel w)%nat.
Proof.
  intros H Hh. pose proof (ring_nodup _ _ _ (rings_ring _ _ _ (lh_rings _ _ _ H) h Hh)) as Hnd.
  apply NoDup_cons in Hnd as [_ Hnd].
  pose proof (NoDup_submseteq (Q h) (PN ∘ fst <$> map_to_list (heap w)) Hnd) as Hsub.
  apply submseteq_length in Hsub.
  - by rewrite length_fmap, length_map_to_list in Hsub.
  - intros n Hn. destruct (lh_live _ _ _ H h n Hh Hn) as (l & -> & [p Hp] & _).
    apply list_elem_of_fmap. exists (l, p). split; [done|]. by apply elem_of_map_to_list.
Qed.

(** One step of the loops: unlink the first entry and free it. *)
Lemma lh_free L w Q h l q :
  lists_hold L w Q → is_head h → Q h = PN l :: q →
  lists_hold L (set_heap (delete l (heap w)) (set_links (list_del (PN l) (links w)) w))
    (fupd Q h q).
Proof.
  intros H Hh E. pose proof H as [[Hr Hhd Hd] Hl Hdom Hex].
  assert (Hin : PN l ∈ Q h) by (rewrite E; left).
  pose proof (ring_nodup _ _ _ (Hr h Hh)) as Hnd. rewrite E in Hnd.
  apply NoDup_cons in Hnd as [_ [Hlq _]%NoDup_cons].
  assert (Hup : ∀ h0 n, is_head h0 → n ∈ fupd Q h q h0 → n ∈ Q h0 ∧ n ≠ PN l).
  { intros h0 n Hh0. unfold fupd. case_decide as Hc; [subst h0|].
    - rewrite E. intros Hn. split; [by right|]. by intros ->.
    - intros Hn. split; [done|]. intros ->. apply Hc. by eapply Hd. }
  destruct (Hl h _ Hh Hin) as (l0 & [= <-] & _ & HL). split; cbn.
  - by apply (rings_del _ _ _ h [] (PN l) q).
  - intros h0 n Hh0 [Hn Hne]%(Hup _ _ Hh0). destruct (Hl h0 n Hh0 Hn) as (l' & -> & Hs & HL').
    exists l'. split_and!; [done| |done]. rewrite lookup_delete_ne by congruence. done.
  - intros l' Hs. destruct (decide (l' = l)) as [->|Hne].
    { rewrite lookup_delete_eq in Hs. by destruct Hs. }
    rewrite lookup_delete_ne in Hs by done. destruct (Hdom l' Hs) as [?|(h0 & Hh0 & Hn)]; [by left|].
    right. exists h0. split; [done|]. unfold fupd. case_decide; [subst h0|done].
    rewrite E in Hn. apply elem_of_cons in Hn as [[= ->]|]; done.
  - apply map_subseteq_spec. intros l' p Hl'. rewrite lookup_delete_ne by congruence.
    by eapply lookup_weaken.
Qed.

Lemma free_list_empties L w Q h :
  lists_hold L w Q → is_head h →
  wp (free_list h) (λ _ w', w_e w' = w_e w ∧ w_b w' = w_b w ∧
    ∃ Q', lists_hold L w' Q' ∧ Q' h = [] ∧ ∀ h', h' ≠ h → Q' h' = Q h') w.
Proof.
  intros H Hh. unfold free_list. apply wp_bind, wp_gets.
  destruct (list_empty h (links w)) eqn:Hemp; cbn [negb when].
  { apply (ring_empty _ _ _ (rings_ring _ _ _ (lh_rings _ _ _ H) h Hh)) in Hemp.
    apply wp_ret. split_and!; [done..|]. by exists Q. }
  apply wp_bind, wp_gets.
  set (I := λ (rest : list node) w', w_e w' = w_e w ∧ w_b w' = w_b w ∧
    ∃ Q', lists_hold L w' Q' ∧ Q' h = rest ∧ ∀ h', h' ≠ h → Q' h' = Q h').
  eapply (wp_list_for_each_safe _ _ _ I) with (xs := Q h).
  - intros rest w' (_ & _ & Q' & H' & _). eexists. by eapply lh_first.
  - intros x rest w' (_ & _ & Q' & H' & E & _).
    destruct (lh_live _ _ _ H' h x Hh) as (l & -> & _); [rewrite E; left|].
    by eapply (lh_next L w' Q' h []).
  - intros x rest w' (E1 & E2 & Q' & H' & E & Hother).
    destruct (lh_live _ _ _ H' h x Hh) as (l & -> & [p Hp] & _); [rewrite E; left|].
    apply wp_bind, wp_ret, wp_bind, wp_do_del; [by eexists|].
    apply wp_bind. eapply wp_kfree; [exact Hp|]. apply wp_ret.
    split_and!; [done..|]. eexists. split; [by apply (lh_free L w' Q' h l rest)|]. split.
    + unfold fupd. by rewrite decide_True.
    + intros h' Hne. unfold fupd. rewrite decide_False by done. auto.
  - intros w' (E1 & E2 & Q' & HQ). split_and!; [done..|]. by exists Q'.
  - intros Hin. by apply (rings_head _ _ _ (lh_rings _ _ _ H) h h Hh).
  - by apply (lh_length L).
  - split_and!; [done..|]. by exists Q.
  - by eapply lh_first.
Qed.

(** All twenty lists. *)
Lemma free_all L w Q :
  lists_hold L w Q →
  wp (for_range 10 (λ i, free_list (EP i) ;; free_list (FW i)))
    (λ _ w', heap w' = L ∧ ∀ h, is_head h → ring (links w') h []) w.
Proof.
  intros H. eapply wp_mono.
  { apply (wp_for_range 10 _ (λ k w', ∃ Q', lists_hold L w' Q' ∧
      ∀ i, (i < k)%nat → Q' (EP i) = [] ∧ Q' (FW i) = [])).
    - intros k w' Hk (Q1 & H1 & HE1). apply wp_bind.
      eapply wp_mono; [by apply (free_list_empties L w' Q1 (EP k))|].
      intros _ w1 (_ & _ & Q2 & H2 & HE2 & HO2).
      eapply wp_mono; [by apply (free_list_empties L w1 Q2 (FW k))|].
      intros _ w2 (_ & _ & Q3 & H3 & HE3 & HO3). exists Q3. split; [done|].
      intros i Hi. rewrite HO3 by done. destruct (decide (i = k)) as [->|Hne]; [by split|].
      rewrite HO2, HO3, HO2 by congruence. apply HE1. lia.
    - exists Q. split; [done|]. lia. }
  cbn. intros _ w' (Q' & H' & HE).
  assert (Hnil : ∀ h, is_head h → Q' h = []) by (intros [i|i|i] Hi; [apply HE..|]; done).
  split.
  - apply map_eq. intros l. destruct (L !! l) as [p|] eqn:El.
    + eapply lookup_weaken; [exact El|apply (lh_extra _ _ _ H')].
    + destruct (heap w' !! l) as [p|] eqn:Eh; [|done].
      destruct (lh_dom _ _ _ H' l ltac:(by eexists)) as [[q Hq]|(h & Hh & Hn)]; [congruence|].
      rewrite (Hnil h Hh) in Hn. by apply elem_of_nil in Hn.
  - intros h Hh. rewrite <- (Hnil h Hh). apply (rings_ring _ _ _ (lh_rings _ _ _ H') h Hh).
Qed.
End Free.

(** ** Loading *)

Section Loading.
Context {LA : ListApi node} {LL : ListLaws LA}.
Implicit Types (k : kmod) (w : world) (a : astate) (L : gmap loc passenger).

Lemma wp_in_world {A} (m : M world A) (Q : A → kmod → Prop) k :
  wp m (λ x w, Q x (set_world w k)) (k_world k) → wp (in_world m) Q k.
Proof. unfold wp, in_world. by destruct (m (k_world k)) as [[x w]| |]. Qed.

Lemma init_tables_ok k :
  length (b_f (w_b (k_world k))) = 10%nat →
  wp init_tables (λ _ k', rep (heap (k_world k)) (k_world k') a_init ∧
    k_stubs k' = link_syscalls (k_stubs k) ∧ k_mutex k' = k_mutex k) k.
Proof.
  intros Hlen. unfold init_tables. apply wp_bind, wp_modify, wp_bind, wp_modify, wp_bind.
  pose proof (init_refines (k_world k) Hlen) as ([] & w2 & Hrun & R)%wp_done.
  unfold mbind, M_bind in Hrun. destruct (initElevator (k_world k)) as [[[] w1]| |] eqn:E1; try done.
  apply wp_in_world. eapply wp_run; [exact E1|]. apply wp_in_world.
  eapply wp_run; [exact Hrun|]. done.
Qed.

(** A load in which nothing fails. *)
Lemma load_succeeds k :
  length (b_f (w_b (k_world k))) = 10%nat →
  ∃ k', elevator_init true (Task true) k = Done (0, k') ∧
    rep (heap (k_world k)) (k_world k') a_init ∧ k_stubs k' = link_syscalls (k_stubs k) ∧
    k_mutex k' = MutexReady ∧ k_entry k' = true ∧ k_thread k' = Task true.
Proof.
  intros Hlen. destruct (proj1 (wp_done _ _ _) (init_tables_ok k Hlen)) as ([] & k0 & E & R & Hst & _).
  unfold elevator_init, mbind, M_bind. rewrite E. eexists. by split_and!.
Qed.

(** All calls through the stubs, in one predicate: what they do is [m]. *)
Definition every_syscall (loaded : bool) (st : stubs) (w : world) (o : result (Z * world)) : Prop :=
  (∀ mem r p s d, sys_issue_request loaded st mem r p s d w = o) ∧
  (∀ r, sys_start_elevator loaded st r w = o) ∧
  (∀ r, sys_stop_elevator loaded st r w = o).

Lemma every_syscall_unlinked loaded st w :
  every_syscall loaded (unlink_syscalls st) w (Done (- ENOSYS, w)).
Proof. done. Qed.
Lemma every_syscall_dangling st w :
  every_syscall false (link_syscalls st) w (Fault UseAfterFree).
Proof. done. Qed.
End Loading.

(** ** Properties *)

Section Properties.
Context {LA : ListApi node} {LL : ListLaws LA}.
Implicit Types (k : kmod) (w : world) (a : astate) (L : gmap loc passenger).

(** Loading the module, with proc_create and kthread_run succeeding, returns
    0 and establishes the invariant of the other components: empty queues,
    an offline elevator on the lowest floor, the system calls linked, the
    mutex initialised, the proc entry present. *)
Lemma elevator_init_ok k :
  length (b_f (w_b (k_world k))) = 10%nat →
  wp (elevator_init true (Task true)) (λ r k',
    r = 0 ∧ rep (heap (k_world k)) (k_world k') a_init ∧ wf a_init ∧
    k_stubs k' = link_syscalls (k_stubs k) ∧ k_mutex k' = MutexReady ∧
    k_entry k' = true ∧ k_thread k' = Task true) k.
Proof.
  intros Hlen. destruct (load_succeeds k Hlen) as (k' & E & R & ? & ? & ? & ?).
  eapply wp_run; [exact E|]. split_and!; try done. apply wf_init.
Qed.

(** Unloading the module frees every passenger that waits or rides, empties
    every list, and makes all three system calls return -ENOSYS. *)
Lemma elevator_exit_frees L k a :
  rep L (k_world k) a →
  wp elevator_exit (λ _ k',
    heap (k_world k') = L ∧ (∀ h, is_head h → ring (links (k_world k')) h []) ∧
    k_mutex k' = MutexDestroyed ∧ k_entry k' = false ∧
    ∀ loaded w, every_syscall loaded (k_stubs k') w (Done (- ENOSYS, w))) k.
Proof.
  intros R. unfold elevator_exit. apply wp_bind, wp_modify, wp_bind, wp_modify, wp_bind.
  apply wp_in_world. eapply wp_mono.
  { apply (free_all L (k_world k) (entries a)). by apply rep_lists_hold. }
  cbn. intros _ w' [Hh Hl]. apply wp_bind, wp_modify, wp_modify. cbn.
  split_and!; done.
Qed.

(** Over a whole life of the module -- load, any calm execution of calls and
    thread iterations, unload -- no memory leaks: the live objects are those
    from before the load. *)
Lemma load_run_unload_no_leak k r k1 tr w' :
  length (b_f (w_b (k_world k))) = 10%nat →
  elevator_init true (Task true) k = Done (r, k1) → trace (k_world k1) tr w' →
  wp elevator_exit (λ _ k', heap (k_world k') = heap (k_world k)) (set_world w' k1).
Proof using LL.
  intros Hlen Hinit T.
  destruct (load_succeeds k Hlen) as (k1' & E & R1 & _). rewrite Hinit in E.
  injection E as -> <-.
  destruct (trace_refines _ _ _ _ _ T R1 wf_init) as (a' & _ & R' & _).
  unfold elevator_exit. apply wp_bind, wp_modify, wp_bind, wp_modify, wp_bind.
  apply wp_in_world. eapply wp_mono.
  { eapply free_all. apply rep_lists_hold. exact R'. }
  cbn. intros _ w'' [Hh _]. by apply wp_bind, wp_modify, wp_modify.
Qed.

(** A load that fails (no proc entry, or no thread) returns the error but
    leaves the stub pointers set: as the kernel then discards the module,
    every later system call jumps into freed memory. *)
Lemma failed_load_dangles k created t :
  length (b_f (w_b (k_world k))) = 10%nat →
  created = false ∨ (created = true ∧ IS_ERR t = true) →
  wp (elevator_init created t) (λ r k',
    r = (if created then PTR_ERR t else - ENOMEM) ∧ k_entry k' = false ∧
    ∀ w, every_syscall false (k_stubs k') w (Fault UseAfterFree)) k.
Proof using LL.
  intros Hlen Hfail. unfold elevator_init. apply wp_bind.
  eapply wp_mono; [by apply init_tables_ok|]. intros _ k' (_ & Hst & _).
  destruct Hfail as [->|[-> Ht]]; cbn [negb].
  - apply wp_bind, wp_modify, wp_ret. cbn. rewrite Hst. split_and!; try done.
  - unfold initEThread.
    apply wp_bind, wp_modify, wp_bind, wp_bind, wp_modify, wp_modify, wp_bind, wp_gets.
    cbn. rewrite Ht. apply wp_bind, wp_modify, wp_ret. cbn. rewrite Hst. split_and!; try done.
Qed.

(** C26. All the ways a load can end.  When proc_create and kthread_run succeed it
    returns 0 and establishes the invariant of the other components: empty
    queues, an offline elevator on the lowest floor, the system calls linked,
    the mutex initialised, the proc entry present.  When one of them fails it
    returns -ENOMEM or the error of kthread_run, the entry is gone, but the
    stub pointers stay set: as the kernel then discards the module, every
    later system call jumps into freed memory. *)
Theorem elevator_init_spec k created t :
  length (b_f (w_b (k_world k))) = 10%nat →
  t = Task true ∨ IS_ERR t = true →
  wp (elevator_init created t) (λ r k',
    (created = true → IS_ERR t = false →
       r = 0 ∧ rep (heap (k_world k)) (k_world k') a_init ∧ wf a_init ∧
       k_stubs k' = link_syscalls (k_stubs k) ∧ k_mutex k' = MutexReady ∧
       k_entry k' = true ∧ k_thread k' = t) ∧
    (created = false ∨ IS_ERR t = true →
       r = (if created then PTR_ERR t else - ENOMEM) ∧ k_entry k' = false ∧
       ∀ w, every_syscall false (k_stubs k') w (Fault UseAfterFree))) k.
Proof.
  intros Hlen Ht. destruct (decide (created = false ∨ IS_ERR t = true)) as [Hf|Hf].
  - eapply wp_mono; [apply (failed_load_dangles k created t); [done|destruct created; naive_solver]|].
    intros r k' H. split; [|by intros _]. intros -> He. rewrite He in Hf. by destruct Hf.
  - destruct Ht as [-> | Ht]; [|tauto]. destruct created; [|tauto].
    eapply wp_mono; [by apply (elevator_init_ok k)|]. intros r k' H. by split.
Qed.

(** The system calls are linked before the mutex is initialised: a call that
    comes in between locks a raw mutex. *)
Theorem early_call_raw_mutex k :
  length (b_f (w_b (k_world k))) = 10%nat → k_mutex k = MutexRaw →
  wp init_tables (λ _ k', call_start true k' = Fault Uninitialised) k.
Proof using LL.
  intros Hlen Hm. eapply wp_mono; [by apply init_tables_ok|].
  intros _ k' (_ & Hst & Hm'). unfold call_start, lock_mutex, mbind, M_bind, gets; cbn.
  rewrite Hst. cbn. by rewrite Hm', Hm.
Qed.
End Properties.
