(* ===== verification/Concurrency.v ===== *)
(** * Concurrent execution (the mutex of elevator.c)

    The thread, any number of callers of the system calls and readers of
    /proc/elevator run concurrently and share the memory of the module;
    [e_tp.mutx] protects the elevator.  Every critical section of elevator.c has
    the same shape

      if (mutex_lock_interruptible(&e_tp.mutx) == 0)
          body;
      mutex_unlock(&e_tp.mutx);

    The model is a step relation over the tasks with one step per lock call,
    body, unlock call, and per piece of code outside the sections: the first
    part of [issue_request], the first part of [elevator_open], each call of
    [elevator_read], [elevator_release].

    What the surroundings may do is a parameter of the relation ([env]): whether
    lock calls can be interrupted, whether kmalloc can fail, whether several
    tasks may have the entry open at once.  With all three allowed it is the code
    as it is.  The theorems are about the steps in which memory is available and
    readers take turns ([orderly]); nothing in the module enforces either
    ([caller_without_memory], [reader_without_memory] and [readers_collide] in
    Interleavings.v show what happens otherwise).  Signals are allowed in the
    invariants: a task whose lock call was interrupted is [Interrupted], and has
    one thing to do, which is to unlock a mutex that it does not own.  The kernel
    gives that no meaning (it can release the lock another task holds), so it is
    a fault and nothing is claimed of what comes after it. *)

From S2P Require Import Decimal.
From S2P Require Import Prelude KList ProcEntry ElevatorData ElevatorOps ElevatorSpec.
From S2P Require Import ElevatorRefine RunElevator Liveness Stats Syscalls ProcFs.

(** ** Tasks *)

(** The critical sections. *)
Inductive section : Type :=
| SLoad                 (* runElevator, lines 49-97 *)
| SMove                 (* runElevator, lines 100-142 *)
| SIssue (l : loc)      (* issue_request, lines 175-177 *)
| SStart                (* start_elevator, lines 193-204 *)
| SStop                 (* stop_elevator, lines 221-228 *)
| SPrint.               (* elevator_open, lines 262-264 *)

(** What a section has computed: the value its caller returns, or the value of
    [printStats] with the text it has left in the buffer. *)
Inductive answer : Type := Code (r : Z) | Text (printed : Z) (t : string).

(** The value in an answer. *)
Definition ret_of (ans : answer) : Z := match ans with Code r => r | Text n _ => n end.

Inductive task : Type :=
| Calling (p_type s_floor d_floor : Z)   (* issue_request, before line 161 *)
| Opening                                (* elevator_open, before line 255 *)
| WantLock (c : section)                 (* at mutex_lock_interruptible *)
| Holding (c : section)                  (* the lock call returned 0 *)
| Leaving (c : section) (ans : answer)   (* at mutex_unlock, the body is done *)
| Interrupted (c : section)              (* at mutex_unlock, the lock call did not return 0 *)
| Opened                                 (* elevator_open, at line 267 *)
| Reading (seen : string)                (* the file is open, [seen] was read *)
| Closing (seen : string)                (* the end of the file was read *)
| Closed (seen : string)                 (* the file is closed *)
| Returned (ret : Z).

(** The calls of the module's functions, and the task a call starts. *)
Inductive call : Type := CIssue (p_type s_floor d_floor : Z) | CStart | CStop.

Definition enter (c : call) : task :=
  match c with
  | CIssue p s d => Calling p s d
  | CStart => WantLock SStart
  | CStop => WantLock SStop
  end.

(** The pointer of a call is not NULL. *)
Definition linked (c : call) (st : stubs) : bool :=
  match c with
  | CIssue _ _ _ => bool_decide (is_Some (STUB_issue_request st))
  | CStart => bool_decide (is_Some (STUB_start_elevator st))
  | CStop => bool_decide (is_Some (STUB_stop_elevator st))
  end.

Lemma linked_link c st : linked c (link_syscalls st) = true.
Proof. by destruct c. Qed.
Lemma linked_unlink c st : linked c (unlink_syscalls st) = false.
Proof. by destruct c. Qed.

(** Between a successful lock call and the unlock call. *)
Definition inside (t : task) : Prop :=
  match t with Holding _ | Leaving _ _ => True | _ => False end.

Definition ended (t : task) : Prop :=
  match t with Closed _ | Returned _ => True | _ => False end.

(** The new passenger a task is about to add. *)
Definition carries (t : task) : option loc :=
  match t with
  | WantLock (SIssue l) | Holding (SIssue l) | Interrupted (SIssue l) => Some l
  | _ => None
  end.

(** A task that has the file open. *)
Definition is_reader (t : task) : Prop :=
  match t with
  | WantLock SPrint | Holding SPrint | Leaving SPrint _ | Interrupted SPrint
  | Opened | Reading _ | Closing _ => True
  | _ => False
  end.

#[export] Instance is_reader_dec t : Decision (is_reader t).
Proof. destruct t as [| |[]|[]|[]|[]| | | | |]; apply _. Defined.

(** A task whose lock call was interrupted. *)
Definition is_interrupted (t : task) : Prop :=
  match t with Interrupted _ => True | _ => False end.

(** What a task does after its unlock call: the thread sleeps and goes on, or
    ends when kthread_should_stop says so; a system call returns; [elevator_open]
    tries again until something was printed. *)
Inductive after_unlock : section → answer → task → Prop :=
| after_load ans : after_unlock SLoad ans (WantLock SMove)
| after_move ans : after_unlock SMove ans (WantLock SLoad)
| after_stop ans : after_unlock SMove ans (Returned 0)
| after_issue l ans : after_unlock (SIssue l) ans (Returned (ret_of ans))
| after_start ans : after_unlock SStart ans (Returned (ret_of ans))
| after_stop_call ans : after_unlock SStop ans (Returned (ret_of ans))
| after_print_failed r : after_unlock SPrint (Code r) (WantLock SPrint)
| after_print_again n t : n = 0 → after_unlock SPrint (Text n t) (WantLock SPrint)
| after_print n t : n ≠ 0 → after_unlock SPrint (Text n t) Opened.

(** ** The surroundings *)

Record env := Env {
  signals : bool;        (* lock calls can be interrupted *)
  no_memory : bool;      (* kmalloc can return NULL *)
  many_readers : bool;   (* several tasks can have the entry open *)
}.

(** Memory is available and readers take turns; without signals too. *)
Definition orderly (sig : bool) : env := Env sig false false.
Notation undisturbed := (orderly false).

(** What a call of kmalloc can return, [m] being the live objects. *)
Definition kmalloc_gives {A} (en : env) (mem : option loc) (m : gmap loc A) : Prop :=
  match mem with Some l => m !! l = None | None => no_memory en = true end.

(** The linearised operations, with the value the section computes. *)
Inductive effect : Type := EAdd (x : pent) | ELoad | EMove | EStart | EStop | EPrint.

(** The floor records an abstract state stands for, and its report. *)
Definition a_floors (a : astate) : list floors :=
  imap (λ i s, floor_of i (row (waiting a) i) s) (served a).
Definition a_report (a : astate) : string := report (elevator_of a) (a_floors a).

Definition a_effect (f : effect) (a : astate) : answer * astate :=
  match f with
  | EAdd x => (Code 0, a_add x a)
  | ELoad => (Code 0, a_load_section a)
  | EMove => (Code 0, a_move_section a)
  | EStart => (Code (a_start a).1, (a_start a).2)
  | EStop => (Code (a_stop a).1, (a_stop a).2)
  | EPrint => (Text (Z.of_nat (String.length (a_report a))) (a_report a), a)
  end.

Fixpoint a_effects (fs : list effect) (a : astate) : list answer * astate :=
  match fs with
  | [] => ([], a)
  | f :: fs =>
      let '(r, a') := a_effect f a in
      let '(rs, a'') := a_effects fs a' in (r :: rs, a'')
  end.

Section Code.
Context {LA : ListApi node}.

Record system := System {
  s_entry : proc world;        (* the memory of the module *)
  s_owner : option nat;        (* the task that owns the mutex *)
  s_tasks : gmap nat task;
}.

(** The elevator's part of the memory. *)
Definition s_world (σ : system) : world := data (s_entry σ).

Definition set_task (i : nat) (t : task) (σ : system) : system :=
  System (s_entry σ) (s_owner σ) (<[i := t]> (s_tasks σ)).
Definition set_owner (o : option nat) (σ : system) : system :=
  System (s_entry σ) o (s_tasks σ).
Definition set_entry (s : proc world) (σ : system) : system :=
  System s (s_owner σ) (s_tasks σ).
Definition set_sworld (w : world) (σ : system) : system :=
  set_entry (set_data w (s_entry σ)) σ.

(** A section of the thread, and one of a system call. *)
Definition thread_code (m : M world unit) : M (proc world) answer :=
  on_data m ;; mret (Code 0).
Definition call_code (m : M world Z) : M (proc world) answer :=
  r ← on_data m; mret (Code r).

(** The body of a section; the lock call of a caller returned 0. *)
Definition body (c : section) : M (proc world) answer :=
  match c with
  | SLoad => thread_code load_section
  | SMove => thread_code move_section
  | SIssue l => call_code (addPass l ;; mret 0)
  | SStart => call_code start_section
  | SStop => call_code stop_section
  | SPrint => n ← on_message (printStats ENTRY_SIZE); t ← message_text; mret (Text n t)
  end.

(** What a section amounts to in memory [w]. *)
Definition effect_of (c : section) (w : world) : effect :=
  match c with
  | SLoad => ELoad
  | SMove => EMove
  | SIssue l => EAdd (l, default (Passenger 0 0 0) (heap w !! l))
  | SStart => EStart
  | SStop => EStop
  | SPrint => EPrint
  end.

(** A task may open the entry. *)
Definition may_open (en : env) (σ : system) : Prop :=
  many_readers en = true ∨ ∀ j t, s_tasks σ !! j = Some t → ¬ is_reader t.

(** One step in the surroundings [en].  The label is the operation performed,
    with what it has computed.  The unlock call of an interrupted task is no
    step: it is a fault, below. *)
Inductive step (en : env) : system → list (effect * answer) → system → Prop :=
| step_prepare σ i p s d mem o w' :
    s_tasks σ !! i = Some (Calling p s d) → kmalloc_gives en mem (heap (s_world σ)) →
    issue_prepare mem p s d (s_world σ) = Done (o, w') →
    step en σ [] (set_sworld w' (set_task i
      (match o with Some l => WantLock (SIssue l) | None => Returned 1 end) σ))
| step_open σ i mem junk u s' :
    s_tasks σ !! i = Some Opening → may_open en σ →
    kmalloc_gives en mem (buffers (s_entry σ)) →
    open_prepare mem junk (s_entry σ) = Done (u, s') →
    step en σ [] (set_entry s' (set_task i (WantLock SPrint) σ))
| step_lock σ i c :
    s_tasks σ !! i = Some (WantLock c) → s_owner σ = None →
    step en σ [] (set_owner (Some i) (set_task i (Holding c) σ))
| step_eintr σ i c :
    signals en = true → s_tasks σ !! i = Some (WantLock c) →
    step en σ [] (set_task i (Interrupted c) σ)
| step_body σ i c ans s' :
    s_tasks σ !! i = Some (Holding c) → body c (s_entry σ) = Done (ans, s') →
    step en σ [(effect_of c (s_world σ), ans)]
      (set_entry s' (set_task i (Leaving c ans) σ))
| step_unlock σ i c ans t :
    s_tasks σ !! i = Some (Leaving c ans) → s_owner σ = Some i → after_unlock c ans t →
    step en σ [] (set_owner None (set_task i t σ))
| step_opened σ i :
    s_tasks σ !! i = Some Opened →
    step en σ [] (set_task i
      (match message (s_entry σ) with None => Returned (- ENOMEM) | Some _ => Reading "" end) σ)
| step_read σ i seen size n t s' :
    s_tasks σ !! i = Some (Reading seen) →
    elevator_read size (s_entry σ) = Done ((n, t), s') →
    step en σ [] (set_entry s' (set_task i
      (if bool_decide (n = 0) then Closing seen else Reading (seen +:+ t)) σ))
| step_close σ i seen r s' :
    s_tasks σ !! i = Some (Closing seen) → elevator_release (s_entry σ) = Done (r, s') →
    step en σ [] (set_entry s' (set_task i (Closed seen) σ)).

Inductive steps (en : env) : system → list (effect * answer) → system → Prop :=
| steps_refl σ : steps en σ [] σ
| steps_snoc σ tr σ' l σ'' :
    steps en σ tr σ' → step en σ' l σ'' → steps en σ (tr ++ l) σ''.

(** The errors a task can run into with its next action. *)
Definition task_faults (en : env) (σ : system) (i : nat) (f : fault) : Prop :=
  match s_tasks σ !! i with
  | Some (Calling p s d) => ∃ mem, kmalloc_gives en mem (heap (s_world σ)) ∧
      issue_prepare mem p s d (s_world σ) = Fault f
  | Some Opening => ∃ mem junk, kmalloc_gives en mem (buffers (s_entry σ)) ∧
      open_prepare mem junk (s_entry σ) = Fault f
  | Some (Holding c) => body c (s_entry σ) = Fault f
  | Some (Leaving _ _) | Some (Interrupted _) => s_owner σ ≠ Some i ∧ f = BadUnlock
  | Some (Reading _) => ∃ size, elevator_read size (s_entry σ) = Fault f
  | Some (Closing _) => elevator_release (s_entry σ) = Fault f
  | _ => False
  end.

(** Nobody has started: the thread at its first lock call, callers and readers
    at the start of their calls. *)
Definition not_started (t : task) : Prop :=
  match t with
  | Calling _ _ _ | Opening | WantLock SLoad | WantLock SStart | WantLock SStop => True
  | _ => False
  end.

Lemma enter_not_started c : not_started (enter c).
Proof. by destruct c. Qed.

(** At most one task has the proc entry open. *)
Definition one_reader (σ : system) : Prop :=
  ∀ i j t t', s_tasks σ !! i = Some t → s_tasks σ !! j = Some t' →
    is_reader t → is_reader t' → i = j.

Definition fresh_system (σ : system) : Prop :=
  s_owner σ = None ∧ ∀ i t, s_tasks σ !! i = Some t → not_started t.
End Code.
