(* ===== verification/LockInvariant.v ===== *)
(** * The lock invariant

    What holds of the shared memory in every state (Concurrency.v) that orderly
    steps lead to, signals or not: it represents an abstract state, the owner of the mutex is
    the one task inside a critical section, and the objects that are on no list
    belong to the requests in flight.  Every kind of step preserves it. *)

From S2P Require Import Decimal.
From S2P Require Import Prelude KList ProcEntry ElevatorData ElevatorOps ElevatorSpec.
From S2P Require Import ElevatorRefine RunElevator Liveness Stats Syscalls ProcFs Concurrency.

(** ** The invariant *)

Section Invariant.
Context {LA : ListApi node} {LL : ListLaws LA}.
Implicit Types (w : world) (a : astate) (L : gmap loc passenger) (σ : system) (t : task).

(** [L0]: the objects off the lists that belong to none of the tasks. *)
Record inv (L0 : gmap loc passenger) σ L a : Prop := {
  inv_rep : rep L (s_world σ) a;
  inv_wf : wf a;
  inv_owner i : s_owner σ = Some i ↔ ∃ t, s_tasks σ !! i = Some t ∧ inside t;
  inv_carry i t l : s_tasks σ !! i = Some t → carries t = Some l →
    L0 !! l = None ∧ ∃ p, L !! l = Some p ∧ valid_pass p;
  inv_inj i j t t' l : s_tasks σ !! i = Some t → s_tasks σ !! j = Some t' →
    carries t = Some l → carries t' = Some l → i = j;
  inv_base : L0 ⊆ L;
  inv_off l p : L !! l = Some p →
    L0 !! l = Some p ∨ ∃ i t, s_tasks σ !! i = Some t ∧ carries t = Some l;
}.

Lemma inv_fresh σ L a :
  fresh_system σ → rep L (s_world σ) a → wf a → inv L σ L a.
Proof.
  intros (Ho & Ht) R W.
  assert (Hc : ∀ i t l, s_tasks σ !! i = Some t → carries t = Some l → False).
  { intros i t l Hi Hl. specialize (Ht i t Hi). by destruct t as [| |[]| | | | | | | |]. }
  split; [done|done| | | |done|by left].
  - intros i. rewrite Ho. split; [done|]. intros (t & Hi & Hin). specialize (Ht i t Hi).
    by destruct t.
  - intros i t l Hi Hl. by destruct (Hc i t l).
  - intros i j t t' l Hi _ Hl. by destruct (Hc i t l).
Qed.

(** With no request in flight the objects off the lists are those of before. *)
Lemma inv_nobody_carries L0 σ L a :
  inv L0 σ L a → (∀ i t, s_tasks σ !! i = Some t → carries t = None) → L = L0.
Proof.
  intros I Hnc. apply map_eq. intros l. destruct (L !! l) as [p|] eqn:El.
  - destruct (inv_off _ _ _ _ I l p El) as [?|(i & t & Ht & Hc)]; [done|].
    by rewrite (Hnc i t Ht) in Hc.
  - symmetry. eapply lookup_weaken_None; [exact El|apply (inv_base _ _ _ _ I)].
Qed.

(** Replacing the task [i]. *)
Lemma inv_set_task L0 σ L a i t t' :
  inv L0 σ L a → s_tasks σ !! i = Some t → carries t' = carries t → (inside t' ↔ inside t) →
  inv L0 (set_task i t' σ) L a.
Proof.
  intros [R W Ho Hc Hi Hb Hf] Ht Ec Ein.
  assert (Hback : ∀ j u, <[i := t']> (s_tasks σ) !! j = Some u →
    ∃ u0, s_tasks σ !! j = Some u0 ∧ carries u = carries u0 ∧ (inside u ↔ inside u0)).
  { intros j u. rewrite lookup_insert. case_decide; [|by eauto]. intros [= <-]. subst. eauto. }
  split; cbn [s_entry s_owner s_tasks set_task]; [done|done| | | |done|].
  - intros j. rewrite Ho. split.
    + intros (u & Hu & Hin). rewrite lookup_insert. case_decide; [|by eauto].
      subst j. exists t'. split; [done|]. apply Ein. rewrite Ht in Hu. by injection Hu as ->.
    + intros (u & (u0 & Hu0 & _ & E)%Hback & Hin). exists u0. by rewrite <- E.
  - intros j u l (u0 & Hu0 & E & _)%Hback Hl. eapply Hc; [done|]. congruence.
  - intros j k u u' l (u0 & Hu0 & E & _)%Hback (u1 & Hu1 & E' & _)%Hback Hl Hl'.
    apply (Hi j k u0 u1 l); congruence.
  - intros l p [?|(j & u & Hu & Hl)]%Hf; [by left|right]. destruct (decide (i = j)) as [<-|].
    + exists i, t'. rewrite lookup_insert_eq. split; [done|].
      rewrite Ht in Hu. injection Hu as <-. congruence.
    + exists j, u. by rewrite lookup_insert_ne.
Qed.

(** A new task that holds nothing. *)
Lemma inv_new L0 σ L a i t :
  inv L0 σ L a → s_tasks σ !! i = None → carries t = None → ¬ inside t →
  inv L0 (set_task i t σ) L a.
Proof.
  intros [R W Ho Hc Hi Hb Hf] Hn Ec Ein.
  assert (Hback : ∀ j u, <[i := t]> (s_tasks σ) !! j = Some u →
    s_tasks σ !! j = Some u ∨ carries u = None ∧ ¬ inside u).
  { intros j u. rewrite lookup_insert. case_decide; [intros [= <-]; auto|auto]. }
  assert (Hold : ∀ j u, s_tasks σ !! j = Some u → <[i := t]> (s_tasks σ) !! j = Some u).
  { intros j u Hu. rewrite lookup_insert_ne; congruence. }
  split; cbn [s_entry s_owner s_tasks set_task]; [done|done| | | |done|].
  - intros j. rewrite Ho. split; intros (u & Hu & Hin); [eauto|].
    apply Hback in Hu as [Hu|[_ Hu]]; [eauto|done].
  - intros j u l [Hu|[Hu _]]%Hback Hl; [eauto|congruence].
  - intros j k u u' l [Hu|[Hu _]]%Hback [Hu'|[Hu' _]]%Hback Hl Hl'; [eauto|congruence..].
  - intros l p [?|(j & u & Hu & Hl)]%Hf; [by left|right; eauto].
Qed.

Lemma inv_prepare L0 σ L a i p s d l o w' :
  inv L0 σ L a → s_tasks σ !! i = Some (Calling p s d) → heap (s_world σ) !! l = None →
  issue_prepare (Some l) p s d (s_world σ) = Done (o, w') →
  ∃ L', inv L0 (set_sworld w' (set_task i
    (match o with Some l => WantLock (SIssue l) | None => Returned 1 end) σ)) L' a.
Proof.
  intros I Ht Hl Hrun. pose proof (inv_rep _ _ _ _ I) as R. pose proof (inv_wf _ _ _ _ I) as W.
  destruct (decide (accepts a p s d)) as [Hacc|Hacc].
  2:{ rewrite (issue_prepare_rejects _ _ _ _ _ _ _ R Hacc) in Hrun. injection Hrun as <- <-.
      exists L. pose proof (inv_set_task _ _ _ _ i _ (Returned 1) I Ht eq_refl) as I'.
      by destruct (I' ltac:(done)). }
  pose proof (issue_prepare_ok L _ a l p s d R W Hl Hacc) as (o' & w0 & E & -> & R')%wp_done.
  rewrite Hrun in E. injection E as -> <-.
  assert (HL : L !! l = None).
  { destruct (L !! l) eqn:E'; [|done]. by rewrite (rep_extra_heap _ _ _ _ _ R E') in Hl. }
  exists (<[l := passenger_of p s d]> L).
  destruct I as [_ _ Ho Hc Hi Hb Hf].
  assert (HL0 : L0 !! l = None) by by eapply lookup_weaken_None.
  assert (Hne : ∀ j u, s_tasks σ !! j = Some u → carries u ≠ Some l).
  { intros j u Hu El. destruct (Hc j u l Hu El) as (_ & q & Hq & _). congruence. }
  split; cbn [s_entry s_owner s_tasks set_task set_sworld set_entry]; try done.
  - intros j. rewrite Ho. split; intros (u & Hu & Hin).
    + exists u. rewrite lookup_insert_ne; [done|]. intros ->. rewrite Ht in Hu. by injection Hu as <-.
    + rewrite lookup_insert in Hu. case_decide; [by injection Hu as <-|eauto].
  - intros j u l' Hu El. rewrite lookup_insert in Hu. case_decide.
    + injection Hu as <-. injection El as <-. split; [done|].
      exists (passenger_of p s d). rewrite lookup_insert_eq. split; [done|].
      by apply valid_request_pass, Hacc.
    + destruct (Hc j u l' Hu El) as (E0 & q & Hq & Hv). split; [done|]. exists q.
      by rewrite lookup_insert_ne by congruence.
  - intros j k u u' l' Hu Hu'. rewrite !lookup_insert in *.
    repeat case_decide; subst; simplify_eq; try done; intros El El'.
    + injection El' as <-. by destruct (Hne j u).
    + injection El as <-. by destruct (Hne k u').
    + by eapply Hi.
  - etrans; [exact Hb|]. by apply insert_subseteq.
  - intros l' q Hq. rewrite lookup_insert in Hq. case_decide; subst.
    + right. exists i, (WantLock (SIssue l')). by rewrite lookup_insert_eq.
    + destruct (Hf l' q Hq) as [?|(j & u & Hu & El)]; [by left|right]. exists j, u.
      split; [|done]. rewrite lookup_insert_ne; [done|]. intros ->.
      rewrite Ht in Hu. by injection Hu as <-.
Qed.

(** The object a section takes off the side memory. *)
Definition taken (c : section) L : gmap loc passenger :=
  match c with SIssue l => delete l L | _ => L end.

(** The entry's own variables are untouched. *)
Definition same_entry (s s' : proc world) : Prop :=
  message s' = message s ∧ read_p s' = read_p s ∧ buffers s' = buffers s.

(** [message] points to a live buffer that holds [t]. *)
Definition entry_shows (s : proc world) (t : string) : Prop :=
  ∃ l, message s = Some l ∧ buffers s !! l = Some t.

(** What a body does to the entry's variables. *)
Definition body_entry (c : section) (s : proc world) (ans : answer) (s' : proc world) : Prop :=
  match c with
  | SPrint => ∃ n (t : string), ans = Text n t ∧ n ≠ 0 ∧ entry_shows s' t ∧ read_p s' = read_p s
  | _ => same_entry s s'
  end.

Lemma rep_floors L w a : rep L w a → b_f (w_b w) = a_floors a.
Proof.
  intros R. apply list_eq. intros i. unfold a_floors. rewrite list_lookup_imap.
  destruct (served a !! i) as [s|] eqn:Hs; cbn; [by apply (rep_f _ _ _ R)|].
  apply lookup_ge_None. rewrite (rep_f_len _ _ _ R), <- (rep_served_len _ _ _ R).
  by apply lookup_ge_None.
Qed.

Lemma wp_thread_code (m : M world unit) s (Q : answer → proc world → Prop) :
  wp m (λ _ w, Q (Code 0) (set_data w s)) (data s) → wp (thread_code m) Q s.
Proof.
  intros H. apply wp_bind, wp_on_data. eapply wp_mono; [exact H|]. intros [] w HQ. exact HQ.
Qed.
Lemma wp_call_code (m : M world Z) s (Q : answer → proc world → Prop) :
  wp m (λ r w, Q (Code r) (set_data w s)) (data s) → wp (call_code m) Q s.
Proof.
  intros H. apply wp_bind, wp_on_data. eapply wp_mono; [exact H|]. intros r w HQ. exact HQ.
Qed.

Lemma body_refines L0 σ L a i c :
  inv L0 σ L a → s_tasks σ !! i = Some (Holding c) →
  (c = SPrint → ∃ txt, entry_shows (s_entry σ) txt) →
  wp (body c) (λ ans s', ∃ a', a_effect (effect_of c (s_world σ)) a = (ans, a') ∧
    wf a' ∧ rep (taken c L) (data s') a' ∧ body_entry c (s_entry σ) ans s') (s_entry σ).
Proof.
  intros I Ht Hpr. pose proof (inv_rep _ _ _ _ I) as R. pose proof (inv_wf _ _ _ _ I) as W.
  unfold s_world in *. destruct c as [| |l| | |]; cbn.
  - apply wp_thread_code. eapply wp_mono; [by apply load_section_refines|].
    cbn. intros ? w' R'. exists (a_load_section a). split_and!; auto with elev; done.
  - apply wp_thread_code. eapply wp_mono; [by apply move_section_refines|].
    cbn. intros ? w' R'. exists (a_move_section a). split_and!; auto with elev; done.
  - destruct (inv_carry _ _ _ _ I i _ l Ht eq_refl) as (_ & p & HL & Hv).
    rewrite (rep_extra_heap _ _ _ _ _ R HL). cbn.
    apply wp_call_code, wp_bind. eapply wp_mono; [by eapply addPass_refines|].
    cbn. intros ? w' R'. eexists. split_and!; [done|by apply wf_add|done..].
  - apply wp_call_code. eapply wp_mono; [by apply start_section_refines|]. cbn.
    intros r w' [-> R']. eexists. split_and!; [done|by apply wf_start|done..].
  - apply wp_call_code. eapply wp_mono; [by apply stop_section_refines|]. cbn.
    intros r w' [-> R']. eexists. split_and!; [done|by apply wf_stop|done..].
  - destruct (Hpr eq_refl) as (t0 & l & Hl & Hb).
    apply wp_bind. eapply wp_on_message; [done..|].
    eapply wp_mono; [by eapply (printStats_report L (data (s_entry σ)) a)|].
    intros n t (Et & -> & _ & Hn).
    assert (Er : t = a_report a).
    { rewrite Et, (rep_e _ _ _ R), (rep_floors L _ a R). done. }
    apply wp_bind. eapply wp_message_text; [exact Hl|apply lookup_insert_eq|].
    apply wp_ret. exists a. rewrite <- Er. split_and!; [done..|]. eexists _, t.
    split_and!; [done..| |done]. exists l. split; [done|apply lookup_insert_eq].
Qed.

Lemma inv_body L0 σ L a i c r s' :
  inv L0 σ L a → s_tasks σ !! i = Some (Holding c) →
  (c = SPrint → ∃ txt, entry_shows (s_entry σ) txt) → body c (s_entry σ) = Done (r, s') →
  ∃ a', a_effect (effect_of c (s_world σ)) a = (r, a') ∧ body_entry c (s_entry σ) r s' ∧
    inv L0 (set_entry s' (set_task i (Leaving c r) σ)) (taken c L) a'.
Proof.
  intros I Ht Hpr Hrun.
  pose proof (body_refines L0 σ L a i c I Ht Hpr)
    as (r' & w1 & E & a' & Ha & W' & R' & He)%wp_done.
  rewrite Hrun in E. injection E as <- <-. exists a'. split; [done|]. split; [done|].
  destruct I as [R W Ho Hc Hi Hb Hf].
  assert (Hback : ∀ j u, <[i := Leaving c r]> (s_tasks σ) !! j = Some u → ∀ l,
    carries u = Some l → j ≠ i ∧ s_tasks σ !! j = Some u).
  { intros j u Hu l Hl. rewrite lookup_insert in Hu. case_decide; [by injection Hu as <-|done]. }
  assert (Hoth : ∀ j u l, s_tasks σ !! j = Some u → carries u = Some l → j ≠ i →
    taken c L !! l = L !! l).
  { intros j u l Hu Hl Hne. destruct c as [| |l'| | |]; try done. cbn.
    rewrite lookup_delete_ne; [done|]. intros ->. apply Hne. by eapply (Hi j i). }
  split; cbn [s_entry s_owner s_tasks set_task set_entry]; try done.
  - intros j. rewrite Ho. split; intros (u & Hu & Hin).
    + rewrite lookup_insert. case_decide; [by eexists|eauto].
    + rewrite lookup_insert in Hu. case_decide; [|eauto]. subst j. by eexists.
  - intros j u l Hu Hl. destruct (Hback j u Hu l Hl) as [Hne Hj].
    rewrite (Hoth j u l) by done. by eapply Hc.
  - intros j k u u' l Hu Hu' Hl Hl'.
    destruct (Hback j u Hu l Hl) as [_ Hj], (Hback k u' Hu' l Hl') as [_ Hk]. by eapply Hi.
  - destruct c as [| |l'| | |]; try done. cbn. apply map_subseteq_spec. intros l p Hl.
    destruct (Hc i _ l' Ht eq_refl) as [Hn _]. rewrite lookup_delete_ne by congruence.
    by eapply lookup_weaken.
  - intros l p Hl.
    assert (Hold : L !! l = Some p).
    { destruct c as [| |l'| | |]; try done. cbn in Hl. by apply lookup_delete_Some in Hl as [_ ?]. }
    destruct (Hf l p Hold) as [?|(j & u & Hu & El)]; [by left|right].
    exists j, u. split; [|done]. rewrite lookup_insert_ne; [done|]. intros ->.
    rewrite Ht in Hu. injection Hu as <-. destruct c as [| |l'| | |]; try done.
    injection El as ->. cbn in Hl. by rewrite lookup_delete_eq in Hl.
Qed.

Lemma inv_lock L0 σ L a i c :
  inv L0 σ L a → s_tasks σ !! i = Some (WantLock c) → s_owner σ = None →
  inv L0 (set_owner (Some i) (set_task i (Holding c) σ)) L a.
Proof.
  intros I Ht Ho. assert (Hout : ∀ j u, s_tasks σ !! j = Some u → ¬ inside u).
  { intros j u Hu Hin. assert (s_owner σ = Some j) by (apply (inv_owner _ _ _ _ I); eauto).
    congruence. }
  destruct I as [R W _ Hc Hi Hb Hf].
  assert (Hback : ∀ j u, <[i := Holding c]> (s_tasks σ) !! j = Some u →
    ∃ u0, s_tasks σ !! j = Some u0 ∧ carries u = carries u0).
  { intros j u Hu. rewrite lookup_insert in Hu. case_decide; [|eauto]. subst.
    injection Hu as <-. eauto. }
  split; cbn [s_entry s_owner s_tasks set_task set_owner]; try done.
  - intros j. split.
    + intros [= ->]. exists (Holding c). by rewrite lookup_insert_eq.
    + intros (u & Hu & Hin). rewrite lookup_insert in Hu. case_decide; [by subst|].
      by destruct (Hout j u).
  - intros j u l (u0 & Hu0 & E)%Hback Hl. eapply Hc; [done|congruence].
  - intros j k u u' l (u0 & Hu0 & E)%Hback (u1 & Hu1 & E')%Hback Hl Hl'.
    apply (Hi j k u0 u1 l); congruence.
  - intros l p [?|(j & u & Hu & El)]%Hf; [by left|right]. destruct (decide (j = i)) as [->|].
    + exists i, (Holding c). rewrite lookup_insert_eq. split; [done|].
      rewrite Ht in Hu. by injection Hu as <-.
    + exists j, u. by rewrite lookup_insert_ne.
Qed.

Lemma inv_unlock L0 σ L a i c r t :
  inv L0 σ L a → s_tasks σ !! i = Some (Leaving c r) → after_unlock c r t →
  inv L0 (set_owner None (set_task i t σ)) L a.
Proof.
  intros I Ht Hau.
  assert (Hnc : carries t = None ∧ ¬ inside t) by (destruct Hau; cbn; tauto). destruct Hnc as [Hnc Hni].
  assert (Hown : s_owner σ = Some i) by (apply (inv_owner _ _ _ _ I); by eexists).
  destruct I as [R W Ho Hc Hi Hb Hf].
  assert (Hback : ∀ j u, <[i := t]> (s_tasks σ) !! j = Some u → ∀ l,
    carries u = Some l → s_tasks σ !! j = Some u).
  { intros j u Hu l Hl. rewrite lookup_insert in Hu. case_decide; [|done]. congruence. }
  split; cbn [s_entry s_owner s_tasks set_task set_owner]; try done.
  - intros j. split; [done|]. intros (u & Hu & Hin). rewrite lookup_insert in Hu.
    case_decide; [congruence|].
    assert (s_owner σ = Some j) by (apply Ho; eauto). congruence.
  - intros j u l Hu Hl. eapply Hc; [|done]. by eapply Hback.
  - intros j k u u' l Hu Hu' Hl Hl'. eapply (Hi j k); [by eapply Hback..|done|done].
  - intros l p [?|(j & u & Hu & El)]%Hf; [by left|right]. exists j, u.
    split; [|done]. rewrite lookup_insert_ne; [done|]. intros ->. rewrite Ht in Hu. by injection Hu as <-.
Qed.
End Invariant.
