(* ===== verification/Interleavings.v ===== *)
(** * Interleavings: the theorems about concurrent executions

    The lock invariant of LockInvariant.v is joined with an invariant of the
    reader of /proc/elevator, shown to be preserved by every orderly step (memory
    is available, readers take turns), and used for safety, linearisability and
    the reader's view; then what goes wrong: an interrupted lock call, failing
    allocations, two readers at once, a request that overtakes a stop. *)

From S2P Require Import Decimal.
From S2P Require Import Prelude KList ProcEntry ElevatorData ElevatorOps ElevatorSpec.
From S2P Require Import ElevatorRefine RunElevator Liveness Stats Syscalls ProcFs Concurrency LockInvariant.

(** ** The reader *)

Section Invariant.
Context {LA : ListApi node} {LL : ListLaws LA}.
Implicit Types (w : world) (a : astate) (L : gmap loc passenger) (σ : system) (t : task).

(** The text was printed by one of the operations [tr]. *)
Definition reported (tr : list (effect * answer)) (txt : string) : Prop :=
  ∃ n, (EPrint, Text n txt) ∈ tr.

(** What a task of the reader knows about the entry, after the operations
    [tr]. *)
Definition reader_ok (tr : list (effect * answer)) (s : proc world) (t : task) : Prop :=
  match t with
  | WantLock SPrint | Holding SPrint | Interrupted SPrint => read_p s ≠ 0 ∧ ∃ txt, entry_shows s txt
  | Leaving SPrint ans => ∃ n txt, ans = Text n txt ∧ n ≠ 0 ∧ read_p s ≠ 0 ∧
      entry_shows s txt ∧ reported tr txt
  | Opened => ∃ txt, entry_shows s txt ∧ reported tr txt ∧ read_p s ≠ 0
  | Reading seen => ∃ txt, entry_shows s txt ∧ reported tr txt ∧
      (read_p s ≠ 0 ∧ seen = "" ∨ read_p s = 0 ∧ seen = txt)
  | Closing seen => (∃ txt, entry_shows s txt) ∧ reported tr seen
  | Closed seen => reported tr seen
  | _ => True
  end.

Definition rinv (tr : list (effect * answer)) σ : Prop :=
  one_reader σ ∧ ∀ i t, s_tasks σ !! i = Some t → reader_ok tr (s_entry σ) t.

Lemma reported_app tr l txt : reported tr txt → reported (tr ++ l) txt.
Proof. intros [n Hn]. exists n. by apply elem_of_app; left. Qed.

Lemma entry_shows_same s s' txt : same_entry s s' → entry_shows s txt → entry_shows s' txt.
Proof. intros (E1 & _ & E3) (l & Hl & Hb). exists l. by rewrite E1, E3. Qed.

Lemma reader_ok_same tr l s s' t :
  same_entry s s' → reader_ok tr s t → reader_ok (tr ++ l) s' t.
Proof.
  intros Hsame. pose proof Hsame as (_ & E & _).
  pose proof (λ txt, entry_shows_same s s' txt Hsame). pose proof (reported_app tr l).
  destruct t as [| |[]|[]|[]|[]| | | | |]; cbn; rewrite ?E; naive_solver.
Qed.

Lemma reader_ok_other tr l s s' t : ¬ is_reader t → reader_ok tr s t → reader_ok (tr ++ l) s' t.
Proof.
  pose proof (reported_app tr l). destruct t as [| |[]|[]|[]|[]| | | | |]; cbn; auto; tauto.
Qed.

(** Task [i] changes to [t'] and the entry to [s']: either nothing of the entry
    changes, or task [i] is the reader. *)
Lemma rinv_update tr l σ i t t' s' :
  rinv tr σ → s_tasks σ !! i = Some t → (is_reader t' → is_reader t) →
  same_entry (s_entry σ) s' ∨ is_reader t → reader_ok (tr ++ l) s' t' →
  rinv (tr ++ l) (set_entry s' (set_task i t' σ)).
Proof.
  intros [H1 Hok] Ht Hrd Hs Ht'. split; cbn [s_entry s_tasks set_entry set_task].
  - intros j k u u'. cbn [s_tasks set_entry set_task]. rewrite !lookup_insert.
    repeat case_decide; subst; intros Hu Hu' Hr Hr'; simplify_eq; try done.
    + by eapply (H1 j k t u'); auto.
    + by eapply (H1 j k u t); auto.
    + by eapply H1.
  - intros j u. rewrite lookup_insert. case_decide; [by intros [= <-]|].
    intros Hu. destruct Hs as [Hs|Hs]; [eauto using reader_ok_same|].
    apply reader_ok_other with (s := s_entry σ); [|eauto].
    intros Hr. by destruct (H1 i j t u).
Qed.

(** Task [i] opens the file that nobody has open. *)
Lemma rinv_open tr σ i t' s' :
  rinv tr σ → (∀ j t, s_tasks σ !! j = Some t → ¬ is_reader t) → reader_ok tr s' t' →
  rinv tr (set_entry s' (set_task i t' σ)).
Proof.
  intros [_ Hok] Hno Ht'. split; cbn [s_entry s_tasks set_entry set_task].
  - intros j k u u'. cbn [s_tasks set_entry set_task]. rewrite !lookup_insert.
    repeat case_decide; subst; try done; intros Hu Hu' Hr Hr'.
    + by destruct (Hno k u').
    + by destruct (Hno j u).
    + by destruct (Hno j u).
  - intros j u. rewrite lookup_insert. case_decide; [by intros [= <-]|]. intros Hu.
    pose proof (reader_ok_other tr [] (s_entry σ) s' u (Hno j u Hu) (Hok j u Hu)) as G.
    by rewrite (right_id_L [] (++)) in G.
Qed.

Lemma same_entry_refl s : same_entry s s.
Proof. done. Qed.

(** The same for a step that leaves the entry alone. *)
Lemma rinv_task tr σ i t t' :
  rinv tr σ → s_tasks σ !! i = Some t → (is_reader t' → is_reader t) →
  reader_ok tr (s_entry σ) t' → rinv tr (set_task i t' σ).
Proof.
  intros H Ht Hrd Ht'.
  pose proof (rinv_update tr [] σ i t t' (s_entry σ) H Ht Hrd (or_introl (same_entry_refl _))) as G.
  rewrite (right_id_L [] (++)) in G. exact (G Ht').
Qed.

Lemma open_prepare_shows l junk s :
  open_prepare (Some l) junk s = Done (tt, Proc (data s) (Some l) 1 (<[l := junk]> (buffers s))).
Proof. done. Qed.

(** A call of [elevator_read] on an open file. *)
Lemma elevator_read_shows size s txt :
  entry_shows s txt → elevator_read size s =
    if bool_decide (read_p s = 0) then Done ((0, ""), set_read_p 1 s)
    else Done ((Z.of_nat (String.length txt), txt), set_read_p 0 s).
Proof.
  intros (l & Hl & Hb). unfold elevator_read, toggle_read_p, mbind, M_bind, modify, gets.
  cbn [read_p set_read_p]. destruct (bool_decide (read_p s = 0)).
  - by rewrite bool_decide_eq_true_2.
  - rewrite bool_decide_eq_false_2 by (intros H; done). unfold message_text; cbn. by rewrite Hl, Hb.
Qed.

Lemma elevator_release_shows s txt :
  entry_shows s txt → ∃ s', elevator_release s = Done (0, s') ∧ data s' = data s.
Proof.
  intros (l & Hl & Hb). eexists. unfold elevator_release, mbind, M_bind, kfree_message.
  by rewrite Hl, Hb.
Qed.

Lemma reading_step tr s seen size n txt s' :
  reader_ok tr s (Reading seen) → elevator_read size s = Done ((n, txt), s') →
  data s' = data s ∧
  reader_ok tr s' (if bool_decide (n = 0) then Closing seen else Reading (seen +:+ txt)).
Proof.
  intros (t0 & Hsh & Hrep & Hrp) E. rewrite (elevator_read_shows size s t0 Hsh) in E.
  pose proof Hsh as (l & Hl & Hb).
  assert (Hsh' : ∀ v, entry_shows (set_read_p v s) t0) by (intros v; by exists l).
  case_bool_decide as Hz; injection E as <- <- <-; (split; [done|]).
  - rewrite bool_decide_eq_true_2 by done. destruct Hrp as [[? _]|[_ ->]]; [done|]. split; eauto.
  - destruct Hrp as [[_ ->]|[? _]]; [|done]. cbn.
    case_bool_decide as Hlen; [|exists t0; split_and!; auto].
    assert (t0 = "") as -> by (destruct t0; [done|cbn [String.length] in Hlen; lia]).
    split; [by exists ""|done].
Qed.

(** A step of a task that the elevator's memory does not see. *)
Lemma inv_set_entry L0 σ L a s' :
  inv L0 σ L a → data s' = s_world σ → inv L0 (set_entry s' σ) L a.
Proof.
  intros [R W Ho Hc Hi Hb Hf] E.
  split; cbn [s_entry s_owner s_tasks set_entry] in *; try done.
  unfold s_world; cbn. by rewrite E.
Qed.

(** ** Every orderly step *)

Definition sys_inv L0 tr σ L a : Prop := inv L0 σ L a ∧ rinv tr σ.

Lemma sys_prepare L0 tr σ L a i p s d l o w' :
  sys_inv L0 tr σ L a → s_tasks σ !! i = Some (Calling p s d) →
  heap (s_world σ) !! l = None → issue_prepare (Some l) p s d (s_world σ) = Done (o, w') →
  ∃ L', sys_inv L0 tr (set_sworld w' (set_task i
    (match o with Some l => WantLock (SIssue l) | None => Returned 1 end) σ)) L' a.
Proof.
  intros [I RI] Ht Hl Hrun. destruct (inv_prepare L0 σ L a i p s d l o w') as [L' I']; [done..|].
  exists L'. split; [done|].
  pose proof (rinv_update tr [] σ i _ (match o with Some l => WantLock (SIssue l)
    | None => Returned 1 end) (set_data w' (s_entry σ)) RI Ht) as G.
  rewrite (right_id_L [] (++)) in G. apply G; [by destruct o|by left|by destruct o].
Qed.

Lemma sys_open L0 tr σ L a i l junk u s' :
  sys_inv L0 tr σ L a → s_tasks σ !! i = Some Opening →
  (∀ j t, s_tasks σ !! j = Some t → ¬ is_reader t) →
  open_prepare (Some l) junk (s_entry σ) = Done (u, s') →
  sys_inv L0 tr (set_entry s' (set_task i (WantLock SPrint) σ)) L a.
Proof.
  intros [I RI] Ht Hno Hrun. rewrite open_prepare_shows in Hrun. injection Hrun as _ <-. split.
  - apply inv_set_entry; [|done]. by eapply inv_set_task.
  - apply rinv_open; [done..|]. split; [done|].
    exists junk, l. split; [done|apply lookup_insert_eq].
Qed.

Lemma sys_eintr L0 tr σ L a i c :
  sys_inv L0 tr σ L a → s_tasks σ !! i = Some (WantLock c) →
  sys_inv L0 tr (set_task i (Interrupted c) σ) L a.
Proof.
  intros [I RI] Ht. split; [by eapply inv_set_task|].
  pose proof (proj2 RI i _ Ht) as Hok. eapply rinv_task; [done..| |]; by destruct c.
Qed.

Lemma sys_opened L0 tr σ L a i :
  sys_inv L0 tr σ L a → s_tasks σ !! i = Some Opened →
  sys_inv L0 tr (set_task i
    (match message (s_entry σ) with None => Returned (- ENOMEM) | Some _ => Reading "" end) σ) L a.
Proof.
  intros [I RI] Ht. pose proof (proj2 RI i _ Ht) as (txt & Hsh & Hrep & Hrp).
  pose proof Hsh as (l & Hl & _). rewrite Hl. split; [by eapply inv_set_task|].
  eapply rinv_task; [done..|]. exists txt. auto.
Qed.

Lemma sys_lock L0 tr σ L a i c :
  sys_inv L0 tr σ L a → s_tasks σ !! i = Some (WantLock c) → s_owner σ = None →
  sys_inv L0 tr (set_owner (Some i) (set_task i (Holding c) σ)) L a.
Proof.
  intros [I RI] Ht Ho. split; [by apply inv_lock|].
  assert (G : rinv tr (set_task i (Holding c) σ)); [|exact G].
  eapply rinv_task; [done..| |].
  - by destruct c.
  - pose proof (proj2 RI i _ Ht) as Hok. by destruct c.
Qed.

Lemma printing tr σ i c :
  rinv tr σ → s_tasks σ !! i = Some (Holding c) → c = SPrint → ∃ txt, entry_shows (s_entry σ) txt.
Proof. intros RI Ht ->. apply (proj2 RI i _ Ht). Qed.

Lemma sys_body L0 tr σ L a i c ans s' :
  sys_inv L0 tr σ L a → s_tasks σ !! i = Some (Holding c) → body c (s_entry σ) = Done (ans, s') →
  ∃ L' a', a_effect (effect_of c (s_world σ)) a = (ans, a') ∧
    sys_inv L0 (tr ++ [(effect_of c (s_world σ), ans)])
      (set_entry s' (set_task i (Leaving c ans) σ)) L' a'.
Proof.
  intros [I RI] Ht Hrun.
  destruct (inv_body L0 σ L a i c ans s') as (a' & E & Hent & I'); [done..|by eapply printing|done|].
  exists (taken c L), a'. split; [done|]. split; [done|].
  eapply rinv_update; [done..| | |].
  - by destruct c.
  - destruct c; cbn in Hent; try (by left). by right.
  - destruct c; try done. cbn in Hent. destruct Hent as (n & txt & -> & Hn & Hsh & Hrp).
    exists n, txt. split_and!; [done..| |done|].
    + rewrite Hrp. apply (proj2 RI i _ Ht).
    + exists n. apply elem_of_app. right. by left.
Qed.

Lemma sys_unlock L0 tr σ L a i c ans t :
  sys_inv L0 tr σ L a → s_tasks σ !! i = Some (Leaving c ans) → after_unlock c ans t →
  sys_inv L0 tr (set_owner None (set_task i t σ)) L a.
Proof.
  intros [I RI] Ht Hau. split; [by eapply inv_unlock|].
  pose proof (proj2 RI i _ Ht) as Hok.
  assert (G : rinv tr (set_task i t σ)); [|exact G].
  eapply rinv_task; [done..| |]; destruct Hau; cbn in *; try done; naive_solver.
Qed.

Lemma sys_read L0 tr σ L a i seen size n txt s' :
  sys_inv L0 tr σ L a → s_tasks σ !! i = Some (Reading seen) →
  elevator_read size (s_entry σ) = Done ((n, txt), s') →
  sys_inv L0 tr (set_entry s' (set_task i
    (if bool_decide (n = 0) then Closing seen else Reading (seen +:+ txt)) σ)) L a.
Proof.
  intros [I RI] Ht Hrun. pose proof (proj2 RI i _ Ht) as Hok.
  destruct (reading_step tr _ seen size n txt s' Hok Hrun) as [Hd Hok']. split.
  - apply inv_set_entry; [|exact Hd]. by eapply inv_set_task; [..|case_bool_decide|case_bool_decide].
  - pose proof (rinv_update tr [] σ i _ (if bool_decide (n = 0) then Closing seen
      else Reading (seen +:+ txt)) s' RI Ht) as G.
    rewrite (right_id_L [] (++)) in G. apply G; [done|by right|done].
Qed.

Lemma sys_close L0 tr σ L a i seen r s' :
  sys_inv L0 tr σ L a → s_tasks σ !! i = Some (Closing seen) →
  elevator_release (s_entry σ) = Done (r, s') →
  sys_inv L0 tr (set_entry s' (set_task i (Closed seen) σ)) L a.
Proof.
  intros [I RI] Ht Hrun. pose proof (proj2 RI i _ Ht) as [[txt Hsh] Hrep].
  destruct (elevator_release_shows _ _ Hsh) as (s1 & E & Hd).
  rewrite Hrun in E. injection E as _ ->. split.
  - apply inv_set_entry; [|exact Hd]. by eapply inv_set_task.
  - pose proof (rinv_update tr [] σ i _ (Closed seen) s1 RI Ht) as G.
    rewrite (right_id_L [] (++)) in G. apply G; [done|by right|done].
Qed.

Lemma sys_step sig L0 tr σ L a l σ' :
  sys_inv L0 tr σ L a → step (orderly sig) σ l σ' →
  ∃ L' a', sys_inv L0 (tr ++ l) σ' L' a' ∧ a_effects l.*1 a = (l.*2, a').
Proof.
  intros I Hs.
  destruct Hs as [σ i p s d mem o w' Ht Hmem|σ i mem junk u s' Ht Hmay Hmem| | | | | | |];
    rewrite ?(right_id_L [] (++)).
  - destruct mem as [l|]; [|done]. edestruct sys_prepare as [L' I']; [done..|]. by exists L', a.
  - destruct mem as [l|]; [|done]. destruct Hmay as [?|Hmay]; [done|].
    exists L, a. split; [by eapply sys_open|done].
  - exists L, a. split; [by apply sys_lock|done].
  - exists L, a. split; [by apply sys_eintr|done].
  - edestruct sys_body as (L' & a' & E & I'); [done..|]. exists L', a'.
    split; [done|]. cbn. by rewrite E.
  - exists L, a. split; [by eapply sys_unlock|done].
  - exists L, a. split; [by apply sys_opened|done].
  - exists L, a. split; [by eapply sys_read|done].
  - exists L, a. split; [by eapply sys_close|done].
Qed.

Lemma a_effects_app fs1 fs2 a rs1 a1 rs2 a2 :
  a_effects fs1 a = (rs1, a1) → a_effects fs2 a1 = (rs2, a2) →
  a_effects (fs1 ++ fs2) a = (rs1 ++ rs2, a2).
Proof.
  revert a rs1. induction fs1 as [|f fs1 IH]; intros a rs1; cbn.
  - by intros [= <- <-].
  - destruct (a_effect f a) as [r a']. destruct (a_effects fs1 a') as [rs' a''] eqn:E.
    intros [= <- <-] H2. by rewrite (IH a' rs' E H2).
Qed.

Lemma fresh_not_interrupted σ :
  fresh_system σ → ∀ i t, s_tasks σ !! i = Some t → ¬ is_interrupted t.
Proof. intros [_ Hns] i t Ht%Hns. by destruct t; try destruct c; intros []. Qed.

Lemma sys_fresh σ L a :
  fresh_system σ → rep L (s_world σ) a → wf a → sys_inv L [] σ L a.
Proof.
  intros F R W. split; [by apply inv_fresh|]. destruct F as (_ & Hns). split.
  - intros i j t t' Ht%Hns. by destruct t as [| |[]| | | | | | | |].
  - intros i t Ht%Hns. by destruct t as [| |[]| | | | | | | |].
Qed.

(** Tasks can be added at any time. *)
Lemma sys_new L0 tr σ L a i t :
  sys_inv L0 tr σ L a → s_tasks σ !! i = None → not_started t →
  sys_inv L0 tr (set_task i t σ) L a.
Proof.
  intros [I [H1 Hok]] Hn Ht.
  assert (Ht' : carries t = None ∧ ¬ inside t ∧ ¬ is_reader t ∧ reader_ok tr (s_entry σ) t)
    by (by destruct t as [| |[]| | | | | | | |]; cbn; auto).
  destruct Ht' as (Hc & Hin & Hr & Hrok). split; [by apply inv_new|]. split; cbn [s_tasks set_task s_entry].
  - intros j k u u'. cbn [s_tasks set_task]. rewrite !lookup_insert. repeat case_decide; subst;
      intros Hu Hu' ? ?; simplify_eq; try done. by eapply H1.
  - intros j u. rewrite lookup_insert. case_decide; [by intros [= <-]|apply Hok].
Qed.

(** A step changes one task, which had not ended. *)
Lemma step_task en σ l σ' :
  step en σ l σ' →
  ∃ i t t', s_tasks σ !! i = Some t ∧ ¬ ended t ∧ s_tasks σ' = <[i := t']> (s_tasks σ).
Proof.
  intros Hs. destruct Hs as [σ i p s d mem o w' Ht|σ i mem junk u s' Ht|σ i c Ht|σ i c Hsig Ht
    |σ i c ans s' Ht|σ i c ans t Ht|σ i Ht|σ i seen size n txt s' Ht|σ i seen r s' Ht];
    (do 3 eexists; split_and!; [exact Ht|exact id|reflexivity]).
Qed.

Lemma sys_steps sig σ L a tr σ' :
  fresh_system σ → rep L (s_world σ) a → wf a → steps (orderly sig) σ tr σ' →
  ∃ L' a', sys_inv L tr σ' L' a' ∧ a_effects tr.*1 a = (tr.*2, a').
Proof.
  intros F R W Hs. pose proof (sys_fresh σ L a F R W) as I.
  induction Hs as [σ|σ tr σ1 l σ2 _ IH Hstep]; [by exists L, a|].
  destruct (IH F R I) as (L1 & a1 & I1 & E1).
  destruct (sys_step _ _ _ _ _ _ _ _ I1 Hstep) as (L2 & a2 & I2 & E2).
  exists L2, a2. split; [done|]. rewrite !fmap_app. by eapply a_effects_app.
Qed.

(** The next action of an interrupted task is a fault. *)
Lemma interrupted_faults en L0 tr σ L a i c :
  sys_inv L0 tr σ L a → s_tasks σ !! i = Some (Interrupted c) → task_faults en σ i BadUnlock.
Proof.
  intros [I _] Ht. unfold task_faults. rewrite Ht. split; [|done]. intros Ho.
  apply (inv_owner _ _ _ _ I) in Ho as (t & Ht' & Hin). rewrite Ht in Ht'. by injection Ht' as <-.
Qed.

(** No other task is about to fault. *)
Lemma sys_no_fault sig L0 tr σ L a i f :
  sys_inv L0 tr σ L a → task_faults (orderly sig) σ i f →
  f = BadUnlock ∧ ∃ c, s_tasks σ !! i = Some (Interrupted c).
Proof.
  intros [I RI] Hf. unfold task_faults in Hf.
  destruct (s_tasks σ !! i) as [[p s d| |c|c|c r|c| |seen|seen|seen|r]|] eqn:Ht; try done.
  - exfalso. destruct Hf as ([l|] & Hl & Hf); [|done]. pose proof (inv_rep _ _ _ _ I) as R.
    destruct (decide (accepts a p s d)) as [Hacc|Hacc].
    + pose proof (issue_prepare_ok L _ a l p s d R (inv_wf _ _ _ _ I) Hl Hacc) as H.
      unfold wp in H. by rewrite Hf in H.
    + by rewrite (issue_prepare_rejects _ _ _ _ _ _ _ R Hacc) in Hf.
  - by destruct Hf as ([l|] & junk & Hmem & Hf).
  - pose proof (body_refines _ _ _ _ _ _ I Ht (printing tr σ i c RI Ht)) as H.
    unfold wp in H. by rewrite Hf in H.
  - destruct Hf as [Hf _]. exfalso. apply Hf, (inv_owner _ _ _ _ I). by eexists.
  - destruct Hf as [_ ->]. eauto.
  - destruct Hf as (size & Hf). destruct (proj2 RI i _ Ht) as (txt & Hsh & _).
    rewrite (elevator_read_shows size _ txt Hsh) in Hf. by case_bool_decide.
  - destruct (proj2 RI i _ Ht) as [[txt Hsh] _].
    destruct (elevator_release_shows _ _ Hsh) as (s' & E & _). by rewrite E in Hf.
Qed.

(** Without signals no lock call is interrupted. *)
Lemma steps_not_interrupted en σ tr σ' :
  signals en = false → steps en σ tr σ' → (∀ i t, s_tasks σ !! i = Some t → ¬ is_interrupted t) →
  ∀ i t, s_tasks σ' !! i = Some t → ¬ is_interrupted t.
Proof.
  intros Hsig Hs H0. induction Hs as [σ|σ tr σ1 l σ2 _ IH Hstep]; [done|]. specialize (IH H0).
  assert (H : ∀ i t', ¬ is_interrupted t' →
    ∀ j t, <[i := t']> (s_tasks σ1) !! j = Some t → ¬ is_interrupted t).
  { intros i t' Ht' j t. rewrite lookup_insert. case_decide; [by intros [= <-]|apply IH]. }
  destruct Hstep as [σ1 i p s d mem [l'|] w'| |σ1 i c|σ1 i c Hsig'| |σ1 i c ans t' Ht Ho Hau
    |σ1 i Ht|σ1 i seen size n txt s'|]; try (apply H; tauto); try congruence.
  - apply H. destruct Hau; tauto.
  - apply H. case_match; tauto.
  - apply H. case_bool_decide; tauto.
Qed.

(** Whoever holds the mutex can move. *)
Lemma holder_moves en L0 tr σ L a i t :
  sys_inv L0 tr σ L a → s_tasks σ !! i = Some t → inside t → ∃ l σ', step en σ l σ'.
Proof.
  intros [I RI] Ht Hin.
  assert (s_owner σ = Some i) by (apply (inv_owner _ _ _ _ I); eauto).
  destruct t as [| | |c|c ans| | | | | |]; try done.
  - pose proof (body_refines _ _ _ _ _ _ I Ht (printing tr σ i c RI Ht)) as (r & s' & E & _)%wp_done.
    eexists _, _. by eapply step_body.
  - assert (∃ t', after_unlock c ans t') as [t' Ht'].
    { pose proof (proj2 RI i _ Ht) as Hok. destruct c; try (eexists; constructor; done).
      destruct Hok as (n & txt & -> & Hn & _). eexists. by apply after_print. }
    eexists _, _. by eapply step_unlock.
Qed.

(** Every task that has not ended and was not interrupted can move, or another
    one can in its place; only a task that waits for another reader has to be left
    out. *)
Lemma running_moves en L0 tr σ L a i t :
  sys_inv L0 tr σ L a → s_tasks σ !! i = Some t → ¬ ended t → ¬ is_interrupted t →
  t ≠ Opening → ∃ l σ', step en σ l σ'.
Proof.
  intros [I RI] Ht Hne Hni Hnop. pose proof (inv_rep _ _ _ _ I) as R. pose proof (inv_wf _ _ _ _ I) as W.
  pose proof (proj2 RI i _ Ht) as Hok. pose proof (conj I RI : sys_inv L0 tr σ L a) as SI.
  destruct t as [p s d| |c|c|c ans|c| |seen|seen|seen|r];
    try (by eapply holder_moves); try (by destruct Hne); try (by destruct Hni); try done.
  - set (l := fresh (dom (heap (s_world σ)))).
    assert (Hl : heap (s_world σ) !! l = None) by apply not_elem_of_dom, is_fresh.
    assert (∃ o w', issue_prepare (Some l) p s d (s_world σ) = Done (o, w')) as (o & w' & E).
    { destruct (decide (accepts a p s d)) as [Hacc|Hacc].
      - pose proof (issue_prepare_ok L _ a l p s d R W Hl Hacc) as (o & w' & E & _)%wp_done. eauto.
      - rewrite (issue_prepare_rejects _ _ _ _ _ _ _ R Hacc). eauto. }
    eexists _, _. by eapply (step_prepare _ _ _ _ _ _ (Some l)).
  - destruct (s_owner σ) as [j|] eqn:Ho.
    + apply (inv_owner _ _ _ _ I) in Ho as (u & Hu & Hu'). by eapply holder_moves.
    + eexists _, _. by eapply step_lock.
  - eexists _, _. by eapply step_opened.
  - destruct Hok as (txt & Hsh & _). pose proof (elevator_read_shows 0 _ txt Hsh) as E.
    case_bool_decide; eexists _, _; by eapply step_read.
  - destruct Hok as [[txt Hsh] _]. destruct (elevator_release_shows _ _ Hsh) as (s' & E & _).
    eexists _, _. by eapply step_close.
Qed.

Lemma sys_progress en L0 tr σ L a i t :
  sys_inv L0 tr σ L a → (∀ j u, s_tasks σ !! j = Some u → ¬ is_interrupted u) →
  s_tasks σ !! i = Some t → ¬ ended t → ∃ l σ', step en σ l σ'.
Proof.
  intros SI Hni Ht Hne. destruct t; try (by eapply running_moves; eauto).
  destruct (decide (map_Forall (λ _ t, ¬ is_reader t) (s_tasks σ))) as [Hno|Hno].
  - set (l := fresh (dom (buffers (s_entry σ)))).
    assert (Hl : buffers (s_entry σ) !! l = None) by apply not_elem_of_dom, is_fresh.
    eexists _, _. eapply (step_open _ _ _ (Some l) ""); [done|by right|done..].
  - apply map_not_Forall in Hno as (j & u & Hu & Hr); [|apply _].
    apply dec_stable in Hr. eapply running_moves; [done..| | |];
      [|by apply (Hni j)|]; by destruct u.
Qed.

(** Where an operation of the trace was performed. *)
Lemma a_effects_at tr f ans a a' :
  a_effects tr.*1 a = (tr.*2, a') → (f, ans) ∈ tr →
  ∃ tr1 tr2, tr = tr1 ++ (f, ans) :: tr2 ∧ ans = (a_effect f (a_effects tr1.*1 a).2).1.
Proof.
  revert a. induction tr as [|[g r] tr IH]; intros a E Hin; [by apply elem_of_nil in Hin|].
  cbn in E. destruct (a_effect g a) as [r0 a1] eqn:E1.
  destruct (a_effects tr.*1 a1) as [rs a2] eqn:E2. injection E as -> -> ->.
  apply elem_of_cons in Hin as [[= -> ->]|Hin].
  - exists [], tr. split; [done|]. cbn. by rewrite E1.
  - destruct (IH a1) as (tr1 & tr2 & -> & Hans); [done|done|].
    exists ((g, r) :: tr1), tr2. split; [done|]. rewrite Hans. cbn. rewrite E1.
    by destruct (a_effects tr1.*1 a1).
Qed.
End Invariant.

(** ** A reader on its own *)

Section Alone.
Context {LA : ListApi node} {LL : ListLaws LA}.

(** One task runs [cat /proc/elevator] from beginning to end. *)
Lemma reader_path L s a l :
  rep L (data s) a → wf a → buffers s !! l = None →
  ∃ n s', steps undisturbed (System s None {[1%nat := Opening]}) [(EPrint, Text n (a_report a))]
    (System s' None {[1%nat := Closed (a_report a)]}).
Proof.
  intros R W Hl. pose (σ (s : proc world) o t := System s o {[1%nat := t]}).
  pose (s1 := Proc (data s) (Some l) 1 (<[l := ""]> (buffers s))).
  assert (HI : inv L (σ s1 (Some 1%nat) (Holding SPrint)) L a).
  { apply (inv_set_entry _ (σ s (Some 1%nat) (Holding SPrint))); [|done].
    apply (inv_lock _ (σ s None (WantLock SPrint)) _ _ 1); [|done..].
    eapply (inv_set_task _ (σ s None Opening) _ _ 1 Opening); [|done..].
    apply inv_fresh; [|done..]. split; [done|].
    intros i t. cbn [s_tasks σ]. by intros [_ <-]%lookup_singleton_Some. }
  pose proof (body_refines L _ L a 1 SPrint HI eq_refl) as Hb.
  apply wp_done in Hb as (ans & s2 & Eb & a' & Ea & _ & _ & n & t & -> & Hn & Hsh & Hrp).
  2:{ intros _. exists "", l. split; [done|apply lookup_insert_eq]. }
  cbn [a_effect effect_of] in Ea. remember (a_report a) as rp eqn:Erp. injection Ea as En Et _. subst t.
  pose proof (elevator_read_shows 4096 s2 _ Hsh) as Er1. rewrite Hrp in Er1.
  rewrite bool_decide_eq_false_2 in Er1 by done.
  assert (Hsh2 : entry_shows (set_read_p 0 s2) rp) by exact Hsh.
  pose proof (elevator_read_shows 4096 _ _ Hsh2) as Er2. cbn [read_p set_read_p] in Er2.
  rewrite bool_decide_eq_true_2 in Er2 by done.
  assert (Hsh3 : entry_shows (set_read_p 1 (set_read_p 0 s2)) rp) by exact Hsh.
  destruct (elevator_release_shows _ _ Hsh3) as (s5 & Ec & _).
  exists n, s5.
  assert (Hno : ∀ j t, s_tasks (σ s None Opening) !! j = Some t → ¬ is_reader t).
  { intros j t. cbn [s_tasks σ]. intros [_ <-]%lookup_singleton_Some. exact id. }
  pose proof (step_open undisturbed (σ s None Opening) 1 (Some l) "" tt s1 eq_refl (or_intror Hno)
    Hl eq_refl) as H1.
  pose proof (step_lock undisturbed (σ s1 None (WantLock SPrint)) 1 SPrint eq_refl eq_refl) as H2.
  pose proof (step_body undisturbed (σ s1 (Some 1%nat) (Holding SPrint)) 1 SPrint _ _ eq_refl Eb) as H3.
  pose proof (step_unlock undisturbed (σ s2 (Some 1%nat) (Leaving SPrint (Text n rp))) 1 SPrint
    _ _ eq_refl eq_refl (after_print _ _ Hn)) as H4.
  assert (Hm : message s2 ≠ None) by (destruct Hsh as (? & -> & _); done).
  pose proof (step_opened undisturbed (σ s2 None Opened) 1 eq_refl) as H4'.
  replace (match message (s_entry (σ s2 None Opened)) with None => Returned (- ENOMEM)
    | Some _ => Reading "" end) with (Reading "") in H4' by (cbn; by destruct (message s2)).
  pose proof (step_read undisturbed (σ s2 None (Reading "")) 1 _ _ _ _ _ eq_refl Er1) as H5.
  rewrite En, bool_decide_eq_false_2 in H5 by done.
  pose proof (step_read undisturbed (σ (set_read_p 0 s2) None (Reading rp)) 1 _ _ _ _ _
    eq_refl Er2) as H6.
  pose proof (step_close undisturbed (σ _ None (Closing rp)) 1 _ _ _ eq_refl Ec) as H7.
  unfold σ, set_entry, set_task, set_owner in *; cbn [s_entry s_owner s_tasks] in *.
  rewrite !insert_singleton_eq in *.
  eapply (steps_snoc _ _ [_] _ [] _ _ H7). Unshelve.
  eapply (steps_snoc _ _ [_] _ [] _ _ H6). Unshelve.
  eapply (steps_snoc _ _ [_] _ [] _ _ H5). Unshelve.
  eapply (steps_snoc _ _ [_] _ [] _ _ H4'). Unshelve.
  eapply (steps_snoc _ _ [_] _ [] _ _ H4). Unshelve.
  eapply (steps_snoc _ _ [] _ [_] _ _ H3). Unshelve.
  eapply (steps_snoc _ _ [] _ [] _ _ H2). Unshelve.
  eapply (steps_snoc _ _ [] _ [] _ _ H1). Unshelve. constructor.
Qed.
End Alone.

(** ** A race of two callers *)

Section Race.
Context {LA : ListApi node}.
Implicit Types (w : world).

(** Tasks 1 and 2. *)
Definition two_tasks (t1 t2 : task) : gmap nat task := {[1%nat := t1; 2%nat := t2]}.

(** Task 1 calls [issue_request] and passes its tests, task 2 stops the
    elevator, task 1 takes the lock. *)
Lemma overtaking_path s l p fl d w1 w2 w3 :
  heap (data s) !! l = None → issue_prepare (Some l) p fl d (data s) = Done (Some l, w1) →
  stop_section w1 = Done (0, w2) → addPass l w2 = Done (tt, w3) →
  steps undisturbed (System s None (two_tasks (Calling p fl d) (WantLock SStop)))
    [(EStop, Code 0); (effect_of (SIssue l) w2, Code 0)]
    (System (set_data w3 s) None (two_tasks (Returned 0) (Returned 0))).
Proof.
  intros Hl E1 E2 E3. pose (at_ w := set_data w s).
  assert (Hs : body SStop (at_ w1) = Done (Code 0, at_ w2)).
  { cbn [body]. unfold call_code, on_data, mbind, M_bind; cbn. by rewrite E2. }
  assert (Hb : body (SIssue l) (at_ w2) = Done (Code 0, at_ w3)).
  { cbn [body]. unfold call_code, on_data. unfold mbind, M_bind; cbn. by rewrite E3. }
  pose (σ t1 t2 w o := System (at_ w) o (two_tasks t1 t2)). pose (c := SIssue l).
  pose proof (step_prepare undisturbed (System s None (two_tasks (Calling p fl d) (WantLock SStop))) 1
    p fl d (Some l) (Some l) w1 eq_refl Hl E1) as H1.
  pose proof (step_lock undisturbed (σ (WantLock c) (WantLock SStop) w1 None) 2 SStop
    eq_refl eq_refl) as H2.
  pose proof (step_body undisturbed (σ (WantLock c) (Holding SStop) w1 (Some 2%nat)) 2 SStop (Code 0)
    (at_ w2) eq_refl Hs) as H3.
  pose proof (step_unlock undisturbed (σ (WantLock c) (Leaving SStop (Code 0)) w2 (Some 2%nat)) 2 SStop
    (Code 0) _ eq_refl eq_refl (after_stop_call (Code 0))) as H4.
  pose proof (step_lock undisturbed (σ (WantLock c) (Returned 0) w2 None) 1 c eq_refl eq_refl) as H5.
  pose proof (step_body undisturbed (σ (Holding c) (Returned 0) w2 (Some 1%nat)) 1 c (Code 0) (at_ w3)
    eq_refl Hb) as H6.
  pose proof (step_unlock undisturbed (σ (Leaving c (Code 0)) (Returned 0) w3 (Some 1%nat)) 1 c (Code 0) _
    eq_refl eq_refl (after_issue l (Code 0))) as H7.
  eapply (steps_snoc _ _ [_; _] _ [] _ _ H7). Unshelve.
  eapply (steps_snoc _ _ [_] _ [_] _ _ H6). Unshelve.
  eapply (steps_snoc _ _ [_] _ [] _ _ H5). Unshelve.
  eapply (steps_snoc _ _ [_] _ [] _ _ H4). Unshelve.
  eapply (steps_snoc _ _ [] _ [_] _ _ H3). Unshelve.
  eapply (steps_snoc _ _ [] _ [] _ _ H2). Unshelve.
  eapply (steps_snoc _ _ [] _ [] _ _ H1). Unshelve. constructor.
Qed.
End Race.

(** ** Disorderly surroundings

    Neither condition of [orderly] can be left out. *)

Section Disorder.
Context {LA : ListApi node} {LL : ListLaws LA}.

(** Without memory a valid request writes through NULL, and so does the first
    report of an open. *)
Lemma caller_without_memory sig rd (s : proc world) L a o i p fl d :
  rep L (data s) a → valid_request p fl d → a_shutdown a = 0 →
  task_faults (Env sig true rd) (System s o {[i := Calling p fl d]}) i NullDeref.
Proof.
  intros R Hv Hsh. unfold task_faults; cbn [s_tasks]. rewrite lookup_singleton_eq.
  exists None. split; [done|]. pose proof (issue_request_no_memory L (data s) a 0 p fl d R Hv Hsh) as H.
  unfold issue_request, mbind, M_bind in H. unfold s_world; cbn [s_entry].
  destruct (issue_prepare None p fl d (data s)) as [[[l|] w']| |] eqn:E; [|done|by injection H as ->|done].
  exfalso. unfold issue_prepare, gets, mbind, M_bind in E. clear H.
  repeat (case_match; try done).
Qed.

Lemma reader_without_memory sig rd (s : proc world) :
  ∃ tr σ', steps (Env sig true rd) (System s None {[1%nat := Opening]}) tr σ' ∧
    task_faults (Env sig true rd) σ' 1 NullDeref.
Proof.
  set (en := Env sig true rd). set (s1 := Proc (data s) None 1 (buffers s)).
  assert (Hno : ∀ j t, s_tasks (System s None {[1%nat := Opening]}) !! j = Some t → ¬ is_reader t).
  { intros j t. cbn [s_tasks]. intros [_ <-]%lookup_singleton_Some. exact id. }
  pose proof (step_open en (System s None {[1%nat := Opening]}) 1 None "" tt s1 eq_refl
    (or_intror Hno) eq_refl eq_refl) as H1.
  pose proof (step_lock en (System s1 None {[1%nat := WantLock SPrint]}) 1 SPrint eq_refl eq_refl) as H2.
  exists [], (System s1 (Some 1%nat) {[1%nat := Holding SPrint]}). split; [|done].
  eapply (steps_snoc _ _ [] _ [] _ _ H2). Unshelve.
  eapply (steps_snoc _ _ [] _ [] _ _ H1). Unshelve. constructor.
Qed.

(** Two readers at once share [message]: when the first has closed the entry the
    second prints into the buffer that was freed. *)
Lemma readers_collide (s : proc world) L a l1 l2 :
  rep L (data s) a → wf a → l1 ≠ l2 → buffers s !! l1 = None → buffers s !! l2 = None →
  let en := Env false false true in
  ∃ tr σ', steps en (System s None (two_tasks Opening Opening)) tr σ' ∧
    task_faults en σ' 2 UseAfterFree.
Proof.
  intros R W Hne Hl1 Hl2 en. pose (σ (s : proc world) o t1 t2 := System s o (two_tasks t1 t2)).
  pose (s1 := Proc (data s) (Some l1) 1 (<[l1 := ""]> (buffers s))).
  pose (s2 := Proc (data s) (Some l2) 1 (<[l2 := ""]> (<[l1 := ""]> (buffers s)))).
  pose (τ (s : proc world) o t := System s o {[1%nat := t]}).
  assert (HI : inv L (τ s2 (Some 1%nat) (Holding SPrint)) L a).
  { apply (inv_set_entry _ (τ s (Some 1%nat) (Holding SPrint))); [|done].
    apply (inv_lock _ (τ s None (WantLock SPrint)) _ _ 1); [|done..].
    eapply (inv_set_task _ (τ s None Opening) _ _ 1 Opening); [|done..].
    apply inv_fresh; [|done..]. split; [done|].
    intros i t. cbn [s_tasks τ]. by intros [_ <-]%lookup_singleton_Some. }
  pose proof (body_refines L _ L a 1 SPrint HI eq_refl) as Hb.
  apply wp_done in Hb as (ans & s3 & Eb & a' & Ea & _ & _ & n & t & -> & Hn & Hsh & Hrp).
  2:{ intros _. exists "", l2. split; [done|apply lookup_insert_eq]. }
  cbn [a_effect effect_of] in Ea. remember (a_report a) as rp eqn:Erp. injection Ea as En Et _. subst t.
  pose proof (elevator_read_shows 4096 s3 _ Hsh) as Er1. rewrite Hrp in Er1.
  rewrite bool_decide_eq_false_2 in Er1 by done.
  assert (Hsh2 : entry_shows (set_read_p 0 s3) rp) by exact Hsh.
  pose proof (elevator_read_shows 4096 _ _ Hsh2) as Er2. cbn [read_p set_read_p] in Er2.
  rewrite bool_decide_eq_true_2 in Er2 by done.
  destruct Hsh as (l & Hml & Hbl).
  set (s5 := set_buffers (delete l (buffers s3)) (set_read_p 1 (set_read_p 0 s3))).
  assert (Ec : elevator_release (set_read_p 1 (set_read_p 0 s3)) = Done (0, s5)).
  { unfold elevator_release, mbind, M_bind, kfree_message.
    cbn [message set_read_p buffers]. by rewrite Hml, Hbl. }
  pose proof (step_open en (σ s None Opening Opening) 1 (Some l1) "" tt s1 eq_refl
    (or_introl eq_refl) Hl1 eq_refl) as H1.
  assert (Hl2' : buffers s1 !! l2 = None) by (cbn; by rewrite lookup_insert_ne).
  pose proof (step_open en (σ s1 None (WantLock SPrint) Opening) 2 (Some l2) "" tt s2 eq_refl
    (or_introl eq_refl) Hl2' eq_refl) as H2.
  pose proof (step_lock en (σ s2 None (WantLock SPrint) (WantLock SPrint)) 1 SPrint eq_refl eq_refl) as H3.
  pose proof (step_body en (σ s2 (Some 1%nat) (Holding SPrint) (WantLock SPrint)) 1 SPrint _ _ eq_refl Eb) as H4.
  pose proof (step_unlock en (σ s3 (Some 1%nat) (Leaving SPrint (Text n rp)) (WantLock SPrint)) 1 SPrint
    _ _ eq_refl eq_refl (after_print _ _ Hn)) as H5.
  pose proof (step_opened en (σ s3 None Opened (WantLock SPrint)) 1 eq_refl) as H6.
  cbn [s_entry σ] in H6. rewrite Hml in H6.
  pose proof (step_read en (σ s3 None (Reading "") (WantLock SPrint)) 1 _ _ _ _ _ eq_refl Er1) as H7.
  rewrite En, bool_decide_eq_false_2 in H7 by done.
  pose proof (step_read en (σ (set_read_p 0 s3) None (Reading rp) (WantLock SPrint)) 1 _ _ _ _ _
    eq_refl Er2) as H8.
  pose proof (step_close en (σ _ None (Closing rp) (WantLock SPrint)) 1 _ _ _ eq_refl Ec) as H9.
  pose proof (step_lock en (σ s5 None (Closed rp) (WantLock SPrint)) 2 SPrint eq_refl eq_refl) as H10.
  exists [(EPrint, Text n rp)], (σ s5 (Some 2%nat) (Closed rp) (Holding SPrint)). split.
  - eapply (steps_snoc _ _ [_] _ [] _ _ H10). Unshelve.
    eapply (steps_snoc _ _ [_] _ [] _ _ H9). Unshelve.
    eapply (steps_snoc _ _ [_] _ [] _ _ H8). Unshelve.
    eapply (steps_snoc _ _ [_] _ [] _ _ H7). Unshelve.
    eapply (steps_snoc _ _ [_] _ [] _ _ H6). Unshelve.
    eapply (steps_snoc _ _ [_] _ [] _ _ H5). Unshelve.
    eapply (steps_snoc _ _ [] _ [_] _ _ H4). Unshelve.
    eapply (steps_snoc _ _ [] _ [] _ _ H3). Unshelve.
    eapply (steps_snoc _ _ [] _ [] _ _ H2). Unshelve.
    eapply (steps_snoc _ _ [] _ [] _ _ H1). Unshelve. constructor.
  - assert (Hm5 : message s5 = Some l) by exact Hml.
    assert (Hb5 : buffers s5 !! l = None) by apply lookup_delete_eq.
    unfold task_faults. cbn [s_tasks σ s_entry].
    change (two_tasks (Closed rp) (Holding SPrint) !! 2%nat) with (Some (Holding SPrint)).
    cbn [body]. unfold mbind, M_bind, on_message. by rewrite Hm5, Hb5.
Qed.
End Disorder.

(** ** Properties *)

Section Properties.
Context {LA : ListApi node} {LL : ListLaws LA}.
Implicit Types (w : world) (a : astate) (L : gmap loc passenger) (σ : system) (t : task).

(** C16. With memory available and readers taking turns, the mutex excludes: at
    most one task is between its successful lock call and its unlock call.  The
    only fault a task can run into is the unlock call after an interrupted lock
    call, of which there is none without signals; and as long as no lock call was
    interrupted, some step is possible while some task has not ended. *)
Theorem concurrent_safety sig σ L a tr σ' :
  fresh_system σ → rep L (s_world σ) a → wf a → steps (orderly sig) σ tr σ' →
  (∀ i j t t', s_tasks σ' !! i = Some t → s_tasks σ' !! j = Some t' →
     inside t → inside t' → i = j) ∧
  (∀ i f, task_faults (orderly sig) σ' i f ↔
     f = BadUnlock ∧ ∃ c, s_tasks σ' !! i = Some (Interrupted c)) ∧
  (sig = false → ∀ i f, ¬ task_faults (orderly sig) σ' i f) ∧
  ((∀ i t, s_tasks σ' !! i = Some t → ¬ is_interrupted t) →
     ∀ i t, s_tasks σ' !! i = Some t → ¬ ended t → ∃ l σ'', step (orderly sig) σ' l σ'').
Proof.
  intros F R W Hs. destruct (sys_steps sig σ L a tr σ' F R W Hs) as (L' & a' & I & _).
  split_and!.
  - intros i j t t' Hi Hj Ht Ht'. destruct I as [I _].
    assert (s_owner σ' = Some i) by (apply (inv_owner _ _ _ _ I); eauto).
    assert (s_owner σ' = Some j) by (apply (inv_owner _ _ _ _ I); eauto). congruence.
  - intros i f. split; [by eapply sys_no_fault|]. intros (-> & c & Hc).
    by eapply interrupted_faults.
  - intros -> i f Hf. eapply sys_no_fault in Hf as (_ & c & Hc); [|done].
    by eapply (steps_not_interrupted undisturbed _ _ _ eq_refl Hs (fresh_not_interrupted _ F)).
  - intros Hni i t. by eapply sys_progress.
Qed.

(** C2. Every interleaving is linearisable, with interrupted lock calls too, up to
    the first unlock call of an interrupted task: the values computed and the
    final memory are those of the abstract operations performed one after the
    other in the order of the critical sections; once no request is in flight,
    no object is off the lists that was not before.  (Memory is available and
    readers take turns.) *)
Theorem concurrent_linearisable sig σ L a tr σ' :
  fresh_system σ → rep L (s_world σ) a → wf a → steps (orderly sig) σ tr σ' →
  ∃ L' a', a_effects tr.*1 a = (tr.*2, a') ∧ rep L' (s_world σ') a' ∧ wf a' ∧
    ((∀ i t, s_tasks σ' !! i = Some t → carries t = None) → L' = L).
Proof.
  intros F R W Hs. destruct (sys_steps sig σ L a tr σ' F R W Hs) as (L' & a' & [I _] & E).
  exists L', a'. split_and!; [done|apply I|apply I|].
  by eapply inv_nobody_carries.
Qed.

(** C17. What a reader of /proc/elevator gets while the thread and the callers run is
    the complete report of one state the elevator was in: the one after the
    operations [tr1] that came before its own critical section.  This holds as
    long as no interrupted task has unlocked the mutex, with memory available
    and readers taking turns. *)
Theorem concurrent_reader sig σ L a tr σ' i seen :
  fresh_system σ → rep L (s_world σ) a → wf a → steps (orderly sig) σ tr σ' →
  s_tasks σ' !! i = Some (Closed seen) →
  ∃ tr1 n tr2, tr = tr1 ++ (EPrint, Text n seen) :: tr2 ∧
    seen = a_report (a_effects tr1.*1 a).2 ∧ n = Z.of_nat (String.length seen).
Proof.
  intros F R W Hs Hi. destruct (sys_steps sig σ L a tr σ' F R W Hs) as (L' & a' & [_ RI] & E).
  destruct (proj2 RI i _ Hi) as [n Hn].
  destruct (a_effects_at tr EPrint (Text n seen) a a' E Hn) as (tr1 & tr2 & Htr & Hans).
  cbn in Hans. injection Hans as Hlen Hseen. exists tr1, n, tr2. split_and!; [done|done|].
  by rewrite Hlen, Hseen.
Qed.

(** C39. A signal breaks this: whenever a task waits for the mutex, its lock call
    can be interrupted, and it then unlocks a mutex that it does not own. *)
Theorem interrupted_unlocks_foreign_mutex σ L a tr σ1 i c :
  fresh_system σ → rep L (s_world σ) a → wf a → steps (orderly true) σ tr σ1 →
  s_tasks σ1 !! i = Some (WantLock c) →
  ∃ σ2, step (orderly true) σ1 [] σ2 ∧ task_faults (orderly true) σ2 i BadUnlock.
Proof.
  intros F R W Hs Hi. destruct (sys_steps true σ L a tr σ1 F R W Hs) as (L' & a' & I & _).
  eexists. split; [by eapply step_eintr|].
  eapply interrupted_faults; [by apply sys_eintr|]. apply lookup_insert_eq.
Qed.

(** C40. [issue_request] tests for a pending stop before it takes the lock: a
    request can pass the test, [stop_elevator] can then run and return 0, and
    the passenger is still added to a queue afterwards. *)
Theorem stop_overtaken_by_request (s : proc world) L a l p fl d :
  rep L (data s) a → wf a → a_shutdown a = 0 → heap (data s) !! l = None → valid_request p fl d →
  ∃ σ', steps undisturbed (System s None {[1%nat := Calling p fl d; 2%nat := WantLock SStop]})
      [(EStop, Code 0); (EAdd (l, passenger_of p fl d), Code 0)] σ' ∧
    s_tasks σ' = {[1%nat := Returned 0; 2%nat := Returned 0]} ∧
    ∃ L' a', rep L' (s_world σ') a' ∧ a_shutdown a' = 1 ∧
      last (row (waiting a') (floor_ix (fl - 1))) = Some (l, passenger_of p fl d).
Proof.
  intros R W Hsh Hl Hv. set (w := data s) in *.
  pose proof (issue_prepare_ok L w a l p fl d R W Hl ltac:(done)) as (o & w1 & E1 & -> & R1)%wp_done.
  pose proof (stop_section_refines _ w1 a R1) as (r & w2 & E2 & Hr & R2)%wp_done.
  unfold a_stop in *. rewrite Hsh in *.
  rewrite bool_decide_eq_false_2 in * by (intros H; done). cbn [fst snd] in *. subst r.
  assert (HL : L !! l = None).
  { destruct (L !! l) eqn:E; [|done]. by rewrite (rep_extra_heap _ _ _ _ _ R E) in Hl. }
  pose proof (addPass_refines _ w2 _ l (passenger_of p fl d) R2 (lookup_insert_eq _ _ _)
    (valid_request_pass _ _ _ Hv)) as ([] & w3 & E3 & R3)%wp_done.
  assert (Heq : effect_of (SIssue l) w2 = EAdd (l, passenger_of p fl d)).
  { cbn. by rewrite (rep_extra_heap _ _ _ _ _ R2 (lookup_insert_eq _ _ _)). }
  exists (System (set_data w3 s) None (two_tasks (Returned 0) (Returned 0))). split_and!; [|done|].
  - rewrite <- Heq. by eapply overtaking_path.
  - eexists _, _. split_and!; [exact R3|done|]. cbn.
    pose proof (valid_request_pass _ _ _ Hv) as (_ & Hf%floor_ix_lt & _).
    rewrite row_insert, decide_True; [by rewrite last_snoc|done|].
    cbn in Hf. by rewrite (wf_waiting_len _ W).
Qed.
End Properties.
