(* ===== verification/Executions.v ===== *)
(** * Whole executions

    What holds after any interleaving of the thread, the callers and the readers
    (Concurrency.v), with interrupted lock calls too, up to the first unlock call
    of an interrupted task: nobody disappears from the books
    ([passengers_conserved]), nobody overtakes in a queue ([queues_keep_order]),
    and every variable of the module holds a value of its type, with the counters
    agreeing with each other ([variables_typed]).  Each is an invariant of the
    operations performed so far and of the abstract state they lead to, shown once
    for every operation. *)

From S2P Require Import Prelude KList ProcEntry ElevatorData ElevatorOps ElevatorSpec.
From S2P Require Import ElevatorRefine RunElevator Liveness Stats Syscalls ProcFs.
From S2P Require Import Concurrency LockInvariant Interleavings.

(** ** Those who joined a queue *)

(** The passenger an operation adds to a queue. *)
Definition joined (x : effect * answer) : option pent :=
  match x.1 with EAdd y => Some y | _ => None end.

(** Those who joined the queue of floor [i], in order. *)
Definition arrivals (i : nat) (tr : list (effect * answer)) : list pent :=
  filter (λ x, floor_ix (s_floor x.2) = i) (omap joined tr).

Lemma arrivals_app i tr1 tr2 : arrivals i (tr1 ++ tr2) = arrivals i tr1 ++ arrivals i tr2.
Proof. unfold arrivals. by rewrite omap_app, filter_app. Qed.

Lemma arrivals_one i f ans :
  arrivals i [(f, ans)] = match f with
    | EAdd y => if decide (floor_ix (s_floor y.2) = i) then [y] else []
    | _ => [] end.
Proof. unfold arrivals. by destruct f; cbn; rewrite ?filter_cons; repeat case_decide. Qed.

(** ** From one operation to all of them *)

(** A passenger that joins a queue is valid. *)
Definition valid_effect (f : effect) : Prop :=
  match f with EAdd y => valid_pass y.2 | _ => True end.

Section Executions.
Context {LA : ListApi node} {LL : ListLaws LA}.
Implicit Types (w : world) (a : astate) (L : gmap loc passenger) (σ : system).

(** A step performs no operation or that of a section. *)
Lemma step_label en σ l σ' :
  step en σ l σ' → l = [] ∨ ∃ i c ans, s_tasks σ !! i = Some (Holding c) ∧
    l = [(effect_of c (s_world σ), ans)].
Proof. intros []; eauto 10. Qed.

Lemma effect_valid L0 σ L a i c :
  inv L0 σ L a → s_tasks σ !! i = Some (Holding c) → valid_effect (effect_of c (s_world σ)).
Proof.
  intros I Ht. destruct c as [| |l| | |]; try done. cbn.
  destruct (inv_carry _ _ _ _ I i _ l Ht eq_refl) as (_ & p & HL & Hv).
  by rewrite (rep_extra_heap _ _ _ _ _ (inv_rep _ _ _ _ I) HL).
Qed.

(** An invariant [I] of the operations so far and the abstract state. *)
Lemma steps_ind_abs (I : list (effect * answer) → astate → Prop) sig σ L a tr σ' :
  (∀ tr f ans a a', wf a → valid_effect f → a_effect f a = (ans, a') → I tr a →
     I (tr ++ [(f, ans)]) a') →
  fresh_system σ → rep L (s_world σ) a → wf a → I [] a → steps (orderly sig) σ tr σ' →
  ∃ L' a', sys_inv L tr σ' L' a' ∧ I tr a'.
Proof.
  intros Hstep F R W H0 Hs. pose proof (sys_fresh σ L a F R W) as S0.
  induction Hs as [σ|σ tr σ1 l σ2 _ IH Hst]; [by exists L, a|].
  destruct (IH F R S0) as (L1 & a1 & S1 & H1).
  destruct (sys_step _ _ _ _ _ _ _ _ S1 Hst) as (L2 & a2 & S2 & E2).
  exists L2, a2. split; [done|].
  destruct (step_label _ _ _ _ Hst) as [->|(i & c & ans & Ht & ->)].
  - cbn in E2. injection E2 as <-. by rewrite (right_id_L [] (++)).
  - cbn in E2. destruct (a_effect _ a1) as [r a'] eqn:E. injection E2 as -> ->.
    destruct S1 as [I1 _]. eapply Hstep; [apply I1|by eapply effect_valid|done..].
Qed.

(** The objects off the lists are those of the beginning, or valid passengers on
    their way. *)
Lemma extra_valid L0 tr σ L a l p :
  sys_inv L0 tr σ L a → L !! l = Some p → L0 !! l = Some p ∨ valid_pass p.
Proof.
  intros [I _] Hl. destruct (inv_off _ _ _ _ I l p Hl) as [?|(i & t & Ht & Hc)]; [by left|right].
  destruct (inv_carry _ _ _ _ I i t l Ht Hc) as (_ & q & Hq & Hv). congruence.
Qed.
End Executions.

(** ** Nobody is lost from the books *)

Section Books.
Implicit Types (a : astate) (x : pent).

Lemma account_start i a : account i (a_start a).2 = account i a.
Proof. unfold a_start. by case_bool_decide. Qed.
Lemma account_stop i a : account i (a_stop a).2 = account i a.
Proof. unfold a_stop. by case_bool_decide. Qed.

Lemma account_add i x a :
  (floor_ix (s_floor x.2) < length (waiting a))%nat →
  account i (a_add x a) =
    wrap32 (account i a + (if bool_decide (floor_ix (s_floor x.2) = i) then 1 else 0)).
Proof.
  intros Hl. unfold account, starters, a_add; cbn [waiting onboard served with_waiting].
  rewrite (zsum_concat_insert _ (waiting a) _ (row (waiting a) (floor_ix (s_floor x.2))))
    by by apply row_lookup.
  rewrite zsum_snoc, wrap32_add_l. f_equal. lia.
Qed.

Lemma account_wraps i a : wrap32 (account i a) = account i a.
Proof. apply wrap32_idemp. Qed.

Lemma account_effect i f a ans a' :
  wf a → valid_effect f → a_effect f a = (ans, a') →
  account i a' = wrap32 (account i a + Z.of_nat (length (arrivals i [(f, ans)]))).
Proof.
  intros W Hv E. rewrite arrivals_one.
  destruct f as [y| | | | |]; cbn in E; injection E as _ <-; cbn [length];
    rewrite ?Z.add_0_r, ?account_wraps.
  - destruct Hv as (_ & Hs%floor_ix_lt & _).
    rewrite account_add by (rewrite (wf_waiting_len _ W); lia).
    by repeat (case_bool_decide || case_decide).
  - by apply account_load_section.
  - by rewrite account_move_section.
  - apply account_start.
  - apply account_stop.
  - done.
Qed.
End Books.

(** ** Nobody overtakes *)

Section Order.
Implicit Types (a : astate) (x : pent) (q : list pent).

(** [q'] is what is left of the queue [q] after some left at its head. *)
Definition left_of (q' q : list pent) : Prop := ∃ gone, q = gone ++ q'.

Lemma left_of_refl q : left_of q q.
Proof. by exists []. Qed.
Lemma left_of_trans q1 q2 q3 : left_of q1 q2 → left_of q2 q3 → left_of q1 q3.
Proof. intros [g1 ->] [g2 ->]. exists (g2 ++ g1). by rewrite (assoc_L (++)). Qed.

Lemma left_of_load c q a i :
  (c < length (waiting a))%nat → row (waiting a) c = q →
  left_of (row (waiting (a_load c q a)) i) (row (waiting a) i).
Proof.
  revert a. induction q as [|y q IH]; intros a Hc E; cbn [a_load]; [apply left_of_refl|].
  destruct (boards y a); [|apply left_of_refl].
  eapply left_of_trans; [apply IH; cbn; [by rewrite length_insert|by rewrite row_insert, decide_True]|].
  cbn. rewrite row_insert by done. case_decide; subst; [|apply left_of_refl].
  rewrite E. by exists [y].
Qed.

Lemma left_of_load_section a i :
  wf a → left_of (row (waiting (a_load_section a)) i) (row (waiting a) i).
Proof.
  intros W. unfold a_load_section. case_bool_decide; [apply left_of_refl|].
  case_match; [apply left_of_refl|]. cbv zeta.
  set (a2 := a_unload _ _ _).
  assert (E : waiting a2 = waiting a) by apply (waiting_unload _ _ (with_status LOADING a)).
  case_match; rewrite <- E; [|apply left_of_refl].
  apply left_of_load; [|done]. rewrite E, (wf_waiting_len _ W). auto with elev.
Qed.

Lemma left_of_effect i f a ans a' :
  wf a → valid_effect f → a_effect f a = (ans, a') →
  left_of (row (waiting a') i) (row (waiting a) i ++ arrivals i [(f, ans)]).
Proof.
  intros W Hv E. rewrite arrivals_one.
  destruct f as [y| | | | |]; cbn in E; injection E as _ <-; rewrite ?(right_id_L [] (++)).
  - destruct Hv as (_ & Hs%floor_ix_lt & _). exists []. cbn.
    rewrite row_insert by (rewrite (wf_waiting_len _ W); lia).
    repeat case_decide; subst; try done. by rewrite (right_id_L [] (++)).
  - by apply left_of_load_section.
  - rewrite waiting_move_section. apply left_of_refl.
  - unfold a_start. case_bool_decide; apply left_of_refl.
  - unfold a_stop. case_bool_decide; apply left_of_refl.
  - apply left_of_refl.
Qed.

Lemma left_of_app q' q s : left_of q' q → left_of (q' ++ s) (q ++ s).
Proof. intros [g ->]. exists g. by rewrite (assoc_L (++)). Qed.
End Order.

(** ** Types of the variables *)

Section Typed.
Context {LA : ListApi node}.

(** The fields of an elevator and of floor number [i] hold values of their C
    types, enumerations one of their constants. *)
Definition elevator_typed (e : elevator) : Prop :=
  IDLE ≤ status e ≤ DOWN ∧ (direction e = 0 ∨ direction e = 1) ∧
  (shutdown e = 0 ∨ shutdown e = 1) ∧
  Forall is_int [e_w_units e; e_p_units e; e_adult e; e_child e; e_room e; e_bell e;
                 current e; next e].

Definition floor_typed (i : nat) (f : floors) : Prop :=
  level f = Z.of_nat i ∧
  Forall is_int [f_w_units f; f_p_units f; f_adult f; f_child f; f_room f; f_bell f; serviced f].

(** The static variables, and every passenger object but those of [L]. *)
Definition world_typed (L : gmap loc passenger) (w : world) : Prop :=
  elevator_typed (w_e w) ∧ b_e (w_b w) = Some Addr_e ∧ length (b_f (w_b w)) = 10%nat ∧
  (∀ i f, b_f (w_b w) !! i = Some f → floor_typed i f) ∧
  (∀ l p, heap w !! l = Some p → L !! l = Some p ∨ valid_pass p).

(** Loads follow from the numbers of passengers of each type: exactly for the
    elevator, modulo the width of an int for a floor. *)
Definition elevator_agrees (e : elevator) : Prop :=
  0 ≤ e_adult e ∧ 0 ≤ e_child e ∧ 0 ≤ e_room e ∧ 0 ≤ e_bell e ∧
  e_w_units e = 2 * e_adult e + e_child e + 4 * e_room e + 8 * e_bell e ∧
  e_p_units e = e_adult e + e_child e + 2 * e_room e + 2 * e_bell e.

Definition floor_agrees (f : floors) : Prop :=
  f_w_units f = wrap32 (2 * f_adult f + f_child f + 4 * f_room f + 8 * f_bell f) ∧
  f_p_units f = wrap32 (f_adult f + f_child f + 2 * f_room f + 2 * f_bell f).
End Typed.

Section Counts.
Implicit Types (a : astate) (q : list pent).

Lemma weight_units_tally q :
  (∀ x, x ∈ q → valid_pass x.2) →
  weight q = 2 * tally ADULT q + tally CHILD q + 4 * tally ROOM q + 8 * tally BELL q ∧
  units q = tally ADULT q + tally CHILD q + 2 * tally ROOM q + 2 * tally BELL q.
Proof.
  unfold weight, units, tally. induction q as [|x q IH]; intros Hv; [done|].
  destruct IH as [Ew Eu]; [intros y Hy; apply Hv; by right|].
  destruct (Hv x) as (Ht & _); [left|]. rewrite !zsum_cons.
  unfold getWeight, getPass, ADULT, CHILD, ROOM, BELL in *.
  repeat case_bool_decide; cbn; lia.
Qed.

Lemma tally_nonneg t q : 0 ≤ tally t q.
Proof. apply zsum_nonneg. intros x _. case_bool_decide; lia. Qed.

Lemma elevator_of_agrees a : wf a → elevator_agrees (elevator_of a).
Proof.
  intros W. pose proof (wf_load_bounds _ W) as [Hw Hu].
  destruct (weight_units_tally (concat (onboard a))) as [Ew Eu]; [intros x; by apply onboard_valid|].
  pose proof (tally_nonneg ADULT (concat (onboard a))).
  pose proof (tally_nonneg CHILD (concat (onboard a))).
  pose proof (tally_nonneg ROOM (concat (onboard a))).
  pose proof (tally_nonneg BELL (concat (onboard a))).
  unfold elevator_agrees, MAX_W, MAX_P in *. cbn [elevator_of e_w_units e_p_units e_adult e_child e_room e_bell].
  rewrite !wrap32_small by lia. lia.
Qed.

Lemma floor_of_agrees i q s : (∀ x, x ∈ q → valid_pass x.2) → floor_agrees (floor_of i q s).
Proof.
  intros Hv. destruct (weight_units_tally q Hv) as [Ew Eu]. unfold floor_agrees; cbn.
  rewrite Ew, Eu. unfold wrap32. split; dlia.
Qed.
End Counts.

Section Properties.
Context {LA : ListApi node} {LL : ListLaws LA}.
Implicit Types (w : world) (a : astate) (L : gmap loc passenger) (σ : system).

(** The record of a floor in represented memory. *)
Lemma rep_floor L w a i f :
  rep L w a → wf a → b_f (w_b w) !! i = Some f →
  ∃ s, served a !! i = Some s ∧ is_int s ∧ f = floor_of i (row (waiting a) i) s.
Proof.
  intros R W Hf. destruct (lookup_lt_is_Some_2 (served a) i) as [s Hs].
  { rewrite (wf_served_len _ W), <- (rep_f_len _ _ _ R). by eapply lookup_lt_Some. }
  exists s. pose proof (rep_f _ _ _ R _ _ Hs) as E. rewrite Hf in E. injection E as ->.
  split_and!; [done|by eapply wf_served|done].
Qed.

Lemma rep_typed L0 L w a : rep L w a → wf a →
  (∀ l p, L !! l = Some p → L0 !! l = Some p ∨ valid_pass p) → world_typed L0 w.
Proof.
  intros R W HL. pose proof (wf_position _ W) as Hp. unfold position_ok in Hp.
  split_and!; [|apply R|apply R|..].
  - rewrite (rep_e _ _ _ R). unfold elevator_typed; cbn.
    split_and!; [apply (wf_status _ W)..|lia|apply (wf_shutdown _ W)|].
    repeat constructor; try apply wrap32_range; unfold is_int, INT_MIN, INT_MAX; lia.
  - intros i f (s & _ & Hs & ->)%(rep_floor L w a); [|done..]. split; [done|]. cbn.
    repeat constructor; try apply wrap32_range; apply Hs.
  - intros l p [[i [Hi|Hi]]|Hl]%(rep_dom _ _ _ R).
    + right. by apply (wf_waiting _ W i (l, p)).
    + right. by apply (wf_onboard _ W i (l, p)).
    + by apply HL.
Qed.

(** C8. Conservation.  After any interleaving, and for every floor: the passengers
    who started there and were waiting or on board at the beginning, plus those
    who joined the queue since, are either serviced by now (the counter of the
    floor has grown by their number, as an int) or still waiting or on board.
    Lock calls may be interrupted, up to the first unlock call of an interrupted
    task; memory is available and readers take turns. *)
Theorem passengers_conserved sig σ L a tr σ' :
  fresh_system σ → rep L (s_world σ) a → wf a → steps (orderly sig) σ tr σ' →
  ∃ L' a', rep L' (s_world σ') a' ∧ wf a' ∧
    ∀ i f, b_f (w_b (s_world σ)) !! i = Some f → ∃ f', b_f (w_b (s_world σ')) !! i = Some f' ∧
      serviced f' = wrap32 (serviced f
        + (starters i (concat (waiting a)) + starters i (concat (onboard a))
           + Z.of_nat (length (arrivals i tr)))
        - (starters i (concat (waiting a')) + starters i (concat (onboard a')))).
Proof.
  intros F R W T.
  destruct (steps_ind_abs (λ tr b, ∀ i,
    account i b = wrap32 (account i a + Z.of_nat (length (arrivals i tr)))) sig σ L a tr σ')
    as (L' & a' & [I' _] & H); [|done|done|done| |done|].
  - intros tr0 f ans b b' Wb Hv E H i. rewrite (account_effect i f b ans b' Wb Hv E), H.
    rewrite wrap32_add_l, arrivals_app, length_app. f_equal. lia.
  - intros i. cbn. by rewrite Z.add_0_r, account_wraps.
  - pose proof (inv_rep _ _ _ _ I') as R'. pose proof (inv_wf _ _ _ _ I') as W'.
    exists L', a'. split_and!; [done..|]. intros i f Hf.
    destruct (rep_floor L _ a i f R W Hf) as (s & Hs & Hsi & ->).
    assert (Hi : (i < 10)%nat) by (rewrite <- (rep_f_len _ _ _ R); by eapply lookup_lt_Some).
    destruct (lookup_lt_is_Some_2 (served a') i) as [s' Hs']; [by rewrite (wf_served_len _ W')|].
    eexists. split; [by apply (rep_f _ _ _ R')|]. cbn [serviced floor_of].
    specialize (H i). unfold account in H. rewrite Hs, Hs' in H. cbn [default id] in H.
    unfold id in H. rewrite wrap32_add_l in H.
    rewrite <- (wrap32_id s') by by eapply wf_served.
    unfold wrap32 in *. revert H. dlia.
Qed.

(** C9. First come, first served, over any interleaving: the queue of a floor is
    always what is left, in order, of the initial queue followed by those who
    joined it, after some have left at the head.  Nobody overtakes or leaves from
    the middle.  Lock calls may be interrupted, up to the first unlock call of an
    interrupted task; memory is available and readers take turns. *)
Theorem queues_keep_order sig σ L a tr σ' :
  fresh_system σ → rep L (s_world σ) a → wf a → steps (orderly sig) σ tr σ' →
  ∃ L' a', rep L' (s_world σ') a' ∧ wf a' ∧ ∀ i, ∃ gone,
    row (waiting a) i ++ arrivals i tr = gone ++ row (waiting a') i.
Proof.
  intros F R W T.
  destruct (steps_ind_abs (λ tr b, ∀ i,
    left_of (row (waiting b) i) (row (waiting a) i ++ arrivals i tr)) sig σ L a tr σ')
    as (L' & a' & [I' _] & H); [|done|done|done| |done|].
  - intros tr0 f ans b b' Wb Hv E H i. rewrite arrivals_app, (assoc_L (++)).
    eapply left_of_trans; [by eapply left_of_effect|]. by apply left_of_app.
  - intros i. cbn. rewrite (right_id_L [] (++)). apply left_of_refl.
  - exists L', a'. split_and!; [apply I'..|done].
Qed.

(** C22. After any interleaving every variable of the module holds a value of its C
    type, enumerations and flags one of their constants; every passenger object
    that was allocated has a valid type and valid floors; and the counters agree
    with each other: the load of the elevator is the one of the passengers its
    four type counters stand for, and so is the load of every floor, modulo the
    width of an int.  Lock calls may be interrupted, up to the first unlock call
    of an interrupted task; memory is available and readers take turns. *)
Theorem variables_typed sig σ L a tr σ' :
  fresh_system σ → rep L (s_world σ) a → wf a → steps (orderly sig) σ tr σ' →
  world_typed L (s_world σ') ∧ elevator_agrees (w_e (s_world σ')) ∧
  Forall floor_agrees (b_f (w_b (s_world σ'))).
Proof.
  intros F R W T.
  destruct (sys_steps sig σ L a tr σ' F R W T) as (L' & a' & SI & _).
  pose proof SI as [[R' W' _ _ _ _ _] _].
  split_and!; [|rewrite (rep_e _ _ _ R'); by apply elevator_of_agrees|].
  - eapply rep_typed; [done..|]. intros l p. by apply extra_valid with (1 := SI).
  - apply Forall_lookup. intros i f (s & _ & _ & ->)%(rep_floor L' _ a'); [|done..].
    apply floor_of_agrees. intros x Hx. by apply (wf_waiting _ W' i).
Qed.
End Properties.
