(* ===== verification/Rides.v ===== *)
(** * Rides and turns

    The thread loads and moves in turn; requests, starts, stops and prints come
    in between, in any order.  This file is about such sequences of effects on
    the abstract state: when the thread's own effects alternate, every passenger
    on board gets off at the first visit of the destination, which is as far
    away as the floors say, and a sequence without new requests empties the
    building.  Schedule.v shows that the interleavings of Concurrency.v are
    sequences of this kind. *)

From S2P Require Import Prelude KList ElevatorData ElevatorOps ElevatorSpec.
From S2P Require Import ElevatorRefine RunElevator Liveness Attempts Syscalls Concurrency.

(** ** Turns *)

(** What the thread does next. *)
Inductive turn : Type := ToLoad | ToMove.

Definition turn_step (f : effect) (ph : turn) : option turn :=
  match f, ph with
  | ELoad, ToLoad => Some ToMove
  | EMove, ToMove => Some ToLoad
  | ELoad, ToMove | EMove, ToLoad => None
  | _, _ => Some ph
  end.

(** The turn after the effects [fs]; [None] if the thread's do not alternate. *)
Fixpoint turns (fs : list effect) (ph : turn) : option turn :=
  match fs with
  | [] => Some ph
  | f :: fs => ph' ← turn_step f ph; turns fs ph'
  end.

Definition is_load (f : effect) : bool := if f is ELoad then true else false.
Definition is_move (f : effect) : bool := if f is EMove then true else false.
Definition loads (fs : list effect) : nat := length (List.filter is_load fs).
Definition moves (fs : list effect) : nat := length (List.filter is_move fs).

(** The state after the effects [fs]. *)
Definition after_effects (fs : list effect) (a : astate) : astate := (a_effects fs a).2.

Section Turns.
Implicit Types (fs : list effect) (f : effect) (ph : turn) (a : astate).

Lemma loads_app fs1 fs2 : loads (fs1 ++ fs2) = (loads fs1 + loads fs2)%nat.
Proof. unfold loads. by rewrite List.filter_app, length_app. Qed.
Lemma moves_app fs1 fs2 : moves (fs1 ++ fs2) = (moves fs1 + moves fs2)%nat.
Proof. unfold moves. by rewrite List.filter_app, length_app. Qed.

Lemma turns_app fs1 fs2 ph : turns (fs1 ++ fs2) ph = ph' ← turns fs1 ph; turns fs2 ph'.
Proof.
  revert ph. induction fs1 as [|f fs1 IH]; intros ph; [done|]. cbn.
  destruct (turn_step f ph) as [ph'|]; [apply IH|done].
Qed.

(** Between two turns the thread has moved as often as it has loaded. *)
Lemma turns_balance fs ph' :
  turns fs ToLoad = Some ph' → loads fs = (moves fs + if ph' is ToMove then 1 else 0)%nat.
Proof.
  revert ph'. induction fs as [|f fs IH] using rev_ind; intros ph'; [by intros [= <-]|].
  rewrite turns_app, loads_app, moves_app. destruct (turns fs ToLoad) as [ph|]; [|done].
  specialize (IH ph eq_refl). cbn. intros E. destruct f, ph; cbn in *; simplify_eq; cbn; lia.
Qed.

Lemma after_effects_app fs1 fs2 a :
  after_effects (fs1 ++ fs2) a = after_effects fs2 (after_effects fs1 a).
Proof.
  unfold after_effects. revert a. induction fs1 as [|f fs1 IH]; intros a; [done|].
  cbn. destruct (a_effect f a) as [r a']. specialize (IH a').
  destruct (a_effects (fs1 ++ fs2) a'), (a_effects fs1 a'). exact IH.
Qed.

Lemma after_effects_one f a : after_effects [f] a = (a_effect f a).2.
Proof. unfold after_effects. cbn. by destruct (a_effect f a). Qed.
End Turns.

(** ** Sections and positions *)

Section Sections.
Implicit Types (a : astate) (x y : pent) (q : list pent).

Lemma pos_unload c q a : a_pos (a_unload c q a) = a_pos a.
Proof. revert a. induction q as [|x q IH]; intros a; cbn; [done|]. by rewrite IH. Qed.
Lemma pos_load c q a : a_pos (a_load c q a) = a_pos a.
Proof. revert a. induction q as [|x q IH]; intros a; cbn; [done|]. case_match; [by rewrite IH|done]. Qed.

Lemma pos_load_section a : a_pos (a_load_section a) = a_pos a.
Proof.
  unfold a_load_section. case_bool_decide; [done|]. case_match; [done|]. cbv zeta.
  case_match; rewrite ?pos_load, pos_unload; done.
Qed.

Lemma row_onboard_unload c q a i :
  row (onboard a) c = q → row (onboard (a_unload c q a)) i =
    if decide (i = c) then [] else row (onboard a) i.
Proof.
  revert a. induction q as [|x q IH]; intros a E; cbn [a_unload]; [case_decide; subst; done|].
  assert (Hc : (c < length (onboard a))%nat).
  { apply lookup_lt_is_Some. unfold row in E. destruct (onboard a !! c); [done|by inversion E]. }
  rewrite IH; cbn; rewrite row_insert by done; [|by rewrite decide_True].
  repeat case_decide; congruence.
Qed.

Lemma board_row c x q a y i :
  wf a → row (waiting a) c = x :: q →
  y ∈ row (onboard (a_board c x q a)) i ↔
    y ∈ row (onboard a) i ∨ (y = x ∧ i = floor_ix (d_floor x.2)).
Proof.
  intros W E. destruct (wf_waiting _ W c x) as [Hv _]; [rewrite E; left|].
  destruct Hv as (_ & _ & Hdf). pose proof (floor_ix_lt _ Hdf). pose proof (wf_onboard_len _ W).
  cbn [onboard a_board]. rewrite row_insert by lia. case_decide; subst; [|naive_solver].
  rewrite elem_of_app, list_elem_of_singleton. naive_solver.
Qed.

(** Who is on board after loading was there before, or has boarded. *)
Lemma onboard_load c q a i y :
  wf a → row (waiting a) c = q → a_status a = LOADING →
  (y ∈ row (onboard a) i → y ∈ row (onboard (a_load c q a)) i) ∧
  (y ∈ row (onboard (a_load c q a)) i →
     y ∈ row (onboard a) i ∨ (y ∈ q ∧ pDirection y.2 = a_direction a)).
Proof.
  revert a. induction q as [|x q IH]; intros a W E Hst; cbn [a_load]; [tauto|].
  destruct (boards x a) eqn:Hb; [|tauto].
  pose proof (wf_board a c [] x q W E Hb Hst) as W'. cbn [app] in W'.
  destruct (wf_waiting _ W c x) as [Hv Hs]; [rewrite E; left|].
  assert (Hl : (c < length (waiting a))%nat).
  { apply lookup_lt_is_Some. unfold row in E. destruct (waiting a !! c); [done|by inversion E]. }
  assert (Er : row (waiting (a_board c x q a)) c = q)
    by (cbn [waiting a_board]; by rewrite row_insert, decide_True).
  destruct (IH _ W' Er Hst) as [H1 H2]. pose proof (board_row c x q a y i W E) as Hrow.
  apply boards_fits in Hb as (_ & _ & Hd); [|done..].
  rewrite Hrow in H1, H2. rewrite elem_of_cons. cbn [a_direction a_board] in H2. naive_solver.
Qed.

Lemma onboard_nonempty a x i : wf a → x ∈ row (onboard a) i → a_status a ≠ OFFLINE ∧ active a.
Proof.
  intros W Hx. assert (Ho : concat (onboard a) ≠ []).
  { intros E. apply concat_nil_rows with (i := i) in E. rewrite E in Hx. by apply elem_of_nil in Hx. }
  assert (a_status a ≠ OFFLINE) by (intros ?; apply Ho, (wf_offline _ W); by left).
  split; [done|]. split; [done|by left].
Qed.

(** The loading section, for the passengers on board. *)
Lemma onboard_load_section a i y :
  wf a → y ∈ row (onboard (a_load_section a)) i →
  (y ∈ row (onboard a) i ∧ i ≠ here a) ∨
  (y ∈ row (waiting a) (here a) ∧ pDirection y.2 = a_direction a).
Proof.
  intros W Hy. destruct (decide (a_status a = OFFLINE)) as [Hoff|Hoff].
  { unfold a_load_section in Hy. rewrite bool_decide_eq_true_2 in Hy by done.
    by destruct (onboard_nonempty _ _ _ W Hy). }
  unfold a_load_section in Hy. rewrite bool_decide_eq_false_2 in Hy by done.
  destruct (bool_decide (row (waiting a) (here a) = []) &&
            bool_decide (row (onboard a) (here a) = [])) eqn:Hnone.
  { apply andb_true_iff in Hnone as [_ Ho%bool_decide_eq_true]. left. split; [done|].
    intros ->. rewrite Ho in Hy. by apply elem_of_nil in Hy. }
  cbv zeta in Hy.
  assert (W1 : wf (with_status LOADING a)).
  { apply wf_with_status; [done|done|unfold OFFLINE, IDLE, LOADING; lia]. }
  destruct (wf_unload (here a) _ _ W1 eq_refl eq_refl) as [W2 Hst2].
  set (a2 := a_unload _ _ _) in *.
  assert (Hrow : y ∈ row (onboard a2) i → y ∈ row (onboard a) i ∧ i ≠ here a).
  { unfold a2. rewrite row_onboard_unload by done.
    destruct (decide (i = here a)); [by intros ?%elem_of_nil|done]. }
  clear Hnone. revert Hy. case_match; intros Hy; [|auto].
  apply onboard_load in Hy as [Hy|(Hy & Hd)]; [auto| |done..].
  right. unfold a2 in *. rewrite waiting_unload in Hy. rewrite direction_unload in Hd. done.
Qed.

Lemma onboard_load_section_keeps a i y :
  wf a → y ∈ row (onboard a) i → i ≠ here a → y ∈ row (onboard (a_load_section a)) i.
Proof.
  intros W Hy Hi. pose proof (onboard_nonempty _ _ _ W Hy) as [Hoff _].
  unfold a_load_section. rewrite bool_decide_eq_false_2 by done.
  case_match; [done|]. cbv zeta.
  assert (W1 : wf (with_status LOADING a)).
  { apply wf_with_status; [done|done|unfold OFFLINE, IDLE, LOADING; lia]. }
  destruct (wf_unload (here a) _ _ W1 eq_refl eq_refl) as [W2 Hst2].
  assert (Hrow : y ∈ row (onboard (a_unload (here a)
    (row (onboard (with_status LOADING a)) (here a)) (with_status LOADING a))) i).
  { rewrite row_onboard_unload, decide_False by done. done. }
  case_match; [|done]. by apply onboard_load.
Qed.
End Sections.

(** ** Destinations ahead *)

(** Floor [z] is not behind an elevator at [p]; [strict]: nor where it is. *)
Definition ahead (strict : bool) (p : pos) (z : Z) : bool :=
  let '(c, _, d) := p in
  let k := if strict then 1 else 0 in
  if bool_decide (d = 1) then bool_decide (c + k ≤ z) else bool_decide (z + k ≤ c).

(** Everybody on board who has somewhere to go is being taken there. *)
Definition headed_at (ph : turn) (a : astate) : Prop :=
  ∀ i x, x ∈ row (onboard a) i → s_floor x.2 ≠ d_floor x.2 →
    ahead (if ph is ToMove then true else false) (a_pos a) (d_floor x.2) = true.
Definition headed : astate → Prop := headed_at ToLoad.

(** The first visit of floor [i] is [r] moves away. *)
Definition first_visit (i : nat) (p : pos) (r : nat) : Prop :=
  at_floor i (Nat.iter r pmove p) = true ∧
  ∀ j, (j < r)%nat → at_floor i (Nat.iter j pmove p) = false.

Section Ahead.
Implicit Types (a : astate) (x y : pent) (p : pos).

Lemma ahead_move p z :
  p ∈ all_pos → 0 ≤ z < 10 → ahead true p z = true → ahead false (pmove p) z = true.
Proof.
  intros Hp Hz.
  assert (H : forallb (λ p, forallb (λ i, implb (ahead true p (Z.of_nat i))
    (ahead false (pmove p) (Z.of_nat i))) (seq 0 10)) all_pos = true) by (vm_compute; reflexivity).
  rewrite forallb_forall in H. specialize (H p (proj1 (list_elem_of_In _ _) Hp)).
  rewrite forallb_forall in H. specialize (H (Z.to_nat z)).
  rewrite Z2Nat.id in H by lia. intros E. rewrite E in H. apply H, in_seq. lia.
Qed.

Lemma ahead_strict p z : ahead false p z = true → p.1.1 ≠ z → ahead true p z = true.
Proof. destruct p as [[c n] d]. cbn. repeat case_bool_decide; done || lia. Qed.

Definition first_visitb (i : nat) (p : pos) (r : nat) : bool :=
  at_floor i (Nat.iter r pmove p) && forallb (λ j, negb (at_floor i (Nat.iter j pmove p))) (seq 0 r).

Lemma first_visitb_spec i p r : first_visitb i p r = true → first_visit i p r.
Proof.
  intros [H1 H2]%andb_true_iff. split; [done|]. intros j Hj. rewrite forallb_forall in H2.
  apply negb_true_iff, H2, in_seq. lia.
Qed.

(** Every floor is visited soon; a floor ahead after as many moves as it is
    floors away. *)
Lemma visits p i :
  p ∈ all_pos → (i < 10)%nat → ∃ r, (r ≤ reach_bound)%nat ∧ first_visit i p r ∧
    (ahead false p (Z.of_nat i) = true → Z.of_nat r = Z.abs (Z.of_nat i - p.1.1)).
Proof.
  intros Hp Hi.
  assert (H : forallb (λ p, forallb (λ i, existsb (λ r, first_visitb i p r &&
    (implb (ahead false p (Z.of_nat i)) (bool_decide (Z.of_nat r = Z.abs (Z.of_nat i - p.1.1)))))
    (seq 0 (S reach_bound))) (seq 0 10)) all_pos = true) by (vm_compute; reflexivity).
  rewrite forallb_forall in H. specialize (H p (proj1 (list_elem_of_In _ _) Hp)).
  rewrite forallb_forall in H. specialize (H i ltac:(apply in_seq; lia)).
  apply existsb_exists in H as (r & Hr%in_seq & [H1 H2]%andb_true_iff). exists r.
  split_and!; [lia|by apply first_visitb_spec|]. intros E. rewrite E in H2.
  by apply bool_decide_eq_true in H2.
Qed.

Lemma first_visit_move i p r : first_visit i p (S r) → first_visit i (pmove p) r.
Proof.
  intros [H1 H2]. split.
  - rewrite <- H1, <- Nat.iter_succ_r. done.
  - intros j Hj. rewrite <- (H2 (S j)) by lia. by rewrite <- Nat.iter_succ_r.
Qed.

Lemma here_pos a i : wf a → at_floor i (a_pos a) = bool_decide (here a = i).
Proof.
  intros W. pose proof (position_here _ W). unfold at_floor, here, floor_ix, a_pos, MAX_FLOOR in *.
  cbn [fst]. apply bool_decide_ext. lia.
Qed.
End Ahead.

(** ** Every effect *)

(** [x] is on board and gets off in the [r]-th loading section from now, not
    counting itself. *)
Definition riding (x : pent) (r : nat) (ph : turn) (a : astate) : Prop :=
  let d := floor_ix (d_floor x.2) in
  x ∈ row (onboard a) d ∧ first_visit d (if ph is ToMove then pmove (a_pos a) else a_pos a) r.

Section Effects.
Implicit Types (a : astate) (x y : pent) (f : effect) (ph : turn).

Lemma onboard_move_section a : onboard (a_move_section a) = onboard a.
Proof. apply same_queues_move_section. Qed.

(** Only the thread's effects change who is on board, or the position while
    somebody is. *)
Lemma other_effect f a :
  wf a → is_load f = false → is_move f = false →
  onboard (a_effect f a).2 = onboard a ∧
  (concat (onboard a) ≠ [] → a_pos (a_effect f a).2 = a_pos a).
Proof.
  intros W. destruct f; try done; intros _ _; cbn [a_effect snd]; try done.
  - unfold a_start. case_bool_decide as Hoff; [by split|]. split; [done|]. intros Hne.
    destruct Hne. apply (wf_offline _ W). by left.
  - unfold a_stop. case_bool_decide; by split.
Qed.

Lemma turn_step_other f ph ph' :
  is_load f = false → is_move f = false → turn_step f ph = Some ph' → ph' = ph.
Proof. destruct f, ph; cbn; congruence. Qed.

Lemma row_nonempty a x i : x ∈ row (onboard a) i → concat (onboard a) ≠ [].
Proof.
  intros Hx E. apply concat_nil_rows with (i := i) in E. rewrite E in Hx. by apply elem_of_nil in Hx.
Qed.

Lemma headed_effect f ph ph' a :
  wf a → headed_at ph a → turn_step f ph = Some ph' → headed_at ph' (a_effect f a).2.
Proof.
  intros W H Ht. destruct (is_load f) eqn:Hl; [|destruct (is_move f) eqn:Hm].
  - destruct f, ph; try done. injection Ht as <-. cbn [a_effect snd]. intros i x Hx Hne.
    rewrite pos_load_section. pose proof (wf_position _ W) as Hp. unfold position_ok in Hp.
    apply onboard_load_section in Hx as [[Hx Hi]|[Hx Hd]]; [| |done].
    + apply ahead_strict; [by eapply H|]. intros E. apply Hi.
      destruct (wf_onboard _ W i x Hx) as [_ <-]. unfold here. by rewrite <- E.
    + destruct (wf_waiting _ W _ x Hx) as [(_ & Hs & _) E]. unfold here, floor_ix, MAX_FLOOR in *.
      unfold ahead, a_pos. cbn. unfold pDirection in Hd. rewrite <- Hd.
      destruct (decide (d_floor x.2 > s_floor x.2)) as [G|G];
        [rewrite (bool_decide_eq_true_2 _ G)|rewrite (bool_decide_eq_false_2 _ G)];
        cbn; apply bool_decide_eq_true; lia.
  - destruct f, ph; try done. injection Ht as <-. cbn [a_effect snd]. intros i x Hx Hne.
    rewrite onboard_move_section in Hx. pose proof (H i x Hx Hne) as Ha.
    destruct (onboard_nonempty _ _ _ W Hx) as [_ Hact]. rewrite active_moves, a_move_pos by done.
    destruct (wf_onboard _ W i x Hx) as [(_ & _ & Hd) _].
    apply ahead_move; [by apply a_pos_all|unfold MAX_FLOOR in Hd; lia|done].
  - destruct (other_effect f a W Hl Hm) as [Eo Ep]. pose proof (turn_step_other _ _ _ Hl Hm Ht) as ->.
    intros i x Hx Hne. rewrite Eo in Hx. rewrite Ep by by eapply row_nonempty. by eapply H.
Qed.

Lemma riding_effect f ph ph' x r a :
  wf a → riding x r ph a → turn_step f ph = Some ph' → (is_load f = true → (0 < r)%nat) →
  riding x (if is_load f then pred r else r) ph' (a_effect f a).2.
Proof.
  intros W [Hx Hv] Ht Hr. destruct (is_load f) eqn:Hl; [|destruct (is_move f) eqn:Hm].
  - destruct f, ph; try done. injection Ht as <-. cbn [a_effect snd]. specialize (Hr eq_refl).
    destruct r as [|r]; [lia|]. split.
    + apply onboard_load_section_keeps; [done|done|]. intros E.
      destruct Hv as [_ Hv]. specialize (Hv 0%nat ltac:(lia)). change (Nat.iter 0 pmove (a_pos a)) with (a_pos a) in Hv.
      rewrite here_pos in Hv by done. by apply bool_decide_eq_false in Hv.
    + rewrite pos_load_section. by apply first_visit_move.
  - destruct f, ph; try done. injection Ht as <-. cbn [a_effect snd]. split.
    + by rewrite onboard_move_section.
    + destruct (onboard_nonempty _ _ _ W Hx) as [_ Hact]. by rewrite active_moves, a_move_pos.
  - destruct (other_effect f a W Hl Hm) as [Eo Ep]. pose proof (turn_step_other _ _ _ Hl Hm Ht) as ->.
    split; [by rewrite Eo|]. by rewrite Ep by by eapply row_nonempty.
Qed.

(** The visit of the destination. *)
Lemma riding_arrives x a :
  wf a → riding x 0 ToLoad a → x ∉ concat (waiting a) → x ∉ concat (onboard (a_load_section a)).
Proof.
  intros W [Hx [Hv _]] Hw Hin. change (Nat.iter 0 pmove (a_pos a)) with (a_pos a) in Hv. rewrite here_pos in Hv by done.
  apply bool_decide_eq_true in Hv. apply elem_of_concat_row in Hin as [i Hi].
  apply onboard_load_section in Hi as [[Hi Hne]|[Hi _]]; [| |done].
  - destruct (wf_onboard _ W i x Hi) as [_ E]. congruence.
  - apply Hw, elem_of_concat_row. eauto.
Qed.

Lemma boarding a x : wf a → x ∈ concat (onboard a) → x ∈ row (onboard a) (floor_ix (d_floor x.2)).
Proof. intros W [i Hi]%elem_of_concat_row. by destruct (wf_onboard _ W i x Hi) as [_ ->]. Qed.

(** How long the ride takes. *)
Lemma riding_starts a x :
  wf a → x ∈ concat (onboard a) → ∃ r, (r ≤ reach_bound)%nat ∧ riding x r ToLoad a ∧
    (headed a → s_floor x.2 ≠ d_floor x.2 → Z.of_nat r = Z.abs (d_floor x.2 - a_current a)).
Proof.
  intros W Hx%boarding; [|done]. destruct (wf_onboard _ W _ x Hx) as [(_ & _ & Hd) _].
  pose proof (floor_ix_lt _ Hd) as Hlt.
  destruct (visits (a_pos a) (floor_ix (d_floor x.2))) as (r & Hr & Hv & Hex);
    [by apply a_pos_all|done|].
  exists r. split_and!; [done|done|]. intros Hh Hne. unfold floor_ix in Hex at 1 2.
  rewrite Z2Nat.id in Hex by lia. apply Hex. by eapply Hh.
Qed.
End Effects.

(** ** Sequences without new requests *)

(** No request, and no stop: the thread, prints, starts of a running elevator. *)
Definition quiet (f : effect) : Prop :=
  match f with EAdd _ | EStop => False | _ => True end.

(** The state after [n] loading sections, with the thread at [ph]. *)
Definition progressed (n : nat) (ph : turn) (a : astate) : astate :=
  match ph with ToLoad => a_iterate n a | ToMove => a_load_section (a_iterate (pred n) a) end.

Section Quiet.
Implicit Types (a : astate) (fs : list effect) (f : effect) (ph : turn).

Lemma in_service_iterate n a : wf a → in_service a → in_service (a_iterate n a).
Proof.
  intros W [Hs Hst]. split; [by rewrite shutdown_iterate|by apply status_iterate].
Qed.

Lemma in_service_progressed n ph a : wf a → in_service a → in_service (progressed n ph a).
Proof.
  intros W S. destruct ph; [by apply in_service_iterate|]. cbn [progressed].
  destruct (in_service_iterate (pred n) a W S) as [Hs Hst].
  split; [by rewrite shutdown_load_section|]. apply status_load_section; [done|by apply wf_iterate].
Qed.

Lemma quiet_effects fs ph a :
  wf a → in_service a → Forall quiet fs → turns fs ToLoad = Some ph →
  after_effects fs a = progressed (loads fs) ph a ∧ (ph = ToMove → (0 < loads fs)%nat).
Proof.
  intros W S. revert ph. induction fs as [|f fs IH] using rev_ind; intros ph.
  { by intros _ [= <-]. }
  rewrite turns_app, loads_app, after_effects_app, after_effects_one.
  intros [Hq Hf]%Forall_app. destruct (turns fs ToLoad) as [ph0|]; [|done].
  destruct (IH ph0 Hq eq_refl) as [-> Hpos]. intros Ht. cbn in Ht.
  pose proof (in_service_progressed (loads fs) ph0 a W S) as [_ Hst].
  rewrite Forall_singleton in Hf.
  destruct f, ph0; try done; cbn in Ht; simplify_eq; cbn [a_effect snd loads is_load List.filter length];
    rewrite ?Nat.add_0_r, ?Nat.add_1_r; try (split; [done|]; by (lia || auto)).
  - specialize (Hpos eq_refl). destruct (loads fs) as [|n]; [lia|]. done.
  - unfold a_start. by rewrite bool_decide_eq_true_2.
  - unfold a_start. by rewrite bool_decide_eq_true_2.
Qed.

(** Enough turns deliver everybody. *)
Theorem quiet_drains fs ph a :
  wf a → in_service a → servable a → Forall quiet fs → turns fs ToLoad = Some ph →
  (drain_bound (workload a) ≤ loads fs)%nat →
  workload (after_effects fs a) = 0%nat ∧ ∀ i, account i (after_effects fs a) = account i a.
Proof.
  intros W S Hserv Hq Ht Hn. destruct (quiet_effects fs ph a W S Hq Ht) as [-> _].
  pose proof S as [Hs Hst]. unfold drain_bound in Hn.
  destruct (drain (workload a) a) as (k & Hk & Hz); try done.
  assert (Hdone : ∀ n, (k ≤ n)%nat → workload (a_iterate n a) = 0%nat).
  { intros n Hkn. replace n with ((n - k) + k)%nat by lia. rewrite a_iterate_add.
    apply empty_idle_iterate; [by apply wf_iterate|by apply status_iterate|done]. }
  destruct ph; cbn [progressed].
  - split; [apply Hdone; lia|]. intros i. by apply account_iterate.
  - pose proof (Hdone (pred (loads fs)) ltac:(lia)) as Hz'.
    split; [|intros i; rewrite account_load_section by (by apply wf_iterate); by apply account_iterate].
    by rewrite empty_load_section.
Qed.
End Quiet.
