(* ===== verification/Schedule.v ===== *)
(** * The thread's schedule in an interleaving

    In every interleaving the sections of the thread alternate, whatever the
    other tasks do in between.  (An interleaving is one of orderly steps:
    memory is available, readers take turns, and it ends before an interrupted
    task unlocks the mutex.)  With Rides.v this gives, for the
    memory after any such interleaving: how long every ride takes, and that
    enough turns of the thread deliver everybody.  The thread can always take
    more turns. *)

From S2P Require Import Decimal.
From S2P Require Import Prelude KList ProcEntry ElevatorData ElevatorOps ElevatorSpec.
From S2P Require Import ElevatorRefine RunElevator Liveness Attempts Syscalls ProcFs.
From S2P Require Import Concurrency LockInvariant Interleavings Rides.

(** ** The thread *)

(** What a task of the thread does next. *)
Definition at_turn (t : task) : option turn :=
  match t with
  | WantLock SLoad | Holding SLoad | Interrupted SLoad | Leaving SMove _ => Some ToLoad
  | WantLock SMove | Holding SMove | Interrupted SMove | Leaving SLoad _ => Some ToMove
  | _ => None
  end.

Section Thread.
Context {LA : ListApi node} {LL : ListLaws LA} {sig : bool}.
Implicit Types (w : world) (a : astate) (L : gmap loc passenger) (σ : system) (t : task).

(** There is one thread. *)
Definition one_thread σ : Prop :=
  ∀ i j t t', s_tasks σ !! i = Some t → s_tasks σ !! j = Some t' →
    is_Some (at_turn t) → is_Some (at_turn t') → i = j.

Definition tinv (ph : turn) σ : Prop :=
  one_thread σ ∧ ∀ i t ph', s_tasks σ !! i = Some t → at_turn t = Some ph' → ph' = ph.

Lemma tinv_fresh σ : fresh_system σ → one_thread σ → tinv ToLoad σ.
Proof.
  intros (_ & Hns) H1. split; [done|]. intros i t ph' Ht%Hns E.
  destruct t as [| |[]| | | | | | | |]; cbn in *; done || congruence.
Qed.

(** Task [i] becomes [t']. *)
Lemma tinv_update ph ph' σ i t t' s o :
  tinv ph σ → s_tasks σ !! i = Some t →
  (at_turn t = None → at_turn t' = None ∧ ph' = ph) →
  (∀ q, at_turn t' = Some q → q = ph') →
  tinv ph' (System s o (<[i := t']> (s_tasks σ))).
Proof.
  intros [H1 Hph] Ht Hnone Hq.
  assert (Hold : is_Some (at_turn t') → is_Some (at_turn t)).
  { intros [q E]. destruct (at_turn t); [by eexists|]. by destruct (Hnone eq_refl) as [E' _]; congruence. }
  split; cbn [s_tasks].
  - intros j k u u'. cbn [s_tasks]. rewrite !lookup_insert. repeat case_decide; subst;
      intros Hu Hu' S S'; simplify_eq; try done.
    + by eapply (H1 j k t u'); auto.
    + by eapply (H1 j k u t); auto.
    + by eapply H1.
  - intros j u q. rewrite lookup_insert. case_decide; [by intros [= <-]; apply Hq|].
    intros Hu E. destruct (at_turn t) as [q0|] eqn:Et.
    + by destruct (H1 i j t u).
    + destruct (Hnone eq_refl) as [_ ->]. by eapply Hph.
Qed.

Lemma after_unlock_turn c ans t : after_unlock c ans t →
  match at_turn t with Some q => at_turn (Leaving c ans) = Some q | None => True end.
Proof. by intros []. Qed.

(** The sections of the thread alternate. *)
Lemma tinv_step ph σ l σ' :
  tinv ph σ → step (orderly sig) σ l σ' → ∃ ph', turns l.*1 ph = Some ph' ∧ tinv ph' σ'.
Proof.
  intros T Hs. pose proof T as [_ Hph].
  destruct Hs as [σ i p s d l o w' Ht _ _|σ i l junk u s' Ht _ _|σ i c Ht Ho|σ i c Hsig Ht
    |σ i c ans s' Ht Hb|σ i c ans t Ht Ho Hau|σ i Ht|σ i seen size n txt s' Ht _
    |σ i seen r s' Ht _]; pose proof (λ q, Hph i _ q Ht) as Hti; cbn [fmap list_fmap fst].
  - exists ph. split; [done|]. eapply tinv_update; [done..| |]; by destruct o.
  - exists ph. split; [done|]. by eapply tinv_update.
  - exists ph. split; [done|]. eapply tinv_update; [done..| |].
    + by destruct c.
    + intros q E. apply Hti. by destruct c.
  - exists ph. split; [done|]. eapply tinv_update; [done..| |].
    + by destruct c.
    + intros q E. apply Hti. by destruct c.
  - assert (∃ ph', turns [effect_of c (s_world σ)] ph = Some ph' ∧
      (at_turn (Holding c) = None → ph' = ph) ∧
      (∀ q, at_turn (Leaving c ans) = Some q → q = ph')) as (ph' & E & H1 & H2).
    { destruct c; cbn; try (exists ph; by destruct ph);
        rewrite <- (Hti _ eq_refl); eexists; (split; [done|]); split; [done|congruence|done|congruence]. }
    exists ph'. split; [done|]. eapply tinv_update; [done..| |done].
    intros Hn. split; [by destruct c|auto].
  - exists ph. split; [done|]. pose proof (after_unlock_turn _ _ _ Hau) as Hat.
    eapply tinv_update; [done..| |].
    + intros Hn. split; [|done]. destruct (at_turn t); [congruence|done].
    + intros q E. rewrite E in Hat. by apply Hti.
  - exists ph. split; [done|]. eapply tinv_update; [done..| |]; by case_match.
  - exists ph. split; [done|]. eapply tinv_update; [done..| |]; by case_bool_decide.
  - exists ph. split; [done|]. by eapply tinv_update.
Qed.

Lemma tinv_steps ph σ tr σ' :
  tinv ph σ → steps (orderly sig) σ tr σ' → ∃ ph', turns tr.*1 ph = Some ph' ∧ tinv ph' σ'.
Proof.
  intros T Hs. induction Hs as [σ|σ tr σ1 l σ2 _ IH Hstep]; [by exists ph|].
  destruct (IH T) as (ph1 & E1 & T1). destruct (tinv_step ph1 _ _ _ T1 Hstep) as (ph2 & E2 & T2).
  exists ph2. split; [|done]. by rewrite fmap_app, turns_app, E1.
Qed.

(** ** Cutting an execution in two *)

Lemma step_one en σ l σ' : step en σ l σ' → l = [] ∨ ∃ x, l = [x].
Proof. intros []; eauto. Qed.

Lemma steps_split en σ tr1 tr2 σ' :
  steps en σ (tr1 ++ tr2) σ' → ∃ σm, steps en σ tr1 σm ∧ steps en σm tr2 σ'.
Proof.
  intros Hs. remember (tr1 ++ tr2) as tr eqn:E. revert tr2 E.
  induction Hs as [σ|σ tr σ1 l σ2 Hs IH Hstep]; intros tr2 E.
  - symmetry in E. apply app_eq_nil in E as [-> ->]. exists σ. split; constructor.
  - destruct (step_one _ _ _ _ Hstep) as [->|[x ->]].
    + rewrite app_nil_r in E. destruct (IH tr2 E) as (σm & H1 & H2). exists σm. split; [done|].
      rewrite <- (app_nil_r tr2). by eapply steps_snoc.
    + destruct tr2 as [|y tr2 _] using rev_ind.
      * rewrite app_nil_r in E. subst tr1. exists σ2. split; [by eapply steps_snoc|constructor].
      * rewrite app_assoc in E. apply app_inj_tail in E as [E <-].
        destruct (IH tr2 E) as (σm & H1 & H2). exists σm. split; [done|]. by eapply steps_snoc.
Qed.

Lemma sys_steps_from L0 tr0 σ L a tr σ' :
  sys_inv L0 tr0 σ L a → steps (orderly sig) σ tr σ' →
  ∃ L' a', sys_inv L0 (tr0 ++ tr) σ' L' a' ∧ a_effects tr.*1 a = (tr.*2, a').
Proof.
  intros I Hs. induction Hs as [σ|σ tr σ1 l σ2 _ IH Hstep].
  { exists L, a. by rewrite app_nil_r. }
  destruct (IH I) as (L1 & a1 & I1 & E1).
  destruct (sys_step _ _ _ _ _ _ _ _ I1 Hstep) as (L2 & a2 & I2 & E2).
  exists L2, a2. rewrite app_assoc, !fmap_app. split; [done|]. by eapply a_effects_app.
Qed.
End Thread.

(** ** Rides and deliveries in the shared memory *)

Section Execution.
Context {LA : ListApi node} {LL : ListLaws LA} {sig : bool}.
Implicit Types (w : world) (a : astate) (L : gmap loc passenger) (σ : system) (t : task) (x : pent).

Lemma aboard_not_waiting L w a x i :
  rep L w a → x ∈ row (onboard a) i → x ∉ concat (waiting a).
Proof.
  intros R Hx [j Hj]%elem_of_concat_row. pose proof (rep_rings _ _ _ R) as [_ _ Hd].
  assert (EP i = FW j); [|done].
  apply (Hd _ _ (PN x.1)); cbn.
  - eapply listed_lt; [done|by right].
  - eapply listed_lt; [done|by left].
  - apply list_elem_of_fmap. eauto.
  - apply list_elem_of_fmap. eauto.
Qed.

(** One operation of the trace. *)
Lemma ride_effect L w a f ph ph' x r n :
  rep L w a → wf a → turn_step f ph = Some ph' →
  ((n ≤ r)%nat → riding x (r - n) ph a) → (n = S r → x ∉ concat (onboard a)) →
  let n' := (n + if is_load f then 1 else 0)%nat in
  ((n' ≤ r)%nat → riding x (r - n') ph' (a_effect f a).2) ∧
  (n' = S r → x ∉ concat (onboard (a_effect f a).2)).
Proof.
  intros R W Ht Hin Hout n'. unfold n'. split.
  - intros Hn. pose proof (riding_effect f ph ph' x (r - n) a W (Hin ltac:(lia)) Ht) as H.
    destruct (is_load f); [|rewrite Nat.add_0_r in *; apply H; done].
    replace (r - (n + 1))%nat with (pred (r - n)) by lia. apply H. lia.
  - destruct (is_load f) eqn:Hl.
    + intros Hn. assert (n = r) as -> by lia. specialize (Hin (Nat.le_refl r)).
      rewrite Nat.sub_diag in Hin. destruct f, ph; try done. cbn [a_effect snd].
      apply riding_arrives; [done..|]. destruct Hin as [Hx _]. by eapply aboard_not_waiting.
    + rewrite Nat.add_0_r. intros Hn. specialize (Hout Hn). destruct (is_move f) eqn:Hm.
      * destruct f; try done. cbn [a_effect snd]. by rewrite onboard_move_section.
      * by destruct (other_effect f a W Hl Hm) as [-> _].
Qed.

Lemma ride_steps L0 tr0 σ L a ph tr σ' x r :
  sys_inv L0 tr0 σ L a → tinv ph σ → riding x r ph a → steps (orderly sig) σ tr σ' →
  ∃ L' a' ph', sys_inv L0 (tr0 ++ tr) σ' L' a' ∧ a_effects tr.*1 a = (tr.*2, a') ∧ tinv ph' σ' ∧
    ((loads tr.*1 ≤ r)%nat → riding x (r - loads tr.*1) ph' a') ∧
    (loads tr.*1 = S r → x ∉ concat (onboard a')).
Proof.
  intros I T Hr Hs. induction Hs as [σ|σ tr σ1 l σ2 _ IH Hstep].
  { exists L, a, ph. rewrite app_nil_r. split_and!; [done..| |done].
    intros _. by rewrite Nat.sub_0_r. }
  destruct (IH I T) as (L1 & a1 & ph1 & I1 & E1 & T1 & Hin & Hout).
  destruct (sys_step _ _ _ _ _ _ _ _ I1 Hstep) as (L2 & a2 & I2 & E2).
  destruct (tinv_step ph1 _ _ _ T1 Hstep) as (ph2 & Et & T2).
  exists L2, a2, ph2. rewrite app_assoc, !fmap_app, loads_app.
  split_and!; [done|by eapply a_effects_app|done|..].
  all: destruct (step_one _ _ _ _ Hstep) as [->|[[f ans] ->]];
    [injection Et as <-; injection E2 as <-; cbn; by rewrite Nat.add_0_r|].
  all: cbn [fmap list_fmap fst] in Et, E2 |- *; cbn [turns] in Et;
    destruct (turn_step f ph1) as [ph3|] eqn:Et'; [injection Et as ->|done].
  all: pose proof (after_effects_one f a1) as Ha; unfold after_effects in Ha; rewrite E2 in Ha;
    cbn [snd] in Ha; subst a2.
  all: destruct I1 as [I1 _];
    pose proof (ride_effect _ _ _ f ph1 ph2 x r _ (inv_rep _ _ _ _ I1) (inv_wf _ _ _ _ I1) Et' Hin Hout)
      as [H1 H2].
  all: unfold loads at 2; cbn; destruct (is_load f); cbn; auto.
Qed.

Lemma headed_steps L0 tr0 σ L a ph tr σ' :
  sys_inv L0 tr0 σ L a → tinv ph σ → headed_at ph a → steps (orderly sig) σ tr σ' →
  ∃ L' a' ph', sys_inv L0 (tr0 ++ tr) σ' L' a' ∧ a_effects tr.*1 a = (tr.*2, a') ∧ tinv ph' σ' ∧
    turns tr.*1 ph = Some ph' ∧ headed_at ph' a'.
Proof.
  intros I T Hh Hs. induction Hs as [σ|σ tr σ1 l σ2 _ IH Hstep].
  { exists L, a, ph. by rewrite app_nil_r. }
  destruct (IH I T) as (L1 & a1 & ph1 & I1 & E1 & T1 & Et1 & Hh1).
  destruct (sys_step _ _ _ _ _ _ _ _ I1 Hstep) as (L2 & a2 & I2 & E2).
  destruct (tinv_step ph1 _ _ _ T1 Hstep) as (ph2 & Et & T2).
  exists L2, a2, ph2. rewrite app_assoc, !fmap_app, turns_app, Et1.
  split_and!; [done|by eapply a_effects_app|done|done|].
  destruct (step_one _ _ _ _ Hstep) as [->|[[f ans] ->]].
  { injection Et as <-. injection E2 as <-. done. }
  cbn [fmap list_fmap fst] in Et, E2. cbn [turns] in Et.
  destruct (turn_step f ph1) as [ph3|] eqn:Et'; [injection Et as ->|done].
  pose proof (after_effects_one f a1) as Ha. unfold after_effects in Ha. rewrite E2 in Ha.
  cbn [snd] in Ha. subst a2. eapply headed_effect; [|done..]. apply (inv_wf _ _ _ _ (proj1 I1)).
Qed.

(** The state between two turns, after the operations [tr1]. *)
Lemma between_turns σ L a tr1 tr2 σ' :
  fresh_system σ → one_thread σ → rep L (s_world σ) a → wf a →
  steps (orderly sig) σ (tr1 ++ tr2) σ' → loads tr1.*1 = moves tr1.*1 →
  let b := after_effects tr1.*1 a in
  ∃ σm Lm, steps (orderly sig) σm tr2 σ' ∧ sys_inv L tr1 σm Lm b ∧ tinv ToLoad σm ∧
    (headed a → headed b).
Proof.
  intros F O R W Hs Hbal b. apply steps_split in Hs as (σm & Hs1 & Hs2).
  pose proof (sys_fresh _ _ _ F R W) as S0. pose proof (tinv_fresh _ F O) as T0.
  destruct (sys_steps_from _ _ _ _ _ _ _ S0 Hs1) as (Lm & am & I & E).
  destruct (tinv_steps _ _ _ _ T0 Hs1) as (ph & Et & T). pose proof Et as Eb.
  apply turns_balance in Eb. assert (ph = ToLoad) as -> by (destruct ph; [done|lia]).
  assert (b = am) as Eam by (unfold b, after_effects; by rewrite E).
  exists σm, Lm. rewrite Eam. split_and!; [done..|]. intros Hh.
  destruct (headed_steps L [] σ L a ToLoad tr1 σm S0 T0 Hh Hs1)
    as (L2 & a2 & ph2 & _ & E2 & _ & Et2 & H2).
  rewrite E in E2. injection E2 as <-. rewrite Et in Et2. by injection Et2 as <-.
Qed.
End Execution.

(** ** The thread can take turns *)

Section Feasible.
Context {LA : ListApi node} {LL : ListLaws LA} {sig : bool}.
Implicit Types (a : astate) (L : gmap loc passenger) (σ : system).

(** A section of the thread from its lock call to its unlock call, after which
    it goes on or, when it is told to, ends. *)
Lemma section_possible L0 tr0 σ L a i c f t :
  sys_inv L0 tr0 σ L a → s_owner σ = None → s_tasks σ !! i = Some (WantLock c) →
  c = SLoad ∧ f = ELoad ∧ t = WantLock SMove ∨
  c = SMove ∧ f = EMove ∧ (t = WantLock SLoad ∨ t = Returned 0) →
  ∃ ans s', steps (orderly sig) σ [(f, ans)] (System s' None (<[i := t]> (s_tasks σ))).
Proof.
  intros I Ho Ht Hc.
  pose proof (sys_lock _ _ _ _ _ _ _ I Ht Ho) as [I1 R1].
  assert (Hh : s_tasks (set_owner (Some i) (set_task i (Holding c) σ)) !! i = Some (Holding c))
    by apply lookup_insert_eq.
  pose proof (body_refines _ _ _ _ _ _ I1 Hh (printing _ _ _ _ R1 Hh)) as (ans & s' & E & _)%wp_done.
  exists ans, s'.
  pose proof (step_lock (orderly sig) σ i c Ht Ho) as H1.
  pose proof (step_body (orderly sig) _ i c ans s' Hh E) as H2.
  assert (Hau : after_unlock c ans t)
    by (destruct Hc as [(-> & _ & ->)|(-> & _ & [-> | ->])]; constructor).
  pose proof (step_unlock (orderly sig) (set_entry s' (set_task i (Leaving c ans)
    (set_owner (Some i) (set_task i (Holding c) σ)))) i c ans t (lookup_insert_eq _ _ _) eq_refl Hau) as H3.
  assert (Ef : effect_of c (s_world (set_owner (Some i) (set_task i (Holding c) σ))) = f)
    by (by destruct Hc as [(-> & -> & _)|(-> & -> & _)]).
  rewrite Ef in H2. unfold set_owner, set_task, set_entry in *; cbn [s_entry s_owner s_tasks] in *.
  rewrite !insert_insert_eq in *.
  eapply (steps_snoc _ _ [_] _ [] _ _ H3). Unshelve.
  eapply (steps_snoc _ _ [] _ [_] _ _ H2). Unshelve.
  eapply (steps_snoc _ _ [] _ [] _ _ H1). Unshelve. constructor.
Qed.

Lemma steps_app en σ tr1 σm tr2 σ' :
  steps en σ tr1 σm → steps en σm tr2 σ' → steps en σ (tr1 ++ tr2) σ'.
Proof.
  intros H1 H2. induction H2 as [|σm tr2 σ1 l σ2 _ IH Hstep]; [by rewrite app_nil_r|].
  rewrite app_assoc. eapply steps_snoc; [by apply IH|done].
Qed.

(** Whenever nobody holds the mutex, the thread can run [n] whole turns. *)
Lemma turns_possible n L0 tr0 σ L a i :
  sys_inv L0 tr0 σ L a → s_owner σ = None → s_tasks σ !! i = Some (WantLock SLoad) →
  ∃ tr σ', steps (orderly sig) σ tr σ' ∧ tr.*1 = concat (replicate n [ELoad; EMove]) ∧
    s_owner σ' = None ∧ s_tasks σ' = s_tasks σ.
Proof.
  intros I Ho Ht. induction n as [|n IH].
  { exists [], σ. split_and!; [constructor|done..]. }
  destruct IH as (tr & σ1 & H1 & E1 & Ho1 & Et1).
  destruct (sys_steps_from _ _ _ _ _ _ _ I H1) as (L1 & a1 & I1 & _).
  rewrite <- Et1 in Ht.
  destruct (section_possible _ _ _ _ _ i SLoad ELoad (WantLock SMove) I1 Ho1 Ht) as (ans & s2 & H2);
    [by left|].
  destruct (sys_steps_from _ _ _ _ _ _ _ I1 H2) as (L2 & a2 & I2 & _).
  destruct (section_possible _ _ _ _ _ i SMove EMove (WantLock SLoad) I2 eq_refl
    (lookup_insert_eq _ _ _)) as (ans' & s3 & H3); [by right; auto|].
  eexists _, _. split; [by eapply steps_app, steps_app|]. cbn [s_tasks s_owner] in *.
  split_and!; [|done|].
  - rewrite fmap_app, E1. by rewrite replicate_S_end, concat_app.
  - rewrite insert_insert_eq, Et1. rewrite Et1 in Ht. by apply insert_id.
Qed.
End Feasible.

(** ** Properties *)

Section Properties.
Context {LA : ListApi node} {LL : ListLaws LA} {sig : bool}.
Implicit Types (a b : astate) (L : gmap loc passenger) (σ : system) (x : pent).

(** C7. Rides take as long as the floors are apart.  Take any interleaving of the
    one thread with callers and readers, from a state in which the passengers on
    board are headed their way ([headed]), and somebody on board between two
    turns of the thread: in the [r + 1]-st loading section from there the
    passenger gets off, not earlier and not later, however many requests, starts
    and stops are made meanwhile.  If start and destination are different floors
    [r] is the distance to the destination; a passenger who asked for the floor
    of departure rides at most 18 floors.  This holds up to the first unlock call
    of an interrupted task, with memory available and readers taking turns. *)
Theorem concurrent_rides σ L a tr1 tr2 σ' x :
  fresh_system σ → one_thread σ → rep L (s_world σ) a → wf a → headed a →
  steps (orderly sig) σ (tr1 ++ tr2) σ' → loads tr1.*1 = moves tr1.*1 →
  let b := after_effects tr1.*1 a in
  x ∈ concat (onboard b) →
  ∃ r L' b', (r ≤ reach_bound)%nat ∧
    (s_floor x.2 ≠ d_floor x.2 → Z.of_nat r = Z.abs (d_floor x.2 - a_current b)) ∧
    a_effects tr2.*1 b = (tr2.*2, b') ∧ rep L' (s_world σ') b' ∧
    ((loads tr2.*1 ≤ r)%nat → x ∈ concat (onboard b')) ∧
    (loads tr2.*1 = S r → x ∉ concat (onboard b')).
Proof.
  intros F O R W Hh Hs Hbal b Hx.
  destruct (between_turns σ L a tr1 tr2 σ' F O R W Hs Hbal) as (σm & Lm & Hs2 & I & T & Hhb).
  fold b in I, Hhb. specialize (Hhb Hh). pose proof (inv_wf _ _ _ _ (proj1 I)) as Wb.
  destruct (riding_starts b x Wb Hx) as (r & Hr & Hrd & Hex).
  destruct (ride_steps (sig := sig) L tr1 σm Lm b ToLoad tr2 σ' x r) as (L' & b' & ph & I' & E & _ & Hin & Hout);
    [done..|].
  exists r, L', b'. split_and!; [done|by apply Hex|done|apply (inv_rep _ _ _ _ (proj1 I'))| |done].
  intros Hn. destruct (Hin Hn) as [Hb _]. apply elem_of_concat_row. eauto.
Qed.

(** C6. Enough turns of the thread deliver everybody, in every interleaving.  Suppose
    that between two turns of the one thread the elevator is in service (not
    offline, no stop pending) and nobody waits on the lowest floor for the lowest
    floor ([servable]), that nobody requests or stops anything from then on, and
    that the thread takes as many turns as [drain_bound] says.  Then whoever was
    waiting or on board has been freed and counted on the floor of departure,
    whatever readers do and whoever tries to start the elevator.  This holds up
    to the first unlock call of an interrupted task, with memory available and
    readers taking turns. *)
Theorem concurrent_serves σ L a tr1 tr2 σ' :
  fresh_system σ → one_thread σ → rep L (s_world σ) a → wf a →
  steps (orderly sig) σ (tr1 ++ tr2) σ' → loads tr1.*1 = moves tr1.*1 →
  let b := after_effects tr1.*1 a in
  in_service b → servable b → Forall quiet tr2.*1 →
  (drain_bound (workload b) ≤ loads tr2.*1)%nat →
  ∃ L' b', rep L' (s_world σ') b' ∧ concat (waiting b') = [] ∧ concat (onboard b') = [] ∧
    heap (s_world σ') = L' ∧
    ((∀ i t, s_tasks σ' !! i = Some t → carries t = None) → L' = L) ∧
    ∀ i s, served b !! i = Some s →
      served b' !! i = Some (s +i (starters i (concat (waiting b)) + starters i (concat (onboard b)))).
Proof.
  intros F O R W Hs Hbal b Hsv Hserv Hq Hn.
  destruct (between_turns σ L a tr1 tr2 σ' F O R W Hs Hbal) as (σm & Lm & Hs2 & I & T & _).
  fold b in I. pose proof (inv_wf _ _ _ _ (proj1 I)) as Wb.
  destruct (sys_steps_from _ _ _ _ _ _ _ I Hs2) as (L' & b' & [I' _] & E).
  destruct (tinv_steps _ _ _ _ T Hs2) as (ph & Et & _).
  destruct (quiet_drains tr2.*1 ph b Wb Hsv Hserv Hq Et Hn) as [Hz Hacc].
  unfold after_effects in Hz, Hacc. rewrite E in Hz, Hacc. cbn [snd] in Hz, Hacc.
  apply workload_zero in Hz as [Hw Ho]. pose proof (inv_rep _ _ _ _ I') as R'.
  pose proof (inv_wf _ _ _ _ I') as W'.
  destruct (empty_in_memory _ _ _ R' Hw Ho) as (_ & Hheap & _).
  exists L', b'. split_and!; [done..| |].
  - intros Hnc. by eapply inv_nobody_carries.
  - intros i s Hsi. by apply served_when_empty.
Qed.
End Properties.
