(* ===== verification/ConcurrentLife.v ===== *)
(** * A whole life of the module, with concurrency

    Lifecycle.v loads and unloads the module, Interleavings.v runs it with any
    number of tasks.  Here the two are put together: what is left in memory
    after the module was loaded, used by the thread, callers and readers in any
    order, and unloaded. *)

From S2P Require Import Decimal.
From S2P Require Import Prelude KThread KList ProcEntry ElevatorData ElevatorOps ElevatorSpec.
From S2P Require Import ElevatorRefine RunElevator Liveness Stats Syscalls ProcFs Lifecycle.
From S2P Require Import Concurrency LockInvariant Interleavings Rides Schedule.

(** ** The buffers of the readers *)

Section Buffers.
Context {LA : ListApi node} {LL : ListLaws LA}.
Implicit Types (σ : system) (t : task) (B : gmap loc string) (s : proc world).

(** The live buffers are those of [B] and the one of the open file. *)
Definition owns B s : Prop := ∃ l txt, message s = Some l ∧ B !! l = None ∧ buffers s = <[l := txt]> B.

Definition binv B σ : Prop :=
  (∀ i t, s_tasks σ !! i = Some t → is_reader t → owns B (s_entry σ)) ∧
  ((∀ i t, s_tasks σ !! i = Some t → ¬ is_reader t) → buffers (s_entry σ) = B).

(** A step of a task that neither opens nor closes the file. *)
Lemma binv_update B σ i t t' s o :
  binv B σ → s_tasks σ !! i = Some t → (is_reader t' ↔ is_reader t) →
  (is_reader t → owns B (s_entry σ) → owns B s) →
  same_entry (s_entry σ) s ∨ is_reader t →
  binv B (System s o (<[i := t']> (s_tasks σ))).
Proof.
  intros [H1 H2] Ht Hiff Hown Hs.
  assert (Hsame : same_entry (s_entry σ) s → owns B (s_entry σ) → owns B s).
  { intros (E1 & _ & E3) (l & txt & Hl & HB & Hb). exists l, txt. by rewrite E1, E3. }
  split; cbn [s_tasks s_entry].
  - intros j u. rewrite lookup_insert. case_decide.
    + intros [= <-] Hu%Hiff. apply Hown; [done|by eapply H1].
    + intros Hu Hbu. pose proof (H1 j u Hu Hbu) as HO. destruct Hs as [Hs|Hs]; auto.
  - intros Hno. assert (Hnt : ¬ is_reader t).
    { rewrite <- Hiff. apply (Hno i). cbn [s_tasks]. apply lookup_insert_eq. }
    destruct Hs as [(_ & _ & ->)|]; [|done]. apply H2. intros j u Hu.
    destruct (decide (j = i)) as [->|Hne]; [by rewrite Ht in Hu; injection Hu as <-|].
    apply (Hno j). cbn [s_tasks]. by rewrite lookup_insert_ne.
Qed.

Lemma body_print_owns B s ans s' : body SPrint s = Done (ans, s') → owns B s → owns B s'.
Proof.
  intros E (l & txt & Hl & HB & Hb). cbn [body] in E.
  unfold mbind, M_bind, on_message, message_text in E. rewrite Hl, Hb, lookup_insert_eq in E.
  destruct (printStats ENTRY_SIZE (data s) txt) as [[n txt']| |]; try done.
  cbn [message buffers set_buffers] in E. rewrite Hl, insert_insert_eq, lookup_insert_eq in E.
  injection E as _ <-. by exists l, txt'.
Qed.

(** Opening and closing. *)
Lemma binv_open B σ i l junk :
  binv B σ → (∀ j t, s_tasks σ !! j = Some t → ¬ is_reader t) →
  buffers (s_entry σ) !! l = None →
  binv B (System (Proc (data (s_entry σ)) (Some l) 1 (<[l := junk]> (buffers (s_entry σ))))
    (s_owner σ) (<[i := WantLock SPrint]> (s_tasks σ))).
Proof.
  intros [H1 H2] Hno Hl. specialize (H2 Hno). split; cbn [s_tasks s_entry].
  - intros j u Hu Hb. exists l, junk. rewrite <- H2. done.
  - intros Hno'. destruct (Hno' i (WantLock SPrint)); [|done]. apply lookup_insert_eq.
Qed.

Lemma binv_close B σ i seen r s' :
  binv B σ → one_reader σ → s_tasks σ !! i = Some (Closing seen) →
  elevator_release (s_entry σ) = Done (r, s') →
  binv B (System s' (s_owner σ) (<[i := Closed seen]> (s_tasks σ))).
Proof.
  intros [H1 _] Hone Ht E. destruct (H1 i _ Ht I) as (l & txt & Hl & HB & Hb).
  unfold elevator_release, mbind, M_bind, kfree_message in E. rewrite Hl, Hb, lookup_insert_eq in E.
  injection E as _ <-. split; cbn [s_tasks s_entry].
  - intros j u. rewrite lookup_insert. case_decide; [by intros [= <-]|]. intros Hu Hbu.
    assert (i = j) by (eapply (Hone i j (Closing seen) u); eauto; done). done.
  - intros _. cbn [buffers set_buffers]. by apply delete_message.
Qed.

Lemma binv_step sig B L0 tr σ L a l σ' :
  sys_inv L0 tr σ L a → binv B σ → step (orderly sig) σ l σ' → binv B σ'.
Proof.
  intros SI HB Hs. pose proof SI as [I RI]. pose proof (proj1 RI) as Hone.
  destruct Hs as [σ i p s d mem o w' Ht _ _|σ i mem junk u s' Ht Hmay Hl E|σ i c Ht Ho|σ i c Hsig Ht
    |σ i c ans s' Ht Hb|σ i c ans t Ht Ho Hau|σ i Ht|σ i seen size n txt s' Ht E
    |σ i seen r s' Ht E].
  - eapply binv_update; [done..| |auto|by left]. by destruct o.
  - destruct mem as [l|]; [|done]. destruct Hmay as [?|Hno]; [done|].
    rewrite open_prepare_shows in E. injection E as _ <-. exact (binv_open B σ i l junk HB Hno Hl).
  - eapply binv_update; [done..| |auto|by left]. by destruct c.
  - eapply binv_update; [done..| |auto|by left]. by destruct c.
  - destruct (inv_body L0 σ L a i c ans s' I Ht (printing _ _ _ _ RI Ht) Hb) as (a' & _ & He & _).
    eapply binv_update; [done..| | |].
    + by destruct c.
    + intros Hbuf. destruct c; try done. by eapply body_print_owns.
    + destruct c; try (by left). by right.
  - eapply binv_update; [done..| |auto|by left]. by destruct Hau.
  - destruct (proj2 RI i _ Ht) as (t0 & (l & Hm & _) & _). rewrite Hm.
    by eapply binv_update; [done..| |auto|by left].
  - destruct (proj2 RI i _ Ht) as (t0 & Hsh & _).
    rewrite (elevator_read_shows size _ t0 Hsh) in E.
    assert (message s' = message (s_entry σ) ∧ buffers s' = buffers (s_entry σ)) as [E1 E2].
    { case_bool_decide; by injection E as _ _ <-. }
    eapply binv_update; [done..| | |by right]; [by destruct (bool_decide (n = 0))|].
    intros _ (l & txt0 & Hl & HBl & Hbl). exists l, txt0. by rewrite E1, E2.
  - exact (binv_close B σ i seen r s' HB Hone Ht E).
Qed.

Lemma binv_steps sig L a σ tr σ' :
  fresh_system σ → rep L (s_world σ) a → wf a → steps (orderly sig) σ tr σ' →
  binv (buffers (s_entry σ)) σ'.
Proof.
  intros F R W Hs. pose proof (sys_fresh σ L a F R W) as I.
  assert (H0 : binv (buffers (s_entry σ)) σ).
  { split; [|done]. intros i t Ht Hb. destruct F as (_ & Hns). specialize (Hns i t Ht).
    by destruct t as [| |[]| | | | | | | |]. }
  induction Hs as [σ|σ tr σ1 l σ2 Hs IH Hstep]; [done|].
  destruct (sys_steps_from _ _ _ _ _ _ _ I Hs) as (L1 & a1 & I1 & _).
  eapply binv_step; [exact I1|by apply IH|done].
Qed.
End Buffers.

(** ** Properties *)

Section Properties.
Context {LA : ListApi node} {LL : ListLaws LA}.
Implicit Types (k : kmod) (a : astate) (L : gmap loc passenger) (σ : system).

(** C4. From load to unload.  After a successful load, any interleaving of the
    thread, callers of the system calls and readers in which memory is available
    and readers take turns, and an unload, the live passenger objects are those
    from before the load and those of requests that had not reached their
    critical section, or never will because their lock call was interrupted: once
    every task has ended nothing leaks.  No buffer of the proc entry is left then,
    and the system calls return -ENOSYS.  (An interrupted task has not ended; what
    holds is claimed up to its unlock call.) *)
Theorem concurrent_load_run_unload sig k r k1 s tasks tr σ' :
  length (b_f (w_b (k_world k))) = 10%nat →
  elevator_init true (Task true) k = Done (r, k1) → data s = k_world k1 →
  fresh_system (System s None tasks) → steps (orderly sig) (System s None tasks) tr σ' →
  wp elevator_exit (λ _ k', heap (k_world k) ⊆ heap (k_world k') ∧
    (∀ l, is_Some (heap (k_world k') !! l) ↔
       is_Some (heap (k_world k) !! l) ∨ ∃ i t, s_tasks σ' !! i = Some t ∧ carries t = Some l) ∧
    ((∀ i t, s_tasks σ' !! i = Some t → ended t) →
       heap (k_world k') = heap (k_world k) ∧ buffers (s_entry σ') = buffers s) ∧
    ∀ loaded w, every_syscall loaded (k_stubs k') w (Done (- ENOSYS, w)))
    (set_world (s_world σ') k1).
Proof using LL.
  intros Hlen Hinit Hdata F Hs.
  destruct (load_succeeds k Hlen) as (k1' & E & R1 & _). rewrite Hinit in E. injection E as -> <-.
  set (σ := System s None tasks) in *.
  assert (R0 : rep (heap (k_world k)) (s_world σ) a_init) by (unfold s_world; cbn; by rewrite Hdata).
  destruct (sys_steps sig σ _ _ tr σ' F R0 wf_init Hs) as (L' & a' & [I _] & _).
  pose proof (binv_steps sig _ _ σ tr σ' F R0 wf_init Hs) as [_ Hbuf].
  unfold elevator_exit. apply wp_bind, wp_modify, wp_bind, wp_modify, wp_bind.
  apply wp_in_world. eapply wp_mono.
  { eapply free_all, rep_lists_hold. exact (inv_rep _ _ _ _ I). }
  cbn. intros _ w'' [Hh _]. apply wp_bind, wp_modify, wp_modify. cbn. rewrite Hh.
  split_and!; [apply (inv_base _ _ _ _ I)| | |done].
  - intros l. split.
    + intros [p Hp]. destruct (inv_off _ _ _ _ I l p Hp) as [?|(i & t & Ht & Hc)]; [left; eauto|eauto].
    + intros [[p Hp]|(i & t & Ht & Hc)].
      * exists p. eapply lookup_weaken; [exact Hp|apply (inv_base _ _ _ _ I)].
      * destruct (inv_carry _ _ _ _ I i t l Ht Hc) as (_ & p & Hp & _). by exists p.
  - intros Hend. split.
    + eapply inv_nobody_carries; [exact I|]. intros i t Ht%Hend.
      by destruct t as [| |[]|[]|[]|[]| | | | |].
    + apply Hbuf. intros i t Ht%Hend Hb. by destruct t as [| |[]|[]|[]|[]| | | | |].
Qed.
End Properties.
