(* ===== verification/UnloadRace.v ===== *)
(** * Unloading while system calls arrive

    System calls enter the module through the stub pointers: a call tests the
    pointer, reads it again and jumps.  [elevator_exit] stops the thread, clears
    the pointers, frees the lists, destroys the mutex and removes the entry,
    and the kernel then discards the module; nothing makes it wait for callers.
    The machine here adds this to the system of Concurrency.v: callers arrive at
    any time, each on its way into or out of the module, readers of /proc/elevator
    come too, and the unload goes ahead step by step.  Shown: an unload that
    clears the pointers when nobody is between the test and the return, and the
    entry is neither open nor opened any more, is safe and leaves nothing behind;
    one that does not can send a caller through a NULL pointer or leave it in
    code that is gone.  What the surroundings may do is the parameter [env] of
    Concurrency.v. *)

From S2P Require Import Decimal.
From S2P Require Import Prelude KThread KList ProcEntry ElevatorData ElevatorOps ElevatorSpec.
From S2P Require Import ElevatorRefine RunElevator Liveness Stats Syscalls ProcFs Lifecycle.
From S2P Require Import Concurrency LockInvariant Interleavings Rides Schedule.

(** ** The machine *)

(** A system call in the kernel (SystemCalls/*.c). *)
Inductive caller : Type :=
| AtTest (c : call)       (* before [if (STUB_... != NULL)] *)
| AtCall (c : call)       (* before [return STUB_...(...)] *)
| InModule                (* in a function of the module, or with /proc/elevator open *)
| Answered (r : Z).

(** How far the unload has come. *)
Inductive stage : Type := Loaded | ThreadStopped | Unlinked | Freed | Discarded.

Section Code.
Context {LA : ListApi node}.

Record machine := Machine {
  m_sys : system;              (* the memory and the tasks in the module *)
  m_mod : kmod;                (* the rest of the module; its world is unused *)
  m_stage : stage;
  m_calls : gmap nat caller;
}.
Implicit Types (m : machine).

Definition set_sys v m : machine := Machine v (m_mod m) (m_stage m) (m_calls m).
Definition set_call i v m : machine :=
  Machine (m_sys m) (m_mod m) (m_stage m) (<[i := v]> (m_calls m)).

(** The whole module, as the pieces of [elevator_exit] see it. *)
Definition module_of m : kmod := set_world (s_world (m_sys m)) (m_mod m).
Definition set_module (k : kmod) (st : stage) m : machine :=
  Machine (set_sworld (k_world k) (m_sys m)) k st (m_calls m).

(** [elevator_exit] in pieces: kthread_stop, [unlink_syscalls], the loops, and
    the rest. *)
Definition exit_thread : M kmod unit := modify (set_thread (Task false)).
Definition exit_unlink : M kmod unit := modify (λ k, set_stubs (unlink_syscalls (k_stubs k)) k).
Definition exit_free : M kmod unit :=
  in_world (for_range 10 (λ i, free_list (EP i) ;; free_list (FW i))).
Definition exit_rest : M kmod unit :=
  modify (set_mutex MutexDestroyed) ;; modify (Lifecycle.set_entry false).

Lemma elevator_exit_pieces :
  elevator_exit = (exit_thread ;; exit_unlink ;; exit_free ;; exit_rest).
Proof. done. Qed.

(** Nobody is between the test of a pointer and the return from the module. *)
Definition outside (x : caller) : Prop :=
  match x with AtTest _ | Answered _ => True | _ => False end.
Definition quiescent m : Prop := ∀ i x, m_calls m !! i = Some x → outside x.

(** One step in the surroundings [en]; [calm] says that the pointers are cleared
    in a quiescent state only, and that the entry is not opened from then on.
    Task 0 is the thread. *)
Inductive mstep (en : env) (calm : bool) : machine → machine → Prop :=
| m_arrive m i c :
    m_calls m !! i = None → s_tasks (m_sys m) !! i = None →
    mstep en calm m (set_call i (AtTest c) m)
| m_test m i c :
    m_calls m !! i = Some (AtTest c) →
    mstep en calm m (set_call i
      (if linked c (k_stubs (m_mod m)) then AtCall c else Answered (- ENOSYS)) m)
| m_call m i c :
    m_calls m !! i = Some (AtCall c) → linked c (k_stubs (m_mod m)) = true →
    m_stage m ≠ Discarded →
    mstep en calm m (set_call i InModule (set_sys (set_task i (enter c) (m_sys m)) m))
| m_open m i :
    m_calls m !! i = None → s_tasks (m_sys m) !! i = None → m_stage m ≠ Discarded →
    (calm = true → m_stage m = Loaded ∨ m_stage m = ThreadStopped) →
    mstep en calm m (set_call i InModule (set_sys (set_task i Opening (m_sys m)) m))
| m_run m l σ' :
    m_stage m ≠ Discarded → step en (m_sys m) l σ' → mstep en calm m (set_sys σ' m)
| m_return m i r :
    m_stage m ≠ Discarded →
    m_calls m !! i = Some InModule → s_tasks (m_sys m) !! i = Some (Returned r) →
    mstep en calm m (set_call i (Answered r) m)
| m_closed m i seen :
    m_stage m ≠ Discarded →
    m_calls m !! i = Some InModule → s_tasks (m_sys m) !! i = Some (Closed seen) →
    mstep en calm m (set_call i (Answered 0) m)
| m_exit_thread m r k :
    m_stage m = Loaded → s_tasks (m_sys m) !! 0%nat = Some (Returned r) →
    exit_thread (module_of m) = Done (tt, k) → mstep en calm m (set_module k ThreadStopped m)
| m_exit_unlink m k :
    m_stage m = ThreadStopped → (calm = true → quiescent m) →
    exit_unlink (module_of m) = Done (tt, k) → mstep en calm m (set_module k Unlinked m)
| m_exit_free m k :
    m_stage m = Unlinked →
    exit_free (module_of m) = Done (tt, k) → mstep en calm m (set_module k Freed m)
| m_exit_rest m k :
    m_stage m = Freed →
    exit_rest (module_of m) = Done (tt, k) → mstep en calm m (set_module k Discarded m).

(** What can go wrong for a task: a fault inside the module, a jump through
    NULL, code that is gone. *)
Definition goes_wrong (en : env) m (i : nat) (f : fault) : Prop :=
  (m_stage m ≠ Discarded ∧ task_faults en (m_sys m) i f) ∨
  (∃ c, m_calls m !! i = Some (AtCall c) ∧ linked c (k_stubs (m_mod m)) = false ∧ f = NullDeref) ∨
  (m_stage m = Discarded ∧ f = UseAfterFree ∧
   (m_calls m !! i = Some InModule ∨
    ∃ c, m_calls m !! i = Some (AtCall c) ∧ linked c (k_stubs (m_mod m)) = true)).

(** ... and for the unload: the lists are freed, without the mutex, while a
    task is in a critical section, or freeing them faults. *)
Definition unload_wrong m : Prop :=
  m_stage m = Unlinked ∧
  (s_owner (m_sys m) ≠ None ∨ ¬ ∃ k, exit_free (module_of m) = Done (tt, k)).

(** Just loaded: only the thread is there. *)
Definition just_loaded m : Prop :=
  m_stage m = Loaded ∧ s_owner (m_sys m) = None ∧
  s_tasks (m_sys m) = {[0%nat := WantLock SLoad]} ∧ m_calls m = ∅ ∧
  (∀ c, linked c (k_stubs (m_mod m)) = true).
End Code.

(** ** What holds of every state *)

Section Invariant.
Context {LA : ListApi node} {LL : ListLaws LA}.
Implicit Types (m : machine) (σ : system) (L : gmap loc passenger).

Lemma set_sworld_id σ : set_sworld (s_world σ) σ = σ.
Proof. by destruct σ as [[] ? ?]. Qed.

(** The tasks in the module are the thread and what the callers have started. *)
Record matched m : Prop := {
  mt_thread : is_Some (s_tasks (m_sys m) !! 0%nat) ∧ m_calls m !! 0%nat = None;
  mt_call i x : m_calls m !! i = Some x →
    match x with
    | AtTest _ | AtCall _ => s_tasks (m_sys m) !! i = None
    | InModule => True
    | Answered _ => ∀ t, s_tasks (m_sys m) !! i = Some t → ended t
    end;
  mt_task i t : s_tasks (m_sys m) !! i = Some t → i ≠ 0%nat →
    ∃ x, m_calls m !! i = Some x ∧ match x with InModule | Answered _ => True | _ => False end;
}.

(** Before and after the pointers are cleared. *)
Definition before_unlink L0 m : Prop :=
  (∃ tr L a, sys_inv L0 tr (m_sys m) L a) ∧ (∀ c, linked c (k_stubs (m_mod m)) = true) ∧
  (m_stage m = ThreadStopped → ∃ r, s_tasks (m_sys m) !! 0%nat = Some (Returned r)).
Definition after_unlink L0 m : Prop :=
  quiescent m ∧ (∀ c, linked c (k_stubs (m_mod m)) = false) ∧
  (∀ i t, s_tasks (m_sys m) !! i = Some t → ended t) ∧ s_owner (m_sys m) = None ∧
  match m_stage m with
  | Unlinked => ∃ a, rep L0 (s_world (m_sys m)) a
  | _ => heap (s_world (m_sys m)) = L0
  end.

Definition minv calm L0 m : Prop :=
  matched m ∧
  match m_stage m with
  | Loaded | ThreadStopped => before_unlink L0 m
  | _ => calm = true → after_unlink L0 m
  end.

Lemma matched_call m i x :
  matched m → i ≠ 0%nat →
  match x with
  | AtTest _ | AtCall _ => s_tasks (m_sys m) !! i = None
  | InModule => False
  | Answered _ => ∀ t, s_tasks (m_sys m) !! i = Some t → ended t
  end → matched (set_call i x m).
Proof.
  intros [[Ht Hc] Hcall Htask] Hi Hx. split; cbn [m_sys m_calls set_call].
  - by rewrite lookup_insert_ne.
  - intros j y. rewrite lookup_insert. case_decide; [intros [= <-]; subst; by destruct x|apply Hcall].
  - intros j t Hj Hne. rewrite lookup_insert. case_decide; [subst|by eapply Htask].
    exists x. split; [done|]. destruct x; congruence || done.
Qed.

Lemma matched_enter m i t :
  matched m → i ≠ 0%nat → matched (set_call i InModule (set_sys (set_task i t (m_sys m)) m)).
Proof.
  intros [[Ht Hc] Hcall Htask] Hi.
  split; cbn [m_sys m_calls set_call set_sys s_tasks set_task].
  - by rewrite !lookup_insert_ne.
  - intros j y. rewrite !lookup_insert. case_decide; [by intros [= <-]|apply Hcall].
  - intros j u. rewrite !lookup_insert. case_decide; [intros _ _; by eexists|by apply Htask].
Qed.

Lemma matched_run en m l σ' : matched m → step en (m_sys m) l σ' → matched (set_sys σ' m).
Proof.
  intros [[Ht Hc] Hcall Htask] (i & t & t' & Hi & Hne & E)%step_task.
  split; cbn [m_sys m_calls set_sys]; rewrite ?E.
  - split; [|done]. apply lookup_insert_is_Some'. by right.
  - intros j x Hx. pose proof (Hcall j x Hx) as H.
    destruct (decide (j = i)) as [->|]; [|rewrite lookup_insert_ne by done; exact H].
    destruct x; try done; try congruence. by destruct Hne; apply H.
  - intros j u. rewrite lookup_insert. case_decide; [subst; intros _; by eapply Htask|apply Htask].
Qed.

Lemma matched_module m k st : matched m → matched (set_module k st m).
Proof. by intros [? ? ?]. Qed.

Lemma exit_free_frees L w k a :
  rep L w a → k_world k = w → ∃ k', exit_free k = Done (tt, k') ∧ heap (k_world k') = L ∧
    k_stubs k' = k_stubs k.
Proof.
  intros R E. pose proof (free_all L w (entries a) (rep_lists_hold _ _ _ R)) as H.
  apply wp_done in H as ([] & w' & Ef & Hh & _).
  unfold exit_free, in_world. rewrite E, Ef. eexists. by split_and!.
Qed.

(** Nobody runs in the module after the pointers were cleared. *)
Lemma after_unlink_still en L0 m l σ' : after_unlink L0 m → ¬ step en (m_sys m) l σ'.
Proof. intros (_ & _ & Hend & _) (i & t & t' & Hi & Hne & _)%step_task. by apply Hne, (Hend i). Qed.

(** Everybody has ended in a quiescent state without the thread. *)
Lemma quiescent_ended m :
  matched m → quiescent m → (∃ r, s_tasks (m_sys m) !! 0%nat = Some (Returned r)) →
  ∀ i t, s_tasks (m_sys m) !! i = Some t → ended t.
Proof.
  intros [_ Hcall Htask] Hq [r Hr] i t Hi. destruct (decide (i = 0%nat)) as [->|Hne].
  { rewrite Hr in Hi. by injection Hi as <-. }
  destruct (Htask i t Hi Hne) as (x & Hx & Hx'). pose proof (Hcall i x Hx) as H.
  pose proof (Hq i x Hx). destruct x; try done. by apply H.
Qed.

Lemma minv_unlink L0 m k :
  matched m → m_stage m = ThreadStopped → before_unlink L0 m → quiescent m →
  exit_unlink (module_of m) = Done (tt, k) → after_unlink L0 (set_module k Unlinked m).
Proof.
  intros M Hst ((tr & L & a & [I RI]) & _ & Hthr) Hq E. injection E as <-.
  pose proof (quiescent_ended m M Hq (Hthr Hst)) as Hend.
  assert (L = L0) as ->.
  { eapply inv_nobody_carries; [exact I|]. intros i t Ht%Hend.
    by destruct t as [| |[]|[]|[]|[]| | | | |]. }
  split_and!; [exact Hq|intros c; apply linked_unlink|exact Hend| |].
  - cbn. destruct (s_owner (m_sys m)) as [i|] eqn:Ho; [|done].
    apply (inv_owner _ _ _ _ I) in Ho as (t & Ht & Hin). apply Hend in Ht. by destruct t.
  - exists a. exact (inv_rep _ _ _ _ I).
Qed.

(** Steps that change the calls only. *)
Lemma minv_set_call calm L0 m i x :
  minv calm L0 m → matched (set_call i x m) → (after_unlink L0 m → outside x) →
  minv calm L0 (set_call i x m).
Proof.
  intros [M H] M' Hx. split; [exact M'|]. cbn [m_stage set_call].
  assert (Hq : after_unlink L0 m → after_unlink L0 (set_call i x m)).
  { intros A. pose proof A as (Hq & H'). split; [|exact H']. intros j y. cbn [m_calls set_call].
    rewrite lookup_insert. case_decide; [intros [= <-]; auto|apply Hq]. }
  destruct (m_stage m); auto.
Qed.

Lemma minv_test calm L0 m i c :
  minv calm L0 m → m_calls m !! i = Some (AtTest c) →
  minv calm L0 (set_call i
    (if linked c (k_stubs (m_mod m)) then AtCall c else Answered (- ENOSYS)) m).
Proof.
  intros Hm Hc. pose proof (proj1 Hm) as M. pose proof (mt_call _ M i _ Hc) as Hn. cbn in Hn.
  apply minv_set_call; [done| |].
  - apply matched_call; [done| |].
    + intros ->. destruct (mt_thread _ M). congruence.
    + destruct (linked c _); [done|]. intros t. congruence.
  - intros (_ & Hl & _). by rewrite Hl.
Qed.

(** Somebody enters the module. *)
Lemma minv_enter calm L0 m i t :
  minv calm L0 m → s_tasks (m_sys m) !! i = None → not_started t →
  (calm = true → ¬ after_unlink L0 m) →
  minv calm L0 (set_call i InModule (set_sys (set_task i t (m_sys m)) m)).
Proof.
  intros [M H] Hn Ht Hno. assert (Hi : i ≠ 0%nat).
  { intros ->. destruct (mt_thread _ M) as [[? ?] _]. congruence. }
  split; [by apply matched_enter|]. cbn [m_stage set_call set_sys].
  assert (Hb : before_unlink L0 m →
    before_unlink L0 (set_call i InModule (set_sys (set_task i t (m_sys m)) m))).
  { intros ((tr & L & a & I) & Hl & Hr). split_and!; [|done|].
    - exists tr, L, a. by apply sys_new.
    - intros Hst. destruct (Hr Hst) as [r Hr0]. exists r. cbn.
      by rewrite lookup_insert_ne. }
  destruct (m_stage m); auto; intros Hcalm; by destruct (Hno Hcalm (H Hcalm)).
Qed.

Lemma minv_run sig calm L0 m l σ' :
  minv calm L0 m → step (orderly sig) (m_sys m) l σ' → minv calm L0 (set_sys σ' m).
Proof.
  intros [M H] Hs. split; [by eapply matched_run|]. cbn [m_stage set_sys].
  assert (Hb : before_unlink L0 m → before_unlink L0 (set_sys σ' m)).
  { intros ((tr & L & a & I) & Hl & Hr). split_and!; [|done|].
    - destruct (sys_step _ _ _ _ _ _ _ _ I Hs) as (L' & a' & I' & _). by exists (tr ++ l), L', a'.
    - intros Hst. destruct (Hr Hst) as [r Hr0]. exists r. cbn.
      destruct (step_task _ _ _ _ Hs) as (i & t & t' & Hi & Hne & ->).
      rewrite lookup_insert_ne; [done|]. intros ->. rewrite Hr0 in Hi. injection Hi as <-. by apply Hne. }
  destruct (m_stage m); auto; intros Hcalm; by destruct (after_unlink_still _ L0 m l σ' (H Hcalm) Hs).
Qed.

Lemma minv_step sig calm L0 m m' :
  minv calm L0 m → mstep (orderly sig) calm m m' → minv calm L0 m'.
Proof.
  intros Hm Hs. pose proof Hm as [M H].
  destruct Hs as [m i c Hc Ht|m i c Hc|m i c Hc Hl Hst|m i Hc Ht Hst Hwhen|m l σ' Hst Hstep
    |m i r Hst Hc Ht|m i seen Hst Hc Ht|m r k Hst Ht E|m k Hst Hq E|m k Hst E|m k Hst E].
  - apply minv_set_call; [done| |done]. apply matched_call; [done| |done].
    intros ->. destruct (mt_thread _ M) as [[? ?] _]. congruence.
  - by apply minv_test.
  - apply minv_enter; [done|exact (mt_call _ M i _ Hc)|apply enter_not_started|].
    intros _ (Hq & _). by apply (Hq i _ Hc).
  - apply minv_enter; [done..|]. intros Hcalm (_ & Hl & _).
    assert (Hb : before_unlink L0 m) by (destruct (Hwhen Hcalm) as [E|E]; by rewrite E in H).
    destruct Hb as (_ & Hl' & _). specialize (Hl CStart). specialize (Hl' CStart). congruence.
  - by eapply minv_run.
  - apply minv_set_call; [done| |done]. apply matched_call; [done| |].
    + intros ->. destruct (mt_thread _ M). congruence.
    + intros t. rewrite Ht. by intros [= <-].
  - apply minv_set_call; [done| |done]. apply matched_call; [done| |].
    + intros ->. destruct (mt_thread _ M). congruence.
    + intros t. rewrite Ht. by intros [= <-].
  - split; [by apply matched_module|]. rewrite Hst in H. injection E as <-.
    destruct H as (HI & Hl & _). split_and!; [|done|by eexists].
    cbn [m_sys set_module k_world set_thread module_of set_world]. by rewrite set_sworld_id.
  - split; [by apply matched_module|]. intros Hcalm. rewrite Hst in H.
    eapply minv_unlink; eauto.
  - split; [by apply matched_module|]. intros Hcalm. rewrite Hst in H.
    destruct (H Hcalm) as (Hq & Hl & Hend & Ho & Hw). rewrite Hst in Hw. destruct Hw as [a R].
    destruct (exit_free_frees L0 _ (module_of m) a R eq_refl) as (k' & E' & Hh & Hk).
    rewrite E in E'. injection E' as <-. split_and!; [done| |done..].
    intros c. cbn [m_mod set_module]. rewrite Hk. apply Hl.
  - split; [by apply matched_module|]. intros Hcalm. rewrite Hst in H.
    destruct (H Hcalm) as (Hq & Hl & Hend & Ho & Hw). rewrite Hst in Hw.
    injection E as <-. by split_and!.
Qed.

Lemma minv_loaded L a m : just_loaded m → rep L (s_world (m_sys m)) a → wf a → ∀ calm, minv calm L m.
Proof.
  intros (Hst & Ho & Ht & Hc & Hl) R W calm. split.
  - split; rewrite ?Ht, ?Hc.
    + by split.
    + done.
    + intros i t [<- _]%lookup_singleton_Some. done.
  - rewrite Hst. split_and!; [|done|by rewrite Hst]. exists [], L, a. apply sys_fresh; [|done..].
    split; [done|]. intros i t. rewrite Ht. by intros [_ <-]%lookup_singleton_Some.
Qed.

Lemma minv_reach sig calm L0 m m' :
  minv calm L0 m → rtc (mstep (orderly sig) calm) m m' → minv calm L0 m'.
Proof. intros H Hs. induction Hs as [|m m1 m2 Hs _ IH]; [done|]. by eapply IH, minv_step. Qed.

Lemma minv_safe sig L0 m i f :
  minv true L0 m → goes_wrong (orderly sig) m i f →
  f = BadUnlock ∧ ∃ c, s_tasks (m_sys m) !! i = Some (Interrupted c).
Proof.
  intros [M H] Hw.
  assert (HA : after_unlink L0 m → False).
  { intros (Hq & Hl & Hend & _). destruct Hw as [[_ Hf]|[(c & Hc & _)|(_ & _ & [Hc|(c & Hc & _)])]].
    - unfold task_faults in Hf. destruct (s_tasks (m_sys m) !! i) as [t|] eqn:Ht; [|done].
      apply Hend in Ht. by destruct t.
    - by apply (Hq i _ Hc).
    - by apply (Hq i _ Hc).
    - by apply (Hq i _ Hc). }
  assert (HB : before_unlink L0 m → m_stage m ≠ Discarded →
    f = BadUnlock ∧ ∃ c, s_tasks (m_sys m) !! i = Some (Interrupted c)).
  { intros ((tr & L & a & I) & Hl & _) Hst.
    destruct Hw as [[_ Hf]|[(c & _ & Hc & _)|(Hd & _)]]; [|by rewrite Hl in Hc|done].
    by eapply sys_no_fault. }
  destruct (m_stage m); auto; by destruct (HA (H eq_refl)).
Qed.

(** Without signals no task of the machine is ever interrupted. *)
Lemma machine_not_interrupted en calm m m' :
  signals en = false → rtc (mstep en calm) m m' →
  (∀ i t, s_tasks (m_sys m) !! i = Some t → ¬ is_interrupted t) →
  ∀ i t, s_tasks (m_sys m') !! i = Some t → ¬ is_interrupted t.
Proof.
  intros Hsig Hs. induction Hs as [|m m1 m2 Hs _ IH]; [done|]. intros H. apply IH. clear IH.
  assert (Hnew : ∀ i u, ¬ is_interrupted u →
    ∀ j t, <[i := u]> (s_tasks (m_sys m)) !! j = Some t → ¬ is_interrupted t).
  { intros i u Hu j t. rewrite lookup_insert. case_decide; [by intros [= <-]|apply H]. }
  destruct Hs as [m i c|m i c|m i c|m i|m l σ' _ Hstep|m i r|m i seen|m r k|m k|m k|m k];
    try exact H.
  - apply Hnew. destruct c; intros [].
  - apply Hnew. intros [].
  - eapply (steps_not_interrupted en _ ([] ++ l)); [done| |exact H].
    eapply steps_snoc; [constructor|exact Hstep].
Qed.
End Invariant.

(** ** Unloading *)

Section Unloading.
Context {LA : ListApi node} {LL : ListLaws LA}.
Implicit Types (m : machine) (σ : system) (L : gmap loc passenger).

(** Executions of the system of Concurrency.v inside the machine. *)
Lemma run_steps en calm m tr σ' :
  m_stage m ≠ Discarded → steps en (m_sys m) tr σ' → rtc (mstep en calm) m (set_sys σ' m).
Proof.
  intros Hst Hs. remember (m_sys m) as σ eqn:E. induction Hs as [σ|σ tr σ1 l σ2 Hs IH Hstep].
  - subst σ. by destruct m.
  - etrans; [by apply IH|]. apply rtc_once. by apply (m_run en calm (set_sys σ1 m) l σ2).
Qed.

Lemma test_linked en calm m i c :
  m_calls m !! i = Some (AtTest c) → linked c (k_stubs (m_mod m)) = true →
  mstep en calm m (set_call i (AtCall c) m).
Proof. intros Hc Hl. pose proof (m_test en calm m i c Hc) as H. by rewrite Hl in H. Qed.

(** A thread that is about to load can run its iteration and end, while the other
    tasks wait. *)
Lemma thread_ends sig L0 tr σ L a i :
  sys_inv L0 tr σ L a → s_owner σ = None → s_tasks σ !! i = Some (WantLock SLoad) →
  ∃ tr' σ', steps (orderly sig) σ tr' σ' ∧ s_tasks σ' = <[i := Returned 0]> (s_tasks σ).
Proof.
  intros I Ho Ht.
  destruct (section_possible (sig := sig) _ _ _ _ _ i SLoad ELoad (WantLock SMove) I Ho Ht) as (ans & s1 & H1);
    [by left|].
  destruct (sys_steps_from _ _ _ _ _ _ _ I H1) as (L1 & a1 & I1 & _).
  destruct (section_possible (sig := sig) _ _ _ _ _ i SMove EMove (Returned 0) I1 eq_refl
    (lookup_insert_eq _ _ _)) as (ans' & s2 & H2); [by right; auto|].
  eexists _, _. split; [by eapply steps_app|]. cbn [s_tasks]. by rewrite insert_insert_eq.
Qed.

(** The rest of an unload. *)
Lemma unload_goes_on en calm L0 m :
  minv calm L0 m → m_stage m = ThreadStopped → (calm = true → quiescent m) →
  ∃ m1 m2, mstep en calm m m1 ∧ m_stage m1 = Unlinked ∧ (∀ c, linked c (k_stubs (m_mod m1)) = false) ∧
    m_calls m1 = m_calls m ∧ rtc (mstep en calm) m1 m2 ∧ m_stage m2 = Discarded ∧
    m_calls m2 = m_calls m.
Proof.
  intros [M H] Hst Hq. rewrite Hst in H. destruct H as ((tr & L & a & [I RI]) & _).
  set (k1 := set_stubs (unlink_syscalls (k_stubs (module_of m))) (module_of m)).
  set (m1 := set_module k1 Unlinked m).
  destruct (exit_free_frees L _ (module_of m1) a (inv_rep _ _ _ _ I) eq_refl) as (k2 & E2 & _).
  set (m2 := set_module k2 Freed m1).
  exists m1, (set_module (Lifecycle.set_entry false (set_mutex MutexDestroyed (module_of m2))) Discarded m2).
  split_and!; [by apply m_exit_unlink|done|intros c; apply linked_unlink|done| |done|done].
  eapply rtc_l; [by apply m_exit_free|]. apply rtc_once. by apply m_exit_rest.
Qed.
End Unloading.

(** ** Properties *)

Section Properties.
Context {LA : ListApi node} {LL : ListLaws LA}.
Implicit Types (m : machine) (a : astate) (L : gmap loc passenger).

(** C5. From the load on, callers and readers come and go at any time (memory is
    available, readers take turns), the thread runs and ends, and the module is
    unloaded step by step.  Suppose the pointers are cleared when nobody is
    between the test of a pointer and the return from the module or has the entry
    open, and the entry is not opened from then on.  Then nothing goes wrong for
    the unload, and nothing for a task but the unlock call after an interrupted
    lock call, so nothing at all without signals; once the pointers are cleared a
    call finds NULL and is answered -ENOSYS; from a quiescent state the unload
    can be finished, and at its end the live objects are those from before the
    load. *)
Theorem quiescent_unload_safe sig m0 L a m :
  just_loaded m0 → rep L (s_world (m_sys m0)) a → wf a → rtc (mstep (orderly sig) true) m0 m →
  (∀ i f, goes_wrong (orderly sig) m i f →
     f = BadUnlock ∧ ∃ c, s_tasks (m_sys m) !! i = Some (Interrupted c)) ∧
  (sig = false → ∀ i f, ¬ goes_wrong (orderly sig) m i f) ∧ ¬ unload_wrong m ∧
  (m_stage m ≠ Loaded → m_stage m ≠ ThreadStopped →
     quiescent m ∧ ∀ c, linked c (k_stubs (m_mod m)) = false) ∧
  (m_stage m = ThreadStopped → quiescent m →
     ∃ m', rtc (mstep (orderly sig) true) m m' ∧ m_stage m' = Discarded) ∧
  (m_stage m = Discarded → heap (s_world (m_sys m)) = L).
Proof.
  intros J R W Hs. pose proof (minv_reach sig true L m0 m (minv_loaded L a m0 J R W true) Hs) as Hm.
  pose proof Hm as [M H]. split_and!.
  - intros i f. by eapply minv_safe.
  - intros -> i f Hf. eapply minv_safe in Hf as (_ & c & Hc); [|done].
    eapply (machine_not_interrupted undisturbed true m0 m eq_refl Hs); [|exact Hc|exact I].
    intros j t. destruct J as (_ & _ & -> & _). intros [_ <-]%lookup_singleton_Some [].
  - intros [Hst Hw]. rewrite Hst in H. destruct (H eq_refl) as (_ & _ & _ & Ho & Hr).
    rewrite Hst in Hr. destruct Hr as [a' R']. destruct Hw as [Hw|Hw]; [done|]. apply Hw.
    destruct (exit_free_frees L _ (module_of m) a' R' eq_refl) as (k & E & _). by exists k.
  - intros H1 H2. destruct (m_stage m); try done; by destruct (H eq_refl) as (? & ? & _).
  - intros Hst Hq. destruct (unload_goes_on (orderly sig) true L m Hm Hst) as (m1 & m2 & Hs1 & _ & _ & _ & Hs2 & Hd & _);
      [done|]. exists m2. split; [by eapply rtc_l|done].
  - intros Hst. rewrite Hst in H. destruct (H eq_refl) as (_ & _ & _ & _ & Hh). by rewrite Hst in Hh.
Qed.

(** C38. Nothing in [elevator_exit] makes sure of that.  Whenever the thread has been
    stopped and a call has tested its pointer, the unload can clear the pointer
    before the call reads it again, and the call jumps through NULL; whenever a
    call is inside the module, the unload can run to its end, and the call is
    left in code that is gone. *)
Theorem unload_races sig m0 L a m i :
  just_loaded m0 → rep L (s_world (m_sys m0)) a → wf a → rtc (mstep (orderly sig) false) m0 m →
  m_stage m = ThreadStopped →
  (∀ c, m_calls m !! i = Some (AtCall c) →
     ∃ m', rtc (mstep (orderly sig) false) m m' ∧ goes_wrong (orderly sig) m' i NullDeref) ∧
  (m_calls m !! i = Some InModule →
     ∃ m', rtc (mstep (orderly sig) false) m m' ∧ goes_wrong (orderly sig) m' i UseAfterFree).
Proof.
  intros J R W Hs Hst.
  pose proof (minv_reach sig false L m0 m (minv_loaded L a m0 J R W false) Hs) as Hm.
  destruct (unload_goes_on (orderly sig) false L m Hm Hst) as (m1 & m2 & Hs1 & Hst1 & Hl1 & Hc1 & Hs2 & Hst2 & Hc2);
    [done|]. split.
  - intros c Hc. exists m1. split; [by apply rtc_once|]. right; left. exists c. by rewrite Hc1.
  - intros Hc. exists m2. split; [by eapply rtc_l|]. right; right. rewrite Hc2. by split_and!; [..|left].
Qed.
End Properties.
