(* ===== verification/UserProgs.v ===== *)
(** * The user programs (part3/elevator/test)

    wrappers.h reaches the system calls through their numbers in
    syscall_64.tbl; consumer starts and stops the elevator, producer issues one
    random request, driver a fixed series.  A program is the tree of its system
    calls, with what it prints and its exit status at the leaves.  What [rand]
    returns is an argument.  Sessions.v runs programs at the same time as the
    module. *)

From S2P Require Import Decimal.
From S2P Require Import Prelude KList ElevatorData ElevatorOps ElevatorSpec.
From S2P Require Import ElevatorRefine RunElevator Liveness Syscalls SyscallAbi Concurrency.

(** ** Programs *)

(** Exit status and standard output. *)
Record outcome := Outcome { exit_status : Z; printed : string }.

Inductive program : Type :=
| Exit (o : outcome)
| Syscall (nr : Z) (args : list Z) (k : Z → program).

(** ** syscall_64.tbl and wrappers.h *)

(** The three entries the project adds to the table. *)
Definition syscall_table (nr : Z) : option fn :=
  if bool_decide (nr = 335) then Some F_start_elevator
  else if bool_decide (nr = 336) then Some F_issue_request
  else if bool_decide (nr = 337) then Some F_stop_elevator
  else None.

Definition NR_START_ELEVATOR : Z := 335.
Definition NR_ISSUE_REQUEST : Z := 336.
Definition NR_STOP_ELEVATOR : Z := 337.

(** The functions of wrappers.h return an [int], the rest of the program runs
    with it. *)
Module Wrappers.
Definition start_elevator (k : Z → program) : program :=
  Syscall NR_START_ELEVATOR [] (λ r, k (wrap32 r)).
Definition issue_request (type start dest : Z) (k : Z → program) : program :=
  Syscall NR_ISSUE_REQUEST [type; start; dest] (λ r, k (wrap32 r)).
Definition stop_elevator (k : Z → program) : program :=
  Syscall NR_STOP_ELEVATOR [] (λ r, k (wrap32 r)).
End Wrappers.

(** ** consumer.c *)

Definition wrong_args : program := Exit (Outcome (-1) ("wrong number of args" +:+ nl)).

Definition start_line (ret : Z) : string := "Start elevator returned " +:+ pretty ret +:+ nl.
Definition stop_line (ret : Z) : string := "Stop elevator returned " +:+ pretty ret +:+ nl.

Definition consumer (argv : list string) : program :=
  match argv with
  | [_; arg] =>
      if bool_decide (arg = "--start") then
        Wrappers.start_elevator (λ ret, Exit (Outcome 0 (start_line ret)))
      else if bool_decide (arg = "--stop") then
        Wrappers.stop_elevator (λ ret, Exit (Outcome 0 (stop_line ret)))
      else Exit (Outcome (-1) "")
  | _ => wrong_args
  end.

(** ** producer.c *)

Definition rnd (rand min max : Z) : Z := Z.rem rand (max - min + 1) + min.

(** The loop draws destinations until one differs from the start; [None]: with
    these results of [rand] it goes on. *)
Fixpoint draw_dest (start : Z) (rands : list Z) : option Z :=
  match rands with
  | [] => None
  | x :: rands =>
      let dest := rnd x 1 10 in if bool_decide (dest = start) then draw_dest start rands else Some dest
  end.

Definition issue_line (type start dest ret : Z) : string :=
  "Issue (" +:+ pretty type +:+ ", " +:+ pretty start +:+ ", " +:+ pretty dest +:+
  ") returned " +:+ pretty ret +:+ nl.

Definition producer (argv : list string) (r1 r2 : Z) (rands : list Z) : option program :=
  match argv with
  | [_] =>
      let type := rnd r1 1 4 in
      let start := rnd r2 1 10 in
      dest ← draw_dest start rands;
      Some (Wrappers.issue_request type start dest (λ ret,
        Exit (Outcome 0 (issue_line type start dest ret))))
  | _ => Some wrong_args
  end.

(** ** driver.c *)

(** The requests of the loop (lines 11-17). *)
Definition driver_requests : list (Z * Z * Z) :=
  i ← [0; 1; 2]; (λ type, (type, i, (i + 1) * 2)) <$> [1; 2; 3; 4].

Fixpoint issue_all (qs : list (Z * Z * Z)) (p : program) : program :=
  match qs with
  | [] => p
  | (type, i, dest) :: qs => Wrappers.issue_request type i dest (λ _, issue_all qs p)
  end.

Definition driver (argv : list string) : program :=
  match argv with
  | [_] => issue_all driver_requests (Exit (Outcome 0 ""))
  | _ => Exit (Outcome (-1) ("Too many arguments lol" +:+ nl))
  end.

(** ** Programs on the kernel *)

(** The C library returns -1 for the values reserved for errors. *)
Definition libc_ret (r : Z) : Z := if bool_decide (-4095 ≤ r ≤ -1) then -1 else r.

(** The call of the module a number and its arguments stand for. *)
Definition call_of (nr : Z) (args : list Z) : option call :=
  match syscall_table nr, args with
  | Some F_start_elevator, _ => Some CStart
  | Some F_stop_elevator, _ => Some CStop
  | Some F_issue_request, [p; s; d] => Some (CIssue p s d)
  | _, _ => None
  end.

(** The bodies of part3/SystemCalls: through the pointer into the module, or
    -ENOSYS. *)
Definition through_stub (st : stubs) (c : call) : call + Z :=
  if linked c st then inl c else inr (- ENOSYS).

(** The entry of the system call table with the number [nr], run with the
    registers: the call of the module it makes, with the arguments the wrapper
    takes from the registers, or the value it returns at once. *)
Definition kernel_entry (st : stubs) (nr : Z) (regs : list Z) : option (call + Z) :=
  match syscall_table nr with
  | Some F_start_elevator => Some (through_stub st CStart)
  | Some F_stop_elevator => Some (through_stub st CStop)
  | Some F_issue_request =>
      args ← syscall_args 3 [T_int; T_int; T_int] regs;
      match args with [p; s; d] => Some (through_stub st (CIssue p s d)) | _ => None end
  | None => Some (inr (- ENOSYS))
  end.

(** The registers hold the arguments, in their lower halves. *)
Definition registers (args regs : list Z) : Prop :=
  Forall2 (λ z x, ∃ high, x = register z high) args regs.

(** ** What a program has done *)

(** From [p] to [p'] by the given calls and answers. *)
Inductive does : program → list (call * Z) → program → Prop :=
| does_nil p : does p [] p
| does_call nr args k c r cs p :
    call_of nr args = Some c → does (k (libc_ret r)) cs p →
    does (Syscall nr args k) ((c, r) :: cs) p.

(** Only calls of the module, with [int] arguments. *)
Inductive calls_ok : program → Prop :=
| ok_exit o : calls_ok (Exit o)
| ok_call nr args k :
    is_Some (call_of nr args) → Forall is_int args → (∀ r, calls_ok (k r)) →
    calls_ok (Syscall nr args k).

(** consumer: the one call its argument asks for, and the answer printed. *)
Definition consumer_did (argv : list string) (cs : list (call * Z)) (o : outcome) : Prop :=
  match argv with
  | [_; arg] =>
      if decide (arg = "--start") then
        ∃ r, cs = [(CStart, r)] ∧ (r = 0 ∨ r = 1) ∧ o = Outcome 0 (start_line r)
      else if decide (arg = "--stop") then
        ∃ r, cs = [(CStop, r)] ∧ (r = 0 ∨ r = 1) ∧ o = Outcome 0 (stop_line r)
      else cs = [] ∧ o = Outcome (-1) ""
  | _ => cs = [] ∧ o = Outcome (-1) ("wrong number of args" +:+ nl)
  end.

(** producer: one valid request between different floors, and the answer. *)
Definition producer_did (argv : list string) (cs : list (call * Z)) (o : outcome) : Prop :=
  match argv with
  | [_] => ∃ p s d r, cs = [(CIssue p s d, r)] ∧ valid_request p s d ∧ s ≠ d ∧
      (r = 0 ∨ r = 1) ∧ o = Outcome 0 (issue_line p s d r)
  | _ => cs = [] ∧ o = Outcome (-1) ("wrong number of args" +:+ nl)
  end.

(** driver: its twelve requests, in order; the four for floor 0 are rejected,
    the others are accepted if [accepted]. *)
Definition driver_did (accepted : Prop) (argv : list string) (cs : list (call * Z))
    (o : outcome) : Prop :=
  match argv with
  | [_] => o = Outcome 0 "" ∧
      Forall2 (λ q c, c.1 = CIssue q.1.1 q.1.2 q.2) driver_requests cs ∧
      (take 4 cs).*2 = replicate 4 1 ∧ (accepted → (drop 4 cs).*2 = replicate 8 0)
  | _ => cs = [] ∧ o = Outcome (-1) ("Too many arguments lol" +:+ nl)
  end.

(** ** Proofs *)

Section Programs.
Lemma floor_int z : 0 ≤ z ≤ 10 → is_int z.
Proof. unfold is_int, INT_MIN, INT_MAX. lia. Qed.

Lemma issue_ok p s d k :
  is_int p → is_int s → is_int d → (∀ r, calls_ok (k r)) → calls_ok (Wrappers.issue_request p s d k).
Proof. intros. apply ok_call; [by eexists|by rewrite !Forall_cons, Forall_nil|done]. Qed.

Lemma consumer_ok argv : calls_ok (consumer argv).
Proof.
  destruct argv as [|? [|arg [|]]]; try by constructor. cbn [consumer].
  repeat case_bool_decide; constructor; try by eexists. all: try (intros; constructor).
Qed.

Lemma rnd_range x lo hi : 0 ≤ x → lo ≤ hi → lo ≤ rnd x lo hi ≤ hi.
Proof.
  intros Hx Hh. unfold rnd. pose proof (Z.rem_bound_pos x (hi - lo + 1)). lia.
Qed.

(** The loop of producer ends as soon as [rand] gives a different floor. *)
Lemma draw_dest_ends start rands :
  (∃ x, x ∈ rands ∧ rnd x 1 10 ≠ start) → is_Some (draw_dest start rands).
Proof.
  intros (x & Hx & Hne). induction Hx as [x rands|x y rands _ IH]; cbn.
  - by rewrite bool_decide_eq_false_2.
  - case_bool_decide; [by apply IH|by eexists].
Qed.

Lemma draw_dest_valid start rands dest :
  Forall (λ x, 0 ≤ x) rands → draw_dest start rands = Some dest → 1 ≤ dest ≤ 10 ∧ start ≠ dest.
Proof.
  induction 1 as [|x rands Hx _ IH]; cbn; [done|]. case_bool_decide; [done|].
  intros [= <-]. split; [by apply rnd_range|done].
Qed.

Lemma producer_calls argv r1 r2 rands p :
  Forall (λ x, 0 ≤ x) (r1 :: r2 :: rands) → producer argv r1 r2 rands = Some p →
  (p = wrong_args ∧ length argv ≠ 1%nat) ∨
  ∃ type start dest, length argv = 1%nat ∧ valid_request type start dest ∧ start ≠ dest ∧
    p = Wrappers.issue_request type start dest (λ ret,
      Exit (Outcome 0 (issue_line type start dest ret))).
Proof.
  intros H. apply Forall_cons in H as [H1 H]. apply Forall_cons in H as [H2 Hr].
  destruct argv as [|? [|]]; cbn; [intros [= <-]; by left| |intros [= <-]; by left].
  destruct (draw_dest _ rands) as [dest|] eqn:E; [|done]. intros [= <-]. right.
  destruct (draw_dest_valid _ _ _ Hr E) as [Hd Hne].
  pose proof (rnd_range r1 1 4 H1 ltac:(lia)). pose proof (rnd_range r2 1 10 H2 ltac:(lia)).
  by eexists _, _, dest.
Qed.

Lemma producer_ok argv r1 r2 rands p :
  Forall (λ x, 0 ≤ x) (r1 :: r2 :: rands) → producer argv r1 r2 rands = Some p → calls_ok p.
Proof.
  intros Hr E. destruct (producer_calls _ _ _ _ _ Hr E)
    as [[-> _]|(type & start & dest & _ & (?&?&?) & _ & ->)]; [constructor|].
  apply issue_ok; try by apply floor_int; lia. constructor.
Qed.

Lemma issue_all_ok qs p :
  Forall (λ q, is_int q.1.1 ∧ is_int q.1.2 ∧ is_int q.2) qs → calls_ok p → calls_ok (issue_all qs p).
Proof.
  intros Hq Hp. induction Hq as [|[[t i] d] qs (? & ? & ?) _ IH]; [done|]. by apply issue_ok.
Qed.

Lemma driver_ok argv : calls_ok (driver argv).
Proof.
  destruct argv as [|? [|]]; [constructor| |constructor]. apply issue_all_ok; [|constructor].
  by repeat (constructor; [split_and!; apply floor_int; cbn; lia|]).
Qed.

(** The answers a program has got determine where it is. *)
Lemma does_exit o cs p : does (Exit o) cs p → cs = [] ∧ p = Exit o.
Proof. inversion 1; by subst. Qed.

Lemma does_one nr args k cs o :
  does (Syscall nr args k) cs (Exit o) →
  ∃ c r cs', cs = (c, r) :: cs' ∧ call_of nr args = Some c ∧ does (k (libc_ret r)) cs' (Exit o).
Proof. inversion 1; subst. by eexists _, _, _. Qed.

Lemma ret_small r : r = 0 ∨ r = 1 → wrap32 (libc_ret r) = r.
Proof. by intros [-> | ->]. Qed.

Lemma does_issue_all qs o cs o' :
  does (issue_all qs (Exit o)) cs (Exit o') →
  o' = o ∧ Forall2 (λ q c, c.1 = CIssue q.1.1 q.1.2 q.2) qs cs.
Proof.
  revert cs. induction qs as [|[[t i] d] qs IH]; intros cs H; cbn in H.
  - apply does_exit in H as [-> [= <-]]. by split.
  - apply does_one in H as (c & r & cs' & -> & E & [Ho Hq]%IH).
    cbn in E. injection E as <-. split; [done|]. by constructor.
Qed.
End Programs.

(** ** The answers *)

(** What is known of every answer, and of the answers while requests are
    accepted. *)
Definition answer_ok (c : call) (r : Z) : Prop :=
  (r = 0 ∨ r = 1) ∧
  match c with CIssue p s d => ¬ valid_request p s d → r = 1 | _ => True end.
Definition accepting (c : call) (r : Z) : Prop :=
  match c with CIssue p s d => valid_request p s d → r = 0 | _ => True end.

(** What a finished program has done and printed. *)
Section Finished.
Context (tr : list (call * Z)).
Context (Hans : ∀ c, c ∈ tr → answer_ok c.1 c.2).

Lemma consumer_finished argv cs o :
  (∀ c, c ∈ cs → c ∈ tr) → does (consumer argv) cs (Exit o) → consumer_did argv cs o.
Proof using Hans.
  intros Hsub H. unfold consumer, consumer_did in *.
  destruct argv as [|? [|arg [|]]]; try by (apply does_exit in H as [-> [= <-]]).
  assert (Hr : ∀ c r, (c, r) ∈ cs → r = 0 ∨ r = 1).
  { intros c r Hc. apply (Hans (c, r)), Hsub, Hc. }
  repeat (case_bool_decide; [rewrite decide_True by done|rewrite decide_False by done]);
    [..|by apply does_exit in H as [-> [= ->]]].
  all: apply does_one in H as (c & r & cs' & -> & E & [-> [= ->]]%does_exit).
  all: injection E as <-; exists r; rewrite ret_small by (eapply Hr; left).
  all: split_and!; [done|eapply Hr; left|done].
Qed.

Lemma producer_finished argv r1 r2 rands p cs o :
  Forall (λ x, 0 ≤ x) (r1 :: r2 :: rands) → producer argv r1 r2 rands = Some p →
  (∀ c, c ∈ cs → c ∈ tr) → does p cs (Exit o) → producer_did argv cs o.
Proof using Hans.
  intros Hr E Hsub H. unfold producer_did.
  destruct (producer_calls _ _ _ _ _ Hr E)
    as [[-> Hlen]|(type & start & dest & Hlen & Hv & Hne & ->)].
  { apply does_exit in H as [-> [= <-]]. by destruct argv as [|? [|]]. }
  destruct argv as [|? [|]]; try done.
  apply does_one in H as (c & r & cs' & -> & E' & [-> [= ->]]%does_exit).
  injection E' as <-.
  assert (r = 0 ∨ r = 1) by (apply (Hans (CIssue type start dest, r)), Hsub; left).
  exists type, start, dest, r. by rewrite ret_small.
Qed.

(** Twelve answers: those to invalid requests are 1, those to valid ones 0 when
    requests are accepted. *)
Lemma driver_answers accepted qs cs :
  (∀ c, c ∈ cs → answer_ok c.1 c.2) → (accepted → ∀ c, c ∈ cs → accepting c.1 c.2) →
  Forall2 (λ q c, c.1 = CIssue q.1.1 q.1.2 q.2) qs cs →
  (Forall (λ q, ¬ valid_request q.1.1 q.1.2 q.2) qs → cs.*2 = replicate (length qs) 1) ∧
  (accepted → Forall (λ q, valid_request q.1.1 q.1.2 q.2) qs → cs.*2 = replicate (length qs) 0).
Proof.
  intros Hok Hacc H. induction H as [|q [c r] qs cs Ev _ IH]; [done|]. cbn in Ev. subst c.
  destruct IH as [IH1 IH2]; [intros; apply Hok; by right|intros ? ? ?; apply Hacc; [done|by right]|].
  split.
  - intros [Hq Hqs]%Forall_cons. cbn. f_equal; [|by apply IH1].
    by apply (Hok (CIssue q.1.1 q.1.2 q.2, r)); [left|].
  - intros Ha [Hq Hqs]%Forall_cons. cbn. f_equal; [|by apply IH2].
    by apply (Hacc Ha (CIssue q.1.1 q.1.2 q.2, r)); [left|].
Qed.

Lemma driver_finished (accepted : Prop) argv cs o :
  (accepted → ∀ c, c ∈ tr → accepting c.1 c.2) →
  (∀ c, c ∈ cs → c ∈ tr) → does (driver argv) cs (Exit o) → driver_did accepted argv cs o.
Proof using Hans.
  intros Hacc Hsub H. unfold driver, driver_did in *.
  destruct argv as [|? [|]]; try by (apply does_exit in H as [-> [= <-]]).
  apply does_issue_all in H as [-> H]. split; [done|]. split; [done|].
  assert (Ht : ∀ n c, c ∈ take n cs → c ∈ tr).
  { intros n c Hc. apply Hsub. rewrite <- (take_drop n cs). apply elem_of_app. by left. }
  assert (Hd : ∀ n c, c ∈ drop n cs → c ∈ tr).
  { intros n c Hc. apply Hsub. rewrite <- (take_drop n cs). apply elem_of_app. by right. }
  split.
  - apply (Forall2_take _ _ _ 4) in H.
    eapply (driver_answers accepted) in H as [-> _]; eauto.
    repeat constructor; vm_compute; intuition congruence.
  - intros Ha. apply (Forall2_drop _ _ _ 4) in H.
    eapply (driver_answers accepted) in H as [_ ->]; eauto.
    repeat constructor; vm_compute; intuition congruence.
Qed.
End Finished.

Definition user_program (p : program) : Prop :=
  (∃ argv, p = consumer argv) ∨ (∃ argv, p = driver argv) ∨
  (∃ argv r1 r2 rands, Forall (λ x, 0 ≤ x) (r1 :: r2 :: rands) ∧
     producer argv r1 r2 rands = Some p).

Lemma user_program_ok p : user_program p → calls_ok p.
Proof.
  intros [[argv ->]|[[argv ->]|(argv & r1 & r2 & rands & Hr & E)]];
    [apply consumer_ok|apply driver_ok|by eapply producer_ok].
Qed.

(** ** Into the kernel *)

(** With the pointers set, the entry makes the call the program asks for,
    whatever the upper halves of the registers hold. *)
Lemma kernel_entry_call nr args regs c :
  Forall is_int args → registers args regs → call_of nr args = Some c →
  kernel_entry (link_syscalls stubs_init) nr regs = Some (inl c).
Proof.
  intros Hi Hr E. unfold kernel_entry, call_of in *.
  destruct (syscall_table nr) as [[]|]; [|by injection E as <-..|done].
  destruct args as [|p [|s [|d []]]]; try done. injection E as <-.
  rewrite !Forall_cons in Hi. destruct Hi as (Hp & Hs & Hd & _).
  destruct regs as [|r0 [|r1 [|r2 []]]];
    try by (repeat apply Forall2_cons in Hr as [_ Hr]; inversion Hr).
  repeat (apply Forall2_cons in Hr as [[? ->] Hr]).
  rewrite int3_args. cbn [mbind option_bind]. by rewrite !cast_register.
Qed.

(** Without the module every call is answered -ENOSYS, which the programs see
    as -1. *)
Lemma kernel_entry_unlinked nr args regs c :
  registers args regs → call_of nr args = Some c →
  kernel_entry stubs_init nr regs = Some (inr (- ENOSYS)) ∧ wrap32 (libc_ret (- ENOSYS)) = -1.
Proof.
  intros Hr E. split; [|done]. unfold kernel_entry, call_of in *.
  destruct (syscall_table nr) as [[]|]; [|done..].
  destruct args as [|p [|s [|d []]]]; try done.
  destruct regs as [|r0 [|r1 [|r2 []]]];
    try by (repeat apply Forall2_cons in Hr as [_ Hr]; inversion Hr).
Qed.
