(* ===== verification/Sessions.v ===== *)
(** * Sessions: programs and the module at the same time

    Programs of user space (UserProgs.v) on top of the concurrent system of
    Concurrency.v.  A system call of a program becomes a task of the module: it
    takes its arguments from the registers, goes through the stub, runs there
    step by step, in any order with the steps of the elevator thread, of readers
    and of the other programs' calls, and its value returns to the program.  So
    calls can arrive between the two critical sections of the thread's iteration
    and while other calls are under way.  The module stays loaded. *)

From S2P Require Import Decimal.
From S2P Require Import Prelude KList ProcEntry ElevatorData ElevatorOps ElevatorSpec.
From S2P Require Import ElevatorRefine RunElevator Liveness Stats Syscalls SyscallAbi ProcFs.
From S2P Require Import Concurrency LockInvariant Interleavings UserProgs.

(** ** The machine *)

(** A program runs in user space, or task [j] runs its call [c] and the program
    waits for the value. *)
Inductive user : Type :=
| InUser (p : program)
| InKernel (j : nat) (c : call) (k : Z → program).

(** A call that has returned, with the program that made it. *)
Definition deed : Type := nat * (call * Z).

(** The calls of program [i], with the values returned. *)
Definition own (i : nat) (ds : list deed) : list (call * Z) :=
  snd <$> filter (λ d, d.1 = i) ds.

Section Code.
Context {LA : ListApi node} (en : env) (st : stubs).

Record users := Users { u_sys : system; u_progs : list user }.

(** One step: a program enters the kernel, whatever the upper halves of its
    registers hold; the kernel answers it without the module; the module runs; a
    call returns.  The labels are the operation performed and the call returned. *)
Inductive ustep : users → list (effect * answer) → list deed → users → Prop :=
| u_call σ us i j nr args k regs c :
    us !! i = Some (InUser (Syscall nr args k)) → registers args regs →
    kernel_entry st nr regs = Some (inl c) → s_tasks σ !! j = None →
    ustep (Users σ us) [] [] (Users (set_task j (enter c) σ) (<[i := InKernel j c k]> us))
| u_answer σ us i nr args k regs r :
    us !! i = Some (InUser (Syscall nr args k)) → registers args regs →
    kernel_entry st nr regs = Some (inr r) →
    ustep (Users σ us) [] [] (Users σ (<[i := InUser (k (libc_ret (cast T_long r)))]> us))
| u_run σ us l σ' :
    step en σ l σ' → ustep (Users σ us) l [] (Users σ' us)
| u_return σ us i j c k r :
    us !! i = Some (InKernel j c k) → s_tasks σ !! j = Some (Returned r) →
    ustep (Users σ us) [] [(i, (c, cast T_long r))]
      (Users σ (<[i := InUser (k (libc_ret (cast T_long r)))]> us)).

Inductive session : users → list (effect * answer) → list deed → users → Prop :=
| session_refl U : session U [] [] U
| session_snoc U tr ds U' l d U'' :
    session U tr ds U' → ustep U' l d U'' → session U (tr ++ l) (ds ++ d) U''.
End Code.

(** ** What an answer means *)

(** The value [r] of the call [c], given the operations [tr] performed since the
    state [a]: a request returns 0 if its passenger has joined the queue, and 1
    if it was invalid or a stop was pending at some moment; start and stop return
    the value of the operation they have performed. *)
Definition answered (a : astate) (tr : list (effect * answer)) (c : call) (r : Z) : Prop :=
  match c with
  | CIssue p s d =>
      (r = 0 ∧ valid_request p s d ∧ ∃ l, (EAdd (l, passenger_of p s d), Code 0) ∈ tr) ∨
      (r = 1 ∧ (¬ valid_request p s d ∨
        ∃ tr1, tr1 `prefix_of` tr ∧ a_shutdown (a_effects tr1.*1 a).2 ≠ 0))
  | CStart => (r = 0 ∨ r = 1) ∧ (EStart, Code r) ∈ tr
  | CStop => (r = 0 ∨ r = 1) ∧ (EStop, Code r) ∈ tr
  end.

Section Answers.
Implicit Types (a : astate) (tr : list (effect * answer)) (c : call).

Lemma answered_app a tr l c r : answered a tr c r → answered a (tr ++ l) c r.
Proof.
  destruct c; cbn; intros H; [|split; [apply H|apply elem_of_app; left; apply H]..].
  destruct H as [(-> & Hv & x & Hx)|(-> & [Hv|(tr1 & Hp & Hs)])].
  - left. split_and!; [done..|]. exists x. apply elem_of_app. by left.
  - auto.
  - right. split; [done|]. right. exists tr1. split; [by apply prefix_app_r|done].
Qed.

Lemma answered_range a tr c r : answered a tr c r → r = 0 ∨ r = 1.
Proof. destruct c; cbn; naive_solver. Qed.

Lemma answered_ok a tr c r : answered a tr c r → answer_ok c r.
Proof.
  intros H. split; [by eapply answered_range|]. destruct c; [|done..].
  cbn in H. naive_solver.
Qed.

(** The stop flag stays clear as long as nobody stops the elevator. *)
Lemma no_stop_no_shutdown fs a :
  a_shutdown a = 0 → EStop ∉ fs → a_shutdown (a_effects fs a).2 = 0.
Proof.
  revert a. induction fs as [|f fs IH]; intros a Hs Hno; [done|].
  apply not_elem_of_cons in Hno as [Hf Hno]. cbn.
  assert (H : a_shutdown (a_effect f a).2 = 0).
  { destruct f; cbn; try done.
    - by rewrite shutdown_load_section.
    - by rewrite shutdown_move_section.
    - unfold a_start. by case_bool_decide. }
  destruct (a_effect f a) as [r a1]. specialize (IH a1 H Hno). by destruct (a_effects fs a1).
Qed.

Lemma answered_accepting a tr c r :
  a_shutdown a = 0 → EStop ∉ tr.*1 → answered a tr c r → accepting c r.
Proof.
  intros Hs Hno H. destruct c; try done. cbn in *. intros Hv.
  destruct H as [(-> & _)|(_ & [?|(tr1 & [tr2 ->] & Hn)])]; [done..|]. destruct Hn.
  apply no_stop_no_shutdown; [done|]. rewrite fmap_app in Hno. set_solver.
Qed.
End Answers.

(** ** A call on its way *)

Section Progress.
Context {LA : ListApi node} {LL : ListLaws LA}.
Implicit Types (w : world) (a : astate) (L : gmap loc passenger) (σ : system) (t : task)
  (tr : list (effect * answer)) (c : call).

(** The section [x] is that of the call [c]. *)
Definition at_section w c (x : section) : Prop :=
  match x with
  | SIssue l => ∃ p s d, c = CIssue p s d ∧ valid_request p s d ∧
      heap w !! l = Some (passenger_of p s d)
  | SStart => c = CStart
  | SStop => c = CStop
  | _ => False
  end.

(** Task [t] is running the call [c]. *)
Definition progress a tr w c t : Prop :=
  match t with
  | Calling p s d => c = CIssue p s d
  | WantLock x | Holding x | Interrupted x => at_section w c x
  | Leaving (SIssue _) ans | Leaving SStart ans | Leaving SStop ans =>
      ∃ r, ans = Code r ∧ answered a tr c r
  | Returned r => answered a tr c r
  | _ => False
  end.

Lemma progress_enter a tr w c : progress a tr w c (enter c).
Proof. by destruct c. Qed.

(** The passenger of a request on its way is left alone by the other tasks. *)
Lemma flight_kept sig L0 tr σ L a l σ' j t x p :
  sys_inv L0 tr σ L a → step (orderly sig) σ l σ' →
  s_tasks σ !! j = Some t → s_tasks σ' !! j = Some t → carries t = Some x →
  heap (s_world σ) !! x = Some p → heap (s_world σ') !! x = Some p.
Proof.
  intros [I RI] Hs Ht Ht' Hc Hp. pose proof (inv_rep _ _ _ _ I) as R.
  pose proof (inv_wf _ _ _ _ I) as W.
  assert (HL : L !! x = Some p).
  { destruct (inv_carry _ _ _ _ I j t x Ht Hc) as (_ & q & Hq & _).
    pose proof (rep_extra_heap _ _ _ _ _ R Hq). congruence. }
  destruct Hs as [σ i p0 s d mem o w' Hi Hmem Hrun|σ i mem junk u s' Hi _ _ Hrun| | |σ i c ans s' Hi Hb
    | | |σ i seen size n txt s' Hi Hrun|σ i seen r s' Hi Hrun]; try exact Hp.
  - destruct mem as [l|]; [|done]. cbn in Hmem.
    destruct (decide (accepts a p0 s d)) as [Hacc|Hacc].
    + pose proof (issue_prepare_ok L _ a l p0 s d R W Hmem Hacc) as (o' & w0 & E & _ & R')%wp_done.
      rewrite Hrun in E. injection E as <- <-. apply (rep_extra_heap _ _ _ _ _ R').
      rewrite lookup_insert_ne; [done|]. intros ->. congruence.
    + rewrite (issue_prepare_rejects _ _ _ _ _ _ _ R Hacc) in Hrun. by injection Hrun as _ <-.
  - unfold open_prepare, new_message, mbind, M_bind, modify in Hrun. cbn in Hrun. injection Hrun as _ <-.
    destruct mem; exact Hp.
  - destruct (inv_body L0 σ L a i c ans s' I Hi (printing _ _ _ _ RI Hi) Hb) as (a' & _ & _ & I').
    assert (Hne : j ≠ i).
    { intros ->. cbn [s_tasks set_entry set_task] in Ht'. rewrite lookup_insert_eq in Ht'.
      by injection Ht' as <-. }
    apply (rep_extra_heap _ _ _ _ _ (inv_rep _ _ _ _ I')).
    destruct c as [| |l'| | |]; try exact HL. cbn. rewrite lookup_delete_ne; [done|].
    intros ->. apply Hne. by eapply (inv_inj _ _ _ _ I j i).
  - destruct (proj2 RI i _ Hi) as (t0 & Hsh & _).
    rewrite (elevator_read_shows size _ t0 Hsh) in Hrun.
    destruct (bool_decide (read_p _ = 0)); by injection Hrun as _ _ <-.
  - destruct (proj2 RI i _ Hi) as [[t0 Hsh] _].
    destruct (elevator_release_shows _ _ Hsh) as (s1 & E & Hd). rewrite Hrun in E.
    injection E as _ ->. unfold s_world in *; cbn [s_entry set_entry]. by rewrite Hd.
Qed.

(** A call that does not run is where it was. *)
Lemma progress_other sig L0 tr σ L a0 a l σ' j c t :
  sys_inv L0 tr σ L a → step (orderly sig) σ l σ' →
  s_tasks σ !! j = Some t → s_tasks σ' !! j = Some t →
  progress a0 tr (s_world σ) c t → progress a0 (tr ++ l) (s_world σ') c t.
Proof.
  intros SI Hs Ht Ht' Hp. pose proof (λ x p, flight_kept _ _ _ _ _ _ _ _ j t x p SI Hs Ht Ht') as Hk.
  pose proof (λ r, answered_app a0 tr l c r) as Ha.
  destruct t as [| |[]|[]|[]|[]| | | | |]; cbn in *; try done; naive_solver.
Qed.
(** The operation of a call's section, and its value. *)
Lemma section_answers L0 σ L a a' tr i c x ans :
  s_tasks σ !! i = Some (Holding x) → at_section (s_world σ) c x →
  a_effect (effect_of x (s_world σ)) a = (ans, a') →
  ∀ a0, progress a0 (tr ++ [(effect_of x (s_world σ), ans)]) (s_world σ) c (Leaving x ans).
Proof.
  intros Ht Hc E a0.
  assert (Hin : (effect_of x (s_world σ), ans) ∈ tr ++ [(effect_of x (s_world σ), ans)])
    by (apply elem_of_app; right; left).
  destruct x as [| |l| | |]; try done; cbn in Hc, E, Hin |- *.
  - destruct Hc as (p & s & d & -> & Hv & Hh). rewrite Hh in *. injection E as <- _.
    exists 0. split; [done|]. left. eauto.
  - subst c. injection E as <- _. eexists. split; [done|]. split; [|done].
    unfold a_start. case_bool_decide; auto.
  - subst c. injection E as <- _. eexists. split; [done|]. split; [|done].
    unfold a_stop. case_bool_decide; auto.
Qed.

(** A request that has just been prepared, or turned down. *)
Lemma prepared L a w l p s d o w' tr a0 :
  rep L w a → wf a → heap w !! l = None → a_effects tr.*1 a0 = (tr.*2, a) →
  issue_prepare (Some l) p s d w = Done (o, w') →
  progress a0 tr w' (CIssue p s d)
    (match o with Some l => WantLock (SIssue l) | None => Returned 1 end).
Proof.
  intros R W Hl E Hrun. destruct (decide (accepts a p s d)) as [Hacc|Hacc].
  - pose proof (issue_prepare_ok L w a l p s d R W Hl Hacc) as (o' & w0 & E' & -> & R')%wp_done.
    rewrite Hrun in E'. injection E' as -> <-. exists p, s, d. split_and!; [done|apply Hacc|].
    apply (rep_extra_heap _ _ _ _ _ R'), lookup_insert_eq.
  - rewrite (issue_prepare_rejects _ _ _ _ _ _ _ R Hacc) in Hrun. injection Hrun as <- <-.
    right. split; [done|]. destruct (decide (valid_request p s d)) as [Hv|Hv]; [right|by left].
    exists tr. split; [done|]. rewrite E. cbn. intros Hs. by apply Hacc.
Qed.

(** A step takes every call on its way further, or leaves it where it was. *)
Lemma progress_step sig L0 tr σ L a0 a l σ' j c t :
  sys_inv L0 tr σ L a → a_effects tr.*1 a0 = (tr.*2, a) → step (orderly sig) σ l σ' →
  s_tasks σ !! j = Some t → progress a0 tr (s_world σ) c t →
  ∃ t', s_tasks σ' !! j = Some t' ∧ progress a0 (tr ++ l) (s_world σ') c t'.
Proof.
  intros SI E Hs Ht Hp.
  assert (Ho : s_tasks σ' !! j = Some t →
    ∃ t', s_tasks σ' !! j = Some t' ∧ progress a0 (tr ++ l) (s_world σ') c t').
  { exists t. split; [done|]. by eapply progress_other. }
  pose proof SI as [I RI].
  destruct Hs as [σ i p s d mem o w' Hi Hmem Hrun|σ i mem junk u s' Hi _ _ _|σ i x Hi _|σ i x _ Hi
    |σ i x ans s' Hi Hb|σ i x ans t' Hi _ Hau|σ i Hi|σ i seen size n txt s' Hi _
    |σ i seen r s' Hi _];
    (destruct (decide (i = j)) as [->|Hne];
      [clear Ho; rewrite Ht in Hi; injection Hi as ->
      |by apply Ho; cbn [s_tasks set_entry set_sworld set_owner set_task]; rewrite lookup_insert_ne]);
    try done; (eexists; split; [apply lookup_insert_eq|]); rewrite ?app_nil_r.
  - cbn in Hp. subst c. destruct mem as [l|]; [|done].
    exact (prepared L a _ l p s d o w' tr a0 (inv_rep _ _ _ _ I) (inv_wf _ _ _ _ I) Hmem E Hrun).
  - exact Hp.
  - exact Hp.
  - destruct (sys_body L0 tr σ L a j x ans s' SI Ht Hb) as (L' & a' & Ea & _).
    pose proof (section_answers L0 σ L a a' tr j c x ans Ht Hp Ea a0) as H. by destruct x.
  - destruct Hau; try done; by destruct Hp as (r & -> & Hr).
Qed.

Lemma progress_returned a tr w c r : progress a tr w c (Returned r) → answered a tr c r.
Proof. done. Qed.
End Progress.

(** ** What holds along a session *)

(** The pointers after the module was loaded. *)
Definition linked_stubs : stubs := link_syscalls stubs_init.

Lemma own_app i ds d : own i (ds ++ d) = own i ds ++ own i d.
Proof. unfold own. by rewrite filter_app, fmap_app. Qed.

Lemma own_one i j x : own i [(j, x)] = if decide (j = i) then [x] else [].
Proof. unfold own. rewrite filter_cons. cbn. by destruct (decide (j = i)). Qed.

Lemma does_snoc p cs nr args k c r :
  does p cs (Syscall nr args k) → call_of nr args = Some c →
  does p (cs ++ [(c, r)]) (k (libc_ret r)).
Proof.
  intros H Hc. remember (Syscall nr args k) as q eqn:E.
  induction H as [|nr' args' k' c' r' cs q Hc' _ IH]; subst; cbn.
  - eapply does_call; [done|constructor].
  - eapply does_call; [done|by apply IH].
Qed.

Section Sessions.
Context {LA : ListApi node} {LL : ListLaws LA}.
Implicit Types (a : astate) (L : gmap loc passenger) (σ : system) (U : users)
  (tr : list (effect * answer)) (ds : list deed) (ps : list program).

(** Program [i], which was [p] at the beginning, has made its calls and is now
    at [u]. *)
Definition user_ok a tr σ ds (i : nat) (p : program) (u : user) : Prop :=
  match u with
  | InUser q => calls_ok q ∧ does p (own i ds) q
  | InKernel j c k => ∃ nr args t, call_of nr args = Some c ∧ (∀ r, calls_ok (k r)) ∧
      does p (own i ds) (Syscall nr args k) ∧
      s_tasks σ !! j = Some t ∧ progress a tr (s_world σ) c t
  end.

Record sess_inv L0 a0 ps tr ds U : Prop := {
  si_sys : ∃ L a, sys_inv L0 tr (u_sys U) L a ∧ a_effects tr.*1 a0 = (tr.*2, a);
  si_user i u : u_progs U !! i = Some u →
    ∃ p, ps !! i = Some p ∧ user_ok a0 tr (u_sys U) ds i p u;
  si_answers i c r : (c, r) ∈ own i ds → answered a0 tr c r;
}.

Lemma sess_start L a ps σ :
  fresh_system σ → rep L (s_world σ) a → wf a → Forall calls_ok ps →
  sess_inv L a ps [] [] (Users σ (InUser <$> ps)).
Proof.
  intros F R W Hok. split; cbn [u_sys u_progs].
  - exists L, a. split; [by apply sys_fresh|done].
  - intros i u. rewrite list_lookup_fmap. destruct (ps !! i) as [p|] eqn:Hp; [|done].
    intros [= <-]. exists p. split; [done|]. split; [by eapply Forall_lookup_1|constructor].
  - intros i c r H. by apply elem_of_nil in H.
Qed.

(** The other programs, when the tasks and the operations go on. *)
Lemma user_ok_mono a tr tr' σ σ' ds d i p u :
  (∀ j c t, s_tasks σ !! j = Some t → progress a tr (s_world σ) c t →
     ∃ t', s_tasks σ' !! j = Some t' ∧ progress a tr' (s_world σ') c t') →
  own i d = [] → user_ok a tr σ ds i p u → user_ok a tr' σ' (ds ++ d) i p u.
Proof.
  intros Hstep Hd. unfold user_ok. rewrite own_app, Hd, app_nil_r.
  destruct u as [q|j c k]; [done|]. intros (nr & args & t & Hc & Hk & Hdo & Ht & Hp).
  destruct (Hstep j c t Ht Hp) as (t' & Ht' & Hp'). by exists nr, args, t'.
Qed.

Lemma progress_same a tr σ j c t :
  s_tasks σ !! j = Some t → progress a tr (s_world σ) c t →
  ∃ t', s_tasks σ !! j = Some t' ∧ progress a tr (s_world σ) c t'.
Proof. eauto. Qed.

Lemma sess_step sig L0 a0 ps tr ds U l d U' :
  sess_inv L0 a0 ps tr ds U → ustep (orderly sig) linked_stubs U l d U' →
  sess_inv L0 a0 ps (tr ++ l) (ds ++ d) U'.
Proof.
  intros [(L & a & SI & E) Hu Ha] Hs.
  destruct Hs as [σ us i j nr args k regs c Hi Hr Hk Hj|σ us i nr args k regs r Hi Hr Hk
    |σ us l σ' Hstep|σ us i j c k r Hi Hj]; cbn [u_sys u_progs] in *; rewrite ?app_nil_r.
  - destruct (Hu i _ Hi) as (p & Hp & Hok & Hdo). inversion Hok as [|? ? ? [c' Hc] Hint Hks]; subst.
    pose proof (kernel_entry_call nr args regs c' Hint Hr Hc) as Hk'.
    fold linked_stubs in Hk'. rewrite Hk in Hk'. injection Hk' as <-.
    split; cbn [u_sys u_progs]; [| |done].
    + exists L, a. split; [apply sys_new; [done..|apply enter_not_started]|done].
    + intros i' u Hlu. apply list_lookup_insert_Some in Hlu as [(-> & <- & _)|(Hne & Hlu)].
      * exists p. split; [done|]. exists nr, args, (enter c). split_and!; [done..| |].
        -- apply lookup_insert_eq.
        -- apply progress_enter.
      * destruct (Hu i' u Hlu) as (p' & Hp' & Huo). exists p'. split; [done|].
        rewrite <- (app_nil_r ds). eapply user_ok_mono; [|done|exact Huo].
        intros j' c0 t Ht Hpr. exists t. split; [|done]. cbn [s_tasks set_task].
        rewrite lookup_insert_ne; [done|]. intros ->. congruence.
  - exfalso. destruct (Hu i _ Hi) as (p & Hp & Hok & _). inversion Hok as [|? ? ? [c Hc] Hint _]; subst.
    pose proof (kernel_entry_call nr args regs c Hint Hr Hc) as Hk'.
    fold linked_stubs in Hk'. rewrite Hk in Hk'. done.
  - destruct (sys_step _ _ _ _ _ _ _ _ SI Hstep) as (L' & a' & SI' & E').
    split; cbn [u_sys u_progs].
    + exists L', a'. split; [done|]. rewrite !fmap_app. by eapply a_effects_app.
    + intros i u Hi. destruct (Hu i u Hi) as (p & Hp & Huo). exists p. split; [done|].
      rewrite <- (app_nil_r ds). eapply user_ok_mono; [|done|exact Huo].
      intros j c t Ht Hpr. by eapply progress_step.
    + intros i c r Hin. apply answered_app. by eapply Ha.
  - destruct (Hu i _ Hi) as (p & Hp & nr & args & t & Hc & Hks & Hdo & Ht & Hpr).
    rewrite Hj in Ht. injection Ht as <-. apply progress_returned in Hpr.
    assert (Hcast : cast T_long r = r) by (by destruct (answered_range _ _ _ _ Hpr) as [-> | ->]).
    rewrite Hcast. split; cbn [u_sys u_progs].
    + by exists L, a.
    + intros i' u Hlu. apply list_lookup_insert_Some in Hlu as [(-> & <- & _)|(Hne & Hlu)].
      * exists p. split; [done|]. split; [apply Hks|]. rewrite own_app, own_one, decide_True by done.
        by eapply does_snoc.
      * destruct (Hu i' u Hlu) as (p' & Hp' & Huo). exists p'. split; [done|].
        eapply user_ok_mono; [|by rewrite own_one, decide_False|exact Huo]. intros ? ? ?. apply progress_same.
    + intros i' c' r'. rewrite own_app, own_one, elem_of_app. intros [Hin|Hin]; [by eapply Ha|].
      case_decide; [|by apply elem_of_nil in Hin]. apply list_elem_of_singleton in Hin.
      by injection Hin as -> ->.
Qed.

Lemma sess_reach sig L0 a0 ps U0 tr ds U :
  session (orderly sig) linked_stubs U0 tr ds U → sess_inv L0 a0 ps [] [] U0 →
  sess_inv L0 a0 ps tr ds U.
Proof.
  intros Hs H0. induction Hs as [|U0 tr ds U1 l d U2 _ IH Hstep]; [done|]. by eapply sess_step, Hstep; apply IH.
Qed.

(** Without signals no call is ever interrupted. *)
Lemma session_not_interrupted en st U tr ds U' :
  signals en = false → session en st U tr ds U' →
  (∀ j t, s_tasks (u_sys U) !! j = Some t → ¬ is_interrupted t) →
  ∀ j t, s_tasks (u_sys U') !! j = Some t → ¬ is_interrupted t.
Proof.
  intros Hsig Hs. induction Hs as [|U tr ds U1 l d U2 _ IH Hstep]; [done|]. intros H.
  specialize (IH H). destruct Hstep as [σ us i j nr args k regs c| |σ us l σ' Hstep|]; try exact IH.
  - intros j' t. cbn [u_sys s_tasks set_task]. rewrite lookup_insert.
    case_decide; [intros [= <-]; destruct c; intros []|apply IH].
  - eapply (steps_not_interrupted en _ ([] ++ l)); [done| |exact IH].
    eapply steps_snoc; [constructor|exact Hstep].
Qed.
End Sessions.

(** ** Properties *)

Section Properties.
Context {LA : ListApi node} {LL : ListLaws LA}.
Implicit Types (a : astate) (L : gmap loc passenger) (σ : system) (U : users).

(** C27. Any number of user programs with any arguments run at the same time as the
    elevator thread and the readers; their calls pass through the registers, the
    wrappers and the stubs, and run in the module step by step, in any order,
    between the thread's sections too.  The values and the memory are those of
    the abstract operations in the order of the critical sections.  No task runs
    into a fault but the unlock call after an interrupted lock call, and into none
    without signals; a program can always enter the kernel.  Every value returned
    is that of the operation the call stands for.  A program that has finished has
    made exactly the calls its arguments ask for, consumer and producer have
    printed the answer, producer has asked for a ride between different floors;
    the first four requests of driver, for floor 0, were rejected, and the other
    eight accepted unless a stop was pending at the beginning or asked for.
    (Memory is available, readers take turns, the module stays loaded; with
    signals, up to the first unlock call of an interrupted task.) *)
Theorem user_session_spec sig σ L a ps tr ds U :
  fresh_system σ → rep L (s_world σ) a → wf a → Forall user_program ps →
  session (orderly sig) linked_stubs (Users σ (InUser <$> ps)) tr ds U →
  (∃ L' a', a_effects tr.*1 a = (tr.*2, a') ∧ rep L' (s_world (u_sys U)) a' ∧ wf a') ∧
  (∀ j f, task_faults (orderly sig) (u_sys U) j f →
     sig = true ∧ f = BadUnlock ∧ ∃ x, s_tasks (u_sys U) !! j = Some (Interrupted x)) ∧
  (∀ i nr args k regs j, u_progs U !! i = Some (InUser (Syscall nr args k)) →
     registers args regs → s_tasks (u_sys U) !! j = None →
     ∃ c, call_of nr args = Some c ∧ ustep (orderly sig) linked_stubs U [] []
       (Users (set_task j (enter c) (u_sys U)) (<[i := InKernel j c k]> (u_progs U)))) ∧
  (∀ i c r, (c, r) ∈ own i ds → answered a tr c r) ∧
  (∀ i argv o, ps !! i = Some (consumer argv) → u_progs U !! i = Some (InUser (Exit o)) →
     consumer_did argv (own i ds) o) ∧
  (∀ i argv r1 r2 rands p o, Forall (λ x, 0 ≤ x) (r1 :: r2 :: rands) →
     producer argv r1 r2 rands = Some p → ps !! i = Some p →
     u_progs U !! i = Some (InUser (Exit o)) → producer_did argv (own i ds) o) ∧
  (∀ i argv o, ps !! i = Some (driver argv) → u_progs U !! i = Some (InUser (Exit o)) →
     driver_did (a_shutdown a = 0 ∧ EStop ∉ tr.*1) argv (own i ds) o).
Proof.
  intros F R W Hu Hs.
  assert (Hok : Forall calls_ok ps) by (eapply Forall_impl; [exact Hu|apply user_program_ok]).
  destruct (sess_reach _ _ _ _ _ _ _ _ Hs (sess_start L a ps σ F R W Hok))
    as [(L' & a' & SI & E) Husers Hans].
  assert (Hdone : ∀ i p o, ps !! i = Some p → u_progs U !! i = Some (InUser (Exit o)) →
    does p (own i ds) (Exit o)).
  { intros i p o Hp Ho. destruct (Husers i _ Ho) as (p' & Hp' & _ & H). congruence. }
  assert (Hok' : ∀ i x, x ∈ own i ds → answer_ok x.1 x.2).
  { intros i [c r] Hx. by eapply answered_ok, Hans. }
  split_and!.
  - exists L', a'. split_and!; [done|apply SI..].
  - intros j f Hf. destruct (sys_no_fault _ _ _ _ _ _ _ _ SI Hf) as (-> & x & Hx).
    split_and!; [|done|eauto]. destruct sig; [done|].
    by destruct (session_not_interrupted undisturbed _ _ _ _ _ eq_refl Hs
      (fresh_not_interrupted _ F) _ _ Hx).
  - intros i nr args k regs j Hi Hr Hj. destruct (Husers i _ Hi) as (p & _ & Hc & _).
    inversion Hc as [|? ? ? [c Ec] Hint _]; subst. exists c. split; [done|].
    destruct U as [σ' us]. eapply u_call; [done..| |done]. by eapply kernel_entry_call.
  - intros i c r. apply Hans.
  - intros i argv o Hp Ho. eapply (consumer_finished (own i ds)); eauto.
  - intros i argv r1 r2 rands p o Hr E' Hp Ho. eapply (producer_finished (own i ds)); eauto.
  - intros i argv o Hp Ho. eapply (driver_finished (own i ds)); eauto.
    intros [Hsh Hno] [c r] Hx. eapply answered_accepting; [done..|by eapply Hans].
Qed.
End Properties.
