(* ===== verification/SyscallTable.v ===== *)
(** * The system call table (part3/SystemCalls/syscall_64.tbl)

    The table gives every system call its number and its entry point; the
    project adds three rows.  The theorem ties together what has to agree for
    a call of a user program to arrive: the table, the prototypes of
    syscalls.h (Prototypes.v), the wrappers (SyscallAbi.v) and the numbers in
    wrappers.h (UserProgs.v). *)

From Stdlib Require Import Ascii.
From S2P Require Import Prelude KList ElevatorData Syscalls SyscallAbi Prototypes UserProgs.

(** ** The table *)

Inductive abi : Type := Common | Only64 | X32.

Record row := Row { number : Z; row_abi : abi; row_name : string; row_entry : option string }.

Definition table : list row :=
  [Row 0 Common "read" (Some "__x64_sys_read"); Row 1 Common "write" (Some "__x64_sys_write");
   Row 2 Common "open" (Some "__x64_sys_open"); Row 3 Common "close" (Some "__x64_sys_close");
   Row 4 Common "stat" (Some "__x64_sys_newstat");
   Row 5 Common "fstat" (Some "__x64_sys_newfstat");
   Row 6 Common "lstat" (Some "__x64_sys_newlstat"); Row 7 Common "poll" (Some "__x64_sys_poll");
   Row 8 Common "lseek" (Some "__x64_sys_lseek"); Row 9 Common "mmap" (Some "__x64_sys_mmap");
   Row 10 Common "mprotect" (Some "__x64_sys_mprotect");
   Row 11 Common "munmap" (Some "__x64_sys_munmap"); Row 12 Common "brk" (Some "__x64_sys_brk");
   Row 13 Only64 "rt_sigaction" (Some "__x64_sys_rt_sigaction");
   Row 14 Common "rt_sigprocmask" (Some "__x64_sys_rt_sigprocmask");
   Row 15 Only64 "rt_sigreturn" (Some "__x64_sys_rt_sigreturn/ptregs");
   Row 16 Only64 "ioctl" (Some "__x64_sys_ioctl");
   Row 17 Common "pread64" (Some "__x64_sys_pread64");
   Row 18 Common "pwrite64" (Some "__x64_sys_pwrite64");
   Row 19 Only64 "readv" (Some "__x64_sys_readv");
   Row 20 Only64 "writev" (Some "__x64_sys_writev");
   Row 21 Common "access" (Some "__x64_sys_access"); Row 22 Common "pipe" (Some "__x64_sys_pipe");
   Row 23 Common "select" (Some "__x64_sys_select");
   Row 24 Common "sched_yield" (Some "__x64_sys_sched_yield");
   Row 25 Common "mremap" (Some "__x64_sys_mremap");
   Row 26 Common "msync" (Some "__x64_sys_msync");
   Row 27 Common "mincore" (Some "__x64_sys_mincore");
   Row 28 Common "madvise" (Some "__x64_sys_madvise");
   Row 29 Common "shmget" (Some "__x64_sys_shmget");
   Row 30 Common "shmat" (Some "__x64_sys_shmat");
   Row 31 Common "shmctl" (Some "__x64_sys_shmctl"); Row 32 Common "dup" (Some "__x64_sys_dup");
   Row 33 Common "dup2" (Some "__x64_sys_dup2"); Row 34 Common "pause" (Some "__x64_sys_pause");
   Row 35 Common "nanosleep" (Some "__x64_sys_nanosleep");
   Row 36 Common "getitimer" (Some "__x64_sys_getitimer");
   Row 37 Common "alarm" (Some "__x64_sys_alarm");
   Row 38 Common "setitimer" (Some "__x64_sys_setitimer");
   Row 39 Common "getpid" (Some "__x64_sys_getpid");
   Row 40 Common "sendfile" (Some "__x64_sys_sendfile64");
   Row 41 Common "socket" (Some "__x64_sys_socket");
   Row 42 Common "connect" (Some "__x64_sys_connect");
   Row 43 Common "accept" (Some "__x64_sys_accept");
   Row 44 Common "sendto" (Some "__x64_sys_sendto");
   Row 45 Only64 "recvfrom" (Some "__x64_sys_recvfrom");
   Row 46 Only64 "sendmsg" (Some "__x64_sys_sendmsg");
   Row 47 Only64 "recvmsg" (Some "__x64_sys_recvmsg");
   Row 48 Common "shutdown" (Some "__x64_sys_shutdown");
   Row 49 Common "bind" (Some "__x64_sys_bind"); Row 50 Common "listen" (Some "__x64_sys_listen");
   Row 51 Common "getsockname" (Some "__x64_sys_getsockname");
   Row 52 Common "getpeername" (Some "__x64_sys_getpeername");
   Row 53 Common "socketpair" (Some "__x64_sys_socketpair");
   Row 54 Only64 "setsockopt" (Some "__x64_sys_setsockopt");
   Row 55 Only64 "getsockopt" (Some "__x64_sys_getsockopt");
   Row 56 Common "clone" (Some "__x64_sys_clone/ptregs");
   Row 57 Common "fork" (Some "__x64_sys_fork/ptregs");
   Row 58 Common "vfork" (Some "__x64_sys_vfork/ptregs");
   Row 59 Only64 "execve" (Some "__x64_sys_execve/ptregs");
   Row 60 Common "exit" (Some "__x64_sys_exit"); Row 61 Common "wait4" (Some "__x64_sys_wait4");
   Row 62 Common "kill" (Some "__x64_sys_kill"); Row 63 Common "uname" (Some "__x64_sys_newuname");
   Row 64 Common "semget" (Some "__x64_sys_semget");
   Row 65 Common "semop" (Some "__x64_sys_semop");
   Row 66 Common "semctl" (Some "__x64_sys_semctl");
   Row 67 Common "shmdt" (Some "__x64_sys_shmdt");
   Row 68 Common "msgget" (Some "__x64_sys_msgget");
   Row 69 Common "msgsnd" (Some "__x64_sys_msgsnd");
   Row 70 Common "msgrcv" (Some "__x64_sys_msgrcv");
   Row 71 Common "msgctl" (Some "__x64_sys_msgctl");
   Row 72 Common "fcntl" (Some "__x64_sys_fcntl"); Row 73 Common "flock" (Some "__x64_sys_flock");
   Row 74 Common "fsync" (Some "__x64_sys_fsync");
   Row 75 Common "fdatasync" (Some "__x64_sys_fdatasync");
   Row 76 Common "truncate" (Some "__x64_sys_truncate");
   Row 77 Common "ftruncate" (Some "__x64_sys_ftruncate");
   Row 78 Common "getdents" (Some "__x64_sys_getdents");
   Row 79 Common "getcwd" (Some "__x64_sys_getcwd");
   Row 80 Common "chdir" (Some "__x64_sys_chdir");
   Row 81 Common "fchdir" (Some "__x64_sys_fchdir");
   Row 82 Common "rename" (Some "__x64_sys_rename");
   Row 83 Common "mkdir" (Some "__x64_sys_mkdir"); Row 84 Common "rmdir" (Some "__x64_sys_rmdir");
   Row 85 Common "creat" (Some "__x64_sys_creat"); Row 86 Common "link" (Some "__x64_sys_link");
   Row 87 Common "unlink" (Some "__x64_sys_unlink");
   Row 88 Common "symlink" (Some "__x64_sys_symlink");
   Row 89 Common "readlink" (Some "__x64_sys_readlink");
   Row 90 Common "chmod" (Some "__x64_sys_chmod");
   Row 91 Common "fchmod" (Some "__x64_sys_fchmod");
   Row 92 Common "chown" (Some "__x64_sys_chown");
   Row 93 Common "fchown" (Some "__x64_sys_fchown");
   Row 94 Common "lchown" (Some "__x64_sys_lchown");
   Row 95 Common "umask" (Some "__x64_sys_umask");
   Row 96 Common "gettimeofday" (Some "__x64_sys_gettimeofday");
   Row 97 Common "getrlimit" (Some "__x64_sys_getrlimit");
   Row 98 Common "getrusage" (Some "__x64_sys_getrusage");
   Row 99 Common "sysinfo" (Some "__x64_sys_sysinfo");
   Row 100 Common "times" (Some "__x64_sys_times");
   Row 101 Only64 "ptrace" (Some "__x64_sys_ptrace");
   Row 102 Common "getuid" (Some "__x64_sys_getuid");
   Row 103 Common "syslog" (Some "__x64_sys_syslog");
   Row 104 Common "getgid" (Some "__x64_sys_getgid");
   Row 105 Common "setuid" (Some "__x64_sys_setuid");
   Row 106 Common "setgid" (Some "__x64_sys_setgid");
   Row 107 Common "geteuid" (Some "__x64_sys_geteuid");
   Row 108 Common "getegid" (Some "__x64_sys_getegid");
   Row 109 Common "setpgid" (Some "__x64_sys_setpgid");
   Row 110 Common "getppid" (Some "__x64_sys_getppid");
   Row 111 Common "getpgrp" (Some "__x64_sys_getpgrp");
   Row 112 Common "setsid" (Some "__x64_sys_setsid");
   Row 113 Common "setreuid" (Some "__x64_sys_setreuid");
   Row 114 Common "setregid" (Some "__x64_sys_setregid");
   Row 115 Common "getgroups" (Some "__x64_sys_getgroups");
   Row 116 Common "setgroups" (Some "__x64_sys_setgroups");
   Row 117 Common "setresuid" (Some "__x64_sys_setresuid");
   Row 118 Common "getresuid" (Some "__x64_sys_getresuid");
   Row 119 Common "setresgid" (Some "__x64_sys_setresgid");
   Row 120 Common "getresgid" (Some "__x64_sys_getresgid");
   Row 121 Common "getpgid" (Some "__x64_sys_getpgid");
   Row 122 Common "setfsuid" (Some "__x64_sys_setfsuid");
   Row 123 Common "setfsgid" (Some "__x64_sys_setfsgid");
   Row 124 Common "getsid" (Some "__x64_sys_getsid");
   Row 125 Common "capget" (Some "__x64_sys_capget");
   Row 126 Common "capset" (Some "__x64_sys_capset");
   Row 127 Only64 "rt_sigpending" (Some "__x64_sys_rt_sigpending");
   Row 128 Only64 "rt_sigtimedwait" (Some "__x64_sys_rt_sigtimedwait");
   Row 129 Only64 "rt_sigqueueinfo" (Some "__x64_sys_rt_sigqueueinfo");
   Row 130 Common "rt_sigsuspend" (Some "__x64_sys_rt_sigsuspend");
   Row 131 Only64 "sigaltstack" (Some "__x64_sys_sigaltstack");
   Row 132 Common "utime" (Some "__x64_sys_utime");
   Row 133 Common "mknod" (Some "__x64_sys_mknod"); Row 134 Only64 "uselib" None;
   Row 135 Common "personality" (Some "__x64_sys_personality");
   Row 136 Common "ustat" (Some "__x64_sys_ustat");
   Row 137 Common "statfs" (Some "__x64_sys_statfs");
   Row 138 Common "fstatfs" (Some "__x64_sys_fstatfs");
   Row 139 Common "sysfs" (Some "__x64_sys_sysfs");
   Row 140 Common "getpriority" (Some "__x64_sys_getpriority");
   Row 141 Common "setpriority" (Some "__x64_sys_setpriority");
   Row 142 Common "sched_setparam" (Some "__x64_sys_sched_setparam");
   Row 143 Common "sched_getparam" (Some "__x64_sys_sched_getparam");
   Row 144 Common "sched_setscheduler" (Some "__x64_sys_sched_setscheduler");
   Row 145 Common "sched_getscheduler" (Some "__x64_sys_sched_getscheduler");
   Row 146 Common "sched_get_priority_max" (Some "__x64_sys_sched_get_priority_max");
   Row 147 Common "sched_get_priority_min" (Some "__x64_sys_sched_get_priority_min");
   Row 148 Common "sched_rr_get_interval" (Some "__x64_sys_sched_rr_get_interval");
   Row 149 Common "mlock" (Some "__x64_sys_mlock");
   Row 150 Common "munlock" (Some "__x64_sys_munlock");
   Row 151 Common "mlockall" (Some "__x64_sys_mlockall");
   Row 152 Common "munlockall" (Some "__x64_sys_munlockall");
   Row 153 Common "vhangup" (Some "__x64_sys_vhangup");
   Row 154 Common "modify_ldt" (Some "__x64_sys_modify_ldt");
   Row 155 Common "pivot_root" (Some "__x64_sys_pivot_root");
   Row 156 Only64 "_sysctl" (Some "__x64_sys_sysctl");
   Row 157 Common "prctl" (Some "__x64_sys_prctl");
   Row 158 Common "arch_prctl" (Some "__x64_sys_arch_prctl");
   Row 159 Common "adjtimex" (Some "__x64_sys_adjtimex");
   Row 160 Common "setrlimit" (Some "__x64_sys_setrlimit");
   Row 161 Common "chroot" (Some "__x64_sys_chroot");
   Row 162 Common "sync" (Some "__x64_sys_sync"); Row 163 Common "acct" (Some "__x64_sys_acct");
   Row 164 Common "settimeofday" (Some "__x64_sys_settimeofday");
   Row 165 Common "mount" (Some "__x64_sys_mount");
   Row 166 Common "umount2" (Some "__x64_sys_umount");
   Row 167 Common "swapon" (Some "__x64_sys_swapon");
   Row 168 Common "swapoff" (Some "__x64_sys_swapoff");
   Row 169 Common "reboot" (Some "__x64_sys_reboot");
   Row 170 Common "sethostname" (Some "__x64_sys_sethostname");
   Row 171 Common "setdomainname" (Some "__x64_sys_setdomainname");
   Row 172 Common "iopl" (Some "__x64_sys_iopl/ptregs");
   Row 173 Common "ioperm" (Some "__x64_sys_ioperm"); Row 174 Only64 "create_module" None;
   Row 175 Common "init_module" (Some "__x64_sys_init_module");
   Row 176 Common "delete_module" (Some "__x64_sys_delete_module");
   Row 177 Only64 "get_kernel_syms" None; Row 178 Only64 "query_module" None;
   Row 179 Common "quotactl" (Some "__x64_sys_quotactl"); Row 180 Only64 "nfsservctl" None;
   Row 181 Common "getpmsg" None; Row 182 Common "putpmsg" None; Row 183 Common "afs_syscall" None;
   Row 184 Common "tuxcall" None; Row 185 Common "security" None;
   Row 186 Common "gettid" (Some "__x64_sys_gettid");
   Row 187 Common "readahead" (Some "__x64_sys_readahead");
   Row 188 Common "setxattr" (Some "__x64_sys_setxattr");
   Row 189 Common "lsetxattr" (Some "__x64_sys_lsetxattr");
   Row 190 Common "fsetxattr" (Some "__x64_sys_fsetxattr");
   Row 191 Common "getxattr" (Some "__x64_sys_getxattr");
   Row 192 Common "lgetxattr" (Some "__x64_sys_lgetxattr");
   Row 193 Common "fgetxattr" (Some "__x64_sys_fgetxattr");
   Row 194 Common "listxattr" (Some "__x64_sys_listxattr");
   Row 195 Common "llistxattr" (Some "__x64_sys_llistxattr");
   Row 196 Common "flistxattr" (Some "__x64_sys_flistxattr");
   Row 197 Common "removexattr" (Some "__x64_sys_removexattr");
   Row 198 Common "lremovexattr" (Some "__x64_sys_lremovexattr");
   Row 199 Common "fremovexattr" (Some "__x64_sys_fremovexattr");
   Row 200 Common "tkill" (Some "__x64_sys_tkill"); Row 201 Common "time" (Some "__x64_sys_time");
   Row 202 Common "futex" (Some "__x64_sys_futex");
   Row 203 Common "sched_setaffinity" (Some "__x64_sys_sched_setaffinity");
   Row 204 Common "sched_getaffinity" (Some "__x64_sys_sched_getaffinity");
   Row 205 Only64 "set_thread_area" None; Row 206 Only64 "io_setup" (Some "__x64_sys_io_setup");
   Row 207 Common "io_destroy" (Some "__x64_sys_io_destroy");
   Row 208 Common "io_getevents" (Some "__x64_sys_io_getevents");
   Row 209 Only64 "io_submit" (Some "__x64_sys_io_submit");
   Row 210 Common "io_cancel" (Some "__x64_sys_io_cancel"); Row 211 Only64 "get_thread_area" None;
   Row 212 Common "lookup_dcookie" (Some "__x64_sys_lookup_dcookie");
   Row 213 Common "epoll_create" (Some "__x64_sys_epoll_create");
   Row 214 Only64 "epoll_ctl_old" None; Row 215 Only64 "epoll_wait_old" None;
   Row 216 Common "remap_file_pages" (Some "__x64_sys_remap_file_pages");
   Row 217 Common "getdents64" (Some "__x64_sys_getdents64");
   Row 218 Common "set_tid_address" (Some "__x64_sys_set_tid_address");
   Row 219 Common "restart_syscall" (Some "__x64_sys_restart_syscall");
   Row 220 Common "semtimedop" (Some "__x64_sys_semtimedop");
   Row 221 Common "fadvise64" (Some "__x64_sys_fadvise64");
   Row 222 Only64 "timer_create" (Some "__x64_sys_timer_create");
   Row 223 Common "timer_settime" (Some "__x64_sys_timer_settime");
   Row 224 Common "timer_gettime" (Some "__x64_sys_timer_gettime");
   Row 225 Common "timer_getoverrun" (Some "__x64_sys_timer_getoverrun");
   Row 226 Common "timer_delete" (Some "__x64_sys_timer_delete");
   Row 227 Common "clock_settime" (Some "__x64_sys_clock_settime");
   Row 228 Common "clock_gettime" (Some "__x64_sys_clock_gettime");
   Row 229 Common "clock_getres" (Some "__x64_sys_clock_getres");
   Row 230 Common "clock_nanosleep" (Some "__x64_sys_clock_nanosleep");
   Row 231 Common "exit_group" (Some "__x64_sys_exit_group");
   Row 232 Common "epoll_wait" (Some "__x64_sys_epoll_wait");
   Row 233 Common "epoll_ctl" (Some "__x64_sys_epoll_ctl");
   Row 234 Common "tgkill" (Some "__x64_sys_tgkill");
   Row 235 Common "utimes" (Some "__x64_sys_utimes"); Row 236 Only64 "vserver" None;
   Row 237 Common "mbind" (Some "__x64_sys_mbind");
   Row 238 Common "set_mempolicy" (Some "__x64_sys_set_mempolicy");
   Row 239 Common "get_mempolicy" (Some "__x64_sys_get_mempolicy");
   Row 240 Common "mq_open" (Some "__x64_sys_mq_open");
   Row 241 Common "mq_unlink" (Some "__x64_sys_mq_unlink");
   Row 242 Common "mq_timedsend" (Some "__x64_sys_mq_timedsend");
   Row 243 Common "mq_timedreceive" (Some "__x64_sys_mq_timedreceive");
   Row 244 Only64 "mq_notify" (Some "__x64_sys_mq_notify");
   Row 245 Common "mq_getsetattr" (Some "__x64_sys_mq_getsetattr");
   Row 246 Only64 "kexec_load" (Some "__x64_sys_kexec_load");
   Row 247 Only64 "waitid" (Some "__x64_sys_waitid");
   Row 248 Common "add_key" (Some "__x64_sys_add_key");
   Row 249 Common "request_key" (Some "__x64_sys_request_key");
   Row 250 Common "keyctl" (Some "__x64_sys_keyctl");
   Row 251 Common "ioprio_set" (Some "__x64_sys_ioprio_set");
   Row 252 Common "ioprio_get" (Some "__x64_sys_ioprio_get");
   Row 253 Common "inotify_init" (Some "__x64_sys_inotify_init");
   Row 254 Common "inotify_add_watch" (Some "__x64_sys_inotify_add_watch");
   Row 255 Common "inotify_rm_watch" (Some "__x64_sys_inotify_rm_watch");
   Row 256 Common "migrate_pages" (Some "__x64_sys_migrate_pages");
   Row 257 Common "openat" (Some "__x64_sys_openat");
   Row 258 Common "mkdirat" (Some "__x64_sys_mkdirat");
   Row 259 Common "mknodat" (Some "__x64_sys_mknodat");
   Row 260 Common "fchownat" (Some "__x64_sys_fchownat");
   Row 261 Common "futimesat" (Some "__x64_sys_futimesat");
   Row 262 Common "newfstatat" (Some "__x64_sys_newfstatat");
   Row 263 Common "unlinkat" (Some "__x64_sys_unlinkat");
   Row 264 Common "renameat" (Some "__x64_sys_renameat");
   Row 265 Common "linkat" (Some "__x64_sys_linkat");
   Row 266 Common "symlinkat" (Some "__x64_sys_symlinkat");
   Row 267 Common "readlinkat" (Some "__x64_sys_readlinkat");
   Row 268 Common "fchmodat" (Some "__x64_sys_fchmodat");
   Row 269 Common "faccessat" (Some "__x64_sys_faccessat");
   Row 270 Common "pselect6" (Some "__x64_sys_pselect6");
   Row 271 Common "ppoll" (Some "__x64_sys_ppoll");
   Row 272 Common "unshare" (Some "__x64_sys_unshare");
   Row 273 Only64 "set_robust_list" (Some "__x64_sys_set_robust_list");
   Row 274 Only64 "get_robust_list" (Some "__x64_sys_get_robust_list");
   Row 275 Common "splice" (Some "__x64_sys_splice"); Row 276 Common "tee" (Some "__x64_sys_tee");
   Row 277 Common "sync_file_range" (Some "__x64_sys_sync_file_range");
   Row 278 Only64 "vmsplice" (Some "__x64_sys_vmsplice");
   Row 279 Only64 "move_pages" (Some "__x64_sys_move_pages");
   Row 280 Common "utimensat" (Some "__x64_sys_utimensat");
   Row 281 Common "epoll_pwait" (Some "__x64_sys_epoll_pwait");
   Row 282 Common "signalfd" (Some "__x64_sys_signalfd");
   Row 283 Common "timerfd_create" (Some "__x64_sys_timerfd_create");
   Row 284 Common "eventfd" (Some "__x64_sys_eventfd");
   Row 285 Common "fallocate" (Some "__x64_sys_fallocate");
   Row 286 Common "timerfd_settime" (Some "__x64_sys_timerfd_settime");
   Row 287 Common "timerfd_gettime" (Some "__x64_sys_timerfd_gettime");
   Row 288 Common "accept4" (Some "__x64_sys_accept4");
   Row 289 Common "signalfd4" (Some "__x64_sys_signalfd4");
   Row 290 Common "eventfd2" (Some "__x64_sys_eventfd2");
   Row 291 Common "epoll_create1" (Some "__x64_sys_epoll_create1");
   Row 292 Common "dup3" (Some "__x64_sys_dup3"); Row 293 Common "pipe2" (Some "__x64_sys_pipe2");
   Row 294 Common "inotify_init1" (Some "__x64_sys_inotify_init1");
   Row 295 Only64 "preadv" (Some "__x64_sys_preadv");
   Row 296 Only64 "pwritev" (Some "__x64_sys_pwritev");
   Row 297 Only64 "rt_tgsigqueueinfo" (Some "__x64_sys_rt_tgsigqueueinfo");
   Row 298 Common "perf_event_open" (Some "__x64_sys_perf_event_open");
   Row 299 Only64 "recvmmsg" (Some "__x64_sys_recvmmsg");
   Row 300 Common "fanotify_init" (Some "__x64_sys_fanotify_init");
   Row 301 Common "fanotify_mark" (Some "__x64_sys_fanotify_mark");
   Row 302 Common "prlimit64" (Some "__x64_sys_prlimit64");
   Row 303 Common "name_to_handle_at" (Some "__x64_sys_name_to_handle_at");
   Row 304 Common "open_by_handle_at" (Some "__x64_sys_open_by_handle_at");
   Row 305 Common "clock_adjtime" (Some "__x64_sys_clock_adjtime");
   Row 306 Common "syncfs" (Some "__x64_sys_syncfs");
   Row 307 Only64 "sendmmsg" (Some "__x64_sys_sendmmsg");
   Row 308 Common "setns" (Some "__x64_sys_setns");
   Row 309 Common "getcpu" (Some "__x64_sys_getcpu");
   Row 310 Only64 "process_vm_readv" (Some "__x64_sys_process_vm_readv");
   Row 311 Only64 "process_vm_writev" (Some "__x64_sys_process_vm_writev");
   Row 312 Common "kcmp" (Some "__x64_sys_kcmp");
   Row 313 Common "finit_module" (Some "__x64_sys_finit_module");
   Row 314 Common "sched_setattr" (Some "__x64_sys_sched_setattr");
   Row 315 Common "sched_getattr" (Some "__x64_sys_sched_getattr");
   Row 316 Common "renameat2" (Some "__x64_sys_renameat2");
   Row 317 Common "seccomp" (Some "__x64_sys_seccomp");
   Row 318 Common "getrandom" (Some "__x64_sys_getrandom");
   Row 319 Common "memfd_create" (Some "__x64_sys_memfd_create");
   Row 320 Common "kexec_file_load" (Some "__x64_sys_kexec_file_load");
   Row 321 Common "bpf" (Some "__x64_sys_bpf");
   Row 322 Only64 "execveat" (Some "__x64_sys_execveat/ptregs");
   Row 323 Common "userfaultfd" (Some "__x64_sys_userfaultfd");
   Row 324 Common "membarrier" (Some "__x64_sys_membarrier");
   Row 325 Common "mlock2" (Some "__x64_sys_mlock2");
   Row 326 Common "copy_file_range" (Some "__x64_sys_copy_file_range");
   Row 327 Only64 "preadv2" (Some "__x64_sys_preadv2");
   Row 328 Only64 "pwritev2" (Some "__x64_sys_pwritev2");
   Row 329 Common "pkey_mprotect" (Some "__x64_sys_pkey_mprotect");
   Row 330 Common "pkey_alloc" (Some "__x64_sys_pkey_alloc");
   Row 331 Common "pkey_free" (Some "__x64_sys_pkey_free");
   Row 332 Common "statx" (Some "__x64_sys_statx");
   Row 333 Common "io_pgetevents" (Some "__x64_sys_io_pgetevents");
   Row 334 Common "rseq" (Some "__x64_sys_rseq");
   Row 335 Common "start_elevator" (Some "__x64_sys_start_elevator");
   Row 336 Common "issue_request" (Some "__x64_sys_issue_request");
   Row 337 Common "stop_elevator" (Some "__x64_sys_stop_elevator");
   Row 512 X32 "rt_sigaction" (Some "__x32_compat_sys_rt_sigaction");
   Row 513 X32 "rt_sigreturn" (Some "sys32_x32_rt_sigreturn");
   Row 514 X32 "ioctl" (Some "__x32_compat_sys_ioctl");
   Row 515 X32 "readv" (Some "__x32_compat_sys_readv");
   Row 516 X32 "writev" (Some "__x32_compat_sys_writev");
   Row 517 X32 "recvfrom" (Some "__x32_compat_sys_recvfrom");
   Row 518 X32 "sendmsg" (Some "__x32_compat_sys_sendmsg");
   Row 519 X32 "recvmsg" (Some "__x32_compat_sys_recvmsg");
   Row 520 X32 "execve" (Some "__x32_compat_sys_execve/ptregs");
   Row 521 X32 "ptrace" (Some "__x32_compat_sys_ptrace");
   Row 522 X32 "rt_sigpending" (Some "__x32_compat_sys_rt_sigpending");
   Row 523 X32 "rt_sigtimedwait" (Some "__x32_compat_sys_rt_sigtimedwait");
   Row 524 X32 "rt_sigqueueinfo" (Some "__x32_compat_sys_rt_sigqueueinfo");
   Row 525 X32 "sigaltstack" (Some "__x32_compat_sys_sigaltstack");
   Row 526 X32 "timer_create" (Some "__x32_compat_sys_timer_create");
   Row 527 X32 "mq_notify" (Some "__x32_compat_sys_mq_notify");
   Row 528 X32 "kexec_load" (Some "__x32_compat_sys_kexec_load");
   Row 529 X32 "waitid" (Some "__x32_compat_sys_waitid");
   Row 530 X32 "set_robust_list" (Some "__x32_compat_sys_set_robust_list");
   Row 531 X32 "get_robust_list" (Some "__x32_compat_sys_get_robust_list");
   Row 532 X32 "vmsplice" (Some "__x32_compat_sys_vmsplice");
   Row 533 X32 "move_pages" (Some "__x32_compat_sys_move_pages");
   Row 534 X32 "preadv" (Some "__x32_compat_sys_preadv64");
   Row 535 X32 "pwritev" (Some "__x32_compat_sys_pwritev64");
   Row 536 X32 "rt_tgsigqueueinfo" (Some "__x32_compat_sys_rt_tgsigqueueinfo");
   Row 537 X32 "recvmmsg" (Some "__x32_compat_sys_recvmmsg");
   Row 538 X32 "sendmmsg" (Some "__x32_compat_sys_sendmmsg");
   Row 539 X32 "process_vm_readv" (Some "__x32_compat_sys_process_vm_readv");
   Row 540 X32 "process_vm_writev" (Some "__x32_compat_sys_process_vm_writev");
   Row 541 X32 "setsockopt" (Some "__x32_compat_sys_setsockopt");
   Row 542 X32 "getsockopt" (Some "__x32_compat_sys_getsockopt");
   Row 543 X32 "io_setup" (Some "__x32_compat_sys_io_setup");
   Row 544 X32 "io_submit" (Some "__x32_compat_sys_io_submit");
   Row 545 X32 "execveat" (Some "__x32_compat_sys_execveat/ptregs");
   Row 546 X32 "preadv2" (Some "__x32_compat_sys_preadv64v2");
   Row 547 X32 "pwritev2" (Some "__x32_compat_sys_pwritev64v2")].

(** The rows of 64-bit processes; the others serve the x32 ABI. *)
Definition native (r : row) : bool := match row_abi r with X32 => false | _ => true end.

(** The entry point of a number; without a row, or without an entry point in
    it, the kernel answers -ENOSYS. *)
Definition entry_point (nr : Z) : option string :=
  r ← List.find (λ r, native r && bool_decide (number r = nr)) table; row_entry r.

(** ["__x64_"] in front marks the wrapper of a [sys_] function; what follows a
    slash says how the entry saves registers. *)
Fixpoint strip (pre s : string) : option string :=
  match pre, s with
  | EmptyString, _ => Some s
  | String c pre, String c' s => if bool_decide (c = c') then strip pre s else None
  | String _ _, EmptyString => None
  end.

Fixpoint until_slash (s : string) : string :=
  match s with
  | EmptyString => EmptyString
  | String c s => if bool_decide (c = "/"%char) then EmptyString else String c (until_slash s)
  end.

Definition function_of (entry : string) : option string := strip "__x64_" (until_slash entry).

(** The functions of part3/SystemCalls among the entry points. *)
Definition module_call (entry : string) : option fn :=
  f ← function_of entry;
  if bool_decide (f = "sys_start_elevator") then Some F_start_elevator
  else if bool_decide (f = "sys_issue_request") then Some F_issue_request
  else if bool_decide (f = "sys_stop_elevator") then Some F_stop_elevator
  else None.

(** The entry points the headers of the architecture declare. *)
Definition arch_entries : list string :=
  ["sys_mmap"; "sys_rt_sigreturn"; "sys_modify_ldt"; "sys_arch_prctl"; "sys_iopl"].

(** ** Checks on the header and the table *)

Section Checks.
(** The conditions a kernel without wrappers of its own meets. *)
Definition generic : guard :=
  [(Not (Def "CONFIG_ARCH_HAS_SYSCALL_WRAPPER"), true); (Not (Def "CONFIG_ODD_RT_SIGACTION"), true)].

(** What it declares whatever else is configured, but for clone, whose
    parameters vary. *)
Definition always : gmap string guard :=
  list_to_map ((λ gp : guard * proto, (gp.2.1, gp.1)) <$>
    filter (λ gp, Forall (λ cb, cb ∈ generic) gp.1) (all_guarded header)).

Definition row_ok (calls : gmap string guard) (r : row) : bool :=
  negb (native r) ||
  match row_entry r with
  | None => true
  | Some e =>
      match function_of e with
      | Some f => bool_decide (f ∈ "sys_clone" :: arch_entries) || bool_decide (is_Some (calls !! f))
      | None => false
      end
  end.

Lemma rows_ok : (let calls := always in forallb (row_ok calls) table) = true.
Proof. vm_compute. reflexivity. Qed.

Lemma header_distinct : distinct ∅ (all_guarded header) = true.
Proof. vm_compute. reflexivity. Qed.

(** A type that can be a parameter, whatever the typedefs are. *)
Fixpoint passable (t : ty) : bool :=
  match t with
  | Scalar _ | Named _ | Ptr _ _ => true
  | Const t => passable t
  | Struct _ | Union _ | Void => false
  end.

Lemma header_passable :
  forallb (λ gp, (length gp.2.2 <=? SYSCALL_DEFINE_MAXARGS)%nat && forallb passable gp.2.2)
    (all_guarded header) = true.
Proof. vm_compute. reflexivity. Qed.

Lemma table_numbers : number <$> table = seqZ 0 338 ++ seqZ 512 36.
Proof. vm_compute. reflexivity. Qed.

Lemma passable_representation typedef t : passable t = true → is_Some (representation typedef t).
Proof. induction t; try done; by eexists. Qed.

Lemma params_represented typedef ps :
  forallb passable ps = true → ∃ ts, mapM (representation typedef) ps = Some ts.
Proof.
  rewrite forallb_forall. intros H. apply mapM_is_Some, Forall_forall.
  intros t Ht. apply passable_representation, H. by apply list_elem_of_In.
Qed.
End Checks.

(** ** Proofs *)

Section Proofs.
Context (cfg : config).

Lemma declared_guarded p : p ∈ declares cfg header → ∃ g, (g, p) ∈ all_guarded header.
Proof.
  rewrite declares_passing. unfold passing. intros H%list_elem_of_In.
  apply in_flat_map in H as ([g p'] & Hin & Hp). exists g.
  cbn [fst snd] in Hp. destruct (allows cfg g); [|done]. destruct Hp as [->|[]].
  by apply list_elem_of_In.
Qed.

Lemma always_declared f g :
  allows cfg generic = true → always !! f = Some g → f ∈ (declares cfg header).*1.
Proof.
  intros Ha Hf%elem_of_list_to_map_2. apply list_elem_of_fmap in Hf as ([g' [f' ps]] & [= -> ->] & Hin).
  apply list_elem_of_filter in Hin as [Hg Hin]. apply list_elem_of_fmap. exists (f', ps). split; [done|].
  rewrite declares_passing. eapply passing_elem; [exact Hin|].
  unfold allows in *. rewrite forallb_forall in Ha |- *. intros cb Hcb. apply Ha.
  rewrite Forall_forall in Hg. apply list_elem_of_In, Hg. by apply list_elem_of_In.
Qed.

(** One of the three declarations of clone is there. *)
Lemma clone_declared : allows cfg generic = true → "sys_clone" ∈ (declares cfg header).*1.
Proof.
  intros [Hw _]%andb_true_iff. apply bool_decide_eq_true in Hw. cbn in Hw.
  set (by_guard g := List.find (λ gp, bool_decide (gp.1 = g)) (all_guarded header)).
  assert (Hfind : ∀ g, (p ← by_guard g; Some p.2.1) = Some "sys_clone" → allows cfg g = true →
    "sys_clone" ∈ (declares cfg header).*1).
  { intros g H Ha. destruct (by_guard g) as [[g' [f ps]]|] eqn:E; [|done]. injection H as ->.
    apply List.find_some in E as [Hin Hg%bool_decide_eq_true]. cbn [fst] in Hg. subst g'.
    apply list_elem_of_fmap. exists ("sys_clone", ps). split; [done|].
    rewrite declares_passing. eapply passing_elem; [by apply list_elem_of_In|done]. }
  set (outer := (Not (Def "CONFIG_ARCH_HAS_SYSCALL_WRAPPER"), true)).
  set (cb := Def "CONFIG_CLONE_BACKWARDS"). set (cb3 := Def "CONFIG_CLONE_BACKWARDS3").
  assert (Ho : holds cfg outer.1 = true) by exact Hw.
  destruct (holds cfg cb) eqn:E1; [|destruct (holds cfg cb3) eqn:E2].
  - eapply (Hfind [(cb, true); outer]); [vm_compute; reflexivity|].
    unfold allows. cbn [forallb fst snd]. by rewrite E1, Ho.
  - eapply (Hfind [(cb3, true); (cb, false); outer]); [vm_compute; reflexivity|].
    unfold allows. cbn [forallb fst snd]. by rewrite E1, E2, Ho.
  - eapply (Hfind [(cb3, false); (cb, false); outer]); [vm_compute; reflexivity|].
    unfold allows. cbn [forallb fst snd]. by rewrite E1, E2, Ho.
Qed.

Lemma native_row_declared r e :
  allows cfg generic = true → r ∈ table → native r = true → row_entry r = Some e →
  ∃ f, function_of e = Some f ∧ (f ∈ arch_entries ∨ f ∈ (declares cfg header).*1).
Proof.
  intros Ha Hr Hn He. pose proof rows_ok as H. cbv zeta in H. rewrite forallb_forall in H.
  specialize (H r (proj1 (list_elem_of_In _ _) Hr)). unfold row_ok in H. rewrite Hn, He in H.
  cbn [negb orb] in H. destruct (function_of e) as [f|]; [|done]. exists f. split; [done|].
  apply orb_true_iff in H as [H|H]; apply bool_decide_eq_true in H.
  - apply elem_of_cons in H as [->|H]; [right; by apply clone_declared|by left].
  - destruct H as [g H]. right. by eapply always_declared.
Qed.

Lemma native_rows_agree :
  forallb (λ r, negb (native r) ||
    bool_decide (syscall_table (number r) = row_entry r ≫= module_call)) table = true.
Proof. vm_compute. reflexivity. Qed.

Lemma syscall_table_entries nr : syscall_table nr = entry_point nr ≫= module_call.
Proof.
  unfold entry_point. destruct (List.find _ table) as [r|] eqn:E.
  - apply List.find_some in E as [Hin [Hn <-%bool_decide_eq_true]%andb_true_iff].
    pose proof native_rows_agree as H. rewrite forallb_forall in H. specialize (H r Hin).
    rewrite Hn in H. by apply bool_decide_eq_true in H.
  - assert (Hno : ∀ x, List.find (λ r, native r && bool_decide (number r = x)) table ≠ None → nr ≠ x).
    { intros x Hx ->. by rewrite E in Hx. }
    cbn. unfold syscall_table.
    repeat (rewrite bool_decide_eq_false_2 by (apply Hno; vm_compute; discriminate)). done.
Qed.

(** Every declared call can be wrapped. *)
Lemma declared_wrapped typedef p :
  p ∈ declares cfg header → ∃ ts, mapM (representation typedef) p.2 = Some ts ∧
    (length ts ≤ SYSCALL_DEFINE_MAXARGS)%nat.
Proof.
  intros [g Hin]%declared_guarded. pose proof header_passable as H. rewrite forallb_forall in H.
  specialize (H (g, p) (proj1 (list_elem_of_In _ _) Hin)). apply andb_true_iff in H as [Hl Hp].
  destruct (params_represented typedef _ Hp) as [ts Hts]. exists ts. split; [done|].
  apply Nat.leb_le in Hl. by rewrite <- (length_mapM _ _ _ Hts).
Qed.
End Proofs.

(** ** Property *)

(** C31. The calls of the project are installed as the calls of the kernel are.
    The table numbers its rows without gaps or repetitions; the entry points of
    the project are at the numbers the wrappers of the user programs use, and
    nowhere else.  In every configuration the header declares the three calls,
    with the parameters their definitions have, and nothing but them where
    CONFIG_ARCH_HAS_SYSCALL_WRAPPER is defined; no call is declared twice unless
    CONFIG_OLD_SIGSUSPEND and CONFIG_OLD_SIGSUSPEND3 are both defined; and where
    neither CONFIG_ARCH_HAS_SYSCALL_WRAPPER nor CONFIG_ODD_RT_SIGACTION is, every
    entry point of a 64-bit row is declared, but for five of the architecture.  Whatever the typedefs stand
    for, a wrapper for any declared call compiles, and its body gets values of
    the declared types from any registers. *)
Theorem installed_calls_spec (cfg : config) (typedef : string → ctype) :
  let calls := declares cfg header in
  let mine := [("sys_start_elevator", []); ("sys_issue_request", [Int; Int; Int]);
               ("sys_stop_elevator", [])] in
  number <$> table = seqZ 0 338 ++ seqZ 512 36 ∧
  (∀ nr, syscall_table nr = entry_point nr ≫= module_call) ∧
  entry_point <$> [NR_START_ELEVATOR; NR_ISSUE_REQUEST; NR_STOP_ELEVATOR] =
    (λ p, Some ("__x64_" +:+ p.1)) <$> mine ∧
  mine ⊆ calls ∧
  (defined cfg "CONFIG_ARCH_HAS_SYSCALL_WRAPPER" = true → calls = mine) ∧
  (allows cfg conflict = false → NoDup calls.*1) ∧
  (allows cfg generic = true → ∀ r e, r ∈ table → native r = true → row_entry r = Some e →
     ∃ f, function_of e = Some f ∧ (f ∈ arch_entries ∨ f ∈ calls.*1)) ∧
  (∀ p, p ∈ calls → ∃ ts, mapM (representation typedef) p.2 = Some ts ∧
     ∀ W (do_sys : list Z → M W Z) regs, length regs = length ts →
       ∃ args, SYSCALL_DEFINEx (length ts) ts do_sys regs =
           Some (ret ← do_sys args; mret (cast T_long ret)) ∧ Forall2 in_type ts args).
Proof.
  intros calls mine. split_and!.
  - apply table_numbers.
  - apply syscall_table_entries.
  - vm_compute. reflexivity.
  - intros p Hp. unfold calls, declares, header. cbn [flat_map].
    apply elem_of_app. right. exact Hp.
  - intros Hd. unfold calls, declares, header. cbn [flat_map declared holds]. by rewrite Hd.
  - intros Hc. unfold calls. rewrite declares_passing.
    by apply (distinct_names cfg ∅ _ Hc header_distinct).
  - intros Ha r e. by apply native_row_declared.
  - intros p Hp. destruct (declared_wrapped cfg typedef p Hp) as (ts & Hts & Hl).
    exists ts. split; [done|]. intros W do_sys regs Hr.
    destruct (syscall_wrapper_types ts do_sys regs Hl Hr) as (args & E & Ht & _). by exists args.
Qed.
