(* ===== verification/Programs.v ===== *)
(** * The smallest programs: 01_hello_world_module and part1

    The hello world module writes a line to the kernel log when it is loaded
    and one when it is unloaded.  part1 has two programs whose system calls are
    to be compared with strace: empty.c makes none of its own, part1.c prints
    three lines.  stdio is modelled as far as it matters for the number of
    calls: the first print sets the stream up, a terminal is written line by
    line, any other file when the program ends. *)

From Stdlib Require Import Ascii.
From S2P Require Import Decimal.
From S2P Require Import Prelude.

(** ** 01_hello_world_module/hello.c *)

Module HelloWorld.
(** The state is the kernel log. *)
Definition printk (s : string) : M (list string) unit := modify (λ log, log ++ [s]).

Definition hello_init : M (list string) Z := printk ("Hello, World!" +:+ nl) ;; mret 0.
Definition hello_exit : M (list string) unit := printk ("Goodbye, sleepy world." +:+ nl).

(** Loading and unloading the module [n] times. *)
Fixpoint cycles (n : nat) : M (list string) unit :=
  match n with O => mret tt | S n => hello_init ;; hello_exit ;; cycles n end.

(** The log tells how often the module was loaded. *)
Lemma cycles_logged n log :
  wp (cycles n) (λ _ log', length log' = (length log + 2 * n)%nat ∧ log `prefix_of` log') log.
Proof.
  revert log. induction n as [|n IH]; intros log; cbn [cycles].
  { apply wp_ret. split; [lia|done]. }
  apply wp_bind, wp_bind, wp_modify, wp_ret, wp_bind, wp_modify.
  eapply wp_mono; [apply IH|]. intros _ log' [Hl [k ->]]. split.
  - rewrite Hl, !length_app. cbn [length]. lia.
  - exists (["Hello, World!" +:+ nl] ++ ["Goodbye, sleepy world." +:+ nl] ++ k).
    by rewrite !(assoc_L (++)).
Qed.
End HelloWorld.

(** ** part1 *)

Module Part1.
Section Stdio.
(** The system calls a stream needs before its first use are [setup]; [tty]
    says whether standard output is a terminal. *)
Context {call : Type} (write : string → call) (setup : list call) (tty : bool).

Record stdio := Stdio { started : bool; pending : string; calls : list call }.

(** The strings printed here end with a newline, after which a terminal is
    written. *)
Definition printf (s : string) : M stdio unit := modify (λ f,
  let cs := calls f ++ (if started f then [] else setup) in
  if tty then Stdio true "" (cs ++ [write (pending f +:+ s)])
  else Stdio true (pending f +:+ s) cs).

(** The return from main: what is pending is written. *)
Definition exit : M stdio unit := modify (λ f,
  match pending f with
  | EmptyString => f
  | t => Stdio (started f) "" (calls f ++ [write t])
  end).

Definition empty_main : M stdio Z := mret 0.

Definition part1_main : M stdio Z :=
  printf ("This is a test" +:+ nl) ;;
  printf ("This is a test" +:+ nl) ;;
  printf ("This is a test" +:+ nl) ;;
  mret 0.

(** The calls of a whole run. *)
Definition calls_of (main : M stdio Z) : list call :=
  match (main ;; exit) (Stdio false "" []) with Done (_, f) => calls f | _ => [] end.

(** part1.c makes three calls more than the set-up when it prints to a terminal
    - six in all when the set-up takes three, as with the fstat and two brk
    calls of glibc - but a single one more when its output goes to a file. *)
Lemma part1_calls :
  calls_of empty_main = [] ∧
  length (calls_of part1_main) = (length setup + if tty then 3 else 1)%nat.
Proof.
  split; [done|]. unfold calls_of, part1_main, exit, printf, mbind, M_bind, modify. cbn.
  destruct tty; cbn; [|case_match; [done|cbn]]; rewrite !length_app; cbn; lia.
Qed.
End Stdio.
End Part1.
