(* ===== verification/Xtime.v ===== *)
(** * The clock module (part2/my_xtime.c)

    /proc/timed shows the time of the read and, from the second read on, the
    time that passed since the previous one.  The kernel's clock is an argument
    of [myxtime_proc_read]; the kernel's [timespec_sub] is a parameter with the
    property its documentation states. *)

From Stdlib Require Import Ascii.
From S2P Require Import Decimal.
From S2P Require Import Prelude ProcEntry.

Definition ENTRY_SIZE : nat := 100.

(** [struct timespec] *)
Record timespec := Timespec { tv_sec : Z; tv_nsec : Z }.

(** static variables curr_t, prev_t, called *)
Record xtime := Xtime { curr_t : timespec; prev_t : timespec; called : Z }.

Definition set_curr_t v (x : xtime) : xtime := Xtime v (prev_t x) (called x).
Definition set_prev_t v (x : xtime) : xtime := Xtime (curr_t x) v (called x).
Definition set_called v (x : xtime) : xtime := Xtime (curr_t x) (prev_t x) v.

(** The conversion %lu of a [long]. *)
Definition ulong (z : Z) : string := pretty (z mod 2 ^ 64).

(** One [sprintf] of the module. *)
Definition time_line (label : string) (t : timespec) : string :=
  label +:+ ulong (tv_sec t) +:+ "." +:+ ulong (tv_nsec t) +:+ nl.

Section Code.
Context (timespec_sub : timespec → timespec → timespec).

Definition upd (g : xtime → xtime) : M (proc xtime) unit :=
  modify (λ s, set_data (g (data s)) s).

Definition myxtime_proc_open (mem : option loc) (junk : string) : M (proc xtime) Z :=
  modify (set_read_p 1) ;;
  new_message mem junk ;;
  m ← gets message;
  match m with
  | None => mret (- ENOMEM)
  | Some _ => mret 0
  end.

(** [now] is what current_kernel_time returns.  The value returned and the
    text copied to the caller. *)
Definition myxtime_proc_read (now : timespec) : M (proc xtime) (Z * string) :=
  r ← toggle_read_p;
  if bool_decide (r ≠ 0) then mret (0, "") else
  upd (set_curr_t now) ;;
  len ← on_message (λ x, sprintf_at ENTRY_SIZE 0 (time_line "current time: " (curr_t x)));
  x ← gets data;
  len ← (if bool_decide (called x ≠ 0) then
           upd (λ x, set_prev_t (timespec_sub (curr_t x) (prev_t x)) x) ;;
           n ← on_message (λ x, sprintf_at ENTRY_SIZE len (time_line "elapsed time: " (prev_t x)));
           mret (len +i n)
         else mret len);
  t ← message_text;
  upd (λ x, set_prev_t (curr_t x) x) ;;
  upd (λ x, if bool_decide (called x = 0) then set_called 1 x else x) ;;
  mret (len, String.substring 0 (Z.to_nat len) t).

Definition myxtime_proc_release : M (proc xtime) Z := kfree_message ;; mret 0.

(** [myxtime_init]; [created] is the result of proc_create.  The value
    returned, and whether the entry exists. *)
Definition myxtime_init (created : bool) : M (proc xtime) (Z * bool) :=
  upd (set_called 0) ;;
  if negb created then mret (- ENOMEM, false) else mret (0, true).

(** [myxtime_exit]: whether the entry exists afterwards. *)
Definition myxtime_exit : M (proc xtime) bool := mret false.

(** A reader of the entry; the clock shows [now] at its first read and
    [later] at its second. *)
Definition xtime_session (mem : option loc) (junk : string) (now later : timespec)
  : M (proc xtime) (Z * string * Z) :=
  myxtime_proc_open mem junk ;;
  r ← myxtime_proc_read now;
  r' ← myxtime_proc_read later;
  myxtime_proc_release ;;
  mret (r.1, r.2, r'.1).

(** One reader: the memory its open gets, and the clock at its two reads. *)
Record reading := Reading { r_mem : loc; r_junk : string; r_now : timespec; r_later : timespec }.

(** One reader after the other; what each one reads. *)
Fixpoint xtime_sessions (rs : list reading) : M (proc xtime) (list string) :=
  match rs with
  | [] => mret []
  | r :: rs =>
      x ← xtime_session (Some (r_mem r)) (r_junk r) (r_now r) (r_later r);
      xs ← xtime_sessions rs;
      mret (x.1.2 :: xs)
  end.

(** The module from its loading on. *)
Definition xtime_life (rs : list reading) : M (proc xtime) (list string) :=
  myxtime_init true ;; xtime_sessions rs.
End Code.

(** ** Proofs *)

(** A time the clock can show: not before 1970, nanoseconds below a second. *)
Definition NSEC_PER_SEC : Z := 1000000000.
Definition normal (t : timespec) : Prop :=
  - 2 ^ 63 ≤ tv_sec t < 2 ^ 63 ∧ 0 ≤ tv_nsec t < NSEC_PER_SEC.
Definition nanoseconds (t : timespec) : Z := tv_sec t * NSEC_PER_SEC + tv_nsec t.

Lemma ulong_length z : (String.length (ulong z) ≤ 20)%nat.
Proof.
  unfold ulong. pose proof (Z.mod_pos_bound z (2 ^ 64) ltac:(lia)) as Hb.
  destruct (z mod 2 ^ 64) as [|p|p]; [cbn; lia| |lia].
  apply (pretty_N_length 19). change (10 ^ N.of_nat 20)%N with (100000000000000000000)%N. lia.
Qed.

Lemma ulong_nsec_length z : 0 ≤ z < NSEC_PER_SEC → (String.length (ulong z) ≤ 9)%nat.
Proof.
  unfold ulong, NSEC_PER_SEC. intros Hz. rewrite Z.mod_small by lia.
  destruct z as [|p|p]; [cbn; lia| |lia].
  apply (pretty_N_length 8). change (10 ^ N.of_nat 9)%N with 1000000000%N. lia.
Qed.

Lemma time_line_length label t :
  normal t → (String.length (time_line label t) ≤ String.length label + 31)%nat.
Proof.
  intros [_ Hn]. unfold time_line, nl. rewrite !str_length_app.
  pose proof (ulong_length (tv_sec t)). pose proof (ulong_nsec_length _ Hn). cbn [String.length]. lia.
Qed.

Lemma time_line_nonempty label t : label ≠ "" → String.length (time_line label t) ≠ 0%nat.
Proof.
  intros Hl. unfold time_line. rewrite str_length_app. destruct label; [done|cbn [String.length]; lia].
Qed.

(** What one read shows. *)
Definition shown (sub : timespec → timespec → timespec) (x : xtime) (now : timespec) : string :=
  time_line "current time: " now +:+
  (if bool_decide (called x = 0) then "" else time_line "elapsed time: " (sub now (prev_t x))).

Section Session.
Context (timespec_sub : timespec → timespec → timespec).

(** linux/time.h: the difference of two times, in normalised form. *)
Definition subtracts : Prop := ∀ a b, normal a → normal b → 0 ≤ tv_sec a → 0 ≤ tv_sec b →
  normal (timespec_sub a b) ∧ nanoseconds (timespec_sub a b) = nanoseconds a - nanoseconds b.

(** [len += sprintf(message + len, ...)] *)
Lemma wp_read_first (s : proc xtime) l t0 now (Q : Z * string → proc xtime → Prop) :
  message s = Some l → buffers s !! l = Some t0 → read_p s ≠ 0 → normal now →
  (called (data s) ≠ 0 → normal (timespec_sub now (prev_t (data s)))) →
  (let t := shown timespec_sub (data s) now in
   Q (Z.of_nat (String.length t), t)
     (Proc (Xtime now now (if bool_decide (called (data s) = 0) then 1 else called (data s)))
        (Some l) 0 (<[l := t]> (buffers s)))) →
  wp (myxtime_proc_read timespec_sub now) Q s.
Proof.
  destruct s as [[c p cl] msg rp bufs]; cbn [message buffers read_p data called prev_t curr_t].
  intros -> Hb Hr Hnow Hsub HQ. pose proof (time_line_length "current time: " now Hnow) as Hl1.
  cbn [String.length] in Hl1. apply wp_bind, wp_toggle_first; [done|].
  rewrite bool_decide_eq_false_2 by (intros H; done).
  apply wp_bind, wp_modify, wp_bind. eapply wp_on_message; [done|exact Hb|].
  apply wp_sprintf_start; [unfold ENTRY_SIZE; cbn; lia|].
  apply wp_bind, wp_gets. unfold shown in HQ. cbn [called data set_data set_buffers] in *.
  destruct (decide (cl = 0)) as [->|Hcl].
  - rewrite bool_decide_eq_false_2 by (intros H; done). rewrite str_app_nil_r in HQ.
    apply wp_bind, wp_ret, wp_bind. eapply wp_message_text; [done|apply lookup_insert_eq|].
    apply wp_bind, wp_modify, wp_bind, wp_modify, wp_ret. rewrite Nat2Z.id. cbn.
    by rewrite substring_all.
  - rewrite (bool_decide_eq_true_2 (cl ≠ 0)) by done. rewrite !(bool_decide_eq_false_2 (cl = 0)) in HQ by done.
    pose proof (time_line_length "elapsed time: " _ (Hsub Hcl)) as Hl2. cbn [String.length] in Hl2.
    apply wp_bind, wp_bind, wp_modify, wp_bind.
    eapply wp_on_message; [done|apply lookup_insert_eq|].
    apply wp_sprintf_end; [unfold ENTRY_SIZE; cbn; lia|].
    apply wp_ret, wp_bind. eapply wp_message_text; [done|apply lookup_insert_eq|].
    apply wp_bind, wp_modify, wp_bind, wp_modify, wp_ret.
    cbn [data set_data set_buffers called curr_t prev_t set_curr_t set_prev_t buffers message read_p set_read_p].
    rewrite (bool_decide_eq_false_2 (cl = 0)) by done.
    rewrite wrap32_small by lia. rewrite <- Nat2Z.inj_add, <- str_length_app, Nat2Z.id, substring_all.
    rewrite insert_insert_eq. exact HQ.
Qed.
End Session.

(** ** Sessions *)

Section Properties.
Context (timespec_sub : timespec → timespec → timespec).

(** Between sessions: the first read is still to come, or the time of the
    last one is known. *)
Definition xtime_ok (x : xtime) : Prop :=
  called x = 0 ∨ called x = 1 ∧ normal (prev_t x) ∧ 0 ≤ tv_sec (prev_t x).

(** Every session shows the time of its first read; every one but the first
    also shows the time since the read of the session before, exactly, to
    the nanosecond.  The text fits in the buffer, the second read ends the
    file, the buffer is freed, and the time shown is remembered. *)
Lemma xtime_session_spec s l junk now later :
  subtracts timespec_sub → xtime_ok (data s) → normal now → 0 ≤ tv_sec now →
  buffers s !! l = None →
  wp (xtime_session timespec_sub (Some l) junk now later) (λ r s', ∃ d,
    r = (Z.of_nat (String.length r.1.2), r.1.2, 0) ∧
    r.1.2 = time_line "current time: " now +:+
      (if bool_decide (called (data s) = 0) then "" else time_line "elapsed time: " d) ∧
    (called (data s) ≠ 0 →
       normal d ∧ nanoseconds d = nanoseconds now - nanoseconds (prev_t (data s))) ∧
    (String.length r.1.2 < ENTRY_SIZE)%nat ∧
    xtime_ok (data s') ∧ called (data s') = 1 ∧ prev_t (data s') = now ∧
    buffers s' = buffers s) s.
Proof.
  intros Hsub Hok Hnow Hpos Hl.
  assert (Hd : called (data s) ≠ 0 →
    normal (timespec_sub now (prev_t (data s))) ∧
    nanoseconds (timespec_sub now (prev_t (data s))) = nanoseconds now - nanoseconds (prev_t (data s))).
  { intros Hc. destruct Hok as [|(_ & Hp & Hp0)]; [done|]. by apply Hsub. }
  unfold xtime_session, myxtime_proc_open, new_message, myxtime_proc_release.
  apply wp_bind, wp_bind, wp_modify, wp_bind, wp_modify, wp_bind, wp_gets, wp_ret, wp_bind.
  eapply wp_read_first; [done|apply lookup_insert_eq|done|done|apply Hd|].
  cbn [data set_data set_message set_buffers set_read_p buffers message]. rewrite insert_insert_eq.
  set (t := shown timespec_sub (data s) now). cbv zeta.
  apply wp_bind, wp_bind, wp_toggle_second; [done|]. apply wp_ret, wp_bind, wp_bind.
  eapply wp_kfree_message; [done|apply lookup_insert_eq|].
  apply wp_ret, wp_ret. exists (timespec_sub now (prev_t (data s))).
  cbn [data set_data set_buffers set_read_p buffers called prev_t fst snd].
  assert (Hlen : (String.length t < ENTRY_SIZE)%nat).
  { subst t. unfold shown. rewrite str_length_app.
    pose proof (time_line_length "current time: " now Hnow) as H1.
    case_bool_decide as Hc.
    - unfold ENTRY_SIZE in *. cbn [String.length] in *. lia.
    - pose proof (time_line_length "elapsed time: " _ (proj1 (Hd Hc))) as H2.
      unfold ENTRY_SIZE in *. cbn [String.length] in *. lia. }
  assert (Hcl : (if bool_decide (called (data s) = 0) then 1 else called (data s)) = 1).
  { case_bool_decide; [done|]. destruct Hok as [|(? & _)]; done. }
  rewrite Hcl. split_and!; try done; [by right|by apply delete_message].
Qed.
End Properties.

(** ** All readings of a module *)

Section Life.
Context (timespec_sub : timespec → timespec → timespec).
Implicit Types (rs : list reading) (t : timespec).

(** What successive readers at the times [ts] see, the reading before having
    been at [prev]. *)
Fixpoint shows (prev : option timespec) (ts : list timespec) (texts : list string) : Prop :=
  match ts, texts with
  | [], [] => True
  | t :: ts, txt :: texts =>
      match prev with
      | None => txt = time_line "current time: " t
      | Some p => ∃ d, normal d ∧ nanoseconds d = nanoseconds t - nanoseconds p ∧
          txt = time_line "current time: " t +:+ time_line "elapsed time: " d
      end ∧ shows (Some t) ts texts
  | _, _ => False
  end.

(** A time the clock can show: not before 1970. *)
Definition clock_time t : Prop := normal t ∧ 0 ≤ tv_sec t.

Lemma ulong_inj z z' : - 2 ^ 63 ≤ z < 2 ^ 63 → - 2 ^ 63 ≤ z' < 2 ^ 63 →
  z mod 2 ^ 64 = z' mod 2 ^ 64 → z = z'.
Proof. dlia. Qed.

(** A time can be read back from its line. *)
Lemma time_line_inj label t t' u u' :
  normal t → normal t' → time_line label t +:+ u = time_line label t' +:+ u' → t = t' ∧ u = u'.
Proof.
  intros [Hs Hn] [Hs' Hn']. unfold time_line, nl, ulong. rewrite !str_app_assoc.
  intros E%str_app_cancel.
  apply (pretty_Z_split _ _ "."%char _ "."%char _) in E as [Es E]; [|done..].
  injection E as E. apply (pretty_Z_split _ _ _ _ _ _) in E as [En E]; [|done..].
  injection E as E. unfold NSEC_PER_SEC in *.
  apply ulong_inj in Es; [|lia..]. apply ulong_inj in En; [|lia..].
  destruct t, t'; cbn in *. by subst.
Qed.

(** The texts determine the times. *)
Lemma shows_determine ts : ∀ ts' prev texts,
  Forall clock_time ts → Forall clock_time ts' →
  shows prev ts texts → shows prev ts' texts → ts = ts'.
Proof.
  induction ts as [|t ts IH]; intros [|t' ts'] prev [|txt texts] H H'; try done.
  apply Forall_cons in H as [[Ht _] H]. apply Forall_cons in H' as [[Ht' _] H'].
  intros [E S] [E' S']. assert (t = t') as <-.
  { destruct prev as [p|].
    - destruct E as (d & _ & _ & ->), E' as (d' & _ & _ & E'). by apply time_line_inj in E' as [-> _].
    - subst txt. rewrite <- (str_app_nil_r (time_line _ t)), <- (str_app_nil_r (time_line _ t')) in E'.
      by apply time_line_inj in E' as [-> _]. }
  f_equal. by eapply IH.
Qed.

Lemma xtime_sessions_ok rs : ∀ s prev,
  subtracts timespec_sub →
  match prev with None => called (data s) = 0
                | Some p => called (data s) = 1 ∧ prev_t (data s) = p ∧ clock_time p end →
  Forall (λ r, clock_time (r_now r) ∧ buffers s !! r_mem r = None) rs →
  wp (xtime_sessions timespec_sub rs) (λ texts s', shows prev (r_now <$> rs) texts ∧
    Forall (λ txt, String.length txt < ENTRY_SIZE)%nat texts ∧ buffers s' = buffers s) s.
Proof.
  induction rs as [|r rs IH]; intros s prev Hsub Hprev Hrs; cbn [xtime_sessions].
  { apply wp_ret. done. }
  apply Forall_cons in Hrs as [[[Hn Hp] Hl] Hrs].
  assert (Hok : xtime_ok (data s)).
  { destruct prev as [p|]; [right|by left]. destruct Hprev as (? & <- & ? & ?). done. }
  apply wp_bind. eapply wp_mono; [by apply xtime_session_spec|].
  intros x s1 (d & _ & Htxt & Hd & Hlen & _ & Hc1 & Hp1 & Hb1).
  apply wp_bind. eapply wp_mono.
  { apply (IH s1 (Some (r_now r))); [done|by split_and!|].
    eapply Forall_impl; [exact Hrs|]. intros y [? ?]. by rewrite Hb1. }
  intros texts s2 (Hsh & Hlens & Hb2). apply wp_ret. split_and!; [|by constructor|congruence].
  split; [|exact Hsh]. rewrite Htxt. destruct prev as [p|].
  - destruct Hprev as (Hc & <- & _). rewrite bool_decide_eq_false_2 by (rewrite Hc; done).
    exists d. destruct Hd as [? ?]; [by rewrite Hc|]. done.
  - by rewrite bool_decide_eq_true_2, str_app_nil_r.
Qed.

(** C28. From the loading of the module on, reader after reader sees the time of its
    read and, all but the first, the time that passed since the reading before,
    exactly, to the nanosecond.  The texts fit in the buffer, every buffer is
    freed, and all the times can be read back from the texts. *)
Theorem xtime_life_spec s rs :
  subtracts timespec_sub →
  Forall (λ r, clock_time (r_now r) ∧ buffers s !! r_mem r = None) rs →
  wp (xtime_life timespec_sub rs) (λ texts s',
    shows None (r_now <$> rs) texts ∧
    (∀ ts, Forall clock_time ts → shows None ts texts → ts = r_now <$> rs) ∧
    Forall (λ txt, String.length txt < ENTRY_SIZE)%nat texts ∧
    buffers s' = buffers s) s.
Proof.
  intros Hsub Hrs. unfold xtime_life. apply wp_bind, wp_bind, wp_modify, wp_ret.
  eapply wp_mono; [by apply (xtime_sessions_ok rs _ None)|].
  intros texts s' (Hsh & Hlen & Hb). split_and!; [done| |done|done].
  intros ts Hts Hsh'. eapply shows_determine; [done| |done|done].
  apply Forall_fmap. eapply Forall_impl; [exact Hrs|]. by intros r [? _].
Qed.
End Life.
