(* ===== verification/Animals.v ===== *)
(** * The list example (course_materials, 04_lists/random_animals.c)

    Every open of /proc/animal_list appends a random animal, up to fifty, and
    prints all of them; unloading the module deletes them type by type through
    a temporary list.  The example uses both kinds of list traversal. *)

From Stdlib Require Import Ascii.
From S2P Require Import Decimal.
From S2P Require Import Prelude KList ProcEntry.

Definition ENTRY_SIZE : nat := 1000.
Definition BUF_SIZE : nat := 100.

Definition ANIMAL_HAMSTER : Z := 0.
Definition ANIMAL_CAT : Z := 1.
Definition ANIMAL_DOG : Z := 2.
Definition NUM_ANIMAL_TYPES : Z := 3.
Definition MAX_ANIMALS : Z := 50.

(** [struct animal] without its list node. *)
Record animal := Animal { id : Z; a_length : Z; weight : Z; name : string }.

(** Addresses of list heads and nodes. *)
Inductive anode : Type :=
| HD              (* &animals.list *)
| MV              (* &move_list, a local variable of delete_animals *)
| AN (l : loc).   (* &a->list, a at address l *)

#[export] Instance anode_eq_dec : EqDecision anode.
Proof. solve_decision. Defined.
#[export] Instance anode_countable : Countable anode.
Proof.
  apply (inj_countable'
    (λ n, match n with HD => inl true | MV => inl false | AN l => inr l end)
    (λ s, match s with inl true => HD | inl false => MV | inr l => AN l end)).
  by intros [].
Defined.

Section Code.
Context {LA : ListApi anode}.

(** The static variable [animals] and the memory of its list. *)
Record zoo := Zoo {
  a_links : lmem anode;
  a_heap : gmap loc animal;
  total_cnt : Z; total_length : Z; total_weight : Z;
}.

Definition set_a_links v (z : zoo) : zoo :=
  Zoo v (a_heap z) (total_cnt z) (total_length z) (total_weight z).
Definition set_a_heap v (z : zoo) : zoo :=
  Zoo (a_links z) v (total_cnt z) (total_length z) (total_weight z).
Definition set_totals c l w (z : zoo) : zoo := Zoo (a_links z) (a_heap z) c l w.

(** The switch of [add_animal] (lines 54-72). *)
Definition animal_of (type : Z) : option animal :=
  if bool_decide (type = ANIMAL_HAMSTER) then Some (Animal type 2 1 "hamster")
  else if bool_decide (type = ANIMAL_CAT) then Some (Animal type 18 160 "cat")
  else if bool_decide (type = ANIMAL_DOG) then Some (Animal type 28 1200 "dog")
  else None.

Definition add_animal (mem : option loc) (type : Z) : M zoo Z :=
  z ← gets (λ z, z);
  if bool_decide (total_cnt z >= MAX_ANIMALS) then mret 0 else
  match animal_of type with
  | None => mret (-1)
  | Some a =>
      match mem with
      | None => mret (- ENOMEM)
      | Some l =>
          modify (λ z, set_a_heap (<[l := a]> (a_heap z)) z) ;;
          modify (λ z, set_a_links (list_add_tail (AN l) HD (a_links z)) z) ;;
          modify (λ z, set_totals (total_cnt z +i 1) (total_length z +i a_length a)
                         (total_weight z +i weight a) z) ;;
          mret 0
      end
  end.

(** [list_entry(ptr, Animal, list)] and the dereference that follows it. *)
Definition entry_at (z : zoo) (n : anode) : option animal :=
  match n with AN l => a_heap z !! l | _ => None end.
Definition alive (z : zoo) (n : anode) : bool :=
  match n with AN l => bool_decide (is_Some (a_heap z !! l)) | _ => true end.

(** [n->next], in code with the variables [W] that reads the list of [z]. *)
Definition next_in {W} (z : zoo) (n : anode) : M W anode :=
  if alive z n then mret (list_next n (a_links z)) else crash UseAfterFree.
Definition next_of (n : anode) : M zoo anode := λ z, next_in z n z.
Definition animal_at (n : anode) : M zoo animal := λ z,
  match entry_at z n with Some a => Done (a, z) | None => Fault UseAfterFree end.

(** [sprintf(buf, s); strcat(message, buf)]; the state is the counter [i] of
    the loop and the text at [message]. *)
Definition append (s : string) : M (Z * string) unit := λ '(i, t),
  if decide (String.length s < BUF_SIZE ∧ String.length t + String.length s < ENTRY_SIZE)%nat
  then Done (tt, (i, t +:+ s)) else Fault BufferOverflow.

(** The loop body (lines 117-126). *)
Definition print_entry (z : zoo) (temp : anode) : M (Z * string) bool :=
  match entry_at z temp with
  | None => crash UseAfterFree
  | Some a =>
      i ← gets fst;
      when (bool_decide (Z.rem i 5 = 0) && bool_decide (i > 0)) (append nl) ;;
      append (name a +:+ " ") ;;
      modify (λ '(i, t), (i +i 1, t)) ;;
      mret false
  end.

(** lines 105-130 *)
Definition print_text (z : zoo) : M (Z * string) unit :=
  modify (λ '(i, _), (i, "")) ;;
  append ("Total count is: " +:+ pretty (total_cnt z) +:+ nl) ;;
  append ("Total length is: " +:+ pretty (total_length z) +:+ nl) ;;
  append ("Total weight is: " +:+ pretty (total_weight z) +:+ nl) ;;
  append ("Animals seen:" +:+ nl) ;;
  modify (λ '(_, t), (0, t)) ;;
  list_for_each (next_in z) (print_entry z) HD (size (a_heap z)) ;;
  append nl.

(** [print_animals]; [mem] is the memory of [buf], whose contents never
    outlive one [sprintf] and [strcat]. *)
Definition print_animals (mem : option loc) : M (proc zoo) Z :=
  match mem with
  | None => mret (- ENOMEM)
  | Some b =>
      modify (λ s, set_buffers (<[b := ""]> (buffers s)) s) ;;
      on_message (λ z t,
        match print_text z (0, t) with
        | Done (_, (_, t')) => Done (tt, t')
        | Fault f => Fault f
        | NoFuel => NoFuel
        end) ;;
      modify (λ s, set_buffers (delete b (buffers s)) s) ;;
      mret 0
  end.

(** The loops of [delete_animals] (lines 143-172); the second one only
    counts, for the log. *)
Definition move_type (type : Z) : M zoo unit :=
  fuel ← gets (λ z, size (a_heap z));
  list_for_each_safe next_of
    (λ temp,
      a ← animal_at temp;
      when (bool_decide (id a = type))
        (modify (λ z, set_a_links (list_move_tail temp MV (a_links z)) z)) ;;
      mret false)
    HD fuel.

Definition count_moved (z : zoo) : M Z unit :=
  list_for_each (next_in z)
    (λ temp, match entry_at z temp with
             | None => crash UseAfterFree
             | Some _ => modify (λ i, i +i 1) ;; mret false
             end)
    MV (size (a_heap z)).

Definition free_moved : M zoo unit :=
  fuel ← gets (λ z, size (a_heap z));
  list_for_each_safe next_of
    (λ temp,
      _ ← animal_at temp;
      modify (λ z, set_a_links (list_del temp (a_links z)) z) ;;
      match temp with
      | AN l => modify (λ z, set_a_heap (delete l (a_heap z)) z)
      | _ => crash UseAfterFree
      end ;;
      mret false)
    MV fuel.

(** [delete_animals]: the number it logs. *)
Definition delete_animals (type : Z) : M zoo Z :=
  modify (λ z, set_a_links (INIT_LIST_HEAD MV (a_links z)) z) ;;
  move_type type ;;
  n ← (λ z, match count_moved z 0 with
            | Done (_, i) => Done (i, z)
            | Fault f => Fault f
            | NoFuel => NoFuel
            end);
  free_moved ;;
  mret n.

(** Code that works on the list only. *)
Definition in_zoo {A} (m : M zoo A) : M (proc zoo) A := λ s,
  match m (data s) with
  | Done (x, z) => Done (x, set_data z s)
  | Fault f => Fault f
  | NoFuel => NoFuel
  end.

(** [rnd] is what get_random_int returns; the result of [add_animal] is not
    used. *)
Definition animal_proc_open (mem : option loc) (junk : string) (rnd : Z)
    (mem_animal mem_buf : option loc) : M (proc zoo) Z :=
  modify (set_read_p 1) ;;
  new_message mem junk ;;
  m ← gets message;
  match m with
  | None => mret (- ENOMEM)
  | Some _ =>
      in_zoo (add_animal mem_animal (rnd mod NUM_ANIMAL_TYPES)) ;;
      print_animals mem_buf
  end.

Definition animal_proc_read (size : nat) : M (proc zoo) (Z * string) := strlen_read.
Definition animal_proc_release : M (proc zoo) Z := release_message.

(** [animal_init]; [created] is the result of proc_create. *)
Definition animal_init (created : bool) : M zoo Z :=
  if negb created then mret (- ENOMEM) else
  modify (set_totals 0 0 0) ;;
  modify (λ z, set_a_links (INIT_LIST_HEAD HD (a_links z)) z) ;;
  mret 0.

Definition animal_exit : M zoo unit :=
  delete_animals ANIMAL_HAMSTER ;;
  delete_animals ANIMAL_CAT ;;
  delete_animals ANIMAL_DOG ;;
  mret tt.

(** What the environment supplies to one visitor of the entry: the results of
    the three kmallocs and of get_random_int. *)
Record visit := Visit {
  v_message : option loc; v_junk : string; v_rnd : Z;
  v_animal : option loc; v_buf : option loc;
}.

Definition animal_visit (v : visit) : M (proc zoo) (Z * string) :=
  visit_entry (animal_proc_open (v_message v) (v_junk v) (v_rnd v) (v_animal v) (v_buf v))
    (animal_proc_read ENTRY_SIZE) animal_proc_release.

Fixpoint animal_visits (vs : list visit) : M (proc zoo) (list (Z * string)) :=
  match vs with
  | [] => mret []
  | v :: vs => x ← animal_visit v; xs ← animal_visits vs; mret (x :: xs)
  end.

(** The module from its loading to its unloading. *)
Definition animal_life (vs : list visit) : M (proc zoo) (list (Z * string)) :=
  in_zoo (animal_init true) ;;
  xs ← animal_visits vs;
  in_zoo animal_exit ;;
  mret xs.
End Code.
Arguments zoo {LA}.

(** ** Representation *)

Notation aent := (positive * animal)%type.

Definition nodes (q : list aent) : list anode := (λ x, AN x.1) <$> q.

Section Rep.
Context {LA : ListApi anode} {LL : ListLaws LA}.
Implicit Types (z : zoo) (q m : list aent).

Definition lists_of q m (n : anode) : list anode :=
  match n with HD => nodes q | MV => nodes m | AN _ => [] end.

(** The animals [q] on the list and, during a deletion, [m] on the
    temporary one. *)
Record zrep z q m : Prop := {
  zr_rings : Rings (a_links z) (λ n, n = MV ∨ n = HD) (lists_of q m);
  zr_heap l a : a_heap z !! l = Some a ↔ (l, a) ∈ q ++ m;
}.

(** Between deletions: [move_list] does not exist. *)
Record zrep1 z q : Prop := {
  z1_rings : Rings (a_links z) (λ n, n = HD) (lists_of q []);
  z1_heap l a : a_heap z !! l = Some a ↔ (l, a) ∈ q;
}.

Lemma zrep_open z q : zrep1 z q → zrep (set_a_links (INIT_LIST_HEAD MV (a_links z)) z) q [].
Proof.
  intros [R Hh]. split; cbn.
  - eapply rings_ext; [apply (rings_init _ _ _ MV R); [done|]|].
    + intros h ->. cbn. by intros (x & ? & _)%list_elem_of_fmap.
    + intros [| |l]; unfold fupd; cbn; by intros _.
  - intros l a. by rewrite (right_id_L [] (++)).
Qed.

Lemma zrep_close z q : zrep z q [] → zrep1 z q.
Proof.
  intros [[Hr Hh Hd] Hp]. split.
  - split; [auto| |].
    + intros h x -> Hx. specialize (Hh HD x (or_intror eq_refl) Hx). naive_solver.
    + naive_solver.
  - intros l a. by rewrite Hp, (right_id_L [] (++)).
Qed.

Lemma elem_of_nodes q l : AN l ∈ nodes q ↔ l ∈ q.*1.
Proof.
  unfold nodes. rewrite !list_elem_of_fmap. split; intros (x & E & Hx); exists x; naive_solver.
Qed.

Lemma zrep_fresh_head z q m l a : zrep z q ((l, a) :: m) → l ∉ (q ++ m).*1.
Proof.
  intros [[Hr _ Hd] _]. rewrite fmap_app, elem_of_app, <- !elem_of_nodes. intros [Hq|Hm].
  - assert (HD = MV); [|done]. eapply (Hd HD MV (AN l)); [by right|by left|done|cbn; left].
  - pose proof (ring_nodup _ _ _ (Hr MV (or_introl eq_refl))) as [_ Hnd]%NoDup_cons.
    cbn in Hnd. by apply NoDup_cons in Hnd as [Hnd _].
Qed.

(** The first moved animal is unlinked and freed. *)
Lemma zrep_free z q m l a :
  zrep z q ((l, a) :: m) →
  zrep (set_a_heap (delete l (a_heap z)) (set_a_links (list_del (AN l) (a_links z)) z)) q m.
Proof.
  intros Z. pose proof (zrep_fresh_head _ _ _ _ _ Z) as Hl. destruct Z as [R Hp]. split; cbn.
  - eapply rings_ext; [apply (rings_del _ _ _ MV [] (AN l) (nodes m) R); [by left|done]|].
    intros [| |?] _; unfold fupd; by cbn.
  - intros l' a'. rewrite lookup_delete_Some, Hp, !elem_of_app, elem_of_cons.
    split; [naive_solver|]. intros H. split; [|naive_solver].
    intros ->. apply Hl. apply list_elem_of_fmap. exists (l', a'). by rewrite elem_of_app.
Qed.

(** An animal in the middle of the list is moved. *)
Lemma zrep_move z q1 x q2 m :
  zrep z (q1 ++ x :: q2) m →
  zrep (set_a_links (list_move_tail (AN x.1) MV (a_links z)) z) (q1 ++ q2) (m ++ [x]).
Proof.
  intros [R Hp]. split; cbn.
  - eapply rings_ext.
    + apply (rings_move _ _ _ HD (nodes q1) (AN x.1) (nodes q2) MV R); [by right|by left|done|].
      cbn. unfold nodes. by rewrite fmap_app.
    + unfold nodes, fupd. intros h _.
      destruct h; repeat case_decide; try done; cbn [lists_of]; unfold nodes; by rewrite fmap_app.
  - intros l a. rewrite Hp, !elem_of_app, elem_of_cons, list_elem_of_singleton. tauto.
Qed.

(** A new animal at the end. *)
Lemma zrep1_add z q l a :
  zrep1 z q → a_heap z !! l = None →
  zrep1 (set_a_links (list_add_tail (AN l) HD (a_links z)) (set_a_heap (<[l := a]> (a_heap z)) z))
    (q ++ [(l, a)]).
Proof.
  intros [R Hp] Hl.
  assert (Hnot : l ∉ q.*1).
  { intros ([l' a'] & -> & Hx)%list_elem_of_fmap. apply Hp in Hx. cbn in Hl. congruence. }
  split; cbn.
  - eapply rings_ext; [apply (rings_add _ _ _ HD (AN l) R); [done|]|].
    + split; [done|]. intros h ->. cbn. by rewrite elem_of_nodes.
    + intros h ->. unfold fupd, nodes; cbn [lists_of]. rewrite decide_True by done. unfold nodes. by rewrite fmap_app.
  - intros l' a'. rewrite lookup_insert_Some, Hp, elem_of_app, list_elem_of_singleton.
    split; [naive_solver|]. intros [Hx|[= -> ->]]; [|by left]. right. split; [|done].
    intros ->. apply Hnot. apply list_elem_of_fmap. by exists (l', a').
Qed.

(** Following the links, and the fuel of the loops. *)
Lemma zr_ring z q m h : zrep z q m → h = MV ∨ h = HD → ring (a_links z) h (lists_of q m h).
Proof. intros [R _]. apply (rings_ring _ _ _ R). Qed.

Lemma next_head {W} z h xs (w : W) :
  ring (a_links z) h xs → h = MV ∨ h = HD →
  next_in z h w = Done (default h (hd_error xs), w).
Proof.
  intros Hr Hh. unfold next_in. rewrite (ring_first _ _ _ Hr).
  destruct Hh as [-> | ->]; by destruct xs.
Qed.

Lemma next_entry {W} z h l1 l l2 (w : W) :
  ring (a_links z) h (l1 ++ AN l :: l2) → is_Some (a_heap z !! l) →
  next_in z (AN l) w = Done (default h (hd_error l2), w).
Proof.
  intros Hr Hl. unfold next_in, alive. rewrite bool_decide_eq_true_2 by done.
  rewrite (ring_next _ _ _ _ _ Hr). by destruct l2.
Qed.

Lemma nodes_fuel z h q :
  ring (a_links z) h (nodes q) → (∀ x, x ∈ q → a_heap z !! x.1 = Some x.2) →
  (length (nodes q) ≤ size (a_heap z))%nat.
Proof.
  intros Hr Hin. pose proof (ring_nodup _ _ _ Hr) as [_ Hnd]%NoDup_cons.
  pose proof (NoDup_submseteq (nodes q) (AN ∘ fst <$> map_to_list (a_heap z)) Hnd) as Hsub.
  apply submseteq_length in Hsub.
  - by rewrite length_fmap, length_map_to_list in Hsub.
  - intros n (x & -> & Hx)%list_elem_of_fmap. apply list_elem_of_fmap. exists x.
    split; [done|]. apply elem_of_map_to_list'. auto.
Qed.

Lemma head_not_node h q : h = MV ∨ h = HD → h ∉ nodes q.
Proof. intros Hh (x & -> & _)%list_elem_of_fmap. naive_solver. Qed.
End Rep.

(** ** Deletion *)

Section Delete.
Context {LA : ListApi anode} {LL : ListLaws LA}.
Implicit Types (z : zoo) (q m : list aent).

Definition of_type (type : Z) (x : aent) : Prop := id x.2 = type.
#[local] Instance of_type_dec type x : Decision (of_type type x).
Proof. unfold of_type. apply _. Defined.

Lemma move_type_ok type z q :
  zrep z q [] →
  wp (move_type type) (λ _ z',
    zrep z' (filter (λ x, ¬ of_type type x) q) (filter (of_type type) q)) z.
Proof.
  intros Z. unfold move_type. apply wp_bind, wp_gets.
  set (I := λ (rest : list anode) z', ∃ k r m, q = k ++ r ∧ rest = nodes r ∧
    zrep z' (filter (λ x, ¬ of_type type x) k ++ r) m ∧ m = filter (of_type type) k).
  eapply (wp_list_for_each_safe _ _ _ I) with (xs := nodes q).
  - intros rest z' (k & r & m & _ & _ & Z' & _). eexists. unfold next_of.
    eapply next_head; [eapply (zr_ring _ _ _ HD Z'); by right|by right].
  - intros n rest z' (k & [|x r] & m & _ & E & Z' & _); [done|]. injection E as -> ->.
    pose proof (zr_ring _ _ _ HD Z' (or_intror eq_refl)) as Hr. cbn in Hr. unfold nodes in Hr.
    rewrite fmap_app in Hr. eapply (next_entry z' HD _ x.1); [exact Hr|].
    exists x.2. apply (zr_heap _ _ _ Z'). destruct x. set_solver.
  - intros n rest z' (k & [|x r] & m & E & En & Z' & Hm); [done|]. injection En as -> ->.
    assert (Hx : a_heap z' !! x.1 = Some x.2).
    { apply (zr_heap _ _ _ Z'). destruct x. set_solver. }
    apply wp_bind. eapply wp_run; [unfold animal_at; cbn; by rewrite Hx|].
    case_bool_decide as Hid; cbn [when].
    + apply wp_bind, wp_modify, wp_ret. exists (k ++ [x]), r, (m ++ [x]).
      rewrite !filter_app, !filter_cons, !filter_nil.
      rewrite decide_False by (intros H; by apply H). rewrite decide_True by done.
      rewrite (right_id_L [] (++)), <- (assoc_L (++)). split_and!; [done|done| |by subst m].
      by apply zrep_move.
    + apply wp_bind, wp_ret, wp_ret. exists (k ++ [x]), r, m.
      rewrite !filter_app, !filter_cons, !filter_nil.
      rewrite decide_True by done. rewrite decide_False by done.
      rewrite (right_id_L [] (++)), <- !(assoc_L (++)). by split_and!.
  - intros z' (k & r & m & E & En & Z' & ->). destruct r; [|done].
    rewrite (right_id_L [] (++)) in *. by subst k.
  - apply head_not_node. by right.
  - eapply (nodes_fuel z HD); [apply (zr_ring _ _ _ HD Z); by right|].
    intros [l a] Hx. apply (zr_heap _ _ _ Z). set_solver.
  - exists [], q, []. by split_and!.
  - unfold next_of. eapply next_head; [apply (zr_ring _ _ _ HD Z); by right|by right].
Qed.

Lemma count_moved_ok z q m i :
  zrep z q m → wp (count_moved z) (λ _ i', i' = wrap32 (i + Z.of_nat (length m))) (wrap32 i).
Proof.
  intros Hz. set (I := λ (rest : list anode) (j : Z), ∃ k r, m = k ++ r ∧ rest = nodes r ∧
    j = wrap32 (i + Z.of_nat (length k))).
  pose proof (zr_ring _ _ _ MV Hz (or_introl eq_refl)) as Hr. cbn in Hr.
  eapply (wp_list_for_each _ _ _ I) with (xs := nodes m).
  - intros n rest j (k & [|x r] & E & En & ->); [done|]. injection En as -> ->.
    assert (Hx : a_heap z !! x.1 = Some x.2).
    { apply (zr_heap _ _ _ Hz). subst m. destruct x. set_solver. }
    cbn [entry_at]. rewrite Hx. apply wp_bind, wp_modify, wp_ret. split.
    + subst m. unfold nodes in Hr. rewrite fmap_app in Hr.
      eapply (next_entry z MV _ x.1); [exact Hr|by eexists].
    + exists (k ++ [x]), r. rewrite <- (assoc_L (++)). split_and!; [done..|].
      rewrite wrap32_add_l, length_app. cbn [length]. f_equal. lia.
  - intros j (k & r & E & En & ->). destruct r; [|done].
    rewrite (right_id_L [] (++)) in E. by subst.
  - apply head_not_node. by left.
  - eapply (nodes_fuel z MV); [done|]. intros [l a] Hx. apply (zr_heap _ _ _ Hz). set_solver.
  - exists [], m. split_and!; [done..|]. f_equal. cbn. lia.
  - eapply next_head; [done|by left].
Qed.

Lemma free_moved_ok z q m :
  zrep z q m → wp free_moved (λ _ z', zrep z' q []) z.
Proof.
  intros Z. unfold free_moved. apply wp_bind, wp_gets.
  set (I := λ (rest : list anode) z', ∃ r, rest = nodes r ∧ zrep z' q r).
  eapply (wp_list_for_each_safe _ _ _ I) with (xs := nodes m).
  - intros rest z' (r & _ & Z'). eexists. unfold next_of.
    eapply next_head; [apply (zr_ring _ _ _ MV Z'); by left|by left].
  - intros n rest z' ([|x r] & E & Z'); [done|]. injection E as -> ->.
    eapply (next_entry z' MV [] x.1); [apply (zr_ring _ _ _ MV Z'); by left|].
    exists x.2. apply (zr_heap _ _ _ Z'). destruct x. set_solver.
  - intros n rest z' ([|[l a] r] & E & Z'); [done|]. injection E as -> ->.
    assert (Hx : a_heap z' !! l = Some a) by (apply (zr_heap _ _ _ Z'); set_solver).
    apply wp_bind. eapply wp_run; [unfold animal_at; cbn; by rewrite Hx|].
    apply wp_bind, wp_modify, wp_bind, wp_modify, wp_ret. exists r. split; [done|].
    by apply (zrep_free z' q r l a).
  - intros z' (r & E & Z'). by destruct r.
  - apply head_not_node. by left.
  - eapply (nodes_fuel z MV); [apply (zr_ring _ _ _ MV Z); by left|].
    intros [l a] Hx. apply (zr_heap _ _ _ Z). set_solver.
  - by exists m.
  - unfold next_of. eapply next_head; [apply (zr_ring _ _ _ MV Z); by left|by left].
Qed.

Lemma delete_animals_ok type z q :
  zrep1 z q →
  wp (delete_animals type) (λ n z',
    n = wrap32 (Z.of_nat (length (filter (of_type type) q))) ∧
    zrep1 z' (filter (λ x, ¬ of_type type x) q)) z.
Proof.
  intros Z. unfold delete_animals. apply wp_bind, wp_modify.
  apply wp_bind. eapply wp_mono; [apply move_type_ok, zrep_open, Z|].
  intros [] z1 Z1. apply wp_bind.
  destruct (proj1 (wp_done _ _ _) (count_moved_ok z1 _ _ 0 Z1)) as ([] & i & E & ->).
  change (wrap32 0) with 0 in E. eapply wp_run; [by rewrite E|].
  apply wp_bind. eapply wp_mono; [by eapply (free_moved_ok z1)|].
  intros [] z2 Z2. apply wp_ret. split; [done|]. by apply zrep_close.
Qed.
End Delete.

(** ** The report *)

(** The animals from number [i] on, five to a line. *)
Fixpoint entries_text (i : nat) (q : list aent) : string :=
  match q with
  | [] => ""
  | x :: q =>
      (if bool_decide (Z.rem (Z.of_nat i) 5 = 0) && bool_decide (Z.of_nat i > 0) then nl else "")
      +:+ name x.2 +:+ " " +:+ entries_text (S i) q
  end.

Definition header_text (c l w : Z) : string :=
  "Total count is: " +:+ pretty c +:+ nl +:+ "Total length is: " +:+ pretty l +:+ nl +:+
  "Total weight is: " +:+ pretty w +:+ nl +:+ "Animals seen:" +:+ nl.

Definition animal_report (c l w : Z) (q : list aent) : string :=
  header_text c l w +:+ entries_text 0 q +:+ nl.

Definition known (a : animal) : Prop := ∃ type, animal_of type = Some a.

Section Report.
Context {LA : ListApi anode} {LL : ListLaws LA}.
Implicit Types (z : zoo) (q : list aent).

Record zoo_ok z q : Prop := {
  zo_rep : zrep1 z q;
  zo_known x : x ∈ q → known x.2;
  zo_cnt : total_cnt z = Z.of_nat (length q);
  zo_length : total_length z = zsum (λ x, a_length x.2) q;
  zo_weight : total_weight z = zsum (λ x, weight x.2) q;
  zo_max : Z.of_nat (length q) ≤ MAX_ANIMALS;
}.

Lemma known_bounds a :
  known a → 2 ≤ a_length a ≤ 28 ∧ 1 ≤ weight a ≤ 1200 ∧ (String.length (name a) ≤ 7)%nat.
Proof.
  intros [t E]. unfold animal_of in E.
  repeat case_bool_decide; simplify_eq; cbn; lia.
Qed.

Lemma zsum_known (g : animal → Z) k q :
  (∀ a, known a → 0 ≤ g a ≤ k) → (∀ x, x ∈ q → known x.2) →
  0 ≤ zsum (λ x : aent, g x.2) q ≤ k * Z.of_nat (length q).
Proof.
  intros Hg. induction q as [|x q IH]; intros Hk; [rewrite zsum_nil; cbn; lia|].
  rewrite zsum_cons. specialize (Hg x.2 (Hk x ltac:(left))).
  specialize (IH (λ y Hy, Hk y ltac:(by right))). cbn [length]. lia.
Qed.

Lemma totals_bounds z q :
  zoo_ok z q → is_int (total_cnt z) ∧ 0 ≤ total_length z ≤ 1400 ∧ 0 ≤ total_weight z ≤ 60000.
Proof.
  intros [_ Hk Hc Hl Hw Hm]. unfold MAX_ANIMALS in Hm. rewrite Hc, Hl, Hw.
  pose proof (zsum_known a_length 28 q
    (λ a Ha, ltac:(pose proof (known_bounds a Ha); lia)) Hk).
  pose proof (zsum_known weight 1200 q
    (λ a Ha, ltac:(pose proof (known_bounds a Ha); lia)) Hk).
  unfold is_int, INT_MIN, INT_MAX. lia.
Qed.

Lemma entries_text_length i q :
  (∀ x, x ∈ q → known x.2) → (String.length (entries_text i q) ≤ 9 * length q)%nat.
Proof.
  revert i. induction q as [|x q IH]; intros i Hk; [done|]. cbn [entries_text].
  rewrite !str_length_app. pose proof (known_bounds _ (Hk x ltac:(left))) as (_ & _ & Hn).
  specialize (IH (S i) (λ y Hy, Hk y ltac:(by right))).
  destruct (bool_decide (Z.rem _ 5 = 0) && _); cbn [String.length length nl]; lia.
Qed.

Lemma header_length c l w :
  is_int c → is_int l → is_int w → (String.length (header_text c l w) ≤ 100)%nat.
Proof.
  intros Hc Hl Hw. unfold header_text, nl. rewrite !str_length_app.
  pose proof (pretty_int_length _ Hc). pose proof (pretty_int_length _ Hl).
  pose proof (pretty_int_length _ Hw). cbn [String.length]. lia.
Qed.

Lemma report_fits z q :
  zoo_ok z q →
  (String.length (animal_report (total_cnt z) (total_length z) (total_weight z) q) < 552)%nat.
Proof.
  intros O. pose proof (totals_bounds z q O) as (Hc & Hl & Hw).
  assert (is_int (total_length z) ∧ is_int (total_weight z)) as [Hl' Hw']
    by (unfold is_int, INT_MIN, INT_MAX; lia).
  pose proof (header_length _ _ _ Hc Hl' Hw'). pose proof (zo_max _ _ O) as Hm.
  pose proof (entries_text_length 0 q (zo_known _ _ O)). unfold MAX_ANIMALS in Hm.
  unfold animal_report, nl. rewrite !str_length_app. cbn [String.length]. lia.
Qed.

Lemma wp_append s i t (Q : unit → Z * string → Prop) :
  (String.length s < BUF_SIZE)%nat → (String.length t + String.length s < ENTRY_SIZE)%nat →
  Q tt (i, t +:+ s) → wp (append s) Q (i, t).
Proof. intros Hs Ht HQ. unfold wp, append. by rewrite decide_True by done. Qed.

(** One entry: what has been printed and what is still to come make up the
    same text [T] as before. *)
Lemma print_entry_ok z q k x r u T :
  zoo_ok z q → q = k ++ x :: r → u +:+ entries_text (length k) (x :: r) = T →
  (String.length T < ENTRY_SIZE)%nat →
  wp (print_entry z (AN x.1)) (λ brk s', ∃ u', brk = false ∧
    s' = (Z.of_nat (S (length k)), u') ∧ u' +:+ entries_text (S (length k)) r = T)
    (Z.of_nat (length k), u).
Proof.
  intros O E Hu HT. assert (Hx : x ∈ q) by (subst q; set_solver).
  assert (Hh : a_heap z !! x.1 = Some x.2).
  { apply (z1_heap _ _ (zo_rep _ _ O)). by destruct x. }
  pose proof (known_bounds _ (zo_known _ _ O x Hx)) as (_ & _ & Hn).
  pose proof (zo_max _ _ O) as Hmax. unfold MAX_ANIMALS in Hmax.
  assert (Hk : (length k < length q)%nat) by (subst q; rewrite length_app; cbn; lia).
  unfold print_entry. cbn [entry_at]. rewrite Hh. apply wp_bind, wp_gets. cbn [fst].
  cbn [entries_text] in Hu. set (sep := bool_decide (Z.rem _ 5 = 0) && _) in *.
  apply (f_equal String.length) in Hu as HL. rewrite !str_length_app in HL.
  change (String.length " ") with 1%nat in HL.
  apply wp_bind. apply (wp_mono _ (λ _ s', s' = (Z.of_nat (length k), u +:+ (if sep then nl else "")))).
  { destruct sep; cbn [when].
    - apply wp_append; [unfold BUF_SIZE; cbn; lia|lia|done].
    - apply wp_ret. by rewrite str_app_nil_r. }
  intros _ s' ->. apply wp_bind, wp_append; rewrite ?str_length_app; cbn [String.length];
    [unfold BUF_SIZE; lia|lia|].
  apply wp_bind, wp_modify, wp_ret. eexists. split_and!; [done| |].
  - rewrite wrap32_small by lia. f_equal. lia.
  - rewrite <- Hu, !str_app_assoc. done.
Qed.

(** The loop over the list prints the entries. *)
Lemma print_entries z q t :
  zoo_ok z q → (String.length t + 9 * length q < ENTRY_SIZE)%nat →
  wp (list_for_each (next_in z) (print_entry z) HD (size (a_heap z)))
    (λ _ s, s.2 = t +:+ entries_text 0 q) (0, t).
Proof.
  intros O Hlen. pose proof (entries_text_length 0 q (zo_known _ _ O)) as Hel.
  pose proof (rings_ring _ _ _ (z1_rings _ _ (zo_rep _ _ O)) HD eq_refl) as Hr. cbn in Hr.
  assert (Hin : ∀ x, x ∈ q → a_heap z !! x.1 = Some x.2).
  { intros [l a] Hx. by apply (z1_heap _ _ (zo_rep _ _ O)). }
  set (I := λ (rest : list anode) (s : BinNums.Z * string), ∃ k r, q = k ++ r ∧ rest = nodes r ∧
    s.1 = Z.of_nat (length k) ∧ s.2 +:+ entries_text (length k) r = t +:+ entries_text 0 q).
  eapply (wp_list_for_each _ _ _ I) with (xs := nodes q).
  - intros n rest [i u] (k & [|x r] & E & En & Hi & Hu); [done|]. injection En as -> ->.
    cbn [fst snd] in Hi, Hu. subst i.
    eapply wp_mono; [eapply print_entry_ok; [done|done|exact Hu|rewrite str_length_app; lia]|].
    intros brk s' (u' & -> & -> & Hu'). split.
    + rewrite E in Hr. unfold nodes in Hr. rewrite fmap_app in Hr.
      eapply (next_entry z HD _ x.1); [exact Hr|]. rewrite Hin by (subst q; set_solver). by eexists.
    + exists (k ++ [x]), r. rewrite <- (assoc_L (++)), length_app. cbn [length fst snd].
      rewrite Nat.add_1_r. by split_and!.
  - intros [i u] (k & r & E & En & Hi & Hu). destruct r; [|done].
    cbn [snd entries_text] in *. by rewrite str_app_nil_r in Hu.
  - apply head_not_node. by right.
  - by eapply (nodes_fuel z HD).
  - exists [], q. by split_and!.
  - eapply next_head; [exact Hr|by right].
Qed.

Lemma print_text_ok z q i t :
  zoo_ok z q →
  wp (print_text z)
    (λ _ s, s.2 = animal_report (total_cnt z) (total_length z) (total_weight z) q) (i, t).
Proof.
  intros O. pose proof (totals_bounds z q O) as (Hc & Hl & Hw).
  assert (is_int (total_length z) ∧ is_int (total_weight z)) as [Hl' Hw']
    by (unfold is_int, INT_MIN, INT_MAX; lia).
  pose proof (header_length _ _ _ Hc Hl' Hw') as Hh.
  pose proof (entries_text_length 0 q (zo_known _ _ O)) as He.
  pose proof (pretty_int_length _ Hc). pose proof (pretty_int_length _ Hl').
  pose proof (pretty_int_length _ Hw').
  pose proof (zo_max _ _ O) as Hm. unfold MAX_ANIMALS in Hm.
  unfold print_text. apply wp_bind, wp_modify.
  do 4 (apply wp_bind, wp_append;
    [unfold BUF_SIZE, nl; rewrite ?str_length_app; cbn [String.length]; lia
    |unfold ENTRY_SIZE, nl; rewrite ?str_length_app; cbn [String.length]; lia|]).
  apply wp_bind, wp_modify, wp_bind.
  match goal with |- wp _ _ (0, ?u) => assert (Hu : u = header_text (total_cnt z)
    (total_length z) (total_weight z)) end.
  { unfold header_text. rewrite !str_app_assoc. done. }
  rewrite Hu. eapply wp_mono; [apply print_entries; [done|unfold ENTRY_SIZE; lia]|].
  intros [] [j u] E. cbn [snd] in E. subst u. apply wp_append.
  - unfold BUF_SIZE. cbn. lia.
  - unfold ENTRY_SIZE, nl. rewrite str_length_app. cbn [String.length]. lia.
  - cbn [snd]. unfold animal_report. by rewrite str_app_assoc.
Qed.
End Report.

(** ** Adding and opening *)

Section Open.
Context {LA : ListApi anode} {LL : ListLaws LA}.
Implicit Types (z : zoo) (q : list aent).

(** What [add_animal] does to the list. *)
Definition added (mem : option loc) (type : Z) (q : list aent) : list aent :=
  match mem, animal_of type with
  | Some l, Some a => if bool_decide (Z.of_nat (length q) < MAX_ANIMALS) then q ++ [(l, a)] else q
  | _, _ => q
  end.

Lemma add_animal_ok z q mem type :
  zoo_ok z q → (∀ l, mem = Some l → a_heap z !! l = None) →
  wp (add_animal mem type) (λ _ z', zoo_ok z' (added mem type q)) z.
Proof.
  intros O Hl. pose proof (totals_bounds z q O) as (_ & Htl & Htw).
  pose proof O as [Hrep Hk Hc Hlen Hw Hm]. unfold MAX_ANIMALS in *.
  unfold add_animal, added, MAX_ANIMALS. apply wp_bind, wp_gets. rewrite Hc.
  destruct (decide (Z.of_nat (length q) < 50)) as [Hlt|Hge].
  - rewrite bool_decide_eq_false_2 by lia. rewrite bool_decide_eq_true_2 by done.
    destruct (animal_of type) as [a|] eqn:Ea; [|destruct mem; by apply wp_ret].
    destruct mem as [l|]; [|by apply wp_ret].
    apply wp_bind, wp_modify, wp_bind, wp_modify, wp_bind, wp_modify, wp_ret.
    pose proof (known_bounds a ltac:(by eexists)) as (Hab & Haw & _). split; cbn.
    + pose proof (zrep1_add z q l a Hrep (Hl l eq_refl)) as [? ?]. by split.
    + intros x [Hx| ->%list_elem_of_singleton]%elem_of_app; [auto|by exists type].
    + rewrite Hc, length_app, wrap32_small by lia. cbn. lia.
    + rewrite zsum_snoc, <- Hlen. cbn. apply wrap32_small. lia.
    + rewrite zsum_snoc, <- Hw. cbn. apply wrap32_small. lia.
    + rewrite length_app. cbn. unfold MAX_ANIMALS. lia.
  - rewrite bool_decide_eq_true_2 by lia. rewrite (bool_decide_eq_false_2 (_ < 50)) by done.
    destruct mem, (animal_of type); by apply wp_ret.
Qed.

Lemma wp_in_zoo {A} (m : M zoo A) (Q : A → proc zoo → Prop) s :
  wp m (λ x z, Q x (set_data z s)) (data s) → wp (in_zoo m) Q s.
Proof. unfold wp, in_zoo. by destruct (m (data s)) as [[x z]| |]. Qed.

Lemma animal_init_ok z :
  a_heap z = ∅ → wp (animal_init true) (λ r z', r = 0 ∧ zoo_ok z' []) z.
Proof.
  intros Hh. unfold animal_init. cbn [negb].
  apply wp_bind, wp_modify, wp_bind, wp_modify, wp_ret. split; [done|]. split; try done; cbn.
  - split; cbn.
    + split; intros; subst; cbn in *; try (by apply ring_init); try (by apply elem_of_nil in H0).
      all: set_solver.
    + intros l a. rewrite Hh, lookup_empty. set_solver.
  - set_solver.
Qed.
End Open.

(** ** Opening and unloading *)

Section Handlers.
Context {LA : ListApi anode} {LL : ListLaws LA}.
Implicit Types (z : zoo) (q : list aent).

(** Opening the entry adds an animal of the type drawn, unless there are
    fifty or no memory is left for it, and prints the report of the new list;
    no buffer overflows, and the temporary buffer is freed. *)
Lemma animal_proc_open_spec s q l junk rnd mem b :
  zoo_ok (data s) q → (∀ l', mem = Some l' → a_heap (data s) !! l' = None) →
  b ≠ l → buffers s !! b = None →
  wp (animal_proc_open (Some l) junk rnd mem (Some b)) (λ r s',
    let q' := added mem (rnd mod NUM_ANIMAL_TYPES) q in
    let report := animal_report (total_cnt (data s')) (total_length (data s'))
                    (total_weight (data s')) q' in
    r = 0 ∧ zoo_ok (data s') q' ∧ message s' = Some l ∧ read_p s' = 1 ∧
    buffers s' = <[l := report]> (buffers s) ∧ (String.length report < ENTRY_SIZE)%nat) s.
Proof.
  intros O Hmem Hbl Hb. unfold animal_proc_open, new_message.
  apply wp_bind, wp_modify, wp_bind, wp_modify, wp_bind, wp_gets.
  cbn [message set_message]. apply wp_bind, wp_in_zoo.
  eapply wp_mono; [by eapply add_animal_ok|]. intros r z' O'. unfold print_animals.
  apply wp_bind, wp_modify, wp_bind.
  eapply wp_on_message; [done| |].
  { cbn. by rewrite lookup_insert_ne, lookup_insert_eq. }
  destruct (proj1 (wp_done _ _ _) (print_text_ok z' _ 0 junk O')) as ([] & [i t] & E & Ht).
  cbn [snd] in Ht. subst t.
  eapply wp_run; [cbn [data set_data set_buffers]; by rewrite E|].
  apply wp_bind, wp_modify, wp_ret. cbv zeta.
  cbn [data set_data set_buffers buffers message set_message set_read_p].
  split_and!; [done|done|done|done| |pose proof (report_fits z' _ O'); unfold ENTRY_SIZE; lia].
  rewrite delete_insert_ne, delete_insert_eq, delete_insert_ne, delete_id by done.
  by rewrite insert_insert_eq.
Qed.

(** Unloading the module deletes every animal: all three types are removed,
    each through the temporary list, and nothing remains allocated. *)
Lemma animal_exit_frees z q :
  zoo_ok z q → wp animal_exit (λ _ z', a_heap z' = ∅ ∧ ring (a_links z') HD []) z.
Proof.
  intros O. unfold animal_exit.
  apply wp_bind. eapply wp_mono; [apply delete_animals_ok, O|]. intros n1 z1 [_ Z1].
  apply wp_bind. eapply wp_mono; [by apply delete_animals_ok|]. intros n2 z2 [_ Z2].
  apply wp_bind. eapply wp_mono; [by apply delete_animals_ok|]. intros n3 z3 [_ Z3].
  apply wp_ret.
  match type of Z3 with zrep1 _ ?u => assert (Hnil : u = []) end.
  { apply elem_of_nil_inv. intros x. rewrite !list_elem_of_filter. unfold of_type.
    intros (H3 & H2 & H1 & Hx). destruct (zo_known _ _ O x Hx) as [t E].
    unfold animal_of in E. repeat case_bool_decide; simplify_eq; rewrite <- E in *; cbn in *; lia. }
  rewrite Hnil in Z3. split.
  - apply map_empty. intros l. destruct (a_heap z3 !! l) as [a|] eqn:El; [|done].
    apply (z1_heap _ _ Z3) in El. by apply elem_of_nil in El.
  - apply (rings_ring _ _ _ (z1_rings _ _ Z3) HD eq_refl).
Qed.

(** When there is no memory for the temporary buffer the animal has been added
    all the same, and [message] stays allocated. *)
Lemma animal_open_no_buf s q l junk rnd mem :
  zoo_ok (data s) q → (∀ l', mem = Some l' → a_heap (data s) !! l' = None) →
  wp (animal_proc_open (Some l) junk rnd mem None) (λ r s',
    r = - ENOMEM ∧ zoo_ok (data s') (added mem (rnd mod NUM_ANIMAL_TYPES) q) ∧
    buffers s' = <[l := junk]> (buffers s)) s.
Proof.
  intros O Hmem. unfold animal_proc_open, new_message.
  apply wp_bind, wp_modify, wp_bind, wp_modify, wp_bind, wp_gets.
  cbn [message set_message]. apply wp_bind, wp_in_zoo.
  eapply wp_mono; [by eapply add_animal_ok|]. intros r z' O'. by apply wp_ret.
Qed.
End Handlers.

(** ** The life of the module *)

(** What a visitor gets when the animals [q] are on the list, the animals
    afterwards, and the buffer that stays allocated. *)
Definition seen (v : visit) (q : list aent) : list aent :=
  match v_message v with
  | Some _ => added (v_animal v) (v_rnd v mod NUM_ANIMAL_TYPES) q
  | None => q
  end.
Definition full_report (q : list aent) : string :=
  animal_report (Z.of_nat (length q)) (zsum (λ x, a_length x.2) q) (zsum (λ x, weight x.2) q) q.
Definition answer (v : visit) (q : list aent) : Z * string :=
  match v_message v, v_buf v with
  | Some _, Some _ => (0, full_report (seen v q))
  | _, _ => (- ENOMEM, "")
  end.
Definition leaked (v : visit) : gset loc :=
  match v_message v, v_buf v with Some l, None => {[l]} | _, _ => ∅ end.

Fixpoint answers (vs : list visit) (q : list aent) : list (Z * string) :=
  match vs with [] => [] | v :: vs => answer v q :: answers vs (seen v q) end.
Fixpoint all_leaked (vs : list visit) : gset loc :=
  match vs with [] => ∅ | v :: vs => leaked v ∪ all_leaked vs end.

(** kmalloc returns memory that is not in use: not by a live buffer of [bs],
    nor by an animal of [q]. *)
Definition fresh_visit (bs : gset loc) (q : list aent) (v : visit) : Prop :=
  (∀ l, v_message v = Some l → l ∉ bs) ∧
  (∀ b, v_buf v = Some b → b ∉ bs ∧ v_message v ≠ Some b) ∧
  (∀ a, v_animal v = Some a → a ∉ q.*1).
Fixpoint fresh_visits (bs : gset loc) (q : list aent) (vs : list visit) : Prop :=
  match vs with
  | [] => True
  | v :: vs => fresh_visit bs q v ∧ fresh_visits (bs ∪ leaked v) (seen v q) vs
  end.

Section Life.
Context {LA : ListApi anode} {LL : ListLaws LA}.
Implicit Types (z : zoo) (q : list aent) (s : proc zoo).

Lemma ok_report z q :
  zoo_ok z q → animal_report (total_cnt z) (total_length z) (total_weight z) q = full_report q.
Proof. intros [_ _ Hc Hl Hw _]. by rewrite Hc, Hl, Hw. Qed.

Lemma not_in_heap z q a : zrep1 z q → a ∉ q.*1 → a_heap z !! a = None.
Proof.
  intros Z Ha. apply eq_None_not_Some. intros [x Hx].
  apply Ha. apply (z1_heap _ _ Z) in Hx. apply list_elem_of_fmap. by exists (a, x).
Qed.

Lemma full_report_cons q : ∃ t, full_report q = "T" +:+ t.
Proof. unfold full_report, animal_report, header_text. eexists. reflexivity. Qed.

Lemma animal_visit_ok s q v :
  zoo_ok (data s) q → fresh_visit (dom (buffers s)) q v →
  wp (animal_visit v) (λ x s', x = answer v q ∧ zoo_ok (data s') (seen v q) ∧
    dom (buffers s') = dom (buffers s) ∪ leaked v) s.
Proof.
  intros O (Hm & Hb & Ha). unfold animal_visit, answer, leaked, seen. apply wp_visit_entry.
  destruct v as [m junk rnd mem buf]; cbn [v_message v_junk v_rnd v_animal v_buf] in *.
  destruct m as [l|].
  2:{ unfold animal_proc_open, new_message. repeat apply wp_bind, wp_modify.
      apply wp_bind, wp_gets, wp_ret. left. split_and!; [done..|].
      cbn [buffers set_message set_read_p]. set_solver. }
  assert (Hmem : ∀ l', mem = Some l' → a_heap (data s) !! l' = None).
  { intros l' E. eapply not_in_heap; [apply (zo_rep _ _ O)|by apply Ha]. }
  specialize (Hm l eq_refl). destruct buf as [b|].
  - destruct (Hb b eq_refl) as [Hbs Hbl]. eapply wp_mono.
    { eapply animal_proc_open_spec; [done|done|congruence|by apply not_elem_of_dom]. }
    cbv zeta. intros r s' (-> & O' & Hl & Hr & Hbuf & _). right. split; [done|].
    rewrite (ok_report _ _ O') in Hbuf. eexists l, _.
    split_and!; [done|by rewrite Hbuf, lookup_insert_eq| |lia|done|done|].
    + by destruct (full_report_cons (added mem (rnd mod NUM_ANIMAL_TYPES) q)) as [t ->].
    + cbn [buffers]. rewrite Hbuf, dom_delete_L, dom_insert_L. set_solver.
  - eapply wp_mono; [by apply animal_open_no_buf|]. intros r s' (-> & O' & E). left.
    split_and!; [done..|]. rewrite E, dom_insert_L. set_solver.
Qed.

Lemma animal_visits_ok vs : ∀ s q,
  zoo_ok (data s) q → fresh_visits (dom (buffers s)) q vs →
  wp (animal_visits vs) (λ xs s', xs = answers vs q ∧ (∃ q', zoo_ok (data s') q') ∧
    dom (buffers s') = dom (buffers s) ∪ all_leaked vs) s.
Proof.
  induction vs as [|v vs IH]; intros s q O Hf; cbn [animal_visits answers all_leaked].
  { apply wp_ret. split_and!; [done|by exists q|set_solver]. }
  destruct Hf as [Hv Hf]. apply wp_bind.
  eapply wp_mono; [by apply animal_visit_ok|]. intros x s1 (-> & O1 & E1). apply wp_bind.
  eapply wp_mono; [apply IH; [exact O1|by rewrite E1]|].
  intros xs s2 (-> & O2 & E2). apply wp_ret. split_and!; [done|done|]. set_solver.
Qed.

(** C29. From its loading to its unloading, whatever the sequence of visitors,
    their random numbers and the failures of their allocations: nothing faults
    (no buffer overflows, nothing is used after it is freed, no loop runs on),
    every visitor gets the complete report of the animals added so far - an
    animal is added by every visit that has memory for it until there are
    fifty - or -ENOMEM, every animal is freed at the end, and of the buffers
    exactly those stay allocated whose visitor found no memory for the
    temporary buffer. *)
Theorem animal_life_spec s vs :
  a_heap (data s) = ∅ → fresh_visits (dom (buffers s)) [] vs →
  wp (animal_life vs) (λ xs s', xs = answers vs [] ∧
    a_heap (data s') = ∅ ∧ ring (a_links (data s')) HD [] ∧
    dom (buffers s') = dom (buffers s) ∪ all_leaked vs) s.
Proof.
  intros Hh Hf. unfold animal_life. apply wp_bind, wp_in_zoo.
  eapply wp_mono; [by apply animal_init_ok|]. intros r z [_ O]. apply wp_bind.
  eapply wp_mono; [by apply (animal_visits_ok vs (set_data z s) [])|].
  intros xs s1 (-> & [q' O'] & E). apply wp_bind, wp_in_zoo.
  eapply wp_mono; [by eapply animal_exit_frees|]. intros [] z' [Hz Hr]. by apply wp_ret.
Qed.
End Life.
