(* ===== verification/Examples.v ===== *)
(** * The remaining course examples

    The proc entry of 02_procfs, the system call with a stub of 03_syscall, and
    the thread of 05_threading_with_blocking with its proc entry (06 and 07 are in
    ThreadModules.v).  Shown: the two entries with a buffer of 20 bytes overflow
    it at every open. *)

From S2P Require Import Decimal.
From S2P Require Import Prelude ProcEntry.

(** A [sprintf] longer than the buffer. *)
Lemma sprintf_overflow cap s t : (cap ≤ String.length s)%nat → sprintf_at cap 0 s t = Fault BufferOverflow.
Proof. intros Hl. unfold sprintf_at. by rewrite bool_decide_eq_false_2 by lia. Qed.

(** ** 02_procfs/hello_proc.c *)

Module Hello.
Definition ENTRY_SIZE : nat := 20.

(** The data is the static variable [counter]. *)
Definition hello_text (counter : Z) : string :=
  "Hello World! Counter: " +:+ pretty counter +:+ nl.

Definition hello_proc_open (mem : option loc) (junk : string) : M (proc Z) Z :=
  modify (set_read_p 1) ;;
  new_message mem junk ;;
  m ← gets message;
  match m with
  | None => mret (- ENOMEM)
  | Some _ =>
      modify (λ s, set_data (data s +i 1) s) ;;
      on_message (λ counter, sprintf_at ENTRY_SIZE 0 (hello_text counter)) ;;
      mret 0
  end.

Definition hello_proc_read (size : nat) : M (proc Z) (Z * string) := strlen_read.
Definition hello_proc_release : M (proc Z) Z := release_message.

(** [created] is the result of proc_create; whether the entry exists. *)
Definition hello_init (created : bool) : M (proc Z) (Z * bool) :=
  modify (set_data 0) ;;
  if negb created then mret (- ENOMEM, false) else mret (0, true).

(** [hello_exit]: whether the entry exists afterwards. *)
Definition hello_exit : M (proc Z) bool := mret false.
End Hello.

(** ** 03_syscall: a system call through a stub *)

Module TestCall.
(** [STUB_test_call]: NULL, or the module's function. *)
Definition my_test_call (test : Z) : Z := test.

Definition hello_init (_ : option (Z → Z)) : option (Z → Z) * Z := (Some my_test_call, 0).
Definition hello_exit (_ : option (Z → Z)) : option (Z → Z) := None.

Definition sys_test_call (stub : option (Z → Z)) (test_int : Z) : Z :=
  match stub with
  | Some f => f test_int
  | None => - ENOSYS
  end.
End TestCall.

(** ** 05_threading_with_blocking/thread.c *)

Module Blocking.
Definition ENTRY_SIZE : nat := 20.

(** [struct thread_parameter] without the task. *)
Record thread_parameter := Parm { id : Z; cnt : Z }.

(** [thread_run]: [stop k] is the result of the [k]-th call of
    kthread_should_stop. *)
Fixpoint thread_run (stop : nat → bool) (fuel k : nat) : M thread_parameter Z :=
  if stop k then mret 0 else
  match fuel with
  | O => starve
  | S fuel => modify (λ p, Parm (id p) (cnt p +i 1)) ;; thread_run stop fuel (S k)
  end.

(** [thread_init_parameter]; the static variable [id] is the argument. *)
Definition thread_init_parameter (next_id : Z) : thread_parameter * Z :=
  (Parm next_id 0, next_id +i 1).

Definition thread_text (p : thread_parameter) : string :=
  "Thread " +:+ pretty (id p) +:+ " has blocked " +:+ pretty (cnt p) +:+ " times" +:+ nl.

Definition thread_proc_open (mem : option loc) (junk : string) : M (proc thread_parameter) Z :=
  modify (set_read_p 1) ;;
  new_message mem junk ;;
  m ← gets message;
  match m with
  | None => mret (- ENOMEM)
  | Some _ => on_message (λ p, sprintf_at ENTRY_SIZE 0 (thread_text p)) ;; mret 0
  end.

Definition thread_proc_read (size : nat) : M (proc thread_parameter) (Z * string) := strlen_read.
Definition thread_proc_release : M (proc thread_parameter) Z := release_message.
End Blocking.

(** ** 06_threading_race_condition and 07_threading_and_locking

    Modelled in ThreadModules.v and ThreadLife.v; here the size of the table of
    counters they share. *)

Module Counters.
Definition CNT_SIZE : nat := 20.
End Counters.

(** ** Proofs *)

Lemma hello_text_length c : (22 ≤ String.length (Hello.hello_text c))%nat.
Proof. unfold Hello.hello_text. rewrite !str_length_app. cbn [String.length]. lia. Qed.

Lemma thread_text_length p : (20 ≤ String.length (Blocking.thread_text p))%nat.
Proof. unfold Blocking.thread_text. rewrite !str_length_app. cbn [String.length]. lia. Qed.

Section Properties.
(** Both proc entries with a buffer of ENTRY_SIZE = 20 bytes overflow it at
    every open, whatever the counters hold: the fixed text alone is longer. *)
Theorem small_buffers_overflow l junk :
  (∀ s, Hello.hello_proc_open (Some l) junk s = Fault BufferOverflow) ∧
  (∀ s, Blocking.thread_proc_open (Some l) junk s = Fault BufferOverflow).
Proof.
  split; intros [d m r b];
    unfold Hello.hello_proc_open, Blocking.thread_proc_open, mbind, M_bind, modify, gets,
      new_message, on_message, mbind, M_bind, modify;
    cbn [message data set_message set_buffers set_read_p set_data buffers read_p];
    rewrite lookup_insert_eq, sprintf_overflow; try done.
  - unfold Hello.ENTRY_SIZE. pose proof (hello_text_length (d +i 1)). lia.
  - apply thread_text_length.
Qed.
End Properties.
