(* ===== verification/ThreadModules.v ===== *)
(** * The thread examples 06 and 07: the code of the thread and of the entry

    Each example is a module with one thread that counts in twenty counters and
    one proc entry that shows them through a second buffer [buf] that is never
    freed.  This file has the pieces of code between two accesses to what thread
    and visitors share - the counters and, in 07, the mutex - and their rules.
    ThreadLife.v interleaves them. *)

From S2P Require Import Decimal.
From S2P Require Import Prelude ProcEntry Examples.

(** ** The threads of 06 and 07 *)

Module Counting.
(** [parm->cnt[i]++] *)
Definition count (i : nat) : M (list Z) unit := modify (alter (λ n, n +i 1) i).

(** The parameter's counters after [thread_init_parameter]. *)
Definition zero_counters : M (list Z) unit :=
  for_range Counters.CNT_SIZE (λ i, modify (alter (λ _, 0) i)).
End Counting.

(** ** The entries of 06 and 07 *)

Module Report.
Definition ENTRY_SIZE : nat := Z.to_nat 10000.

(** The data of the entry is [thread1.id]. *)
Notation mem := (M (proc Z)).

(** [buf = kmalloc(...)] *)
Definition new_buf (b : loc) (junk : string) : mem unit :=
  modify (λ s, set_buffers (<[b := junk]> (buffers s)) s).

Definition kfree_buf (b : loc) : mem unit := λ s,
  match buffers s !! b with
  | Some _ => Done (tt, set_buffers (delete b (buffers s)) s)
  | None => Fault DoubleFree
  end.

(** [sprintf(buf, ...)] *)
Definition sprintf_buf (b : option loc) (txt : string) : mem unit := λ s,
  match b with
  | None => Fault NullDeref
  | Some b =>
      match buffers s !! b with
      | None => Fault UseAfterFree
      | Some _ =>
          if decide (String.length txt < ENTRY_SIZE)%nat
          then Done (tt, set_buffers (<[b := txt]> (buffers s)) s) else Fault BufferOverflow
      end
  end.

(** [strcat(message, txt)] for a string literal, and [strcat(message, buf)] *)
Definition strcat (txt : string) : mem unit :=
  on_message (λ _ t, if decide (String.length t + String.length txt < ENTRY_SIZE)%nat
                     then Done (tt, t +:+ txt) else Fault BufferOverflow).

Definition strcat_buf (b : option loc) : mem unit := λ s,
  match b with
  | None => Fault NullDeref
  | Some b => match buffers s !! b with None => Fault UseAfterFree | Some txt => strcat txt s end
  end.

(** [sprintf(buf, "%d\n", v); strcat(message, buf);] *)
Definition print_line (b : option loc) (v : Z) : mem unit :=
  sprintf_buf b (pretty v +:+ nl) ;; strcat_buf b.

Definition title (id : Z) : string :=
  "Thread " +:+ pretty id +:+ " has cycled this many times:" +:+ nl.

Definition print_title : mem unit :=
  on_message (λ id, sprintf_at ENTRY_SIZE 0 (title id)) ;; mret tt.

(** [thread_proc_open] of 06 up to the loop: the result of an open that fails,
    or the pointer [buf]. *)
Definition open_start06 (buf msg : option loc) (j1 j2 : string) : mem (Z + option loc) :=
  modify (set_read_p 1) ;;
  match buf with
  | None => mret (inl (- ENOMEM))
  | Some b =>
      new_buf b j1 ;;
      new_message msg j2 ;;
      m ← gets message;
      match m with
      | None => kfree_buf b ;; mret (inl (- ENOMEM))
      | Some _ => print_title ;; mret (inr buf)
      end
  end.

(** [thread_proc_open] of 07 up to the lock call: [buf] is not tested. *)
Definition open_start07 (buf msg : option loc) (j1 j2 : string) : mem (Z + option loc) :=
  modify (set_read_p 1) ;;
  (match buf with Some b => new_buf b j1 | None => mret tt end) ;;
  new_message msg j2 ;;
  m ← gets message;
  match m with
  | None => mret (inl (- ENOMEM))
  | Some _ => print_title ;; mret (inr buf)
  end.

(** The end of [thread_proc_open], after the loop and the unlock. *)
Definition open_end : mem Z := strcat nl ;; mret 0.

Definition thread_proc_read (size : nat) : mem (Z * string) := strlen_read.
Definition thread_proc_release : mem Z := release_message.

(** The rest of a visit: the end of open, reading to the end of the file,
    closing it. *)
Definition visit_end (size : nat) : mem (Z * string) :=
  visit_entry open_end (thread_proc_read size) thread_proc_release.

(** The text. *)
Definition lines (vs : list Z) : string := foldr (λ v t, pretty v +:+ nl +:+ t) "" vs.
Definition text (id : Z) (vs : list Z) : string := title id +:+ lines vs +:+ nl.
End Report.

(** ** Proofs: the entries of 06 and 07 *)

Section ReportProofs.
Import Report.
Implicit Types (s : proc Z) (l b : loc) (m : gmap loc string) (v : Z).

(** While the report is printed: [t] is in [message], and every other buffer is
    as in [m]. *)
Record printing (id : Z) l b m (t : string) s : Prop := {
  pr_data : data s = id;
  pr_message : message s = Some l;
  pr_read : read_p s = 1;
  pr_text : buffers s !! l = Some t;
  pr_buf : is_Some (buffers s !! b);
  pr_rest x : x ≠ l → x ≠ b → buffers s !! x = m !! x;
}.

Lemma wp_sprintf_buf id l b m t txt s (Q : unit → proc Z → Prop) :
  l ≠ b → printing id l b m t s → (String.length txt < ENTRY_SIZE)%nat →
  (∀ s', printing id l b m t s' → buffers s' !! b = Some txt → Q tt s') →
  wp (sprintf_buf (Some b) txt) Q s.
Proof.
  intros Hne [Hd Hm Hr Ht [x Hb] Hrest] Hlen HQ. unfold wp, sprintf_buf. rewrite Hb.
  rewrite decide_True by done. apply HQ; [|by cbn; rewrite lookup_insert_eq].
  split; cbn; try done; [by rewrite lookup_insert_ne|by rewrite lookup_insert_eq|].
  intros y Hy1 Hy2. rewrite lookup_insert_ne by done. auto.
Qed.

Lemma wp_strcat id l b m t txt s (Q : unit → proc Z → Prop) :
  l ≠ b → printing id l b m t s → (String.length t + String.length txt < ENTRY_SIZE)%nat →
  (∀ s', printing id l b m (t +:+ txt) s' → Q tt s') → wp (strcat txt) Q s.
Proof.
  intros Hne [Hd Hm Hr Ht Hb Hrest] Hlen HQ. eapply wp_on_message; [done..|].
  unfold wp. rewrite decide_True by done. apply HQ.
  split; cbn; try done; [by rewrite lookup_insert_eq|by rewrite lookup_insert_ne|].
  intros y Hy1 Hy2. rewrite lookup_insert_ne by done. auto.
Qed.

Lemma lines_app vs ws : lines (vs ++ ws) = lines vs +:+ lines ws.
Proof.
  induction vs as [|x vs IH]; [done|]. cbn [app lines foldr]. fold (lines (vs ++ ws)).
  fold (lines vs). by rewrite IH, !str_app_assoc.
Qed.

Lemma line_length (z : Z) : is_int z → (String.length (pretty z +:+ nl) ≤ 12)%nat.
Proof. intros H%pretty_int_length. rewrite str_length_app. cbn [String.length nl]. lia. Qed.

Lemma title_length id : is_int id → (String.length (title id) ≤ 60)%nat.
Proof.
  intros H%pretty_int_length. unfold title, nl. rewrite !str_length_app. cbn [String.length]. lia.
Qed.

(** What is printed so far is short enough. *)
Lemma lines_fit id vs :
  is_int id → Forall is_int vs → (String.length (title id +:+ lines vs) ≤ 60 + 12 * length vs)%nat.
Proof.
  intros Hid Hvs. rewrite str_length_app. pose proof (title_length id Hid).
  enough (String.length (lines vs) ≤ 12 * length vs)%nat by lia.
  induction Hvs as [|v vs Hv Hvs IH]; [done|]. pose proof (line_length v Hv).
  cbn [lines foldr length]. fold (lines vs). rewrite <- str_app_assoc, str_length_app. lia.
Qed.

(** One more line. *)
Lemma wp_print_line id l b m vs v s :
  l ≠ b → is_int id → Forall is_int vs → is_int v → (length vs < Counters.CNT_SIZE)%nat →
  printing id l b m (title id +:+ lines vs) s →
  wp (print_line (Some b) v) (λ _ s', printing id l b m (title id +:+ lines (vs ++ [v])) s') s.
Proof.
  intros Hne Hid Hvs Hv Hlen Hp. pose proof (lines_fit id vs Hid Hvs).
  pose proof (line_length v Hv). unfold Counters.CNT_SIZE in Hlen.
  apply wp_bind. eapply wp_sprintf_buf; [done..|unfold ENTRY_SIZE; lia|].
  intros s1 Hp1 Hb1. unfold wp, strcat_buf. rewrite Hb1.
  eapply wp_strcat; [done..|unfold ENTRY_SIZE; lia|].
  intros s2 Hp2. rewrite lines_app, <- str_app_assoc. cbn [lines foldr].
  by rewrite str_app_nil_r.
Qed.

Lemma print_line_null v s : print_line None v s = Fault NullDeref.
Proof. done. Qed.

Lemma wp_print_title id l b m t s (Q : unit → proc Z → Prop) :
  l ≠ b → is_int id → printing id l b m t s → (∀ s', printing id l b m (title id) s' → Q tt s') →
  wp print_title Q s.
Proof.
  intros Hne Hid [Hd Hm Hr Ht Hb Hrest] HQ. pose proof (title_length id Hid).
  apply wp_bind. eapply wp_on_message; [done..|]. rewrite Hd.
  apply wp_sprintf_start; [unfold ENTRY_SIZE; lia|]. apply wp_ret, HQ.
  split; cbn; try done; [by rewrite lookup_insert_eq|by rewrite lookup_insert_ne|].
  intros y Hy1 Hy2. rewrite lookup_insert_ne by done. auto.
Qed.

(** After both allocations. *)
Lemma printing_start s l b j1 j2 :
  l ≠ b →
  printing (data s) l b (buffers s) j2
    (Proc (data s) (Some l) 1 (<[l := j2]> (<[b := j1]> (buffers s)))).
Proof.
  intros Hne. split; cbn; try done; [by rewrite lookup_insert_eq| |].
  - rewrite lookup_insert_ne, lookup_insert_eq by done. eauto.
  - intros x ? ?. by rewrite !lookup_insert_ne.
Qed.

(** 06: without memory for either buffer nothing stays allocated; otherwise the
    title is printed. *)
Lemma wp_open_start06 s buf msg j1 j2 (Q : Z + option loc → proc Z → Prop) :
  is_int (data s) → (∀ b, buf = Some b → buffers s !! b = None ∧ msg ≠ Some b) →
  (∀ s', buf = None ∨ msg = None → data s' = data s → buffers s' = buffers s →
     Q (inl (- ENOMEM)) s') →
  (∀ b l s', buf = Some b → msg = Some l →
     printing (data s) l b (buffers s) (title (data s)) s' → Q (inr buf) s') →
  wp (open_start06 buf msg j1 j2) Q s.
Proof.
  intros Hid Hb H1 H2. apply wp_bind, wp_modify. destruct buf as [b|]; [|by apply wp_ret, H1; auto].
  destruct (Hb b eq_refl) as [Hbf Hbl].
  apply wp_bind, wp_modify, wp_bind, wp_modify, wp_bind, wp_gets. destruct msg as [l|]; cbn.
  - apply wp_bind. eapply wp_print_title; [|done|apply (printing_start s l b j1 j2)|]; [congruence..|].
    intros s' Hp. by apply wp_ret, (H2 b l).
  - unfold wp, mbind, M_bind, kfree_buf; cbn. rewrite lookup_insert_eq.
    apply H1; [auto|done|]. by apply delete_message.
Qed.

(** 07: [buf] stays allocated when there is no memory for the text; and when
    there is none for [buf] only, the open goes on with NULL. *)
Lemma wp_open_start07 s buf msg j1 j2 (Q : Z + option loc → proc Z → Prop) :
  is_int (data s) → (∀ b, buf = Some b → msg ≠ Some b) →
  (∀ s', msg = None → data s' = data s →
     buffers s' = match buf with Some b => <[b := j1]> (buffers s) | None => buffers s end →
     Q (inl (- ENOMEM)) s') →
  (∀ b l s', buf = Some b → msg = Some l →
     printing (data s) l b (buffers s) (title (data s)) s' → Q (inr buf) s') →
  (∀ l s', buf = None → msg = Some l → data s' = data s → Q (inr buf) s') →
  wp (open_start07 buf msg j1 j2) Q s.
Proof.
  intros Hid Hb H1 H2 H3. apply wp_bind, wp_modify, wp_bind.
  destruct buf as [b|]; [apply wp_modify|apply wp_ret]; apply wp_bind, wp_modify, wp_bind, wp_gets;
    (destruct msg as [l|]; cbn; [|by apply wp_ret, H1]); apply wp_bind.
  - eapply wp_print_title; [|done|apply (printing_start s l b j1 j2)|]; [by specialize (Hb b eq_refl); congruence..|].
    intros s' Hp. by apply wp_ret, (H2 b l).
  - unfold wp, print_title, mbind, M_bind, on_message; cbn. rewrite lookup_insert_eq.
    unfold sprintf_at. pose proof (title_length _ Hid).
    rewrite bool_decide_eq_true_2 by (unfold ENTRY_SIZE; lia). by apply (H3 l).
Qed.

(** The rest of a visit: the text is read and freed, the second buffer is not. *)
Lemma wp_visit_end id l b m vs size s (Q : Z * string → proc Z → Prop) :
  l ≠ b → m !! l = None → is_int id → Forall is_int vs → (length vs ≤ Counters.CNT_SIZE)%nat →
  printing id l b m (title id +:+ lines vs) s →
  (∀ s', data s' = id → dom (buffers s') = dom m ∪ {[b]} → Q (0, text id vs) s') →
  wp (visit_end size) Q s.
Proof.
  intros Hne Hl Hid Hvs Hlen Hp HQ. pose proof (lines_fit id vs Hid Hvs).
  unfold Counters.CNT_SIZE in Hlen. apply wp_visit_entry, wp_bind.
  eapply wp_strcat; [done..|unfold ENTRY_SIZE, nl; cbn [String.length]; lia|].
  intros s' [Hd Hm Hr Ht Hb Hrest]. apply wp_ret. right. split; [done|].
  exists l, (text id vs). split_and!; [done|by unfold text; rewrite <- str_app_assoc|done|lia|].
  apply HQ; [done|]. cbn [buffers]. apply set_eq. intros x.
  rewrite dom_delete, elem_of_difference, elem_of_union, !elem_of_singleton, !elem_of_dom.
  destruct (decide (x = l)) as [->|Hx1].
  - rewrite Hl. split; [tauto|]. intros [[? [=]]|?]; done.
  - destruct (decide (x = b)) as [->|Hx2]; [tauto|]. rewrite Hrest by done. tauto.
Qed.
End ReportProofs.

(** ** The counting threads *)

Section Counting.
Import Counting.
Implicit Types (cs : list Z) (g : Z → Z).

(** Updating every counter in a loop. *)
Lemma wp_update_all g cs (Q : unit → list Z → Prop) :
  length cs = Counters.CNT_SIZE → Q tt (g <$> cs) →
  wp (for_range Counters.CNT_SIZE (λ i, modify (alter g i))) Q cs.
Proof.
  intros Hl HQ. eapply wp_mono;
    [apply (wp_for_range _ _ (λ k cs', cs' = (g <$> take k cs) ++ drop k cs))|].
  - intros k cs' Hk ->. apply wp_modify.
    destruct (lookup_lt_is_Some_2 cs k) as [c Hc]; [lia|].
    rewrite (drop_S _ _ _ Hc), (take_S_r _ _ _ Hc), fmap_app, <- (assoc_L (++)).
    rewrite alter_app_r_alt by (rewrite length_fmap, length_take; lia).
    rewrite length_fmap, length_take_le by lia. by rewrite Nat.sub_diag.
  - done.
  - intros [] cs' ->. rewrite take_ge, drop_ge, (right_id_L [] (++)) by lia. exact HQ.
Qed.

Definition advance (n : nat) (c : Z) : Z := wrap32 (c + Z.of_nat n).

(** The thread of 05 ends when it is told to, after [n] turns, and has counted
    them (as an int). *)
Lemma wp_thread_run05 stop fuel k n p :
  is_int (Blocking.cnt p) →
  (∀ j, (j < n)%nat → stop (k + j)%nat = false) → stop (k + n)%nat = true → (n ≤ fuel)%nat →
  wp (Blocking.thread_run stop fuel k)
    (λ r p', r = 0 ∧ p' = Blocking.Parm (Blocking.id p) (advance n (Blocking.cnt p))) p.
Proof.
  revert fuel k p. induction n as [|n IH]; intros fuel k [i c] Hc Hgo Hstop Hf.
  - rewrite Nat.add_0_r in Hstop. destruct fuel; cbn [Blocking.thread_run]; rewrite Hstop;
      apply wp_ret; (split; [done|]); unfold advance; cbn in *; rewrite Z.add_0_r;
      by rewrite wrap32_id.
  - destruct fuel as [|fuel]; [lia|]. cbn [Blocking.thread_run].
    specialize (Hgo 0%nat) as Hgo0. rewrite Nat.add_0_r in Hgo0. rewrite Hgo0 by lia.
    apply wp_bind, wp_modify. eapply wp_mono; [apply IH; [apply wrap32_range|..|lia]|].
    + intros j Hj. rewrite Nat.add_succ_l, <- Nat.add_succ_r. apply Hgo. lia.
    + by rewrite Nat.add_succ_l, <- Nat.add_succ_r.
    + intros r p' [-> ->]. split; [done|]. cbn. f_equal. unfold advance.
      rewrite wrap32_add_l. f_equal. lia.
Qed.

End Counting.
