(* ===== verification/ThreadLife.v ===== *)
(** * The thread examples 05, 06 and 07 as modules

    Loading and unloading of the three examples, which differ in the fields the
    parameter of the thread has, and the life of 06 and 07 in between: the thread
    and the visitors of the entry, one after the other, interleaved at every
    access to a counter and every call of the mutex.  With the mutex (07) a
    visitor sees one count in all counters; without it (06) each counter at a
    time of its own. *)

From S2P Require Import Decimal.
From S2P Require Import Prelude KThread ProcEntry Examples ThreadModules.

(** ** The modules *)

Module Loading.
(** The static variables of the module, and what the kernel knows of it. *)
Record state := State {
  next_id : Z;                  (* the static id of thread_init_parameter *)
  thread_id : Z;                (* thread1.id *)
  counters : list Z;            (* thread1.cnt; a single one in 05 *)
  kthread : task_ptr;           (* thread1.kthread *)
  mutex : mutex_state;          (* thread1.mutex, of 07 *)
  fops_set : bool;              (* the handlers are in fops *)
  entry : bool;                 (* /proc/thread_example exists *)
  files : proc unit;            (* message, read_p and the live buffers *)
}.

Definition set_ids n t (s : state) : state :=
  State n t (counters s) (kthread s) (mutex s) (fops_set s) (entry s) (files s).
Definition set_counters v (s : state) : state :=
  State (next_id s) (thread_id s) v (kthread s) (mutex s) (fops_set s) (entry s) (files s).
Definition set_kthread v (s : state) : state :=
  State (next_id s) (thread_id s) (counters s) v (mutex s) (fops_set s) (entry s) (files s).
Definition set_mutex v (s : state) : state :=
  State (next_id s) (thread_id s) (counters s) (kthread s) v (fops_set s) (entry s) (files s).
Definition set_fops_set v (s : state) : state :=
  State (next_id s) (thread_id s) (counters s) (kthread s) (mutex s) v (entry s) (files s).
Definition set_entry v (s : state) : state :=
  State (next_id s) (thread_id s) (counters s) (kthread s) (mutex s) (fops_set s) v (files s).
Definition set_files v (s : state) : state :=
  State (next_id s) (thread_id s) (counters s) (kthread s) (mutex s) (fops_set s) (entry s) v.

(** Code that works on the counters only. *)
Definition in_counters {A} (m : M (list Z) A) : M state A := λ s,
  match m (counters s) with
  | Done (a, cs) => Done (a, set_counters cs s)
  | Fault f => Fault f
  | NoFuel => NoFuel
  end.

(** A handler of the proc entry, whose data is [thread1.id]. *)
Definition in_entry {A} (m : M (proc Z) A) : M state A := λ s,
  match m (Proc (thread_id s) (message (files s)) (read_p (files s)) (buffers (files s))) with
  | Done (a, p) => Done (a, set_files (Proc tt (message p) (read_p p) (buffers p)) s)
  | Fault f => Fault f
  | NoFuel => NoFuel
  end.

(** [parm->id = id++] *)
Definition take_id : M state unit := modify (λ s, set_ids (next_id s +i 1) (next_id s) s).

(** [t] is what kthread_run returns. *)
Definition thread_init_parameter05 (t : task_ptr) : M state unit :=
  take_id ;;
  modify (set_counters [0]) ;;
  modify (set_kthread t).

Definition thread_init_parameter06 (t : task_ptr) : M state unit :=
  take_id ;;
  in_counters Counting.zero_counters ;;
  modify (set_kthread t).

Definition thread_init_parameter07 (t : task_ptr) : M state unit :=
  take_id ;;
  in_counters Counting.zero_counters ;;
  modify (set_mutex MutexReady) ;;
  modify (set_kthread t).

(** [thread_init]; [created] is the result of proc_create. *)
Definition thread_init (init_parameter : M state unit) (created : bool) : M state Z :=
  modify (set_fops_set true) ;;
  if negb created then
    modify (set_entry false) ;; mret (- ENOMEM)
  else
    modify (set_entry true) ;;
    init_parameter ;;
    t' ← gets kthread;
    if IS_ERR t' then modify (set_entry false) ;; mret (PTR_ERR t')
    else mret 0.

Definition thread_init05 (created : bool) (t : task_ptr) : M state Z :=
  thread_init (thread_init_parameter05 t) created.
Definition thread_init06 (created : bool) (t : task_ptr) : M state Z :=
  thread_init (thread_init_parameter06 t) created.
Definition thread_init07 (created : bool) (t : task_ptr) : M state Z :=
  thread_init (thread_init_parameter07 t) created.

(** kthread_stop returns when the thread has ended; it may be called for a
    thread that exists only. *)
Definition kthread_stop : M state unit :=
  t ← gets kthread;
  match t with
  | Task _ => modify (set_kthread (Task false))
  | ErrPtr _ => crash NullDeref
  end.

Definition thread_exit05 : M state unit := kthread_stop ;; modify (set_entry false).
Definition thread_exit06 : M state unit := kthread_stop ;; modify (set_entry false).
Definition thread_exit07 : M state unit :=
  kthread_stop ;;
  modify (set_entry false) ;;
  modify (set_mutex MutexDestroyed).

(** Before the first load: zeroed variables, [static int id = 1]. *)
Definition unloaded : state :=
  State 1 0 (replicate Counters.CNT_SIZE 0) (ErrPtr 0) MutexRaw false false (Proc tt None 0 ∅).
End Loading.

(** ** A life of 06 or 07

    Between loading and unloading, the thread and the visitors of the entry (one
    at a time) take steps in any order.  A step is the code up to the next
    access to the counters or the mutex: one [cnt[i]++] of the thread, one line
    of the report.  What else a visitor uses - [message], [read_p], [buf] - the
    thread does not touch. *)

Module Life.
Import Loading.

(** 06, which has no mutex, or 07. *)
Inductive example := Race | Locked.

(** The thread: at the test of kthread_should_stop, before [cnt[i]++], at the
    unlock call, after the loop. *)
Inductive thread_at := TTest | TCount (i : nat) | TUnlock | TEnded.
(** The visitor: none; before the lock call; before line [i], with or without
    the mutex; at the unlock call; after it. *)
Inductive visitor_at :=
| VAway | VLock (b : option loc) | VPrint (got : bool) (b : option loc) (i : nat)
| VUnlock (got : bool) | VEnd.
Inductive owner := Nobody | Thread | Visitor.

#[export] Instance owner_eq_dec : EqDecision owner.
Proof. solve_decision. Defined.

Record sys := Sys { memory : state; thread : thread_at; visitor : visitor_at; own : owner }.

(** What is seen from outside: a visitor opens the entry, with what the two
    calls of kmalloc return; the thread finishes a turn of its loop; a visitor
    has its answer. *)
Inductive event :=
| Opened (buf msg : option loc) | Turned | Answered (x : Z * string).

Section Steps.
Context (ex : example) (sig : bool).       (* [sig]: lock calls may be interrupted *)

(** The mutex calls; 06 makes none. *)
Definition available (o : owner) : Prop := ex = Locked → o = Nobody.
Definition lock (me o : owner) : owner := if ex is Locked then me else o.
Definition unlock (me o : owner) : option owner :=
  match ex with
  | Race => Some o
  | Locked => if decide (o = me) then Some Nobody else None
  end.

(** kmalloc returns memory that is not in use. *)
Definition unused (m : state) (buf msg : option loc) : Prop :=
  ∀ b, (buf = Some b → b ∉ dom (buffers (files m)) ∧ msg ≠ Some b) ∧
       (msg = Some b → b ∉ dom (buffers (files m))).

Definition open_start (buf msg : option loc) (j1 j2 : string) : M state (Z + option loc) :=
  in_entry match ex with
           | Race => Report.open_start06 buf msg j1 j2
           | Locked => Report.open_start07 buf msg j1 j2
           end.

(** The value printed: the counter, or -1 without the mutex. *)
Definition print_line (got : bool) (b : option loc) (i : nat) : M state unit :=
  cs ← gets counters;
  in_entry (Report.print_line b (if got then cs !!! i else -1)).

Definition visit_end : M state (Z * string) := in_entry (Report.visit_end Report.ENTRY_SIZE).

Definition last_one (i : nat) : bool := bool_decide (S i = Counters.CNT_SIZE).

Inductive step : sys → list event → sys → Prop :=
(* thread_run *)
| t_stop m v o : step (Sys m TTest v o) [] (Sys m TEnded v o)
| t_lock m v o : available o → step (Sys m TTest v o) [] (Sys m (TCount 0) v (lock Thread o))
| t_interrupted m v o : ex = Locked → sig = true → step (Sys m TTest v o) [] (Sys m TUnlock v o)
| t_count m i m' v o :
    in_counters (Counting.count i) m = Done (tt, m') →
    step (Sys m (TCount i) v o) (if last_one i then [Turned] else [])
      (Sys m' (if last_one i then TUnlock else TCount (S i)) v o)
| t_unlock m v o o' : unlock Thread o = Some o' → step (Sys m TUnlock v o) [] (Sys m TTest v o')
(* a visitor *)
| v_open m t o buf msg j1 j2 b m' :
    unused m buf msg → open_start buf msg j1 j2 m = Done (inr b, m') →
    step (Sys m t VAway o) [Opened buf msg] (Sys m' t (VLock b) o)
| v_fail m t o buf msg j1 j2 r m' :
    unused m buf msg → open_start buf msg j1 j2 m = Done (inl r, m') →
    step (Sys m t VAway o) [Opened buf msg; Answered (r, "")] (Sys m' t VAway o)
| v_lock m t o b : available o → step (Sys m t (VLock b) o) [] (Sys m t (VPrint true b 0) (lock Visitor o))
| v_interrupted m t o b :
    ex = Locked → sig = true → step (Sys m t (VLock b) o) [] (Sys m t (VPrint false b 0) o)
| v_print m t o got b i m' :
    print_line got b i m = Done (tt, m') →
    step (Sys m t (VPrint got b i) o) []
      (Sys m' t (if last_one i then VUnlock got else VPrint got b (S i)) o)
| v_unlock m t o got o' : unlock Visitor o = Some o' → step (Sys m t (VUnlock got) o) [] (Sys m t VEnd o')
| v_end m t o x m' : visit_end m = Done (x, m') → step (Sys m t VEnd o) [Answered x] (Sys m' t VAway o).

Inductive steps (σ : sys) : list event → sys → Prop :=
| steps_refl : steps σ [] σ
| steps_snoc tr σ1 ev σ2 : steps σ tr σ1 → step σ1 ev σ2 → steps σ (tr ++ ev) σ2.

(** What a piece of code comes to that does not finish. *)
Definition failure {A} (r : result A) : option (result unit) :=
  match r with Done _ => None | Fault f => Some (Fault f) | NoFuel => Some NoFuel end.

(** The thread or the visitor is at a piece of code that does not finish. *)
Inductive wrong : sys → result unit → Prop :=
| w_count m i v o r : failure (in_counters (Counting.count i) m) = Some r → wrong (Sys m (TCount i) v o) r
| w_thread m v o : unlock Thread o = None → wrong (Sys m TUnlock v o) (Fault BadUnlock)
| w_open m t o buf msg j1 j2 r :
    unused m buf msg → failure (open_start buf msg j1 j2 m) = Some r → wrong (Sys m t VAway o) r
| w_print m t o got b i r :
    failure (print_line got b i m) = Some r → wrong (Sys m t (VPrint got b i) o) r
| w_visitor m t o got : unlock Visitor o = None → wrong (Sys m t (VUnlock got) o) (Fault BadUnlock)
| w_end m t o r : failure (visit_end m) = Some r → wrong (Sys m t VEnd o) r.
End Steps.

Definition thread_init_of (ex : example) (created : bool) (t : task_ptr) : M state Z :=
  match ex with Race => thread_init06 created t | Locked => thread_init07 created t end.
Definition thread_exit_of (ex : example) : M state unit :=
  match ex with Race => thread_exit06 | Locked => thread_exit07 end.

(** After the load. *)
Definition loaded (m : state) : sys := Sys m TTest VAway Nobody.

(** ** What the executions of a life show *)

Fixpoint turns (tr : list event) : nat :=
  match tr with
  | [] => 0%nat
  | Turned :: tr => S (turns tr)
  | _ :: tr => turns tr
  end.

(** A counter after [n] turns. *)
Definition counted (n : nat) : Z := wrap32 (Z.of_nat n).

(** The numbers a visitor may see who came after [lo] turns and got the answer
    after [hi]: with the mutex all the same, one count in between; without it
    each its own, one turn more included, since the thread may be in the middle
    of one. *)
Definition seen (ex : example) (lo hi : nat) (vs : list Z) : Prop :=
  match ex with
  | Race => Forall (λ v, ∃ n, (lo ≤ n ≤ S hi)%nat ∧ v = counted n) vs
  | Locked => ∃ n, (lo ≤ n ≤ hi)%nat ∧ vs = replicate (length vs) (counted n)
  end.

Definition enough_memory (ex : example) (buf msg : option loc) : bool :=
  match ex with Race => bool_decide (is_Some buf) | Locked => true end && bool_decide (is_Some msg).

Definition answer_ok (ex : example) (id : Z) (buf msg : option loc) (lo hi : nat) (x : Z * string)
  : Prop :=
  if enough_memory ex buf msg
  then is_Some buf ∧ ∃ vs, length vs = Counters.CNT_SIZE ∧ seen ex lo hi vs ∧ x = (0, Report.text id vs)
  else x = (- ENOMEM, "").

(** A visit in progress: after its opening, [k] turns. *)
Definition visit_of (tr pre : list event) (buf msg : option loc) (k : nat) : Prop :=
  tr = pre ++ Opened buf msg :: replicate k Turned.

(** Every answer is right for the opening before it, with only turns in
    between. *)
Inductive told (ex : example) (id : Z) : list event → Prop :=
| told_nil : told ex id []
| told_opened tr buf msg : told ex id tr → told ex id (tr ++ [Opened buf msg])
| told_turned tr : told ex id tr → told ex id (tr ++ [Turned])
| told_answered tr pre buf msg k x :
    told ex id tr → visit_of tr pre buf msg k →
    answer_ok ex id buf msg (turns pre) (turns tr) x → told ex id (tr ++ [Answered x]).

(** The buffers that stay allocated. *)
Definition leak (ex : example) (e : event) : gset loc :=
  match ex, e with
  | Race, Opened (Some b) (Some _) | Locked, Opened (Some b) _ => {[b]}
  | _, _ => ∅
  end.
Fixpoint leaks (ex : example) (tr : list event) : gset loc :=
  match tr with [] => ∅ | e :: tr => leak ex e ∪ leaks ex tr end.
End Life.

(** ** Proofs *)

Section Proofs.
Import Loading Life.
Implicit Types (s : state) (bs : gmap loc string).

Lemma wp_in_counters {A} (m : M (list Z) A) s (Q : A → state → Prop) :
  wp m (λ a cs, Q a (set_counters cs s)) (counters s) → wp (in_counters m) Q s.
Proof. unfold wp, in_counters. by destruct (m (counters s)) as [[a cs]| |]. Qed.

Lemma wp_in_entry {A} (m : M (proc Z) A) s (Q : A → state → Prop) :
  wp m (λ a p, Q a (set_files (Proc tt (message p) (read_p p) (buffers p)) s))
    (Proc (thread_id s) (message (files s)) (read_p (files s)) (buffers (files s))) →
  wp (in_entry m) Q s.
Proof. unfold wp, in_entry. by case_match; try case_match. Qed.


Implicit Types (tr : list event).

(** ** Traces *)

Lemma turned_app tr1 tr2 : turns (tr1 ++ tr2) = (turns tr1 + turns tr2)%nat.
Proof. induction tr1 as [|[]]; cbn [app turns]; lia. Qed.

Lemma turns_replicate k : turns (replicate k Turned) = k.
Proof. induction k as [|k IH]; [done|]. cbn [replicate turns]. by rewrite IH. Qed.

Lemma leaks_app ex tr1 tr2 : leaks ex (tr1 ++ tr2) = leaks ex tr1 ∪ leaks ex tr2.
Proof. induction tr1 as [|e tr1 IH]; cbn [app leaks]; set_solver. Qed.

Lemma leaks_turns ex k : leaks ex (replicate k Turned) = ∅.
Proof. induction k as [|k IH]; [done|]. cbn [replicate leaks]. rewrite IH. by destruct ex. Qed.

Lemma visit_turns tr pre buf msg k : visit_of tr pre buf msg k → turns tr = (turns pre + k)%nat.
Proof. intros ->. rewrite turned_app. cbn [turns]. by rewrite turns_replicate. Qed.

Lemma visit_turned tr pre buf msg k :
  visit_of tr pre buf msg k → visit_of (tr ++ [Turned]) pre buf msg (S k).
Proof. intros ->. unfold visit_of. by rewrite <- (assoc_L (++)), replicate_S_end. Qed.

Lemma visit_leaks ex tr pre buf msg k :
  visit_of tr pre buf msg k → leaks ex tr = leaks ex pre ∪ leak ex (Opened buf msg).
Proof. intros ->. rewrite leaks_app. cbn [leaks]. rewrite leaks_turns. set_solver. Qed.

(** ** The invariant of a life *)

(** The counters while the thread is at [t] in its turn number [n]. *)
Definition counters_at (n : nat) (t : thread_at) : list Z :=
  match t with
  | TCount i => replicate i (counted (S n)) ++ replicate (Counters.CNT_SIZE - i) (counted n)
  | _ => replicate Counters.CNT_SIZE (counted n)
  end.

Lemma counted_int n : is_int (counted n).
Proof. apply wrap32_range. Qed.

Lemma counted_S n : counted n +i 1 = counted (S n).
Proof. unfold counted. rewrite wrap32_add_l. f_equal. lia. Qed.

(** [cnt[i]++] *)
Lemma count_step n i :
  (i < Counters.CNT_SIZE)%nat →
  alter (λ c, c +i 1) i (counters_at n (TCount i)) =
  replicate (S i) (counted (S n)) ++ replicate (Counters.CNT_SIZE - S i) (counted n).
Proof.
  intros Hi. cbn [counters_at]. replace (Counters.CNT_SIZE - i)%nat with (S (Counters.CNT_SIZE - S i)) by lia.
  rewrite alter_app_r_alt by (rewrite length_replicate; lia).
  rewrite length_replicate, Nat.sub_diag, (replicate_S_end i), <- (assoc_L (++)).
  cbn [replicate alter list_alter]. by rewrite counted_S.
Qed.

(** What a visitor reads. *)
Lemma counters_at_read n t i :
  (i < Counters.CNT_SIZE)%nat → (∀ j, t = TCount j → (j < Counters.CNT_SIZE)%nat) →
  counters_at n t !!! i = counted n ∨
  (∃ j, t = TCount j) ∧ counters_at n t !!! i = counted (S n).
Proof.
  intros Hi Ht. assert (Hr : ∀ m (c : Z), (i < m)%nat → replicate m c !!! i = c).
  { intros m c Hm. rewrite list_lookup_total_alt, lookup_replicate_2 by done. done. }
  destruct t as [|j| |]; cbn [counters_at]; auto.
  specialize (Ht j eq_refl). destruct (decide (i < j)%nat).
  - right. split; [eauto|]. rewrite lookup_total_app_l by (rewrite length_replicate; lia). auto.
  - left. rewrite lookup_total_app_r by (rewrite length_replicate; lia).
    rewrite length_replicate, list_lookup_total_alt, lookup_replicate_2 by lia. done.
Qed.

(** Where the tasks may be, and who holds the mutex. *)
Definition holding (v : visitor_at) : Prop :=
  match v with VPrint got _ _ | VUnlock got => got = true | _ => False end.

Definition places (ex : example) (sig : bool) (t : thread_at) (v : visitor_at) (o : owner) : Prop :=
  match ex with
  | Race => o = Nobody ∧ match v with VPrint got _ _ | VUnlock got => got = true | _ => True end
  | Locked =>
      (holding v ↔ o = Visitor) ∧
      match t with
      | TCount _ => o = Thread
      | TUnlock => o = Thread ∨ sig = true
      | _ => o ≠ Thread
      end ∧
      match v with VPrint got _ _ | VUnlock got => got = true ∨ sig = true | _ => True end
  end.

(** What a visitor has printed of the report who came after [lo] turns, when
    there have been [n]. *)
Definition printed (ex : example) (got : bool) (lo n : nat) (vs : list Z) : Prop :=
  match ex, got with
  | Race, _ => seen Race lo n vs
  | Locked, true => vs = replicate (length vs) (counted n)
  | Locked, false => vs = replicate (length vs) (-1)
  end.

Definition entry_of (m : state) : proc Z :=
  Proc (thread_id m) (message (files m)) (read_p (files m)) (buffers (files m)).

(** The visitor at [v], in the middle of a visit. *)
Definition visiting (ex : example) (id : Z) (base : gset loc) tr (m : state) (v : visitor_at) : Prop :=
  ∃ pre buf l k, visit_of tr pre buf (Some l) k ∧ enough_memory ex buf (Some l) = true ∧
  match buf with
  | None => ex = Locked ∧ (v = VLock None ∨ ∃ got, v = VPrint got None 0)
  | Some b => l ≠ b ∧ ∃ bs vs,
      dom bs = base ∪ leaks ex pre ∧ bs !! l = None ∧ Forall is_int vs ∧
      printing id l b bs (Report.title id +:+ Report.lines vs) (entry_of m) ∧
      match v with
      | VAway => False
      | VLock b' => b' = buf ∧ vs = []
      | VPrint got b' i => b' = buf ∧ length vs = i ∧ (i < Counters.CNT_SIZE)%nat ∧
          printed ex got (turns pre) (turns tr) vs
      | VUnlock got => length vs = Counters.CNT_SIZE ∧ printed ex got (turns pre) (turns tr) vs
      | VEnd => length vs = Counters.CNT_SIZE ∧ seen ex (turns pre) (turns tr) vs
      end
  end.

(** What a life leaves alone. *)
Definition kept s s' : Prop :=
  next_id s' = next_id s ∧ thread_id s' = thread_id s ∧ kthread s' = kthread s ∧
  mutex s' = mutex s ∧ entry s' = entry s.

Record life_inv (ex : example) (sig : bool) (m0 : state) tr (σ : sys) : Prop := {
  li_told : told ex (thread_id m0) tr;
  li_kept : kept m0 (memory σ);
  li_count : counters (memory σ) = counters_at (turns tr) (thread σ);
  li_in j : thread σ = TCount j → (j < Counters.CNT_SIZE)%nat;
  li_places : places ex sig (thread σ) (visitor σ) (own σ);
  li_visit :
    match visitor σ with
    | VAway => dom (buffers (files (memory σ))) = dom (buffers (files m0)) ∪ leaks ex tr
    | v => visiting ex (thread_id m0) (dom (buffers (files m0))) tr (memory σ) v
    end;
}.

Lemma seen_later ex lo n n' vs : (n ≤ n')%nat → seen ex lo n vs → seen ex lo n' vs.
Proof.
  intros Hle. destruct ex; cbn.
  - intros H. eapply Forall_impl; [exact H|]. intros v (k & Hk & ->). exists k. split; [lia|done].
  - intros (k & Hk & E). exists k. split; [lia|done].
Qed.

(** The visitor's state does not depend on the counters, and a turn of the
    thread does not disturb it. *)
Lemma visiting_counters ex id base tr m cs v :
  visiting ex id base tr m v → visiting ex id base tr (set_counters cs m) v.
Proof. done. Qed.

Lemma visiting_turned ex id base tr m v :
  (ex = Locked → ¬ holding v) → visiting ex id base tr m v → visiting ex id base (tr ++ [Turned]) m v.
Proof.
  intros Hh (pre & buf & l & k & Hv & He & Hb). exists pre, buf, l, (S k).
  split; [by apply visit_turned|]. split; [done|]. rewrite turned_app; cbn [turns].
  destruct buf as [b|]; [|done]. destruct Hb as (Hne & bs & vs & Hd & Hl & Hint & Hp & Hstage).
  split; [done|]. exists bs, vs. do 4 (split; [done|]).
  assert (Hpr : ∀ got, (ex = Locked → got ≠ true) → printed ex got (turns pre) (turns tr) vs →
    printed ex got (turns pre) (turns tr + 1) vs).
  { intros got Hg. destruct ex; [apply (seen_later Race); lia|].
    destruct got; [by destruct Hg|done]. }
  destruct v as [| |got b' i|got|]; cbn [holding] in *; [done|done|..].
  - destruct Hstage as (? & ? & ? & ?). split_and!; auto.
  - destruct Hstage as [? ?]. split; auto.
  - destruct Hstage as [? Hs]. split; [done|]. eapply seen_later, Hs. lia.
Qed.

(** The thread's increment. *)
Lemma count_ok ex sig m0 tr m i m' v o :
  life_inv ex sig m0 tr (Sys m (TCount i) v o) →
  in_counters (Counting.count i) m = Done (tt, m') →
  life_inv ex sig m0 (tr ++ if last_one i then [Turned] else [])
    (Sys m' (if last_one i then TUnlock else TCount (S i)) v o).
Proof.
  intros [Ht Hk Hc Hi Hp Hv] [= <-]. cbn [memory thread visitor own] in *.
  specialize (Hi i eq_refl). pose proof (count_step (turns tr) i Hi) as Hcs. rewrite <- Hc in Hcs.
  unfold last_one. case_bool_decide as E.
  - split; cbn [memory thread visitor own]; try done.
    + by constructor.
    + cbn [counters set_counters]. rewrite Hcs, turned_app, E, Nat.sub_diag. cbn.
      by rewrite Nat.add_1_r.
    + destruct ex; cbn in *; naive_solver.
    + assert (Hnh : ex = Locked → ¬ holding v).
      { intros ->. cbn in Hp. destruct Hp as (Hh & -> & _). rewrite Hh. done. }
      destruct v as [| | | |]; [|by apply visiting_turned..].
      cbn [files set_counters]. rewrite leaks_app, Hv. cbn [leaks]. destruct ex; set_solver.
  - rewrite (right_id_L [] (++)). split; cbn [memory thread visitor own]; try done.
    intros j [= <-]. lia.
Qed.

(** A visitor's code, run on the entry. *)
Lemma in_entry_ok {A} (c : M (proc Z) A) m (Q : A → proc Z → Prop) :
  wp c (λ a p, data p = thread_id m ∧ Q a p) (entry_of m) →
  wp (in_entry c) (λ a m', kept m m' ∧ counters m' = counters m ∧ Q a (entry_of m')) m.
Proof.
  intros H. apply wp_in_entry. eapply wp_mono; [exact H|].
  intros a [d me rp bs] [Hd HQ]. cbn in Hd. subst d. by split_and!.
Qed.

Lemma wp_val {A} (c : M state A) Q m a m' : wp c Q m → c m = Done (a, m') → Q a m'.
Proof. unfold wp. intros H E. by rewrite E in H. Qed.

Lemma wp_no_failure {A} (c : M state A) Q m r : wp c Q m → failure (c m) = Some r → False.
Proof. unfold wp. by destruct (c m). Qed.

Lemma open_start_ok ex m buf msg j1 j2 :
  is_int (thread_id m) → unused m buf msg →
  wp (open_start ex buf msg j1 j2) (λ x m', kept m m' ∧ counters m' = counters m ∧
    match x with
    | inl r => r = - ENOMEM ∧ enough_memory ex buf msg = false ∧
        dom (buffers (files m')) = dom (buffers (files m)) ∪ leak ex (Opened buf msg)
    | inr b' => b' = buf ∧ ∃ l, msg = Some l ∧ enough_memory ex buf msg = true ∧
        buffers (files m) !! l = None ∧
        match buf with
        | Some b => l ≠ b ∧ printing (thread_id m) l b (buffers (files m))
                              (Report.title (thread_id m)) (entry_of m')
        | None => ex = Locked
        end
    end) m.
Proof.
  intros Hid Hu.
  assert (Hb : ∀ b, buf = Some b → buffers (files m) !! b = None ∧ msg ≠ Some b).
  { intros b E. destruct (Hu b) as [[Hn Hm] _]; [done|]. by apply not_elem_of_dom in Hn. }
  assert (Hl : ∀ l, msg = Some l → buffers (files m) !! l = None).
  { intros l E. destruct (Hu l) as [_ Hn]. by apply not_elem_of_dom, Hn. }
  eapply wp_mono; [apply (in_entry_ok _ m (λ x p, match x with
    | inl r => r = - ENOMEM ∧ enough_memory ex buf msg = false ∧
        dom (buffers p) = dom (buffers (files m)) ∪ leak ex (Opened buf msg)
    | inr b' => b' = buf ∧ ∃ l, msg = Some l ∧ enough_memory ex buf msg = true ∧
        buffers (files m) !! l = None ∧
        match buf with
        | Some b => l ≠ b ∧ printing (thread_id m) l b (buffers (files m)) (Report.title (thread_id m)) p
        | None => ex = Locked
        end
    end))|by intros [r|b'] m'].
  destruct ex.
  - apply wp_open_start06; [done|exact Hb|..].
    + intros p Hn Hd Hbs. split; [done|]. split; [done|]. rewrite Hbs. cbn [enough_memory leak].
      destruct Hn as [-> | ->]; [|destruct buf]; cbn; (split; [done|set_solver]).
    + intros b l p -> -> Hp. split; [apply Hp|]. split; [done|]. exists l. split_and!; auto.
      intros ->. by destruct (Hb b eq_refl).
  - apply wp_open_start07; [done|intros b E; by apply Hb|..].
    + intros p -> Hd Hbs. split; [done|]. split; [done|]. rewrite Hbs.
      destruct buf; cbn; (split; [done|]); [rewrite dom_insert_L|]; set_solver.
    + intros b l p -> -> Hp. split; [apply Hp|]. split; [done|]. exists l. split_and!; auto.
      intros ->. by destruct (Hb b eq_refl).
    + intros l p -> -> Hd. split; [done|]. split; [done|]. exists l. split_and!; auto.
Qed.

Lemma print_ok id l b bs vs m got i :
  l ≠ b → thread_id m = id → is_int id → Forall is_int vs → (length vs < Counters.CNT_SIZE)%nat →
  is_int (counters m !!! i) → printing id l b bs (Report.title id +:+ Report.lines vs) (entry_of m) →
  let v := if got : bool then counters m !!! i else -1 in
  wp (print_line got (Some b) i) (λ _ m', kept m m' ∧ counters m' = counters m ∧
    printing id l b bs (Report.title id +:+ Report.lines (vs ++ [v])) (entry_of m')) m.
Proof.
  intros Hne Hti Hid Hvs Hlen Hi Hp v. apply wp_bind, wp_gets.
  apply (in_entry_ok _ m (λ _ p, printing id l b bs (Report.title id +:+ Report.lines (vs ++ [v])) p)).
  eapply wp_mono; [apply (wp_print_line id l b bs vs v)|]; [done..|by destruct got|done|done|].
  intros [] p Hp'. split; [|done]. rewrite Hti. apply Hp'.
Qed.

Lemma visit_end_ok id l b bs vs m :
  l ≠ b → thread_id m = id → bs !! l = None → is_int id → Forall is_int vs →
  (length vs ≤ Counters.CNT_SIZE)%nat →
  printing id l b bs (Report.title id +:+ Report.lines vs) (entry_of m) →
  wp visit_end (λ x m', kept m m' ∧ counters m' = counters m ∧
    x = (0, Report.text id vs) ∧ dom (buffers (files m')) = dom bs ∪ {[b]}) m.
Proof.
  intros Hne Hti Hl Hid Hvs Hlen Hp.
  apply (in_entry_ok _ m (λ x p, x = (0, Report.text id vs) ∧ dom (buffers p) = dom bs ∪ {[b]})).
  eapply wp_visit_end; [done..|]. intros p Hd Hbs. by rewrite Hti.
Qed.

Lemma kept_trans s1 s2 s3 : kept s1 s2 → kept s2 s3 → kept s1 s3.
Proof. unfold kept. naive_solver congruence. Qed.

Section Visits.
Context (ex : example) (sig : bool) (m0 : state) (Hid : is_int (thread_id m0)).

Lemma kept_id m : kept m0 m → thread_id m = thread_id m0.
Proof. by intros (_ & ? & _). Qed.

Lemma opened_ok tr m t o buf msg j1 j2 b m' :
  life_inv ex sig m0 tr (Sys m t VAway o) → unused m buf msg →
  open_start ex buf msg j1 j2 m = Done (inr b, m') →
  life_inv ex sig m0 (tr ++ [Opened buf msg]) (Sys m' t (VLock b) o).
Proof using Hid.
  intros [Ht Hk Hc Hi Hp Hv] Hu E. cbn [memory thread visitor own] in *.
  pose proof (kept_id m Hk) as Hti. pose proof (open_start_ok ex m buf msg j1 j2) as H.
  rewrite Hti in H. specialize (H Hid Hu). apply (wp_val _ _ _ _ _ H) in E.
  destruct E as (Hk' & Hc' & -> & l & -> & He & Hl & Hb).
  split; cbn [memory thread visitor own]; try done.
  - by constructor.
  - by eapply kept_trans.
  - rewrite Hc', turned_app. cbn [turns]. by rewrite Nat.add_0_r.
  - exists tr, buf, l, 0%nat. split; [done|]. split; [done|]. destruct buf as [b|]; [|by auto].
    destruct Hb as [Hne Hpr]. split; [done|]. exists (buffers (files m)), [].
    split_and!; try done. cbn [Report.lines foldr]. by rewrite str_app_nil_r.
Qed.

Lemma failed_ok tr m t o buf msg j1 j2 r m' :
  life_inv ex sig m0 tr (Sys m t VAway o) → unused m buf msg →
  open_start ex buf msg j1 j2 m = Done (inl r, m') →
  life_inv ex sig m0 (tr ++ [Opened buf msg; Answered (r, "")]) (Sys m' t VAway o).
Proof using Hid.
  intros [Ht Hk Hc Hi Hp Hv] Hu E. cbn [memory thread visitor own] in *.
  pose proof (kept_id m Hk) as Hti. pose proof (open_start_ok ex m buf msg j1 j2) as H.
  rewrite Hti in H. specialize (H Hid Hu). apply (wp_val _ _ _ _ _ H) in E.
  destruct E as (Hk' & Hc' & -> & He & Hd).
  split; cbn [memory thread visitor own]; try done.
  - change [Opened buf msg; Answered (- ENOMEM, "")]
      with ([Opened buf msg] ++ [Answered (- ENOMEM, "")]). rewrite (assoc_L (++)).
    apply (told_answered _ _ _ tr buf msg 0); [by constructor|done|].
    unfold answer_ok. by rewrite He.
  - by eapply kept_trans.
  - rewrite Hc', turned_app. cbn [turns]. by rewrite Nat.add_0_r.
  - rewrite Hd, Hv, leaks_app. cbn [leaks]. destruct ex; set_solver.
Qed.

(** What the visitor reads is the counter as it is. *)
Lemma read_ok tr m t got b i o :
  life_inv ex sig m0 tr (Sys m t (VPrint got b i) o) → (i < Counters.CNT_SIZE)%nat →
  ∃ n, counters m !!! i = counted n ∧ (turns tr ≤ n ≤ S (turns tr))%nat ∧
    (ex = Locked → got = true → n = turns tr).
Proof.
  intros [Ht Hk Hc Hi Hp Hv] Hlt. cbn [memory thread visitor own] in *. rewrite Hc.
  destruct (counters_at_read (turns tr) t i Hlt Hi) as [E|[[j ->] E]]; eexists;
    (split; [exact E|]); (split; [lia|]); [done|].
  intros -> ->. destruct Hp as ([Hh _] & -> & _). by specialize (Hh eq_refl).
Qed.

Lemma printed_next tr pre got vs n :
  (turns pre ≤ turns tr)%nat → (turns tr ≤ n ≤ S (turns tr))%nat →
  (ex = Locked → got = true → n = turns tr) → (ex = Race → got = true) →
  printed ex got (turns pre) (turns tr) vs →
  printed ex got (turns pre) (turns tr) (vs ++ [if got then counted n else -1]).
Proof.
  intros Hle Hn Hlk Hr Hp. destruct ex; cbn in *.
  - rewrite (Hr eq_refl). apply Forall_app_2; [done|]. apply Forall_singleton.
    exists n. split; [lia|done].
  - destruct got; [rewrite (Hlk eq_refl eq_refl)|]; rewrite Hp at 1;
      by rewrite length_app, replicate_add.
Qed.

Lemma printed_ok tr m t got b i o m' :
  life_inv ex sig m0 tr (Sys m t (VPrint got b i) o) → print_line got b i m = Done (tt, m') →
  life_inv ex sig m0 tr (Sys m' t (if last_one i then VUnlock got else VPrint got b (S i)) o).
Proof using Hid.
  intros Hinv E. pose proof Hinv as [Ht Hk Hc Hi Hp Hv]. cbn [memory thread visitor own] in *.
  pose proof (kept_id m Hk) as Hti.
  destruct Hv as (pre & buf & l & k & Hof & He & Hb). pose proof (visit_turns _ _ _ _ _ Hof) as Hn.
  destruct buf as [b'|]; [|by destruct Hb as [_ [?|[? [= -> -> ->]]]]].
  destruct Hb as (Hne & bs & vs & Hd & Hl & Hint & Hpr & -> & <- & Hlt & Hso).
  destruct (read_ok _ _ _ _ _ _ _ Hinv Hlt) as (n & Hrd & Hnn & Hlk).
  pose proof (print_ok _ l b' bs vs m got (length vs) Hne Hti Hid Hint Hlt) as H.
  rewrite Hrd in H. specialize (H (counted_int n) Hpr). apply (wp_val _ _ _ _ _ H) in E.
  destruct E as (Hk' & Hc' & Hpr').
  apply (printed_next tr pre got vs n) in Hso; [|lia|done|done|by intros ->; destruct Hp].
  assert (Hint' : Forall is_int (vs ++ [if got then counted n else -1])).
  { apply Forall_app_2; [done|]. apply Forall_singleton. destruct got; [apply counted_int|done]. }
  assert (Hvis : ∀ v, match v with
      | VPrint got' c j => got' = got ∧ c = Some b' ∧ j = S (length vs) ∧ (j < Counters.CNT_SIZE)%nat
      | VUnlock got' => got' = got ∧ S (length vs) = Counters.CNT_SIZE
      | _ => False end →
    visiting ex (thread_id m0) (dom (buffers (files m0))) tr m' v).
  { intros v Hst. exists pre, (Some b'), l, k. split; [done|]. split; [done|]. split; [done|].
    exists bs, (vs ++ [if got then counted n else -1]). split_and!; [done..|].
    rewrite length_app, Nat.add_1_r. destruct v; naive_solver. }
  unfold last_one. case_bool_decide as El; split; cbn [memory thread visitor own]; try done;
    try (by eapply kept_trans); try (by rewrite Hc'); try (by destruct ex); apply Hvis; [done|].
  split_and!; try done. lia.
Qed.

Lemma ended_ok tr m t o x m' :
  life_inv ex sig m0 tr (Sys m t VEnd o) → visit_end m = Done (x, m') →
  life_inv ex sig m0 (tr ++ [Answered x]) (Sys m' t VAway o).
Proof using Hid.
  intros [Ht Hk Hc Hi Hp Hv] E. cbn [memory thread visitor own] in *.
  pose proof (kept_id m Hk) as Hti.
  destruct Hv as (pre & buf & l & k & Hof & He & Hb).
  destruct buf as [b|]; [|by destruct Hb as [_ [?|[? ?]]]].
  destruct Hb as (Hne & bs & vs & Hd & Hl & Hint & Hpr & Hlen & Hseen).
  pose proof (visit_end_ok _ l b bs vs m Hne Hti Hl Hid Hint ltac:(lia) Hpr) as H.
  apply (wp_val _ _ _ _ _ H) in E. destruct E as (Hk' & Hc' & -> & Hd').
  split; cbn [memory thread visitor own]; try done.
  - eapply told_answered; [done|exact Hof|]. unfold answer_ok. rewrite He. split; [done|by exists vs].
  - by eapply kept_trans.
  - rewrite Hc', turned_app. cbn [turns]. by rewrite Nat.add_0_r.
  - rewrite Hd', leaks_app, (visit_leaks _ _ _ _ _ _ Hof), Hd. cbn [leaks].
    destruct ex; cbn [leak]; set_solver.
Qed.
(** Every step keeps the invariant. *)
Lemma life_step tr σ ev σ' :
  life_inv ex sig m0 tr σ → step ex sig σ ev σ' → life_inv ex sig m0 (tr ++ ev) σ'.
Proof using Hid.
  intros Hinv Hst. destruct Hst as [m v o|m v o Ha|m v o Hex Hs|m i m' v o E|m v o o' E
    |m t o buf msg j1 j2 b m' Hu E|m t o buf msg j1 j2 r m' Hu E|m t o b Ha|m t o b Hex Hs
    |m t o got b i m' E|m t o got o' E|m t o x m' E]; try rewrite (right_id_L [] (++)).
  - by destruct Hinv as [Ht Hk Hc Hi Hp Hv].
  - destruct Hinv as [Ht Hk Hc Hi Hp Hv]. split; try done.
    + intros j [= <-]. unfold Counters.CNT_SIZE. lia.
    + cbn in *. destruct ex; cbn in *; [done|]. rewrite (Ha eq_refl) in Hp.
      destruct Hp as (Hh & _ & Hv'). split_and!; [|done..]. rewrite Hh. by split.
  - destruct Hinv as [Ht Hk Hc Hi Hp Hv]. split; try done. subst ex. cbn in *. naive_solver.
  - by eapply count_ok.
  - destruct Hinv as [Ht Hk Hc Hi Hp Hv]. split; try done.
    destruct ex; cbn in *; [by injection E as <-|]. destruct (decide (o = Thread)) as [->|]; [|done].
    injection E as <-. destruct Hp as (Hh & _ & Hv'). split_and!; [|done..]. rewrite Hh. by split.
  - by eapply opened_ok.
  - by eapply failed_ok.
  - destruct Hinv as [Ht Hk Hc Hi Hp Hv]. split; try done.
    + destruct ex; cbn in *; [tauto|]. rewrite (Ha eq_refl) in Hp.
      destruct Hp as (_ & Ht' & _). split; [done|]. split; [|by left].
      destruct t; try done. destruct Ht' as [?|?]; [done|by right].
    + destruct Hv as (pre & buf & l & k & H1 & H2 & Hb). exists pre, buf, l, k.
      do 2 (split; [done|]). destruct buf as [b'|]; [|naive_solver].
      destruct Hb as (Hne & bs & vs & ? & ? & ? & ? & -> & ->). split; [done|].
      exists bs, []. split_and!; try done; try (unfold Counters.CNT_SIZE; lia). destruct ex; [constructor|done].
  - destruct Hinv as [Ht Hk Hc Hi Hp Hv]. split; try done; subst ex.
    + cbn in *. destruct Hp as (Hh & Ht' & _). split_and!; [|done|by right]. rewrite <- Hh.
      by split.
    + destruct Hv as (pre & buf & l & k & H1 & H2 & Hb). exists pre, buf, l, k.
      do 2 (split; [done|]). destruct buf as [b'|]; [|naive_solver].
      destruct Hb as (Hne & bs & vs & ? & ? & ? & ? & -> & ->). split; [done|].
      exists bs, []. split_and!; try done; unfold Counters.CNT_SIZE; lia.
  - by eapply printed_ok.
  - destruct Hinv as [Ht Hk Hc Hi Hp Hv]. cbn [memory thread visitor own] in *.
    assert (Hg : got = true).
    { destruct ex; cbn in *; [tauto|]. destruct (decide (o = Visitor)) as [->|]; [|done].
      by apply Hp. }
    split; try done; cbn [memory thread visitor own].
    + destruct ex; cbn in *; [naive_solver|]. destruct (decide (o = Visitor)) as [->|]; [|done].
      injection E as <-. destruct Hp as (Hh & Ht' & _). split; [done|]. split; [|done].
      destruct t; try done. destruct Ht' as [?|?]; [done|by right].
    + destruct Hv as (pre & buf & l & k & H1 & H2 & Hb). exists pre, buf, l, k.
      do 2 (split; [done|]). destruct buf as [b'|]; [|naive_solver].
      destruct Hb as (Hne & bs & vs & ? & ? & ? & ? & ? & Hso). split; [done|].
      exists bs, vs. split_and!; try done. subst got. destruct ex; [done|].
      exists (turns tr). split; [|done]. rewrite (visit_turns _ _ _ _ _ H1). lia.
  - by eapply ended_ok.
Qed.

(** Where the code does not finish. *)
Lemma life_wrong tr σ r :
  life_inv ex sig m0 tr σ → wrong ex σ r →
  ex = Locked ∧
  ((r = Fault BadUnlock ∧ sig = true ∧
    ((thread σ = TUnlock ∧ own σ ≠ Thread) ∨
     (visitor σ = VUnlock false ∧ ∃ l, message (files (memory σ)) = Some l ∧
        buffers (files (memory σ)) !! l =
          Some (Report.title (thread_id m0) +:+ Report.lines (replicate Counters.CNT_SIZE (-1)))))) ∨
   (r = Fault NullDeref ∧ ∃ pre l k, visit_of tr pre None (Some l) k)).
Proof using Hid.
  intros Hinv Hw. pose proof Hinv as [Ht Hk Hc Hi Hp Hv].
  destruct Hw as [m i v o r E|m v o E|m t o buf msg j1 j2 r Hu E|m t o got b i r E|m t o got E|m t o r E];
    cbn [memory thread visitor own] in *; try (pose proof (kept_id m Hk) as Hti).
  - done.
  - destruct ex; [done|]. cbn in *. destruct (decide (o = Thread)); [done|].
    split; [done|]. left. naive_solver.
  - pose proof (open_start_ok ex m buf msg j1 j2) as H. rewrite Hti in H. specialize (H Hid Hu).
    by apply (wp_no_failure _ _ _ _ H) in E.
  - destruct Hv as (pre & buf & l & k & Hof & He & Hb). destruct buf as [b'|].
    + exfalso. destruct Hb as (Hne & bs & vs & Hd & Hl & Hint & Hpr & -> & <- & Hlt & Hso).
      destruct (read_ok _ _ _ _ _ _ _ Hinv Hlt) as (n & Hrd & Hnn & Hlk).
      pose proof (print_ok _ l b' bs vs m got (length vs) Hne Hti Hid Hint Hlt) as H.
      rewrite Hrd in H. specialize (H (counted_int n) Hpr). by apply (wp_no_failure _ _ _ _ H) in E.
    + destruct Hb as [-> [?|[? [= -> -> ->]]]]; [done|]. split; [done|]. right.
      injection E as <-. split; [done|]. by exists pre, l, k.
  - destruct ex; [done|]. cbn in *. destruct (decide (o = Visitor)) as [|Ho]; [done|].
    split; [done|]. left. destruct Hp as (Hh & _ & Hg). split; [done|].
    assert (got = false) as -> by (destruct got; naive_solver).
    split; [by destruct Hg|]. right. split; [done|].
    destruct Hv as (pre & buf & l & k & Hof & He & Hb). exists l.
    destruct buf as [b'|]; [|naive_solver].
    destruct Hb as (Hne & bs & vs & Hd & Hl & Hint & Hpr & Hlen & Hso). cbn in Hso.
    rewrite Hlen in Hso. subst vs. split; apply Hpr.
  - exfalso. destruct Hv as (pre & buf & l & k & Hof & He & Hb). destruct buf as [b|]; [|naive_solver].
    destruct Hb as (Hne & bs & vs & Hd & Hl & Hint & Hpr & Hlen & Hseen).
    pose proof (visit_end_ok _ l b bs vs m Hne Hti Hl Hid Hint ltac:(lia) Hpr) as H.
    by apply (wp_no_failure _ _ _ _ H) in E.
Qed.

Lemma life_steps tr σ :
  counters m0 = replicate Counters.CNT_SIZE 0 → steps ex sig (loaded m0) tr σ → life_inv ex sig m0 tr σ.
Proof using Hid.
  intros Hz. induction 1 as [|tr σ1 ev σ2 _ IH Hst]; [|by eapply life_step].
  split; cbn; try done; [apply told_nil|by destruct ex|set_solver].
Qed.
End Visits.

(** Loading 06 or 07, on every path. *)
Lemma load_ok ex created t s :
  length (counters s) = Counters.CNT_SIZE →
  wp (thread_init_of ex created t)
    (λ r s', fops_set s' = true ∧ files s' = files s ∧
      entry s' = created && negb (IS_ERR t) ∧
      r = (if created then PTR_ERR t else - ENOMEM) ∧
      (created = true → thread_id s' = next_id s ∧ next_id s' = next_id s +i 1 ∧
         kthread s' = t ∧ counters s' = replicate Counters.CNT_SIZE 0 ∧
         (ex = Locked → mutex s' = MutexReady))) s.
Proof.
  intros Hlen. destruct created; [|by destruct ex].
  assert (Hz : ∀ (Q : unit → list Z → Prop), Q tt (replicate Counters.CNT_SIZE 0) →
    wp Counting.zero_counters Q (counters s)).
  { intros Q HQ. apply wp_update_all; [done|]. rewrite <- Hlen in HQ.
    replace ((λ _, 0) <$> counters s) with (replicate (length (counters s)) 0); [done|].
    symmetry. by apply const_fmap. }
  destruct ex; apply wp_bind, wp_modify, wp_bind, wp_modify, wp_bind, wp_bind, wp_modify, wp_bind,
    wp_in_counters, Hz.
  - apply wp_modify, wp_bind, wp_gets. destruct t as [b|e]; cbn -[replicate].
    + by apply wp_ret.
    + by apply wp_bind, wp_modify, wp_ret.
  - apply wp_bind, wp_modify, wp_modify, wp_bind, wp_gets. destruct t as [b|e]; cbn -[replicate].
    + by apply wp_ret.
    + by apply wp_bind, wp_modify, wp_ret.
Qed.

(** Unloading stops the thread, removes the entry and, in 07, destroys the
    mutex. *)
Lemma unload_ok ex b s :
  kthread s = Task b →
  wp (thread_exit_of ex) (λ _ s',
    kthread s' = Task false ∧ entry s' = false ∧ next_id s' = next_id s ∧ files s' = files s ∧
    (ex = Locked → mutex s' = MutexDestroyed)) s.
Proof. intros E. destruct ex; apply wp_bind, wp_bind, wp_gets; by rewrite E. Qed.

(** The same for 05. *)
Lemma thread_load_unload05 created t s :
  wp (thread_init05 created t) (λ r s',
    fops_set s' = true ∧ files s' = files s ∧ entry s' = created && negb (IS_ERR t) ∧
    r = (if created then PTR_ERR t else - ENOMEM) ∧
    (created = true → thread_id s' = next_id s ∧ next_id s' = next_id s +i 1 ∧
       kthread s' = t ∧ counters s' = [0]) ∧
    (entry s' = true → wp thread_exit05 (λ _ s'',
       kthread s'' = Task false ∧ entry s'' = false ∧ next_id s'' = next_id s') s')) s.
Proof. destruct created, t as [b|e]; cbn; repeat split; intros; done. Qed.
(** *** A visitor overtaken by a turn of the thread *)

Lemma steps_trans ex sig σ tr1 σ1 tr2 σ2 :
  steps ex sig σ tr1 σ1 → steps ex sig σ1 tr2 σ2 → steps ex sig σ (tr1 ++ tr2) σ2.
Proof.
  intros H1. induction 1 as [|tr σ3 ev σ4 _ IH Hst]; [by rewrite (right_id_L [] (++))|].
  rewrite (assoc_L (++)). by econstructor.
Qed.

Lemma steps_once ex sig σ ev σ' : step ex sig σ ev σ' → steps ex sig σ ev σ'.
Proof. intros Hst. apply (steps_snoc _ _ _ [] σ); [constructor|done]. Qed.

(** The rest of the thread's turn. *)
Lemma run_turn d : ∀ i n m v o,
  (i + S d = Counters.CNT_SIZE)%nat → counters m = counters_at n (TCount i) →
  steps Race false (Sys m (TCount i) v o) [Turned]
    (Sys (set_counters (replicate Counters.CNT_SIZE (counted (S n))) m) TUnlock v o).
Proof.
  induction d as [|d IH]; intros i n m v o Hi Hc;
    pose proof (count_step n i ltac:(lia)) as Hcs; rewrite <- Hc in Hcs.
  - apply steps_once. assert (El : last_one i = true) by (apply bool_decide_eq_true_2; lia).
    pose proof (t_count Race false m i _ v o eq_refl) as Hst. rewrite El, Hcs in Hst.
    replace (S i) with Counters.CNT_SIZE in Hst by lia.
    rewrite Nat.sub_diag in Hst. change (replicate 0 (counted n)) with (@nil Z) in Hst.
    by rewrite (right_id_L [] (++)) in Hst.
  - assert (El : last_one i = false) by (apply bool_decide_eq_false_2; lia).
    pose proof (t_count Race false m i _ v o eq_refl) as Hst. rewrite El, Hcs in Hst.
    eapply (steps_trans _ _ _ [] _ [Turned]); [by apply steps_once|].
    refine (IH (S i) n (set_counters _ m) v o _ _); [lia|done].
Qed.

(** The rest of the lines. *)
Lemma run_lines d : ∀ i id l b bs vs c m t o,
  (i + S d = Counters.CNT_SIZE)%nat → length vs = i → is_int id → Forall is_int vs → is_int c →
  l ≠ b → thread_id m = id → counters m = replicate Counters.CNT_SIZE c →
  printing id l b bs (Report.title id +:+ Report.lines vs) (entry_of m) →
  ∃ m', steps Race false (Sys m t (VPrint true (Some b) i) o) [] (Sys m' t (VUnlock true) o) ∧
    thread_id m' = id ∧
    printing id l b bs (Report.title id +:+ Report.lines (vs ++ replicate (S d) c)) (entry_of m').
Proof.
  induction d as [|d IH]; intros i id l b bs vs c m t o Hi Hlen Hid Hvs Hc Hne Hti Hcs Hpr;
    (assert (Hci : counters m !!! i = c) by
      (rewrite Hcs, list_lookup_total_alt, lookup_replicate_2 by lia; done));
    pose proof (print_ok id l b bs vs m true i Hne Hti Hid Hvs ltac:(lia)) as H;
    rewrite Hci in H; specialize (H Hc Hpr); apply wp_done in H as ([] & m1 & E & Hk & Hc1 & Hpr1);
    pose proof (v_print Race false m t o true (Some b) i m1 E) as Hst;
    destruct Hk as (_ & Hti1 & _).
  - assert (El : last_one i = true) by (apply bool_decide_eq_true_2; lia). rewrite El in Hst.
    exists m1. split; [by apply steps_once|]. split; [congruence|done].
  - assert (El : last_one i = false) by (apply bool_decide_eq_false_2; lia). rewrite El in Hst.
    destruct (IH (S i) id l b bs (vs ++ [c]) c m1 t o) as (m' & Hs & Hti' & Hpr'); try done;
      [lia|rewrite length_app; cbn; lia|by apply Forall_app_2; [|apply Forall_singleton]|congruence..|].
    exists m'. split; [|split; [done|]].
    + by eapply (steps_trans _ _ _ [] _ []); [apply steps_once|].
    + by rewrite <- (assoc_L (++)) in Hpr'.
Qed.
End Proofs.

(** ** Properties *)

Section Properties.
Import Loading Life.
Implicit Types (s : state).

(** C32. The life of 06 and 07, with the thread, one visitor after the other and, with
    [sig], interrupted lock calls interleaved at every access to a counter and
    every call of the mutex.  When proc_create or kthread_run fails the load
    returns the error and the entry does not stay.  Otherwise, in every execution:
    each visitor gets the title and one number per counter -
    in 07 the same number twenty times, a count of turns between its arrival and
    its answer; in 06 each a count of its own from that time - or -ENOMEM; an
    answered or failed visit leaves its second buffer behind, in 07 even a visit
    without memory for the text, and nothing else.  06 never goes wrong, and 07
    in two ways only: a task whose lock call was interrupted releases the mutex
    it does not hold (a visitor after it has printed -1 twenty times), and a
    visitor that got memory for the text but not for [buf] writes through NULL.
    Once the thread has ended and no visitor is there the mutex is free, and the
    unload ends the thread, removes the entry and, in 07, destroys the mutex. *)
Theorem thread_life_spec ex sig created t s :
  (∀ e, t = ErrPtr e → -4095 ≤ e < 0) →
  length (counters s) = Counters.CNT_SIZE → is_int (next_id s) →
  wp (thread_init_of ex created t) (λ r m,
    r = (if created then PTR_ERR t else - ENOMEM) ∧ files m = files s ∧
    entry m = bool_decide (r = 0) ∧
    (r = 0 → thread_id m = next_id s ∧ next_id m = next_id s +i 1 ∧
     ∀ tr σ, steps ex sig (loaded m) tr σ →
       told ex (next_id s) tr ∧
       (visitor σ = VAway →
          dom (buffers (files (memory σ))) = dom (buffers (files s)) ∪ leaks ex tr) ∧
       (∀ r, wrong ex σ r → ex = Locked ∧
         ((r = Fault BadUnlock ∧ sig = true ∧
           ((thread σ = TUnlock ∧ own σ ≠ Thread) ∨
            (visitor σ = VUnlock false ∧ ∃ l, message (files (memory σ)) = Some l ∧
               buffers (files (memory σ)) !! l = Some (Report.title (next_id s) +:+
                 Report.lines (replicate Counters.CNT_SIZE (-1)))))) ∨
          (r = Fault NullDeref ∧ ∃ pre l k, visit_of tr pre None (Some l) k))) ∧
       (thread σ = TEnded → visitor σ = VAway → own σ = Nobody ∧
        wp (thread_exit_of ex) (λ _ m', kthread m' = Task false ∧ entry m' = false ∧
          next_id m' = next_id s +i 1 ∧ files m' = files (memory σ) ∧
          (ex = Locked → mutex m' = MutexDestroyed)) (memory σ)))) s.
Proof.
  intros Herr Hlen Hid. eapply wp_mono; [by apply load_ok|].
  intros r m (_ & Hfiles & Hentry & -> & Hl). split; [done|]. split; [done|]. split.
  { rewrite Hentry. destruct created; [|done]. destruct t as [b|e]; [done|].
    specialize (Herr e eq_refl). cbn. rewrite bool_decide_eq_false_2; [done|lia]. }
  intros H0. destruct created; [|done]. destruct (Hl eq_refl) as (Hti & Hni & Hkt & Hz & Hm).
  split; [done|]. split; [done|]. intros tr σ Hs. rewrite <- Hfiles, <- Hti.
  assert (Hid' : is_int (thread_id m)) by by rewrite Hti.
  pose proof (life_steps ex sig m Hid' tr σ Hz Hs) as Hinv. split_and!.
  - apply Hinv.
  - intros Hv. pose proof (li_visit _ _ _ _ _ Hinv) as Hd. by rewrite Hv in Hd.
  - intros r Hw. by apply (life_wrong ex sig m Hid' tr σ).
  - pose proof (li_places _ _ _ _ _ Hinv) as Hp. intros Et Ev. rewrite Et, Ev in Hp. split.
    { destruct ex; cbn in Hp; [tauto|]. destruct (own σ); naive_solver. }
    destruct (li_kept _ _ _ _ _ Hinv) as (Hn & _ & Hk & _).
    destruct t as [b|e]; [|specialize (Herr e eq_refl); cbn in H0; lia].
    eapply wp_mono; [apply (unload_ok ex b); congruence|].
    intros [] m' (? & ? & ? & ? & ?). split_and!; congruence || done.
Qed.

(** C33. The race of 06: after any number of turns, a visitor who is overtaken by one
    whole turn of the thread after its first line gets a report that mixes two
    counts, which the mutex of 07 excludes. *)
Theorem race_tears_reports n s b l :
  is_int (thread_id s) → counters s = replicate Counters.CNT_SIZE (counted n) →
  unused s (Some b) (Some l) →
  ∃ σ, steps Race false (Sys s TTest VAway Nobody)
    [Opened (Some b) (Some l); Turned;
     Answered (0, Report.text (thread_id s) (counted n :: replicate 19 (counted (S n))))] σ.
Proof.
  intros Hid Hc Hu.
  pose proof (open_start_ok Race s (Some b) (Some l) "" "" Hid Hu) as H.
  apply wp_done in H as (x & m1 & E1 & Hk1 & Hc1 & Hx). destruct x as [r|b']; [by destruct Hx as (_ & ? & _)|].
  destruct Hx as (-> & ? & [= <-] & _ & Hl & Hne & Hp1). pose proof Hk1 as (_ & Hti1 & _).
  assert (Hp1' : printing (thread_id s) l b (buffers (files s))
    (Report.title (thread_id s) +:+ Report.lines []) (entry_of m1)).
  { cbn [Report.lines foldr]. by rewrite str_app_nil_r. }
  assert (Hci : counters m1 !!! 0%nat = counted n) by by rewrite Hc1, Hc.
  pose proof (print_ok _ l b (buffers (files s)) [] m1 true 0 Hne Hti1 Hid ltac:(constructor)
    ltac:(unfold Counters.CNT_SIZE; cbn; lia)) as H. rewrite Hci in H.
  specialize (H (counted_int n) Hp1').
  apply wp_done in H as ([] & m2 & E2 & (_ & Hti2 & _) & Hc2 & Hp2).
  set (m3 := set_counters (replicate Counters.CNT_SIZE (counted (S n))) m2).
  destruct (run_lines 18 1 (thread_id s) l b (buffers (files s)) [counted n] (counted (S n)) m3
    TUnlock Nobody) as (m4 & Hs4 & Hti4 & Hp4); try done;
    [by apply Forall_singleton, counted_int|apply counted_int|cbn; congruence|].
  set (vs := counted n :: replicate 19 (counted (S n))).
  assert (Hvs : Forall is_int vs).
  { constructor; [apply counted_int|]. apply Forall_replicate, counted_int. }
  pose proof (visit_end_ok _ l b (buffers (files s)) vs m4 Hne Hti4 Hl Hid Hvs ltac:(done) Hp4) as H.
  apply wp_done in H as (x & m5 & E5 & _ & _ & -> & _).
  eexists. eapply (steps_trans _ _ _ [Opened (Some b) (Some l)]); [eapply steps_once, v_open, E1; exact Hu|].
  eapply (steps_trans _ _ _ []); [by apply steps_once, v_lock|].
  eapply (steps_trans _ _ _ []); [by apply steps_once, (v_print _ _ _ _ _ _ _ _ _ E2)|].
  eapply (steps_trans _ _ _ []); [by apply steps_once, t_lock|].
  eapply (steps_trans _ _ _ [Turned]).
  { apply (run_turn 19 0 n); [done|]. rewrite Hc2, Hc1, Hc. cbn [counters_at replicate app].
    by rewrite Nat.sub_0_r. }
  eapply (steps_trans _ _ _ []); [exact Hs4|].
  eapply (steps_trans _ _ _ []); [by apply steps_once, v_unlock|].
  apply steps_once, v_end, E5.
Qed.
End Properties.
