(* ===== verification/TestCallUser.v ===== *)
(** * The user programs of 03_syscall

    03_syscall_user/main.c and 03_syscall/SystemCall_UserSpaceProgram/main.c
    pass the number given on the command line to the example system call
    (Examples.TestCall) and report what came back.  Modelled: the argument
    count, [atoi], the conversion of kernel results by [syscall], what is
    printed, and the two kernels of the example: the system call as a plain
    function (03_syscall/test_call.c) and defined by the wrapper macro
    (03_syscall/SystemCall/test_call.c).  [strerror] is a parameter. *)

From Stdlib Require Import Ascii.
From S2P Require Import Decimal.
From S2P Require Import Prelude SyscallAbi SyscallTable Examples.

(** ** atoi

    White space, a sign, digits; the rest is ignored.  The result is undefined
    when the number is no [int]. *)

Definition isspace (c : ascii) : bool :=
  bool_decide (c ∈ [" "; "009"; "010"; "011"; "012"; "013"]%char).

Definition digit_value (c : ascii) : option Z :=
  let n := Z.of_nat (nat_of_ascii c) in
  if bool_decide (48 ≤ n ≤ 57) then Some (n - 48) else None.

Fixpoint skip_space (s : string) : string :=
  match s with String c s' => if isspace c then skip_space s' else s | EmptyString => s end.

(** The digits at the start of [s], read after the number [acc]. *)
Fixpoint digits (acc : Z) (s : string) : Z :=
  match s with
  | String c s' => match digit_value c with Some d => digits (10 * acc + d) s' | None => acc end
  | EmptyString => acc
  end.

Definition atoi (s : string) : option Z :=
  let z := match skip_space s with
           | String "-" s' => - digits 0 s'
           | String "+" s' => digits 0 s'
           | s' => digits 0 s'
           end in
  if bool_decide (INT_MIN ≤ z ≤ INT_MAX) then Some z else None.

(** ** The programs *)

Module Main.
Section Code.
Context (strerror : Z → string).
(** The kernel: the value of system call [nr] with one argument. *)
Context (kernel : Z → Z → Z).

(** [syscall] returns -1 and sets [errno] for the values reserved for errors.
    The value returned and the new value of [errno]. *)
Definition syscall (errno nr arg : Z) : Z * Z :=
  let r := kernel nr arg in
  if bool_decide (-4095 ≤ r ≤ -1) then (-1, - r) else (r, errno).

(** [test_call] returns an [int]. *)
Definition test_call (errno nr test : Z) : Z * Z :=
  let '(r, errno) := syscall errno nr test in (wrap32 r, errno).

(** Exit status, standard output, standard error. *)
Record outcome := Outcome { status : Z; out : string; err : string }.

Definition success_line (test ret : Z) : string :=
  "Function successful. passed in: " +:+ pretty test +:+ ", returned " +:+ pretty ret +:+ nl.
Definition perror (errno : Z) : string := "system call error: " +:+ strerror errno +:+ nl.

(** 03_syscall_user/main.c.  [None]: the argument of [atoi] is out of range. *)
Definition NR_TEST_CALL_user : Z := 333.
Definition main_user (argv : list string) : option outcome :=
  match argv with
  | [_; arg] =>
      test ← atoi arg;
      let '(ret, errno) := test_call 0 NR_TEST_CALL_user test in
      Some (if bool_decide (ret < 0) then Outcome 0 "" (perror errno)
            else Outcome 0 (success_line test ret) "")
  | _ => Some (Outcome (-1) ("wrong number of args" +:+ nl) "")
  end.

(** 03_syscall/SystemCall_UserSpaceProgram/main.c prints more. *)
Definition NR_TEST_CALL : Z := 335.
Definition main (argv : list string) : option outcome :=
  match argv with
  | [_; arg] =>
      test ← atoi arg;
      let '(ret, errno) := test_call 0 NR_TEST_CALL test in
      let sending := "sending this: " +:+ pretty test +:+ nl in
      let returned := "Returned value: " +:+ pretty ret +:+ nl in
      Some (if bool_decide (ret < 0) then Outcome 0 (sending +:+ returned) (perror errno)
            else Outcome 0 (sending +:+ success_line test ret +:+ returned) "")
  | _ => Some (Outcome (-1) ("wrong number of args" +:+ nl) "")
  end.
End Code.
End Main.

(** ** The kernels *)

(** 03_syscall/test_call.c: one system call, through the stub. *)
Definition test_kernel (stub : option (Z → Z)) (nr0 high nr arg : Z) : Z :=
  if bool_decide (nr = nr0) then TestCall.sys_test_call stub (cast T_int (register arg high))
  else - ENOSYS.

(** 03_syscall/SystemCall and 03_syscall/SyscallModule: the same with a wrapper. *)
Module Wrapped.
Definition my_test_call (test : Z) : Z := test.

Definition hello_init (_ : option (Z → Z)) : option (Z → Z) * Z := (Some my_test_call, 0).
Definition hello_exit (_ : option (Z → Z)) : option (Z → Z) := None.

Definition do_sys_test_call (stub : option (Z → Z)) (test_int : Z) : Z :=
  match stub with
  | Some f => f test_int
  | None => - ENOSYS
  end.

(** [SYSCALL_DEFINE1(test_call, int, test_int)] *)
Definition entry_test_call (stub : option (Z → Z)) (regs : list Z) : option (M unit Z) :=
  SYSCALL_DEFINEx 1 [T_int]
    (λ args, match args with [a] => mret (do_sys_test_call stub a) | _ => crash OutOfBounds end) regs.
End Wrapped.

Definition wrapped_kernel (stub : option (Z → Z)) (nr0 high nr arg : Z) : Z :=
  if bool_decide (nr = nr0) then
    match Wrapped.entry_test_call stub [register arg high] with
    | Some m => match m tt with Done (r, _) => r | _ => - ENOSYS end
    | None => - ENOSYS
    end
  else - ENOSYS.

(** ** atoi reads back what printf writes *)

Section Atoi.
Implicit Types (s t : string) (n : N).

Lemma digit_pretty (x : N) : (x < 10)%N → digit_value (pretty_N_char x) = Some (Z.of_N x).
Proof.
  intros Hx. assert (H : forallb (λ k, bool_decide (digit_value (pretty_N_char (N.of_nat k))
    = Some (Z.of_nat k))) (seq 0 10) = true) by (vm_compute; reflexivity).
  rewrite forallb_forall in H. specialize (H (N.to_nat x)). rewrite N2Nat.id, N_nat_Z in H.
  eapply bool_decide_eq_true_1, H, in_seq. lia.
Qed.

(** [pretty_N_go n s]: the digits of [n], then [s]. *)
Lemma digits_pretty_go n acc s :
  ∃ k, digits acc (pretty_N_go n s) = digits (acc * 10 ^ k + Z.of_N n) s ∧ 0 ≤ k.
Proof.
  revert s. induction (N.lt_wf_0 n) as [n _ IH]; intros s.
  destruct (decide (n = 0%N)) as [->|Hne].
  - exists 0. rewrite pretty_N_go_0. split; [f_equal; lia|lia].
  - rewrite pretty_N_go_step by lia.
    destruct (IH (n / 10)%N ltac:(apply N.div_lt; lia) (String (pretty_N_char (n mod 10)) s))
      as (k & E & Hk).
    exists (k + 1). split; [|lia]. rewrite E. cbn [digits].
    rewrite digit_pretty by (apply N.mod_lt; lia).
    rewrite N2Z.inj_mod, N2Z.inj_div. f_equal.
    rewrite Z.pow_add_r by lia. change (Z.of_N 10) with 10.
    pose proof (Z.div_mod (Z.of_N n) 10 ltac:(lia)). lia.
Qed.

Lemma digits_pretty n : digits 0 (pretty n) = Z.of_N n.
Proof.
  unfold pretty, pretty_N. case_decide as E; [by subst|].
  destruct (digits_pretty_go n 0 "") as (k & -> & _). cbn. lia.
Qed.

(** A printed natural number starts with a digit. *)
Lemma pretty_N_go_head (n : N) s :
  n ≠ 0%N → ∃ (x : N) t, (x < 10)%N ∧ pretty_N_go n s = String (pretty_N_char x) t.
Proof.
  revert s. induction (N.lt_wf_0 n) as [n _ IH]; intros s Hne.
  rewrite pretty_N_go_step by lia. destruct (decide (n / 10 = 0)%N) as [->|Hq].
  - rewrite pretty_N_go_0. exists (n mod 10)%N, s. split; [apply N.mod_lt; lia|done].
  - apply IH; [apply N.div_lt; lia|done].
Qed.

Lemma pretty_N_head (n : N) : ∃ (x : N) t, (x < 10)%N ∧ pretty n = String (pretty_N_char x) t.
Proof.
  unfold pretty, pretty_N. case_decide; [exists 0%N, ""; by split|]. by apply pretty_N_go_head.
Qed.

Lemma digit_not_special (x : N) :
  (x < 10)%N → isspace (pretty_N_char x) = false ∧ pretty_N_char x ≠ "-"%char ∧
    pretty_N_char x ≠ "+"%char.
Proof.
  intros Hx. assert (H : forallb (λ k, let c := pretty_N_char (N.of_nat k) in
    negb (isspace c) && bool_decide (c ≠ "-"%char ∧ c ≠ "+"%char)) (seq 0 10) = true)
    by (vm_compute; reflexivity).
  rewrite forallb_forall in H. specialize (H (N.to_nat x)). rewrite N2Nat.id in H.
  cbv zeta in H. rewrite andb_true_iff, negb_true_iff, bool_decide_eq_true in H.
  apply H, in_seq. lia.
Qed.

Lemma atoi_number (n : N) :
  match skip_space (pretty n) with
  | String "-" s' => - digits 0 s'
  | String "+" s' => digits 0 s'
  | s' => digits 0 s'
  end = Z.of_N n.
Proof.
  destruct (pretty_N_head n) as (x & t & Hx & E).
  destruct (digit_not_special x Hx) as (Hsp & Hm & Hp).
  rewrite <- (digits_pretty n), E. cbn [skip_space]. rewrite Hsp.
  destruct (pretty_N_char x) as [[] [] [] [] [] [] [] []]; done.
Qed.

(** [atoi] inverts [%d]. *)
Lemma atoi_pretty z : is_int z → atoi (pretty z) = Some z.
Proof.
  intros Hz. unfold atoi.
  assert (E : match skip_space (pretty z) with
    | String "-" s' => - digits 0 s'
    | String "+" s' => digits 0 s'
    | s' => digits 0 s'
    end = z).
  { destruct z as [|p|p]; [done|apply (atoi_number (N.pos p))|].
    change (pretty (Z.neg p)) with (String "-" (pretty (N.pos p))).
    cbn [skip_space isspace]. change (isspace "-") with false. cbn iota.
    rewrite digits_pretty. done. }
  cbv zeta. rewrite E. by rewrite bool_decide_eq_true_2.
Qed.
End Atoi.

(** Both programs were written for other kernels: in the table of this one
    their numbers belong to io_pgetevents and to start_elevator. *)
Lemma test_call_numbers_taken :
  entry_point Main.NR_TEST_CALL_user = Some "__x64_sys_io_pgetevents" ∧
  entry_point Main.NR_TEST_CALL = Some "__x64_sys_start_elevator".
Proof. split; reflexivity. Qed.

(** ** Properties *)

Section Properties.
Import Main.
Context (strerror : Z → string).

(** What either kernel answers to the number [nr0]. *)
Lemma kernel_answers stub nr0 high z :
  is_int z → (∀ f, stub = Some f → f = λ x, x) →
  let r := match stub with Some _ => z | None => - ENOSYS end in
  test_kernel stub nr0 high nr0 z = r ∧ wrapped_kernel stub nr0 high nr0 z = r.
Proof.
  intros Hz Hid r.
  pose proof (cast_register z high Hz) as Hc.
  unfold test_kernel, wrapped_kernel, Wrapped.entry_test_call, SYSCALL_DEFINEx, syscall_args, SC_CAST.
  rewrite !(bool_decide_eq_true_2 (nr0 = nr0)) by done.
  cbn [length forallb andb MAP zip zip_with mbind option_bind].
  rewrite !cast_through_long by done. rewrite Hc. cbn.
  unfold r, Wrapped.do_sys_test_call, TestCall.sys_test_call.
  destruct stub as [f|]; [|done]. rewrite (Hid f eq_refl). split; [done|].
  change (cast T_long z = z). apply cast_id. unfold is_int, in_type, INT_MIN, INT_MAX in *. cbn [is_signed].
  change (modulus T_long / 2) with 9223372036854775808. lia.
Qed.

Lemma test_call_answer (kernel : Z → Z → Z) (z r nr : Z) :
  is_int r → kernel nr z = r → test_call kernel 0 nr z =
    if bool_decide (-4095 ≤ r ≤ -1) then (-1, - r) else (r, 0).
Proof.
  intros Hr E. unfold test_call, syscall. rewrite E. case_bool_decide; [done|].
  by rewrite (wrap32_id r).
Qed.

(** C34. The number given on the command line of either program reaches the kernel,
    whatever the upper half of the argument register holds, comes back through
    the stub (in one example called by a plain function, in the other by a
    wrapper) and is printed as it was given, provided it is not negative.  A
    negative number comes back too, but the C library takes it for an error
    code: the programs report a system call error, with a code that nobody has
    set when the number is below -4095.  Without the module the error is ENOSYS. *)
Theorem test_call_main_spec prog z high :
  is_int z →
  let plain stub := test_kernel stub NR_TEST_CALL_user high in
  let wrapped stub := wrapped_kernel stub NR_TEST_CALL high in
  let loaded := (TestCall.hello_init None).1 in
  let loaded' := (Wrapped.hello_init None).1 in
  let code := if bool_decide (-4095 ≤ z) then - z else 0 in
  let sending := "sending this: " +:+ pretty z +:+ nl in
  (0 ≤ z →
     main_user strerror (plain loaded) [prog; pretty z] = Some (Outcome 0 (success_line z z) "") ∧
     main strerror (wrapped loaded') [prog; pretty z] =
       Some (Outcome 0 (sending +:+ success_line z z +:+ "Returned value: " +:+ pretty z +:+ nl) "")) ∧
  (z < 0 →
     main_user strerror (plain loaded) [prog; pretty z] = Some (Outcome 0 "" (perror strerror code)) ∧
     ∃ txt, main strerror (wrapped loaded') [prog; pretty z] =
       Some (Outcome 0 (sending +:+ txt) (perror strerror code))) ∧
  main_user strerror (plain (TestCall.hello_exit loaded)) [prog; pretty z] =
    Some (Outcome 0 "" (perror strerror ENOSYS)) ∧
  main strerror (wrapped (Wrapped.hello_exit loaded')) [prog; pretty z] =
    Some (Outcome 0 (sending +:+ "Returned value: -1" +:+ nl) (perror strerror ENOSYS)).
Proof.
  intros Hz plain wrapped loaded loaded' code sending. unfold main_user, main.
  rewrite (atoi_pretty z Hz). cbn [mbind option_bind].
  destruct (kernel_answers loaded NR_TEST_CALL_user high z Hz) as [K1 _]; [by intros f [= <-]|].
  destruct (kernel_answers loaded' NR_TEST_CALL high z Hz) as [_ K2]; [by intros f [= <-]|].
  destruct (kernel_answers None NR_TEST_CALL_user high z Hz) as [K3 _]; [done|].
  destruct (kernel_answers None NR_TEST_CALL high z Hz) as [_ K4]; [done|].
  assert (He : is_int (- ENOSYS)) by done.
  rewrite !(test_call_answer (plain loaded) z z _ Hz K1).
  rewrite !(test_call_answer (wrapped loaded') z z _ Hz K2).
  rewrite !(test_call_answer (plain (TestCall.hello_exit loaded)) z _ _ He K3).
  rewrite !(test_call_answer (wrapped (Wrapped.hello_exit loaded')) z _ _ He K4).
  split_and!.
  - intros Hpos. rewrite (bool_decide_eq_false_2 (-4095 ≤ z ≤ -1)) by lia.
    rewrite (bool_decide_eq_false_2 (z < 0)) by lia.
    unfold sending. by rewrite !str_app_assoc.
  - intros Hneg. unfold code. destruct (decide (-4095 ≤ z)).
    + rewrite !bool_decide_eq_true_2 by lia. split; [done|by eexists].
    + rewrite !(bool_decide_eq_false_2 (-4095 ≤ z)), (bool_decide_eq_false_2 (-4095 ≤ z ≤ -1)) by lia.
      rewrite (bool_decide_eq_true_2 (z < 0)) by done. split; [done|by eexists].
  - done.
  - done.
Qed.
End Properties.
