(* ===== verification/Scenario.v ===== *)
(** * Concrete executions

    Worlds reached by running the code itself from zeroed static memory, with
    the pointer model of the kernel's lists, and a player of schedules for the
    interleavings of Concurrency.v and the sessions of Sessions.v.  They show that
    the hypotheses of the theorems hold in states the module really passes
    through. *)

From S2P Require Import Prelude KList KListModel ElevatorData ElevatorOps ElevatorSpec.
From S2P Require Import ElevatorRefine RunElevator Liveness ProcEntry Syscalls Fairness.
From S2P Require Import Concurrency Interleavings Schedule UserProgs Sessions SyscallAbi.

(** The state in which code ends. *)
Definition after {W A} (m : M W A) (w : W) : W :=
  match m w with Done (_, w') => w' | _ => w end.

Lemma after_wp {W A} (m : M W A) (Q : A → W → Prop) w : wp m Q w → ∃ x, Q x (after m w).
Proof. unfold wp, after. destruct (m w) as [[x w']| |]; [by exists x|done..]. Qed.

(** Zeroed static variables, no passenger object. *)
Definition zero_elevator : elevator := Elevator 0 0 0 0 0 0 0 0 0 0 0.
Definition zero_floor : floors := Floors 0 0 0 0 0 0 0 0.
Definition boot : world :=
  World (Links ∅ ∅) ∅ zero_elevator (Building (replicate 10 zero_floor) None) 0%nat.

Definition good (w : world) (a : astate) : Prop := rep ∅ w a ∧ wf a.

Definition ready : world := after (initElevator ;; initBuilding) boot.

Lemma good_ready : good ready a_init.
Proof.
  destruct (after_wp _ _ _ (init_refines boot eq_refl)) as [[] R].
  split; [exact R|apply wf_init].
Qed.

Lemma good_event w a ev :
  good w a → calm ev w → good (after (run_event ev) w) (a_event ev a).2.
Proof.
  intros [R W] Hc. destruct (after_wp _ _ _ (event_refines _ w a ev R W Hc)) as (r & a' & E & R' & W').
  rewrite <- E. by split.
Qed.

(** Running several events. *)
Definition run (evs : list event) (w : world) : world :=
  foldl (λ w ev, after (run_event ev) w) w evs.
Definition a_run (evs : list event) (a : astate) : astate :=
  foldl (λ a ev, (a_event ev a).2) a evs.

(** [calm], decided, along an execution. *)
Definition calmb (ev : event) (w : world) : bool :=
  match ev with
  | Issue mem r _ _ _ =>
      bool_decide (r = 0) &&
      match mem with Some l => bool_decide (heap w !! l = None) | None => false end
  | Start r | Stop r => bool_decide (r = 0)
  | Iterate r1 r2 => bool_decide (r1 = 0) && bool_decide (r2 = 0)
  end.

Fixpoint calm_run (evs : list event) (w : world) : bool :=
  match evs with
  | [] => true
  | ev :: evs => calmb ev w && calm_run evs (after (run_event ev) w)
  end.

Lemma calmb_calm ev w : calmb ev w = true → calm ev w.
Proof.
  destruct ev as [[l|] r p s d|r|r|r1 r2]; cbn; rewrite ?andb_true_iff, ?bool_decide_eq_true;
    naive_solver.
Qed.

Lemma good_run evs w a :
  good w a → calm_run evs w = true → good (run evs w) (a_run evs a).
Proof.
  revert w a. induction evs as [|ev evs IH]; intros w a G; cbn; [done|].
  intros [Hc%calmb_calm Hr]%andb_true_iff. apply IH; [|done]. by apply good_event.
Qed.

(** The values the events of an execution return. *)
Fixpoint rets (evs : list event) (w : world) : list Z :=
  match evs with
  | [] => []
  | ev :: evs =>
      match run_event ev w with Done (r, _) => r | _ => 0 end ::
      rets evs (after (run_event ev) w)
  end.

Lemma trace_run evs w a :
  good w a → calm_run evs w = true → trace w (zip evs (rets evs w)) (run evs w).
Proof.
  revert w a. induction evs as [|ev evs IH]; intros w a G; cbn; [constructor|].
  intros [Hc%calmb_calm Hr]%andb_true_iff. pose proof G as [R W].
  destruct (proj1 (wp_done _ _ _) (event_refines _ w a ev R W Hc)) as (r & w1 & E & _).
  assert (after (run_event ev) w = w1) as Ea by (unfold after; by rewrite E).
  rewrite E. eapply trace_cons; [done|exact E|]. rewrite <- Ea.
  eapply IH; [by eapply good_event|done].
Qed.

(** ** Schedules

    A schedule names the task that moves and what it does; [play] runs it. *)

Inductive pick :=
| TPrepare (i : nat) (l : loc) | TLock (i : nat) | TEintr (i : nat) | TBody (i : nat) | TUnlock (i : nat).

(** After the unlock call; the thread goes on. *)
Definition goes_on (c : section) (ans : answer) : task :=
  match c with
  | SLoad => WantLock SMove
  | SMove => WantLock SLoad
  | SIssue _ | SStart | SStop => Returned (ret_of ans)
  | SPrint =>
      match ans with
      | Code _ => WantLock SPrint
      | Text n _ => if decide (n = 0) then WantLock SPrint else Opened
      end
  end.

Lemma after_goes_on c ans : after_unlock c ans (goes_on c ans).
Proof. destruct c; try constructor. destruct ans; cbn; [|case_decide]; by constructor. Qed.

Definition play_turn (t : pick) (σ : system) : option (list (effect * answer) * system) :=
  match t with
  | TPrepare i l =>
      match s_tasks σ !! i, heap (s_world σ) !! l with
      | Some (Calling p s d), None =>
          match issue_prepare (Some l) p s d (s_world σ) with
          | Done (o, w') => Some ([], set_sworld w' (set_task i
              (match o with Some l => WantLock (SIssue l) | None => Returned 1 end) σ))
          | _ => None
          end
      | _, _ => None
      end
  | TLock i =>
      match s_tasks σ !! i, s_owner σ with
      | Some (WantLock c), None => Some ([], set_owner (Some i) (set_task i (Holding c) σ))
      | _, _ => None
      end
  | TEintr i =>
      match s_tasks σ !! i with
      | Some (WantLock c) => Some ([], set_task i (Interrupted c) σ)
      | _ => None
      end
  | TBody i =>
      match s_tasks σ !! i with
      | Some (Holding c) =>
          match body c (s_entry σ) with
          | Done (ans, s') =>
              Some ([(effect_of c (s_world σ), ans)], set_entry s' (set_task i (Leaving c ans) σ))
          | _ => None
          end
      | _ => None
      end
  | TUnlock i =>
      match s_tasks σ !! i with
      | Some (Leaving c ans) =>
          if decide (s_owner σ = Some i)
          then Some ([], set_owner None (set_task i (goes_on c ans) σ)) else None
      | _ => None
      end
  end.

Lemma play_turn_step t σ l σ' : play_turn t σ = Some (l, σ') → step (orderly true) σ l σ'.
Proof.
  destruct t as [i x|i|i|i|i]; cbn [play_turn];
    destruct (s_tasks σ !! i) as [[p s d| |c|c|c ans|c| | | | |]|] eqn:Hi; try done.
  - destruct (heap (s_world σ) !! x) eqn:Hx; [done|].
    destruct (issue_prepare _ _ _ _ _) as [[o w']| |] eqn:E; try done. intros [= <- <-].
    by eapply (step_prepare _ σ i p s d (Some x)).
  - destruct (s_owner σ) eqn:Ho; [done|]. intros [= <- <-]. by apply step_lock.
  - intros [= <- <-]. by apply step_eintr.
  - destruct (body c (s_entry σ)) as [[ans s']| |] eqn:E; try done. intros [= <- <-].
    by apply step_body.
  - case_decide; [|done]. intros [= <- <-]. eapply step_unlock; [done..|apply after_goes_on].
Qed.

Fixpoint play (ts : list pick) (σ : system) : option (list (effect * answer) * system) :=
  match ts with
  | [] => Some ([], σ)
  | t :: ts =>
      '(l, σ1) ← play_turn t σ;
      '(tr, σ2) ← play ts σ1;
      Some (l ++ tr, σ2)
  end.

Lemma play_steps ts σ tr σ' : play ts σ = Some (tr, σ') → steps (orderly true) σ tr σ'.
Proof.
  revert σ tr. induction ts as [|t ts IH]; intros σ tr; cbn [play].
  { intros [= <- <-]. apply steps_refl. }
  destruct (play_turn t σ) as [[l σ1]|] eqn:E; [|done]. cbn.
  destruct (play ts σ1) as [[tr1 σ2]|] eqn:E1; [|done]. cbn. intros [= <- <-].
  eapply steps_app; [|by apply IH].
  eapply (steps_snoc _ _ [] σ l); [apply steps_refl|by eapply play_turn_step].
Qed.

(** A whole section of task [i]. *)
Definition section_turns (i : nat) : list pick := [TLock i; TBody i; TUnlock i].

(** Sessions: program [i] makes its call as task [j], or has it returned, or the
    module moves. *)
Inductive uturn := UCall (i j : nat) | UReturn (i : nat) | URun (t : pick).

Definition play_uturn (t : uturn) (U : users)
  : option (list (effect * answer) * list deed * users) :=
  match t with
  | UCall i j =>
      match u_progs U !! i, s_tasks (u_sys U) !! j with
      | Some (InUser (Syscall nr args k)), None =>
          match kernel_entry linked_stubs nr args with
          | Some (inl c) =>
              Some ([], [], Users (set_task j (enter c) (u_sys U)) (<[i := InKernel j c k]> (u_progs U)))
          | _ => None
          end
      | _, _ => None
      end
  | UReturn i =>
      match u_progs U !! i with
      | Some (InKernel j c k) =>
          match s_tasks (u_sys U) !! j with
          | Some (Returned r) => Some ([], [(i, (c, cast T_long r))],
              Users (u_sys U) (<[i := InUser (k (libc_ret (cast T_long r)))]> (u_progs U)))
          | _ => None
          end
      | _ => None
      end
  | URun t => '(l, σ') ← play_turn t (u_sys U); Some (l, [], Users σ' (u_progs U))
  end.

Lemma registers_id args : registers args args.
Proof.
  unfold registers. apply Forall_Forall2_diag, Forall_true. intros z. exists 0. unfold register. lia.
Qed.

Lemma play_uturn_step t U l d U' :
  play_uturn t U = Some (l, d, U') → ustep (orderly true) linked_stubs U l d U'.
Proof.
  destruct U as [σ us], t as [i j|i|t]; cbn [play_uturn u_progs u_sys].
  - destruct (us !! i) as [[[|nr args k]|]|] eqn:Hi; try done.
    destruct (s_tasks σ !! j) eqn:Hj; [done|].
    destruct (kernel_entry _ _ _) as [[c|]|] eqn:E; try done. intros [= <- <- <-].
    by eapply u_call; [|apply registers_id|..].
  - destruct (us !! i) as [[|j c k]|] eqn:Hi; try done.
    destruct (s_tasks σ !! j) as [[]|] eqn:Hj; try done. intros [= <- <- <-].
    by apply (u_return _ _ σ us i j).
  - destruct (play_turn t σ) as [[l1 σ1]|] eqn:E; [|done]. cbn. intros [= <- <- <-].
    by apply u_run, (play_turn_step t).
Qed.

Fixpoint play_users (ts : list uturn) (U : users)
  : option (list (effect * answer) * list deed * users) :=
  match ts with
  | [] => Some ([], [], U)
  | t :: ts =>
      '(l, d, U1) ← play_uturn t U;
      '(tr, ds, U2) ← play_users ts U1;
      Some (l ++ tr, d ++ ds, U2)
  end.

Lemma session_app en st U tr1 ds1 U1 tr2 ds2 U2 :
  session en st U tr1 ds1 U1 → session en st U1 tr2 ds2 U2 →
  session en st U (tr1 ++ tr2) (ds1 ++ ds2) U2.
Proof.
  intros H1 H2. induction H2 as [|U1 tr ds U3 l d U4 _ IH Hs]; [by rewrite !app_nil_r|].
  rewrite !(assoc_L (++)). eapply session_snoc; [by apply IH|done].
Qed.

Lemma play_users_session ts U tr ds U' :
  play_users ts U = Some (tr, ds, U') → session (orderly true) linked_stubs U tr ds U'.
Proof.
  revert U tr ds. induction ts as [|t ts IH]; intros U tr ds; cbn [play_users].
  { intros [= <- <- <-]. apply session_refl. }
  destruct (play_uturn t U) as [[[l d] U1]|] eqn:E; [|done]. cbn.
  destruct (play_users ts U1) as [[[tr1 ds1] U2]|] eqn:E1; [|done]. cbn. intros [= <- <- <-].
  eapply session_app; [|by apply IH].
  eapply (session_snoc _ _ _ [] [] U l d); [apply session_refl|by eapply play_uturn_step].
Qed.

(** ** The executions used in the witnesses *)

(** The executions used below. *)
Definition evs_start : list event := [Start 0].
(** one passenger, from the first to the second floor *)
Definition evs_one : list event := [Start 0; Issue (Some 1%positive) 0 1 1 2].
(** ... who is on board, on the second floor *)
Definition evs_aboard : list event := evs_one ++ [Iterate 0 0].
(** ... after a stop request *)
Definition evs_stopping : list event := evs_one ++ [Stop 0].
(** a stop request for an empty elevator *)
Definition evs_wedged : list event := [Start 0; Stop 0].
(** a request from the first floor to itself *)
Definition evs_same : list event := [Start 0; Issue (Some 1%positive) 0 1 1 1].
(** an elevator that goes offline on its way down *)
Definition evs_down : list event :=
  [Start 0; Issue (Some 1%positive) 0 1 2 1] ++ replicate 9 (Iterate 0 0) ++
  [Stop 0; Iterate 0 0].
(** the bellhop of Fairness.v and the first rush *)
Definition evs_behind : list event :=
  [Start 0; Issue (Some 1%positive) 0 4 6 10] ++ rush 2 3 4.

Lemma good_scenario evs :
  calm_run evs ready = true → good (run evs ready) (a_run evs a_init).
Proof. apply good_run, good_ready. Qed.

Lemma good_start : good (run evs_start ready) (a_run evs_start a_init).
Proof. apply good_scenario. vm_compute. reflexivity. Qed.
Lemma good_one : good (run evs_one ready) (a_run evs_one a_init).
Proof. apply good_scenario. vm_compute. reflexivity. Qed.
Lemma good_aboard : good (run evs_aboard ready) (a_run evs_aboard a_init).
Proof. apply good_scenario. vm_compute. reflexivity. Qed.
Lemma good_stopping : good (run evs_stopping ready) (a_run evs_stopping a_init).
Proof. apply good_scenario. vm_compute. reflexivity. Qed.
Lemma good_wedged : good (run evs_wedged ready) (a_run evs_wedged a_init).
Proof. apply good_scenario. vm_compute. reflexivity. Qed.
Lemma good_same : good (run evs_same ready) (a_run evs_same a_init).
Proof. apply good_scenario. vm_compute. reflexivity. Qed.
Lemma good_down : good (run evs_down ready) (a_run evs_down a_init).
Proof. apply good_scenario. vm_compute. reflexivity. Qed.
Lemma good_behind : good (run evs_behind ready) (a_run evs_behind a_init).
Proof. apply good_scenario. vm_compute. reflexivity. Qed.
