(* ===== verification/Witness.v ===== *)
(** * The theorems at concrete inputs

    Each theorem is applied to a state reached by one of the executions of
    Scenario.v; the other hypotheses are discharged by evaluation. *)

From S2P Require Import Decimal.
From S2P Require Import Prelude KThread KList KListModel ElevatorData ElevatorOps ElevatorSpec.
From S2P Require Import ElevatorRefine RunElevator Liveness ProcEntry Stats Syscalls ProcFs.
From S2P Require Import Lifecycle Concurrency LockInvariant Interleavings UserProgs Sessions Scenario.
From S2P Require Import Attempts Executions SyscallAbi.

Ltac calc := vm_compute; (reflexivity || (intros; discriminate)).

(** The states of the executions. *)
Notation w_start := (run evs_start ready).
Notation a_start0 := (a_run evs_start a_init).
Notation w_one := (run evs_one ready).
Notation a_one := (a_run evs_one a_init).
Notation w_aboard := (run evs_aboard ready).
Notation a_aboard := (a_run evs_aboard a_init).
Notation w_stopping := (run evs_stopping ready).
Notation a_stopping := (a_run evs_stopping a_init).

(** While loading on the floor it has reached. *)
Definition loading (w : world) (a : astate) : world := set_e (elevator_of (with_status LOADING a)) w.

Lemma good_loading w a : good w a → good (loading w a) (with_status LOADING a).
Proof.
  intros [R W]. split; [by apply (rep_upd_e ∅ w a)|]. apply wf_with_status; [done|done|].
  by intros [?|?].
Qed.

(** A new passenger object that is on no list yet. *)
Definition p_new : passenger := passenger_of 4 3 7.
Definition w_new : world := after (issue_prepare (Some 1%positive) 4 3 7) w_start.

Lemma rep_new : rep {[1%positive := p_new]} w_new a_start0.
Proof.
  destruct good_start as [R W].
  destruct (after_wp _ _ _ (issue_prepare_ok ∅ w_start a_start0 1 4 3 7 R W
    ltac:(vm_compute; reflexivity) ltac:(vm_compute; repeat split; discriminate)))
    as (o & _ & R'). by rewrite insert_empty in R'.
Qed.

(** ** Operations *)

Lemma addPass_spec_witness : wp (addPass 1) (λ _ w',
  (0 ≤ type p_new ≤ 3 → rep (delete 1%positive {[1%positive := p_new]}) w'
     (a_add (1%positive, p_new) a_start0)) ∧ (¬ (0 ≤ type p_new ≤ 3) → w' = w_new)) w_new.
Proof.
  apply (addPass_spec {[1%positive := p_new]} w_new a_start0 1 p_new);
    [apply rep_new|apply lookup_singleton_eq|vm_compute; repeat split; discriminate].
Defined.

Definition p_up : passenger := Passenger 0 0 1.

Lemma delPass_spec_witness : wp (delPass 1) (λ _ w',
  (0 ≤ type p_up ≤ 3 → rep ∅ w' (a_leave 1 (1%positive, p_up) ([] ++ []) a_aboard) ∧
     heap w' !! 1%positive = None) ∧ (¬ (0 ≤ type p_up ≤ 3) → w' = w_aboard)) w_aboard.
Proof.
  apply (delPass_spec ∅ w_aboard a_aboard 1 [] 1 p_up []);
    [apply good_aboard|calc|vm_compute; repeat split; discriminate].
Defined.

Lemma movePass_spec_witness : wp (movePass 1) (λ _ w',
  (0 ≤ type p_up ≤ 3 →
     rep ∅ w' (a_board (floor_ix (s_floor p_up)) (1%positive, p_up) ([] ++ []) a_one)) ∧
  (¬ (0 ≤ type p_up ≤ 3) → w' = w_one)) w_one.
Proof.
  apply (movePass_spec ∅ w_one a_one [] 1 p_up []);
    [apply good_one|calc|vm_compute; repeat split; discriminate].
Defined.

Lemma find_returns_no_passenger_witness : wp find (λ o w', w' = w_one ∧
  (o = None ∨ o = Some (InFloor (floor_ix (a_current a_one)))) ∧
  (o ≠ None → row (waiting a_one) (floor_ix (a_current a_one)) ≠ []) ∧
  ∀ l, o ≠ Some (HeapPass l)) w_one.
Proof.
  apply (find_returns_no_passenger ∅ w_one a_one);
    [apply good_one|vm_compute; split; (reflexivity || discriminate)].
Defined.

(** ** The thread *)

(** The second lock call is interrupted. *)
Lemma iteration_safe_witness : wp (iteration 0 (- EINTR)) (λ _ w',
  rep ∅ w' (a_attempt 0 (- EINTR) a_one) ∧ wf (a_attempt 0 (- EINTR) a_one) ∧
  bad_unlocks w' = (bad_unlocks w_one + interrupted 0 + interrupted (- EINTR))%nat ∧
  0 ≤ e_w_units (w_e w') ≤ MAX_W ∧ 0 ≤ e_p_units (w_e w') ≤ MAX_P ∧
  0 ≤ current (w_e w') < MAX_FLOOR ∧ 0 ≤ next (w_e w') < MAX_FLOOR ∧
  Z.abs (current (w_e w') - next (w_e w')) = 1) w_one.
Proof. apply (iteration_safe ∅ w_one a_one 0 (- EINTR)); apply good_one. Defined.

Lemma unload_loop_spec_witness :
  wp unload_loop (λ _ w',
    list_empty (EP 1) (links w') = true ∧
    (∀ x, x ∈ [(1%positive, p_up)] → heap w' !! x.1 = None) ∧
    (∀ x, listed (with_status LOADING a_aboard) x → x ∉ [(1%positive, p_up)] →
       heap w' !! x.1 = Some x.2)) (loading w_aboard a_aboard).
Proof.
  apply (unload_loop_spec ∅ _ (with_status LOADING a_aboard));
    [apply (good_loading _ _ good_aboard)|apply (good_loading _ _ good_aboard)|calc].
Defined.

Lemma load_loop_fifo_witness :
  wp load_loop (λ _ w', ∃ boarded rest a',
    row (waiting (with_status LOADING a_one)) 0 = boarded ++ rest ∧ rep ∅ w' a' ∧
    row (waiting a') 0 = rest ∧
    (∀ d, row (onboard a') d = row (onboard (with_status LOADING a_one)) d ++
       filter (λ x, floor_ix (d_floor x.2) = d) boarded) ∧
    Forall (λ x, pDirection x.2 = 1) boarded ∧
    weight (concat (onboard a')) =
      weight (concat (onboard (with_status LOADING a_one))) + weight boarded ∧
    weight (concat (onboard a')) ≤ MAX_W ∧ units (concat (onboard a')) ≤ MAX_P ∧
    (∀ x q, rest = x :: q → boards x a' = false)) (loading w_one a_one).
Proof.
  apply (load_loop_fifo ∅ _ (with_status LOADING a_one));
    [apply (good_loading _ _ good_one)|apply (good_loading _ _ good_one)|calc].
Defined.

(** The thread is stopped at its [n]-th test. *)
Definition stop_after (n : nat) : nat → bool := λ k, (n <=? k)%nat.

Lemma stops_after n : stops_at (stop_after n) n.
Proof.
  unfold stops_at, stop_after. split; [|by apply Nat.leb_le].
  intros j Hj. by apply Nat.leb_gt.
Qed.

Lemma servable_one : servable a_one.
Proof.
  intros i x Hx. assert (Hc : x ∈ concat (waiting a_one)) by (apply elem_of_concat_row; eauto).
  vm_compute in Hc. apply list_elem_of_singleton in Hc as ->. right. cbn. discriminate.
Qed.

Lemma runElevator_serves_everyone_witness :
  wp (runElevator (stop_after 39) (λ _, (0, 0)) 39 0) (λ r w',
    r = 0 ∧ status (w_e w') = IDLE ∧
    (∀ i, (i < 10)%nat →
       list_empty (FW i) (links w') = true ∧ list_empty (EP i) (links w') = true) ∧
    heap w' = ∅ ∧ e_w_units (w_e w') = 0 ∧ e_p_units (w_e w') = 0 ∧
    (∀ i x, b_f (w_b w_one) !! i = Some x → ∃ x', b_f (w_b w') !! i = Some x' ∧
       serviced x' = serviced x +i (starters i (concat (waiting a_one)) +
                                    starters i (concat (onboard a_one))))) w_one.
Proof.
  apply (runElevator_serves_everyone ∅ w_one a_one (stop_after 39) 39 39);
    [apply good_one|apply good_one|calc|calc|apply servable_one|apply stops_after|].
  assert (workload a_one = 2%nat) as -> by calc. vm_compute. lia.
Defined.

Lemma runElevator_shutdown_witness :
  wp (runElevator (stop_after 1) (λ _, (0, 0)) 1 0) (λ r w', ∃ a',
    r = 0 ∧ rep ∅ w' a' ∧ waiting a' = waiting a_stopping ∧ concat (onboard a') = [] ∧
    e_p_units (w_e w') = 0 ∧
    status (w_e w') =
      (if bool_decide (concat (waiting a_stopping) = []) then IDLE else OFFLINE)) w_stopping.
Proof.
  apply (runElevator_shutdown ∅ w_stopping a_stopping (stop_after 1) 1 1);
    [apply good_stopping|apply good_stopping|calc|calc|apply stops_after|].
  assert (length (concat (onboard a_stopping)) = 0%nat) as -> by calc. vm_compute. lia.
Defined.

Lemma runElevator_starves_witness :
  wp (runElevator (stop_after 100) (λ _, (0, 0)) 100 0) (λ r w', ∃ a',
    rep ∅ w' a' ∧ row (waiting a') 0 = [(1%positive, Passenger 0 0 0)] ∧
    status (w_e w') ≠ IDLE) (run evs_same ready).
Proof.
  apply (runElevator_starves ∅ _ (a_run evs_same a_init) (stop_after 100) 100 100
    (1%positive, Passenger 0 0 0) []);
    [apply good_same|apply good_same|calc|calc|calc|calc|calc|calc|apply stops_after|lia].
Defined.

(** ** The report *)

(** The two states differ in the stop request, which is not shown. *)
Lemma printStats_faithful_witness :
  wp (printStats ENTRY_SIZE w_one) (λ len text,
    len = Z.of_nat (String.length text) ∧ (String.length text < ENTRY_SIZE)%nat ∧
    wp (printStats ENTRY_SIZE w_stopping) (λ _ text', text = text' →
      status (w_e w_one) = status (w_e w_stopping) ∧ current (w_e w_one) = current (w_e w_stopping) ∧
      next (w_e w_one) = next (w_e w_stopping) ∧
      e_p_units (w_e w_one) = e_p_units (w_e w_stopping) ∧
      e_w_units (w_e w_one) = e_w_units (w_e w_stopping) ∧
      (∀ i x x', b_f (w_b w_one) !! i = Some x → b_f (w_b w_stopping) !! i = Some x' →
         f_p_units x = f_p_units x' ∧ f_w_units x = f_w_units x' ∧ serviced x = serviced x')) "") "".
Proof.
  apply (printStats_faithful ∅ w_one a_one ∅ w_stopping a_stopping);
    [apply good_one|apply good_one|apply good_stopping|apply good_stopping|..].
  - vm_compute; repeat constructor; discriminate.
  - vm_compute; repeat constructor; discriminate.
Defined.

(** ** System calls *)

Lemma valid_1_3_7 : valid_request 1 3 7.
Proof. vm_compute; repeat split; discriminate. Qed.

Lemma accepts_1_3_7 : accepts a_start0 1 3 7.
Proof. split; [apply valid_1_3_7|vm_compute; reflexivity]. Qed.

Lemma issue_request_spec_witness :
  (∀ mem r, issue_request mem r 1 0 7 w_start = Done (1, w_start)) ∧
  (∀ l r, heap w_start !! l = None →
     wp (issue_request (Some l) r 1 3 7) (λ v w',
       let x := (l, passenger_of 1 3 7) in
       v = 0 ∧ heap w' !! l = Some (passenger_of 1 3 7) ∧
       (r = 0 → w_e w' = w_e w_start ∧ rep ∅ w' (a_add x a_start0) ∧ wf (a_add x a_start0) ∧
          last (row (waiting (a_add x a_start0)) (floor_ix 2)) = Some x) ∧
       (r ≠ 0 → rep (<[l := passenger_of 1 3 7]> ∅) w' a_start0 ∧
          bad_unlocks w' = S (bad_unlocks w_start))) w_start) ∧
  (∀ r, issue_request None r 1 3 7 w_start = Fault NullDeref).
Proof.
  split_and!.
  - apply (proj1 (issue_request_spec ∅ w_start a_start0 1 0 7 (proj1 good_start) (proj2 good_start))).
    unfold accepts, valid_request. lia.
  - apply (proj1 (proj2 (issue_request_spec ∅ w_start a_start0 1 3 7 (proj1 good_start)
      (proj2 good_start)))), accepts_1_3_7.
  - apply (proj2 (proj2 (issue_request_spec ∅ w_start a_start0 1 3 7 (proj1 good_start)
      (proj2 good_start)))), accepts_1_3_7.
Defined.

(** Registers with garbage in their upper halves. *)
Lemma entry_issue_request_registers_witness :
  ∃ m, entry_issue_request true (link_syscalls stubs_init) (Some 1%positive) 0
         [2 ^ 40 + 1; 3; 7 - 2 ^ 32] = Some m ∧
    wp m (λ r w', ∃ a', rep ∅ w' a' ∧ wf a' ∧
      (r, a') = a_issue (Some 1%positive) (wrap32 (2 ^ 40 + 1)) (wrap32 3) (wrap32 (7 - 2 ^ 32))
        a_start0) w_start ∧
    ∀ k0 k1 k2, entry_issue_request true (link_syscalls stubs_init) (Some 1%positive) 0
      [2 ^ 40 + 1 + k0 * 2 ^ 32; 3 + k1 * 2 ^ 32; 7 - 2 ^ 32 + k2 * 2 ^ 32] = Some m.
Proof.
  apply (entry_issue_request_registers ∅ w_start a_start0);
    [apply good_start|apply good_start|calc].
Defined.

Lemma syscall_wrapper_types_witness :
  ∃ args, SYSCALL_DEFINEx 2 [T_int; T_ushort] (λ args : list Z, @mret (M world) _ Z (zsum id args)) [2 ^ 33 + 5; -1] =
      Some (ret ← mret (zsum id args); mret (cast T_long ret)) ∧
    Forall2 in_type [T_int; T_ushort] args ∧
    (∀ i t z, [T_int; T_ushort] !! i = Some t → [2 ^ 33 + 5; -1] !! i = Some z →
       ∃ v k, args !! i = Some v ∧ v = z + k * modulus t ∧ (in_type t z → v = z)) ∧
    ∀ r, in_type T_long (cast T_long r).
Proof.
  apply (syscall_wrapper_types [T_int; T_ushort] (λ args : list Z, @mret (M world) _ Z (zsum id args)));
    [unfold SYSCALL_DEFINE_MAXARGS; cbn; lia|reflexivity].
Defined.

Lemma start_stop_spec_witness :
  wp (start_elevator 0) (λ v w',
    (0 ≠ 0 → v = 0 ∧ w' = count_bad_unlock ready) ∧
    (0 = 0 → a_status a_init ≠ OFFLINE → v = 1 ∧ rep ∅ w' a_init) ∧
    (0 = 0 → a_status a_init = OFFLINE → ∃ a', v = 0 ∧ rep ∅ w' a' ∧ wf a' ∧
       a_status a' = IDLE ∧ a_current a' = 0 ∧ a_next a' = 1 ∧ a_shutdown a' = 0 ∧
       a_direction a' = a_direction a_init ∧
       waiting a' = waiting a_init ∧ onboard a' = onboard a_init ∧
       served a' = served a_init)) ready ∧
  wp (stop_elevator 0) (λ v w',
    (0 ≠ 0 → v = 0 ∧ w' = count_bad_unlock ready) ∧
    (0 = 0 → a_shutdown a_init = 1 → v = 1 ∧ rep ∅ w' a_init) ∧
    (0 = 0 → a_shutdown a_init = 0 → v = 0 ∧ rep ∅ w' (with_shutdown 1 a_init))) ready.
Proof. apply (start_stop_spec ∅ ready a_init 0); apply good_ready. Defined.

Lemma start_keeps_direction_witness : wp (start_elevator 0) (λ r w',
  r = 0 ∧ current (w_e w') = 0 ∧ current (move (w_e w')) = 1 ∧
  status (move (w_e w')) = DOWN ∧ next (move (w_e w')) = 0) (run evs_down ready).
Proof.
  apply (start_keeps_direction ∅ _ (a_run evs_down a_init));
    [apply good_down|apply good_down|calc|calc].
Defined.

Lemma stop_when_empty_wedges_witness :
  let evs := [Issue (Some 1%positive) 0 1 1 2; Start 0; Iterate 0 0; Stop 0] in
  wp (run_events evs) (λ rs w', Forall2 wedged_answer evs rs ∧
    rep ∅ w' (a_run evs_wedged a_init)) (run evs_wedged ready).
Proof.
  apply (stop_when_empty_wedges ∅ _ (a_run evs_wedged a_init));
    [apply good_wedged|apply good_wedged|calc|calc|calc|calc].
Defined.

(** One passenger is added and delivered. *)
Definition tr_one : list (event * Z) :=
  [(Start 0, 0); (Issue (Some 1%positive) 0 1 1 2, 0); (Iterate 0 0, 0); (Iterate 0 0, 0)].

Lemma trace_one : trace ready tr_one (run tr_one.*1 ready).
Proof.
  assert (tr_one = zip tr_one.*1 (rets tr_one.*1 ready)) as E by (vm_compute; reflexivity).
  rewrite E at 1. apply (trace_run _ _ a_init); [apply good_ready|vm_compute; reflexivity].
Qed.

Lemma calm_execution_refines_witness : ∃ a',
  a_events tr_one.*1 a_init = (tr_one.*2, a') ∧ rep ∅ (run tr_one.*1 ready) a' ∧ wf a' ∧
  ∀ ev, calm ev (run tr_one.*1 ready) →
    ∃ r w'', run_event ev (run tr_one.*1 ready) = Done (r, w'').
Proof.
  apply (calm_execution_refines ∅ ready a_init);
    [apply good_ready|apply good_ready|apply trace_one].
Defined.

(** ** /proc/elevator *)

Definition p_one : proc world := Proc w_one None 0 ∅.

(** The lock call is interrupted twice. *)
Definition lock3 (k : nat) : Z := if (k =? 2)%nat then 0 else - EINTR.

Lemma cat_session_reads_report_witness :
  wp (cat_session (Some 1%positive) "junk" lock3 3 10)
    (λ text s', text = current_report p_one ∧
       data s' = Nat.iter 2 count_bad_unlock (data p_one) ∧
       buffers s' = buffers p_one) p_one.
Proof.
  apply (cat_session_reads_report ∅ p_one a_one) with (n := 2%nat);
    [apply good_one|apply good_one|reflexivity| |reflexivity|lia|lia].
  intros [|[|j]] Hj; [calc|calc|lia].
Defined.

Lemma elevator_open_no_memory_witness :
  elevator_open None "" (λ _, 0) 1 p_one = Fault NullDeref.
Proof. apply (elevator_open_no_memory p_one "" (λ _, 0) 1 0); [lia|reflexivity|lia]. Defined.

Lemma two_readers_double_free_witness :
  wp (elevator_open (Some 1%positive) "" (λ _, 0) 1 ;;
      elevator_open (Some 2%positive) "" (λ _, 0) 1 ;; elevator_release)
    (λ _ s', buffers s' !! 1%positive = Some (current_report p_one) ∧
             elevator_release s' = Fault DoubleFree) p_one.
Proof.
  apply (two_readers_double_free ∅ p_one a_one);
    [apply good_one|apply good_one|discriminate|reflexivity].
Defined.

Lemma elevator_read_ignores_size_witness :
  let s := Proc w_one (Some 1%positive) 1 {[1%positive := "State: Idle"]} in
  wp (elevator_read 4) (λ r s', r.2 = "State: Idle" ∧ r.1 = Z.of_nat (String.length r.2) ∧
    (4 < String.length r.2)%nat ∧ s' = set_read_p 0 s) s.
Proof.
  apply (elevator_read_ignores_size _ 1%positive "State: Idle" 4);
    [reflexivity|apply lookup_singleton_eq|discriminate|cbn; lia].
Defined.

(** ** Loading and unloading *)

Definition k_boot : kmod := KMod boot stubs_init (Fops None None None) false MutexRaw (Task false).
Definition k_loaded : kmod := after (elevator_init true (Task true)) k_boot.

Lemma elevator_init_spec_witness : wp (elevator_init true (ErrPtr (- ENOMEM))) (λ r k',
  (true = true → IS_ERR (ErrPtr (- ENOMEM)) = false →
     r = 0 ∧ rep (heap (k_world k_boot)) (k_world k') a_init ∧ wf a_init ∧
     k_stubs k' = link_syscalls (k_stubs k_boot) ∧ k_mutex k' = MutexReady ∧
     k_entry k' = true ∧ k_thread k' = ErrPtr (- ENOMEM)) ∧
  (true = false ∨ IS_ERR (ErrPtr (- ENOMEM)) = true →
     r = PTR_ERR (ErrPtr (- ENOMEM)) ∧ k_entry k' = false ∧
     ∀ w, every_syscall false (k_stubs k') w (Fault UseAfterFree))) k_boot.
Proof. apply (elevator_init_spec k_boot true (ErrPtr (- ENOMEM))); [reflexivity|by right]. Defined.

Lemma early_call_raw_mutex_witness :
  wp init_tables (λ _ k', call_start true k' = Fault Uninitialised) k_boot.
Proof. apply (early_call_raw_mutex k_boot); reflexivity. Defined.

(** ** Concurrency *)

(** The memory of the module with a started elevator and no open file. *)
Definition entry0 : proc world := Proc w_start None 0 ∅.

(** The thread, two callers and two readers; the first caller has taken the
    lock. *)
Definition σ0 : system :=
  System entry0 None {[0%nat := WantLock SLoad; 1%nat := WantLock SStop;
                       2%nat := Calling 1 3 7; 3%nat := Opening; 4%nat := Opening]}.
Definition σ1 : system := set_owner (Some 1%nat) (set_task 1 (Holding SStop) σ0).

Lemma fresh_σ0 : fresh_system σ0.
Proof.
  split; [done|]. intros i t. unfold σ0; cbn [s_tasks].
  rewrite !lookup_insert_Some, lookup_singleton_Some. intros H.
  repeat (destruct H as [[_ <-]|[_ H]]; [done|]). by destruct H as [_ <-].
Qed.

Lemma steps_σ1 : steps undisturbed σ0 [] σ1.
Proof.
  apply (steps_snoc undisturbed σ0 [] σ0 [] σ1); [apply steps_refl|].
  by apply step_lock.
Qed.

(** The same steps when signals may come. *)
Lemma steps_σ1_sig : steps (orderly true) σ0 [] σ1.
Proof.
  apply (steps_snoc (orderly true) σ0 [] σ0 [] σ1); [apply steps_refl|].
  by apply step_lock.
Qed.

Lemma concurrent_safety_witness :
  (∀ i j t t', s_tasks σ1 !! i = Some t → s_tasks σ1 !! j = Some t' →
     inside t → inside t' → i = j) ∧
  (∀ i f, task_faults undisturbed σ1 i f ↔
     f = BadUnlock ∧ ∃ c, s_tasks σ1 !! i = Some (Interrupted c)) ∧
  (false = false → ∀ i f, ¬ task_faults undisturbed σ1 i f) ∧
  ((∀ i t, s_tasks σ1 !! i = Some t → ¬ is_interrupted t) →
     ∀ i t, s_tasks σ1 !! i = Some t → ¬ ended t → ∃ l σ', step undisturbed σ1 l σ').
Proof.
  apply (concurrent_safety false σ0 ∅ a_start0 []);
    [apply fresh_σ0|apply good_start|apply good_start|apply steps_σ1].
Defined.

(** ** Executions with an interrupted call *)

(** One passenger waits; the thread, and two callers.  The first request is
    interrupted; the second one joins its queue between the two sections of the
    thread, which has taken the passenger on board. *)
Definition σ_rough : system :=
  System (Proc w_one None 0 ∅) None
    {[0%nat := WantLock SLoad; 1%nat := Calling 2 5 1; 2%nat := Calling 4 1 9]}.
Definition turns_rough : list pick :=
  [TPrepare 1 2; TPrepare 2 3; TEintr 1] ++ section_turns 0 ++ section_turns 2 ++ [TLock 0; TBody 0].
Definition played : list (effect * answer) * system := default ([], σ_rough) (play turns_rough σ_rough).

Lemma fresh_rough : fresh_system σ_rough.
Proof.
  split; [done|]. intros i t. unfold σ_rough; cbn [s_tasks].
  rewrite !lookup_insert_Some, lookup_singleton_Some. intros H.
  repeat (destruct H as [[_ <-]|[_ H]]; [done|]). by destruct H as [_ <-].
Qed.

Lemma steps_rough : steps (orderly true) σ_rough played.1 played.2.
Proof.
  apply (play_steps turns_rough). unfold played.
  destruct (play turns_rough σ_rough) as [[]|] eqn:E; [done|].
  assert (H : match play turns_rough σ_rough with Some _ => true | None => false end = true)
    by (vm_compute; reflexivity). by rewrite E in H.
Qed.

(** Three operations, and one passenger more. *)
Example rough_trace : played.1.*1 = [ELoad; EAdd (3%positive, passenger_of 4 1 9); EMove].
Proof. vm_compute. reflexivity. Qed.

Lemma concurrent_linearisable_witness : ∃ L' a',
  a_effects played.1.*1 a_one = (played.1.*2, a') ∧ rep L' (s_world played.2) a' ∧ wf a' ∧
  ((∀ i t, s_tasks played.2 !! i = Some t → carries t = None) → L' = ∅).
Proof.
  apply (concurrent_linearisable true σ_rough ∅ a_one);
    [apply fresh_rough|apply good_one|apply good_one|apply steps_rough].
Defined.

Lemma passengers_conserved_witness : ∃ L' a', rep L' (s_world played.2) a' ∧ wf a' ∧
  ∀ i f, b_f (w_b (s_world σ_rough)) !! i = Some f →
    ∃ f', b_f (w_b (s_world played.2)) !! i = Some f' ∧
    serviced f' = wrap32 (serviced f
      + (starters i (concat (waiting a_one)) + starters i (concat (onboard a_one))
         + Z.of_nat (length (arrivals i played.1)))
      - (starters i (concat (waiting a')) + starters i (concat (onboard a')))).
Proof.
  apply (passengers_conserved true σ_rough ∅ a_one);
    [apply fresh_rough|apply good_one|apply good_one|apply steps_rough].
Defined.

Lemma queues_keep_order_witness : ∃ L' a', rep L' (s_world played.2) a' ∧ wf a' ∧ ∀ i, ∃ gone,
  row (waiting a_one) i ++ arrivals i played.1 = gone ++ row (waiting a') i.
Proof.
  apply (queues_keep_order true σ_rough ∅ a_one);
    [apply fresh_rough|apply good_one|apply good_one|apply steps_rough].
Defined.

Lemma variables_typed_witness : world_typed ∅ (s_world played.2) ∧
  elevator_agrees (w_e (s_world played.2)) ∧ Forall floor_agrees (b_f (w_b (s_world played.2))).
Proof.
  apply (variables_typed true σ_rough ∅ a_one played.1);
    [apply fresh_rough|apply good_one|apply good_one|apply steps_rough].
Defined.

(** A single reader. *)
Definition σr : system := System entry0 None {[1%nat := Opening]}.

Lemma fresh_σr : fresh_system σr.
Proof.
  split; [done|]. intros i t. unfold σr; cbn [s_tasks]. by intros [_ <-]%lookup_singleton_Some.
Qed.

Lemma concurrent_reader_witness : ∃ n σ',
  steps undisturbed σr [(EPrint, Text n (a_report a_start0))] σ' ∧
  ∃ tr1 n' tr2, [(EPrint, Text n (a_report a_start0))] =
      tr1 ++ (EPrint, Text n' (a_report a_start0)) :: tr2 ∧
    a_report a_start0 = a_report (a_effects tr1.*1 a_start0).2 ∧
    n' = Z.of_nat (String.length (a_report a_start0)).
Proof.
  destruct (reader_path ∅ entry0 a_start0 1%positive) as (n & s' & Hs);
    [apply good_start|apply good_start|reflexivity|].
  exists n, (System s' None {[1%nat := Closed (a_report a_start0)]}). split; [exact Hs|].
  apply (concurrent_reader false σr ∅ a_start0 _ _ 1 _ fresh_σr (proj1 good_start) (proj2 good_start) Hs).
  apply lookup_singleton_eq.
Defined.

Lemma interrupted_unlocks_foreign_mutex_witness :
  ∃ σ2, step (orderly true) σ1 [] σ2 ∧ task_faults (orderly true) σ2 0 BadUnlock.
Proof.
  apply (interrupted_unlocks_foreign_mutex σ0 ∅ a_start0 [] σ1 0 SLoad);
    [apply fresh_σ0|apply good_start|apply good_start|apply steps_σ1_sig|reflexivity].
Defined.

Lemma stop_overtaken_by_request_witness :
  ∃ σ', steps undisturbed (System entry0 None {[1%nat := Calling 1 3 7; 2%nat := WantLock SStop]})
      [(EStop, Code 0); (EAdd (1%positive, passenger_of 1 3 7), Code 0)] σ' ∧
    s_tasks σ' = {[1%nat := Returned 0; 2%nat := Returned 0]} ∧
    ∃ L' a', rep L' (s_world σ') a' ∧ a_shutdown a' = 1 ∧
      last (row (waiting a') (floor_ix 2)) = Some (1%positive, passenger_of 1 3 7).
Proof.
  apply (stop_overtaken_by_request entry0 ∅ a_start0 1%positive 1 3 7);
    [apply good_start|apply good_start|calc|calc|apply valid_1_3_7].
Defined.

(** ** The thread under interruptions *)

(** Every lock call of iteration number 7 is interrupted. *)
Definition lock7 (k : nat) : locks := if bool_decide (k = 7%nat) then (- EINTR, - EINTR) else (0, 0).

Lemma runElevator_terminates_witness :
  wp (runElevator (stop_after 9) lock7 20 0) (λ r w', r = 0 ∧
    bad_unlocks w' = (bad_unlocks w_one + interrupted_calls (lock_results lock7 0 9))%nat ∧
    let a' := a_attempts (lock_results lock7 0 9) a_one in
    rep ∅ w' a' ∧ wf a' ∧ ∀ i, account i a' = account i a_one) w_one ∧
  runElevator (λ _, false) lock7 20 0 w_one = NoFuel.
Proof.
  split.
  - apply (proj1 (runElevator_terminates ∅ w_one a_one (stop_after 9) lock7 20
      (proj1 good_one) (proj2 good_one))); [apply stops_after|lia].
  - apply (proj2 (runElevator_terminates ∅ w_one a_one (λ _, false) lock7 20
      (proj1 good_one) (proj2 good_one))). reflexivity.
Defined.

(** Right after a start that follows a stop on the way down. *)
Lemma move_sweeps_witness : ∃ j, (j < 18)%nat ∧
  ∀ k, let e' := Nat.iter (S k) move (Elevator UP 0 0 0 0 0 0 0 1 0 0) in
    current e' = tour (j + k) ∧ next e' = tour (S (j + k)) ∧
    direction e' = (if tour_up (j + k) then 1 else 0) ∧
    status e' = (if tour_up (j + k) then UP else DOWN).
Proof.
  apply (move_sweeps (Elevator UP 0 0 0 0 0 0 0 1 0 0)). cbn. unfold position_ok. lia.
Defined.

(** ** The user programs *)

(** Somebody starts the elevator, producer asks for a ride from the third to the
    seventh floor, driver makes its requests, all while the thread runs: the call
    of producer is under way when the thread takes its first section, and reaches
    its own between the two sections of the thread. *)
Definition ps_user : list program :=
  [consumer ["./consumer.x"; "--start"]; driver ["./driver.x"];
   default (Exit (Outcome 0 "")) (producer ["./producer.x"] 2 6 [16; 4])].

(** A call of program [i] as task [j] that takes its lock at once, or is rejected. *)
Definition whole_call (i j : nat) (prep : list pick) (enters : bool) : list uturn :=
  UCall i j :: (URun <$> prep) ++ (if enters then URun <$> section_turns j else []) ++ [UReturn i].

Definition turns_user : list uturn :=
  whole_call 0 1 [] true ++
  [UCall 2 2; URun (TPrepare 2 20)] ++ (URun <$> section_turns 0) ++ (URun <$> section_turns 2) ++
  (URun <$> section_turns 0) ++ [UReturn 2] ++
  mjoin ((λ n, whole_call 1 (3 + n) [TPrepare (3 + n) (Pos.of_succ_nat n)] (4 <=? n)%nat) <$> seq 0 12).

Definition σ_user : system := System (Proc ready None 0 ∅) None {[0%nat := WantLock SLoad]}.
Definition session_user : list (effect * answer) * list deed * users :=
  default ([], [], Users σ_user []) (play_users turns_user (Users σ_user (InUser <$> ps_user))).

Lemma fresh_user : fresh_system σ_user.
Proof.
  split; [done|]. intros i t. unfold σ_user; cbn [s_tasks]. by intros [_ <-]%lookup_singleton_Some.
Qed.

Lemma user_session_played :
  session (orderly true) linked_stubs (Users σ_user (InUser <$> ps_user))
    session_user.1.1 session_user.1.2 session_user.2.
Proof.
  apply (play_users_session turns_user). unfold session_user.
  destruct (play_users turns_user _) as [[[]]|] eqn:E; [done|].
  assert (H : match play_users turns_user (Users σ_user (InUser <$> ps_user)) with
              Some _ => true | None => false end = true)
    by (vm_compute; reflexivity). by rewrite E in H.
Qed.

Lemma user_session_spec_witness :
  consumer_did ["./consumer.x"; "--start"] (own 0 session_user.1.2) (Outcome 0 (start_line 0)) ∧
  producer_did ["./producer.x"] (own 2 session_user.1.2) (Outcome 0 (issue_line 3 7 5 0)) ∧
  driver_did (a_shutdown a_init = 0 ∧ EStop ∉ session_user.1.1.*1) ["./driver.x"]
    (own 1 session_user.1.2) (Outcome 0 "").
Proof.
  destruct (user_session_spec true σ_user ∅ a_init ps_user session_user.1.1 session_user.1.2
    session_user.2 fresh_user (proj1 good_ready) (proj2 good_ready)) as (_ & _ & _ & _ & Hc & Hp & Hd).
  - constructor; [left; by eexists|]. constructor; [right; left; by eexists|].
    constructor; [|constructor]. right; right. exists ["./producer.x"], 2, 6, [16; 4].
    split; [repeat constructor; discriminate|reflexivity].
  - exact user_session_played.
  - split; [|split].
    + apply Hc; [reflexivity|vm_compute; reflexivity].
    + eapply (Hp 2%nat ["./producer.x"] 2 6 [16; 4]);
        [repeat constructor; discriminate|reflexivity|reflexivity|vm_compute; reflexivity].
    + apply Hd; [reflexivity|vm_compute; reflexivity].
Defined.
