(* ===== verification/WitnessSchedule.v ===== *)
(** * The theorems about concurrent executions over time, at concrete inputs *)

From S2P Require Import Decimal.
From S2P Require Import Prelude KThread KList KListModel ElevatorData ElevatorOps ElevatorSpec.
From S2P Require Import ElevatorRefine RunElevator Liveness ProcEntry Syscalls Fairness.
From S2P Require Import Lifecycle Concurrency LockInvariant Interleavings Rides Schedule.
From S2P Require Import ConcurrentLife UnloadRace Scenario Witness.

(** The thread alone, with the memory [w]. *)
Definition alone (w : world) : system :=
  System (Proc w None 0 ∅) None {[0%nat := WantLock SLoad]}.

Lemma fresh_alone w : fresh_system (alone w).
Proof.
  split; [done|]. intros i t. unfold alone; cbn [s_tasks]. by intros [_ <-]%lookup_singleton_Some.
Qed.

Lemma one_alone w : one_thread (alone w).
Proof.
  intros i j t t'. unfold alone; cbn [s_tasks].
  by intros [<- _]%lookup_singleton_Some [<- _]%lookup_singleton_Some.
Qed.

(** It can take any number of turns. *)
Lemma alone_turns w a n :
  good w a → ∃ tr σ', steps undisturbed (alone w) tr σ' ∧
    tr.*1 = concat (replicate n [ELoad; EMove]) ∧ s_tasks σ' = s_tasks (alone w).
Proof.
  intros [R W].
  destruct (turns_possible (sig := false) n ∅ [] (alone w) ∅ a 0) as (tr & σ' & H & E & _ & Et);
    [by apply sys_fresh; [apply fresh_alone|..]|done|apply lookup_singleton_eq|].
  by exists tr, σ'.
Qed.

Lemma loads_turns n : loads (concat (replicate n [ELoad; EMove])) = n.
Proof. induction n as [|n IH]; [done|]. cbn. by f_equal. Qed.

Lemma riders_aboard : concat (onboard a_aboard) = [(1%positive, p_up)].
Proof. vm_compute. reflexivity. Qed.

Lemma headed_aboard : headed a_aboard.
Proof.
  intros i x Hx Hne. assert (Hc : x ∈ concat (onboard a_aboard)) by (apply elem_of_concat_row; eauto).
  rewrite riders_aboard in Hc. apply list_elem_of_singleton in Hc as ->. vm_compute. reflexivity.
Qed.

Lemma concurrent_rides_witness : ∃ tr2 σ', steps undisturbed (alone w_aboard) ([] ++ tr2) σ' ∧
  loads tr2.*1 = 2%nat ∧
  ∃ r L' b', (r ≤ reach_bound)%nat ∧
    (s_floor p_up ≠ d_floor p_up → Z.of_nat r = Z.abs (d_floor p_up - a_current a_aboard)) ∧
    a_effects tr2.*1 a_aboard = (tr2.*2, b') ∧ rep L' (s_world σ') b' ∧
    ((loads tr2.*1 ≤ r)%nat → (1%positive, p_up) ∈ concat (onboard b')) ∧
    (loads tr2.*1 = S r → (1%positive, p_up) ∉ concat (onboard b')).
Proof.
  destruct (alone_turns w_aboard a_aboard 2 good_aboard) as (tr & σ' & H & E & _).
  exists tr, σ'. split; [exact H|]. split; [by rewrite E, loads_turns|].
  apply (concurrent_rides (alone w_aboard) ∅ a_aboard [] tr σ' (1%positive, p_up)
    (fresh_alone _) (one_alone _) (proj1 good_aboard) (proj2 good_aboard) headed_aboard H eq_refl).
  change (after_effects [].*1 a_aboard) with a_aboard. rewrite riders_aboard. left.
Defined.

Lemma quiet_turns n : Forall quiet (concat (replicate n [ELoad; EMove])).
Proof. induction n as [|n IH]; [constructor|]. cbn. by repeat constructor. Qed.

Lemma concurrent_serves_witness : ∃ tr2 σ', steps undisturbed (alone w_one) ([] ++ tr2) σ' ∧
  ∃ L' b', rep L' (s_world σ') b' ∧ concat (waiting b') = [] ∧ concat (onboard b') = [] ∧
    heap (s_world σ') = L' ∧
    ((∀ i t, s_tasks σ' !! i = Some t → carries t = None) → L' = ∅) ∧
    ∀ i s, served a_one !! i = Some s →
      served b' !! i = Some (s +i (starters i (concat (waiting a_one)) +
                                   starters i (concat (onboard a_one)))).
Proof.
  destruct (alone_turns w_one a_one 39 good_one) as (tr & σ' & H & E & _).
  exists tr, σ'. split; [exact H|].
  apply (concurrent_serves (alone w_one) ∅ a_one [] tr σ'
    (fresh_alone _) (one_alone _) (proj1 good_one) (proj2 good_one) H eq_refl).
  - change (after_effects [].*1 a_one) with a_one. split; [calc|calc].
  - apply servable_one.
  - rewrite E. apply quiet_turns.
  - rewrite E, loads_turns. change (after_effects [].*1 a_one) with a_one.
    assert (workload a_one = 2%nat) as -> by (vm_compute; reflexivity).
    unfold drain_bound, reach_bound. lia.
Defined.

(** A module that was just loaded, unloaded while a call holds the mutex. *)
Lemma concurrent_load_run_unload_witness : ∃ k1 tr σ',
  elevator_init true (Task true) k_boot = Done (0, k1) ∧
  let s := Proc (k_world k1) None 0 ∅ in
  steps undisturbed (System s None {[0%nat := WantLock SStart]}) tr σ' ∧
  wp elevator_exit (λ _ k', heap (k_world k_boot) ⊆ heap (k_world k') ∧
    (∀ l, is_Some (heap (k_world k') !! l) ↔
       is_Some (heap (k_world k_boot) !! l) ∨
       ∃ i t, s_tasks σ' !! i = Some t ∧ carries t = Some l) ∧
    ((∀ i t, s_tasks σ' !! i = Some t → ended t) →
       heap (k_world k') = heap (k_world k_boot) ∧ buffers (s_entry σ') = buffers s) ∧
    ∀ loaded w, every_syscall loaded (k_stubs k') w (Done (- ENOSYS, w)))
    (set_world (s_world σ') k1).
Proof.
  destruct (load_succeeds k_boot eq_refl) as (k1 & E & _).
  set (s := Proc (k_world k1) None 0 ∅). set (tasks := {[0%nat := WantLock SStart]} : gmap nat task).
  assert (F : fresh_system (System s None tasks)).
  { split; [done|]. intros i t. unfold tasks; cbn [s_tasks].
    by intros [_ <-]%lookup_singleton_Some. }
  assert (H : steps undisturbed (System s None tasks) [] (System s (Some 0%nat) (<[0%nat := Holding SStart]> tasks))).
  { apply (steps_snoc undisturbed _ [] (System s None tasks) []); [apply steps_refl|].
    by apply (step_lock undisturbed (System s None tasks) 0 SStart). }
  exists k1, [], (System s (Some 0%nat) (<[0%nat := Holding SStart]> tasks)).
  split; [exact E|]. split; [exact H|].
  exact (concurrent_load_run_unload false k_boot 0 k1 s tasks [] _ eq_refl E eq_refl F H).
Defined.

(** After the first rush, a thousand more. *)
Lemma left_behind_reached : left_behind 1 (a_run evs_behind a_init).
Proof. vm_compute. reflexivity. Qed.

Lemma rush_starves_witness : ∃ tr w' a',
  trace (run evs_behind ready) tr w' ∧ tr.*1 = concat (replicate 1000 (rush 2 3 4)) ∧
  Forall (λ r, r = 0) tr.*2 ∧ rep ∅ w' a' ∧ wf a' ∧
  waiting a' = <[5%nat := [bellhop 1]]> (replicate 10 []) ∧ concat (onboard a') = [].
Proof.
  apply (rush_starves ∅ (run evs_behind ready) (a_run evs_behind a_init) 1 2 3 4 1000);
    [|done|done|done|apply good_behind|apply good_behind|apply left_behind_reached].
  apply (bool_decide_eq_true_1 (NoDup [1; 2; 3; 4]%positive)). reflexivity.
Defined.

(** ** Unloading *)

(** A module that was just loaded. *)
Definition m_loaded : machine :=
  Machine (System (Proc (k_world k_loaded) None 0 ∅) None {[0%nat := WantLock SLoad]})
    k_loaded Loaded ∅.

Lemma linked_loaded c : linked c (k_stubs k_loaded) = true.
Proof.
  destruct (load_succeeds k_boot eq_refl) as (k1 & E & _ & Est & _).
  unfold k_loaded, after. rewrite E, Est. apply linked_link.
Qed.

Lemma just_loaded_m : just_loaded m_loaded.
Proof. split_and!; try done. exact linked_loaded. Qed.

Lemma good_loaded : good (s_world (m_sys m_loaded)) a_init.
Proof.
  destruct (load_succeeds k_boot eq_refl) as (k1 & E & R & _). split; [|apply wf_init].
  cbn [m_sys m_loaded s_world s_entry data]. unfold k_loaded, after. by rewrite E.
Qed.

(** One call has tested its pointer, another one is in the module, at its lock
    call. *)
Definition m_called : machine :=
  set_call 2 (AtCall CStart) (set_call 2 (AtTest CStart)
    (set_call 1 (AtCall CStop) (set_call 1 (AtTest CStop) m_loaded))).
Definition m_busy : machine :=
  set_call 2 InModule (set_sys (set_task 2 (enter CStart) (m_sys m_called)) m_called).

Lemma called_reached calm : rtc (mstep undisturbed calm) m_loaded m_called.
Proof.
  eapply rtc_l; [by apply (m_arrive undisturbed calm m_loaded 1 CStop)|].
  eapply rtc_l; [apply (test_linked undisturbed calm _ 1 CStop); [done|apply linked_loaded]|].
  eapply rtc_l; [by apply (m_arrive undisturbed calm _ 2 CStart)|].
  apply rtc_once. apply (test_linked undisturbed calm _ 2 CStart); [done|apply linked_loaded].
Qed.

Lemma busy_reached calm : rtc (mstep undisturbed calm) m_loaded m_busy.
Proof.
  etrans; [apply called_reached|]. apply rtc_once.
  exact (m_call undisturbed calm m_called 2 CStart eq_refl (linked_loaded _) ltac:(done)).
Qed.

Lemma stopped_reached : ∃ m, rtc (mstep undisturbed false) m_loaded m ∧ m_stage m = ThreadStopped ∧
  m_calls m = m_calls m_busy.
Proof.
  destruct (minv_reach false false ∅ _ _ (minv_loaded ∅ a_init _ just_loaded_m (proj1 good_loaded)
    (proj2 good_loaded) false) (busy_reached false)) as [_ ((tr & L & a & I) & _)].
  destruct (thread_ends false _ _ _ _ _ 0 I eq_refl eq_refl) as (tr' & σ' & Hs & Ht).
  assert (Hst : m_stage m_busy ≠ Discarded) by done.
  exists (set_module (set_thread (Task false) (module_of (set_sys σ' m_busy))) ThreadStopped
    (set_sys σ' m_busy)). split_and!; [|done|done].
  etrans; [apply busy_reached|]. etrans; [by eapply (run_steps undisturbed false m_busy)|].
  apply rtc_once. apply (m_exit_thread undisturbed false (set_sys σ' m_busy) 0); [done| |done].
  cbn [m_sys set_sys]. rewrite Ht. apply lookup_insert_eq.
Qed.

Lemma quiescent_unload_safe_witness :
  (∀ i f, goes_wrong undisturbed m_busy i f →
     f = BadUnlock ∧ ∃ c, s_tasks (m_sys m_busy) !! i = Some (Interrupted c)) ∧
  (false = false → ∀ i f, ¬ goes_wrong undisturbed m_busy i f) ∧ ¬ unload_wrong m_busy ∧
  (m_stage m_busy ≠ Loaded → m_stage m_busy ≠ ThreadStopped →
     quiescent m_busy ∧ ∀ c, linked c (k_stubs (m_mod m_busy)) = false) ∧
  (m_stage m_busy = ThreadStopped → quiescent m_busy →
     ∃ m', rtc (mstep undisturbed true) m_busy m' ∧ m_stage m' = Discarded) ∧
  (m_stage m_busy = Discarded → heap (s_world (m_sys m_busy)) = ∅).
Proof.
  exact (quiescent_unload_safe false m_loaded ∅ a_init m_busy just_loaded_m (proj1 good_loaded)
    (proj2 good_loaded) (busy_reached true)).
Defined.

Lemma unload_races_witness : ∃ m, rtc (mstep undisturbed false) m_loaded m ∧
  (∀ c, m_calls m !! 1%nat = Some (AtCall c) →
     ∃ m', rtc (mstep undisturbed false) m m' ∧ goes_wrong undisturbed m' 1 NullDeref) ∧
  (m_calls m !! 1%nat = Some InModule →
     ∃ m', rtc (mstep undisturbed false) m m' ∧ goes_wrong undisturbed m' 1 UseAfterFree) ∧
  m_calls m !! 1%nat = Some (AtCall CStop).
Proof.
  destruct stopped_reached as (m & Hm & Hst & Hc). exists m. split; [exact Hm|].
  destruct (unload_races false m_loaded ∅ a_init m 1 just_loaded_m (proj1 good_loaded)
    (proj2 good_loaded) Hm Hst) as [H1 H2].
  split; [exact H1|]. split; [exact H2|]. by rewrite Hc.
Defined.
