(* ===== verification/WitnessModules.v ===== *)
(** * The theorems about the other modules at concrete inputs

    The clock module with the kernel's [timespec_sub] as linux/time.h computes
    it, the examples from their loading to their unloading, and the header with
    the type names of a 64-bit kernel. *)

From S2P Require Import Decimal.
From S2P Require Import Prelude KThread KList KListModel ProcEntry.
From S2P Require Xtime Animals Examples ThreadModules ThreadLife TestCallUser.
From S2P Require SyscallAbi Prototypes UserProgs SyscallTable.
From S2P Require Import Scenario.

Module Clock.
Import Xtime.

(** A [timespec_sub] with the documented behaviour. *)
Definition sub (a b : timespec) : timespec :=
  let s := tv_sec a - tv_sec b in
  let n := tv_nsec a - tv_nsec b in
  if decide (n < 0) then Timespec (s - 1) (n + NSEC_PER_SEC) else Timespec s n.

Lemma sub_subtracts : subtracts sub.
Proof.
  intros a b [Ha Ha'] [Hb Hb'] Ha0 Hb0. unfold sub, normal, nanoseconds, NSEC_PER_SEC in *.
  case_decide; cbn [tv_sec tv_nsec]; split; lia.
Qed.

Definition t1 : timespec := Timespec 1000 900000000.
Definition t2 : timespec := Timespec 1003 50000000.
Definition loaded : proc xtime := Proc (Xtime t1 t1 7) (Some 5%positive) 1 ∅.
Definition readers : list reading := [Reading 1 "junk" t1 t1; Reading 2 "" t2 t2].

Lemma xtime_life_spec_witness :
  wp (xtime_life sub readers) (λ texts s',
    shows None (r_now <$> readers) texts ∧
    (∀ ts, Forall clock_time ts → shows None ts texts → ts = r_now <$> readers) ∧
    Forall (λ txt, String.length txt < ENTRY_SIZE)%nat texts ∧
    buffers s' = buffers loaded) loaded.
Proof.
  apply (xtime_life_spec sub loaded readers); [apply sub_subtracts|].
  repeat constructor; vm_compute; (reflexivity || discriminate).
Defined.

(** What they see: 2.15 seconds passed.  The nanoseconds are shown without
    leading zeros. *)
Example texts_shown :
  match xtime_life sub readers loaded with Done (texts, _) => texts | _ => [] end =
    ["current time: 1000.900000000" +:+ nl;
     "current time: 1003.50000000" +:+ nl +:+ "elapsed time: 2.150000000" +:+ nl].
Proof. vm_compute. reflexivity. Qed.
End Clock.

Module Zoo.
Import Animals.

Definition boot : zoo := Zoo (Links ∅ ∅) ∅ 0 0 0.
Definition ready : zoo := after (animal_init true) boot.

Lemma ok_ready : zoo_ok ready [].
Proof. by destruct (after_wp _ _ _ (animal_init_ok boot eq_refl)) as (r & _ & O). Qed.

Definition boot_entry : proc zoo := Proc boot None 0 ∅.

(** A dog, a visitor without memory for the temporary buffer, one without any
    memory, and a hamster. *)
Definition visits : list visit :=
  [Visit (Some 1%positive) "" 5 (Some 1%positive) (Some 2%positive);
   Visit (Some 3%positive) "" 1 (Some 2%positive) None;
   Visit None "" 0 None None;
   Visit (Some 1%positive) "" 0 (Some 7%positive) (Some 2%positive)].

Lemma animal_life_spec_witness :
  wp (animal_life visits) (λ xs s', xs = answers visits [] ∧
    a_heap (data s') = ∅ ∧ ring (a_links (data s')) HD [] ∧
    dom (buffers s') = dom (buffers boot_entry) ∪ all_leaked visits) boot_entry.
Proof.
  apply (animal_life_spec boot_entry visits); [reflexivity|].
  cbn [visits fresh_visits]. unfold fresh_visit, boot_entry; cbn [v_message v_buf v_animal buffers].
  split_and!; try done; naive_solver set_solver.
Defined.

(** What they see: the cat was added though its visitor got an error. *)
Example answers_seen :
  (answers visits []).*1 = [0; - ENOMEM; - ENOMEM; 0] ∧
  last (answers visits []) = Some (0,
    "Total count is: 3" +:+ nl +:+ "Total length is: 48" +:+ nl +:+ "Total weight is: 1361" +:+ nl +:+
    "Animals seen:" +:+ nl +:+ "dog cat hamster " +:+ nl).
Proof. by vm_compute. Qed.
End Zoo.

Module Threads.
Import Examples ThreadModules ThreadLife ThreadLife.Loading ThreadLife.Life.

Lemma thread_life_spec_witness :
  wp (thread_init_of Locked true (Task true)) (λ r m,
    r = PTR_ERR (Task true) ∧ files m = files unloaded ∧ entry m = bool_decide (r = 0) ∧
    (r = 0 → thread_id m = next_id unloaded ∧ next_id m = next_id unloaded +i 1 ∧
     ∀ tr σ, steps Locked true (loaded m) tr σ →
       told Locked (next_id unloaded) tr ∧
       (visitor σ = VAway →
          dom (buffers (files (memory σ))) = dom (buffers (files unloaded)) ∪ leaks Locked tr) ∧
       (∀ r, wrong Locked σ r → Locked = Locked ∧
         ((r = Fault BadUnlock ∧ true = true ∧
           ((thread σ = TUnlock ∧ own σ ≠ Thread) ∨
            (visitor σ = VUnlock false ∧ ∃ l, message (files (memory σ)) = Some l ∧
               buffers (files (memory σ)) !! l = Some (Report.title (next_id unloaded) +:+
                 Report.lines (replicate Counters.CNT_SIZE (-1)))))) ∨
          (r = Fault NullDeref ∧ ∃ pre l k, visit_of tr pre None (Some l) k))) ∧
       (thread σ = TEnded → visitor σ = VAway → own σ = Nobody ∧
        wp (thread_exit_of Locked) (λ _ m', kthread m' = Task false ∧ entry m' = false ∧
          next_id m' = next_id unloaded +i 1 ∧ files m' = files (memory σ) ∧
          (Locked = Locked → mutex m' = MutexDestroyed)) (memory σ)))) unloaded.
Proof.
  apply (thread_life_spec Locked true true (Task true) unloaded).
  - discriminate.
  - reflexivity.
  - vm_compute. split; discriminate.
Defined.

(** 06 after the load. *)
Definition race_loaded : state := after (thread_init_of Race true (Task true)) unloaded.

Lemma race_tears_reports_witness :
  ∃ σ, steps Race false (Sys race_loaded TTest VAway Nobody)
    [Opened (Some 1%positive) (Some 2%positive); Turned;
     Answered (0, Report.text (thread_id race_loaded) (counted 0 :: replicate 19 (counted 1)))] σ.
Proof.
  apply (race_tears_reports 0 race_loaded 1 2).
  - vm_compute. split; discriminate.
  - vm_compute. reflexivity.
  - intros b. split; [intros [= <-]; split; [|discriminate]|intros [= <-]];
      change (files race_loaded) with (files unloaded); apply not_elem_of_empty.
Defined.
End Threads.

Module User.
Import Examples TestCallUser TestCallUser.Main.

Lemma test_call_main_spec_witness :
  let strerror := λ n : Z, "error" in
  let plain stub := test_kernel stub NR_TEST_CALL_user 5 in
  let wrapped stub := wrapped_kernel stub NR_TEST_CALL 5 in
  let loaded := (TestCall.hello_init None).1 in
  let loaded' := (Wrapped.hello_init None).1 in
  let code := if bool_decide (-4095 ≤ -7) then - -7 else 0 in
  let sending := "sending this: " +:+ pretty (-7) +:+ nl in
  (0 ≤ -7 →
     main_user strerror (plain loaded) ["main"; pretty (-7)] =
       Some (Outcome 0 (success_line (-7) (-7)) "") ∧
     main strerror (wrapped loaded') ["main"; pretty (-7)] =
       Some (Outcome 0 (sending +:+ success_line (-7) (-7) +:+
                        "Returned value: " +:+ pretty (-7) +:+ nl) "")) ∧
  (-7 < 0 →
     main_user strerror (plain loaded) ["main"; pretty (-7)] =
       Some (Outcome 0 "" (perror strerror code)) ∧
     ∃ txt, main strerror (wrapped loaded') ["main"; pretty (-7)] =
       Some (Outcome 0 (sending +:+ txt) (perror strerror code))) ∧
  main_user strerror (plain (TestCall.hello_exit loaded)) ["main"; pretty (-7)] =
    Some (Outcome 0 "" (perror strerror ENOSYS)) ∧
  main strerror (wrapped (Wrapped.hello_exit loaded')) ["main"; pretty (-7)] =
    Some (Outcome 0 (sending +:+ "Returned value: -1" +:+ nl) (perror strerror ENOSYS)).
Proof.
  apply (test_call_main_spec (λ n : Z, "error") "main" (-7) 5).
  unfold is_int, INT_MIN, INT_MAX. lia.
Defined.
End User.

Module Calls.
Import SyscallAbi Prototypes UserProgs SyscallTable.

(** No option is set. *)
Definition plain : config := Config false (λ _, false).
Definition types64 (name : string) : ctype :=
  if decide (name ∈ ["loff_t"; "u64"]) then T_llong
  else if decide (name ∈ ["size_t"; "aio_context_t"; "off_t"]) then T_ulong
  else if decide (name ∈ ["umode_t"; "old_uid_t"; "old_gid_t"]) then T_ushort
  else T_int.

(** [issue_request] with its wrapper, and the header of a plain kernel. *)
Lemma installed_calls_spec_witness :
  NoDup (declares plain header).*1 ∧
  (∃ f, function_of "__x64_sys_execve/ptregs" = Some f ∧
     (f ∈ arch_entries ∨ f ∈ (declares plain header).*1)) ∧
  ∃ ts, mapM (representation types64) [Int; Int; Int] = Some ts ∧
    ∀ W (do_sys : list Z → M W Z) regs, length regs = length ts →
      ∃ args, SYSCALL_DEFINEx (length ts) ts do_sys regs =
          Some (ret ← do_sys args; mret (cast T_long ret)) ∧ Forall2 in_type ts args.
Proof.
  destruct (installed_calls_spec plain types64) as (_ & _ & _ & Hmine & _ & Hnd & Hrows & Hwrap).
  split; [apply Hnd; reflexivity|]. split.
  - apply (Hrows eq_refl (Row 59 Only64 "execve" (Some "__x64_sys_execve/ptregs"))); [|done|done].
    apply (list_elem_of_lookup_2 _ 59). reflexivity.
  - apply (Hwrap ("sys_issue_request", [Int; Int; Int])), Hmine. right. left.
Defined.
End Calls.
